(* ===== verification/_CoqProject ===== *)
-Q . S2P
Prelude.v
Prog.v
Mutex.v
GoStrings.v
GoTime.v
RateLimiter.v
SharedLimiter.v
Zms.v
Util.v
Effects.v
Cr.v
Heap.v
HeapOps.v
Caches.v
Cron.v
Controller.v
Cluster.v
Convergence.v
Termination.v
Shutdown.v
System.v
Queue.v
GoPath.v
GoFloat.v
GoDuration.v
GoFlag.v
FileWatcher.v
Crypto.v
Identity.v
Reloader.v
SharedReloader.v
Log.v
Rest.v
Clientset.v
Informers.v
FakeClient.v
Client.v
Main.v
Settings.v
Start.v
