(* ===== verification/Prelude.v ===== *)
(** * k8s-athenz-syncer: a verification development

    The syncer keeps one AthenzDomain custom resource (CR) per Athenz domain
    that belongs to a namespace of the cluster, up to date with ZMS, the
    server of Athenz.  Informers watch namespaces and CRs and put domain
    names on a rate-limited queue; an update cron polls ZMS for changed
    domains and a resync cron re-adds everything, both onto the same queue; a
    single worker takes names off it and brings the CR of each in line with
    ZMS.  The ZMS client authenticates with a certificate that is reloaded
    from files, or with tokens that are minted from a private key.

    ** How the code is modelled

    - Pure code is a function over the records of [Zms] (the zms package's
      data as far as it is read, the rest abstract with decidable equality).
      A Go pointer is an [option], a slice distinguishes nil from empty,
      [int64] and durations are [Z] with wrap-around and saturation written
      out, strings are byte strings.
    - Code that calls the outside (ZMS, Kubernetes, the informer caches, the
      queue, files, clocks) is a [prog] of [Prog]: a tree of calls, each
      continuing on whatever it answers, so that a theorem about its
      executions ([exec p t o]: the calls with their answers and the outcome)
      holds for every behaviour of the environment.  A Go panic is an
      outcome.  The calls of one component form its signature ([K8sE] in
      [Effects], [WatchE], [FsE], [IdE], [ReloadE], [LogE], [RestE], [ConfE],
      [InfE], [FakeE], [SchemeE], [MainE]).  Where one component's calls are
      another's code, [interp] puts the code in place of the call, and
      [exec_interp] takes an execution of the whole apart again ([StartE],
      [ClientE], and the sections under a lock of [Mutex]).
    - The data is modelled twice.  As values, which is enough for what the
      code computes, and, for the operations that assign through pointers
      to objects other parts hold too, as objects on a heap with their
      aliasing ([Heap]); the second is proved to do what the first says, with
      the objects it may write to named.
    - Hypotheses about the environment are stated on the trace: [agrees C]
      (the answers of the informer caches are those of the snapshot [C]),
      [cluster_run] (what the API server does with writes), [limiter_run]
      (the rate limiter's count), [run_shared] (files and shared fields),
      [clock_ok].  None of them restricts what other goroutines do between
      two calls, except where a theorem says "while the caches are [C]".
    - Endless loops are step relations whose steps run the loop's body, and
      goroutines that run together take turns in calls.

    ** Files

    - [Prelude], [Prog]: integers, pointers, tactics; programs with calls.
    - [GoStrings], [GoTime], [GoPath], [GoFloat], [GoDuration], [GoFlag]: the
      parts of Go's strings, time, path/filepath and flag packages and of its
      float64 the code uses.
    - [RateLimiter]: pkg/ratelimiter.  State: failures per item, the instant
      of the last release, the interval.  Spacing and bursts of releases,
      the meaning of the failure count.
    - [Zms]: data, and pkg/apis/athenz/v1.
    - [Util]: pkg/util.  Round trips between domains and namespaces and
      exactly where they fail; system and admin domains; the MSD filter.
    - [Effects], [Caches]: the calls of the controller side and a snapshot of
      the informer caches with the trust index.
    - [Cr]: pkg/cr.  [CreateUpdateAthenzDomain] against its contract
      [Upsert], [updateCR] up to signatures ([content_eq]), removal, initial
      etag, trust index.
    - [Cron]: pkg/cron.  One poll, the etags of all polls, one resync,
      validation, the contact time.
    - [Heap], [HeapOps]: the same data as objects that share parts, typing
      and framing of heaps; the MSD filter of pkg/util, [updateCR] and
      [CreateUpdateAthenzDomain] of pkg/cr and the generated deep copies of
      pkg/apis/athenz/v1 on it.  Each refines its counterpart on values;
      storing a CR writes neither to the cached CR nor to the data of ZMS it
      shares, the filter only to the domain it is given and the policy
      contents below it, and deep copies are separate.
    - [Controller]: pkg/controller.  [sync] against its specification
      ([removed], [reacted] entry by entry of the answer, [stored]), what it
      may do under any answers ([sync_call]), the worker's round, the
      informers' handlers, the start.
    - [Cluster]: what a synchronisation achieves in the cluster: it converges
      to ZMS's data and is idempotent.
    - [Convergence]: a resync and the worker together, round by round
      ([config], [round]), with retries, give-ups and additions from outside:
      once the queue is worked off, the cluster has what ZMS has ([settled],
      [repaired]) but for what was given up, and after two resyncs also for
      the domains delegated to.
    - [Termination]: that the queue does get worked off.  The rounds decrease
      a well-founded measure, as long as failures and the additions of
      handlers and crons are finitely many, and after a resync every path
      reaches that cluster.
    - [Shutdown]: [Run] of pkg/controller to its end, with wait.Until and the
      queue by their documentation: when it can return and when it cannot.
    - [System]: worker, crons and handlers interleaved, with restarts of the
      process at any time; the invariant of the cluster.
    - [Queue]: the interface [RetryLimiter] between worker and rate limiter,
      implemented by [RateLimiter]; bounds on retries.
    - [Mutex]: objects guarded by a [sync.Mutex] or [sync.RWMutex], with
      goroutines that take turns in single accesses ([Machine], [step]): each
      section is as good as one step ([locked_atomic]), and nobody waits for
      ever ([locked_runs]).  [SharedLimiter] and [SharedReloader] apply it to
      pkg/ratelimiter and pkg/reloader, whose functions and calls are then
      what goroutines see of the fields.
    - [FileWatcher], [Reloader], [Crypto], [Identity]: the packages of these
      names: dispatch of file events, reloading of the certificate by
      several goroutines, choice and encoding of the private key, lifetime
      of the tokens and the loop that renews them.
    - [Log]: pkg/log: the logger that is built on every path, and what the
      exported functions do with it.
    - [Rest], [Clientset]: the typed client and the clientset of pkg/client.
      A method is the request it builds ([Request]); writing through it has
      the effects [Cluster] gives to the calls of [Effects]; the clientset's
      constructors on every path.
    - [Client]: [AthenzDomainInterface] as a class with the typed and the fake
      client as its instances, what the syncer relies on ([AthenzDomainStore]),
      and the controller side with its writes carried out by a client.
    - [Informers]: the informer factory of pkg/client, any history of calls
      of it ([history]), the CR informer and the lister, the accessors that
      lead from the factory to them.
    - [FakeClient]: the fake clientset of pkg/client with its reactions to
      calls and to watches, and the registration of the kinds by the fake and
      the scheme packages when they are loaded.
    - [Main]: main.go from the arguments of the process on: the flags and
      the two times they are parsed, the lists, the durations and the order
      of the start.  The constructors of the other packages are calls here.
    - [Settings]: the parameters of the README, from the arguments of the
      process to the calls of [Main] their values are for, and their defaults.
    - [Start]: [Main] with those calls carried out by [Log], [Clientset],
      [Identity] with [Crypto], and [Reloader]: the order of the start, the
      clients the controller gets, the token or the certificate the ZMS client
      authenticates with, the end after a signal.

    Sections named [*Example] hold concrete values on which the theorems with
    hypotheses are applied.

    ** Bounds

    Recursion is structural over a list, a string or a program, except in two
    loops of Go's library: the flags ([parse_loop], fuel: the number of
    arguments and one) and the terms of a duration ([parse_terms], fuel: the
    length of the text).  Every round uses up an argument or a byte, and the
    fuel is proved to be enough ([parse_loop_fuel], [parse_terms_fuel]).
    Counts of the rate limiter are 64-bit; the theorems that add to them ask
    that they do not overflow, which takes 2^63 additions.  Instants are
    unbounded integers of nanoseconds, which Go's [time.Time] covers for any
    date here.  The grace period of a token goes through float64, which is
    computed exactly as rounding to 53 bits.  The failures and outside
    additions still to come are a number [n] of the configurations of
    [Convergence], and the theorems hold for every [n].

    ** What is not modelled

    The log lines other packages write (their executions make no log calls)
    and the texts formatted into errors beyond the format and the cause;
    logrus, lumberjack, client-go and apimachinery, which are calls or
    parameters with their documented laws; the texts klog's flags take (any
    set of them is allowed), usage messages; TLS beyond its configuration; the
    back-off schedule of the retry library (any number of retries is allowed);
    the queue itself beyond its calls, the limiter's count and, in [Shutdown],
    what its documentation says of [Get] after a shutdown; the mutexes of
    [Token], which one goroutine calls at a time, and of the informer factory,
    whose methods are single critical sections (its waiting apart, which
    changes nothing); the metadata of a CR as objects of its own, which no
    code here assigns through; the test fixtures of pkg/test and test/e2e. *)
From stdpp Require Import base numbers list strings gmap.
#[global] Open Scope Z_scope.

(** ** Go machine integers *)

(** Go's [int] (on the 64-bit targets the syncer is built for), [int64] and
    [time.Duration] are signed 64-bit integers. *)
Definition min_int64 : Z := - 2 ^ 63.
Definition max_int64 : Z := 2 ^ 63 - 1.

(** Two's complement wrap-around of an arithmetic result. *)
Definition wrap64 (z : Z) : Z := (z + 2 ^ 63) `mod` 2 ^ 64 - 2 ^ 63.

(** Saturation, as in [time.Time.Sub]. *)
Definition clamp64 (z : Z) : Z := Z.max min_int64 (Z.min max_int64 z).

Definition in_int64 (z : Z) : Prop := min_int64 <= z <= max_int64.

Lemma wrap64_id z : in_int64 z -> wrap64 z = z.
Proof.
  unfold in_int64, wrap64, min_int64, max_int64. intros H.
  rewrite Z.mod_small; lia.
Qed.

Lemma wrap64_range z : in_int64 (wrap64 z).
Proof.
  unfold in_int64, wrap64, min_int64, max_int64.
  pose proof (Z.mod_pos_bound (z + 2 ^ 63) (2 ^ 64)). lia.
Qed.

Lemma clamp64_id z : in_int64 z -> clamp64 z = z.
Proof. unfold in_int64, clamp64. lia. Qed.

Lemma clamp64_range z : in_int64 (clamp64 z).
Proof. unfold in_int64, clamp64, min_int64, max_int64. lia. Qed.

Lemma clamp64_nonneg z : 0 <= z -> 0 <= clamp64 z.
Proof. unfold clamp64, min_int64, max_int64. lia. Qed.

Create HintDb syncer.
Create Rewrite HintDb syncer.
#[export] Hint Resolve wrap64_range clamp64_range clamp64_nonneg : syncer.
#[export] Hint Rewrite wrap64_id clamp64_id using (solve [eauto with syncer | lia]) : syncer.

(** ** Go pointers and slices

    A pointer is [None] for [nil]; a slice is [None] for the nil slice, which
    [reflect.DeepEqual] tells apart from an empty one. *)
Abbreviation ptr := option.
Abbreviation slice A := (option (list A)).

(** The elements a [range] over the slice visits. *)
Definition elems {A} (s : slice A) : list A := default [] s.

(** What [append] builds when it starts from the nil slice: it stays nil when
    nothing is appended. *)
Definition slice_of {A} (l : list A) : slice A :=
  match l with [] => None | _ => Some l end.

Lemma elems_slice_of {A} (l : list A) : elems (slice_of l) = l.
Proof. by destruct l. Qed.

#[export] Hint Rewrite @elems_slice_of : syncer.

Lemma filter_filter_id {A} (f : A -> bool) (l : list A) :
  List.filter f (List.filter f l) = List.filter f l.
Proof.
  induction l as [|x l IH]; simpl; [done|]. destruct (f x) eqn:Hx; [|done].
  simpl. by rewrite Hx, IH.
Qed.

Lemma filter_ext_in {A} (P Q : A -> Prop) `{!forall x, Decision (P x), !forall x, Decision (Q x)}
    (l : list A) :
  (forall x, x ∈ l -> P x <-> Q x) -> filter P l = filter Q l.
Proof.
  induction l as [|x l IH]; intros Hpq; [done|]. rewrite !filter_cons, IH.
  - destruct (Hpq x) as [H1 H2]; [by left|].
    destruct (decide (P x)), (decide (Q x)); tauto || done.
  - intros y Hy. apply Hpq. by right.
Qed.

Lemma filter_all {A} (P : A -> Prop) `{!forall x, Decision (P x)} (l : list A) :
  (forall x, x ∈ l -> P x) -> filter P l = l.
Proof.
  induction l as [|x l IH]; intros Hp; [done|].
  rewrite filter_cons, decide_True by (apply Hp; by left).
  f_equal. apply IH. intros y Hy. apply Hp. by right.
Qed.

(** ** Tactics *)

(** Split every conjunction and existential of the context. *)
Ltac destruct_hyps :=
  repeat match goal with
  | H : _ /\ _ |- _ => destruct H
  | H : exists _, _ |- _ => destruct H
  | H : (_ * _)%type |- _ => destruct H
  end.

(** Case analysis on the scrutinee of some [match] or [if] of the goal. *)
Ltac break_goal :=
  match goal with
  | |- context [match ?x with _ => _ end] => destruct x eqn:?
  end.
