(* ===== verification/Prog.v ===== *)
(** * Programs with effects

    The handlers of the syncer call code that is not in the repository: the
    ZMS client, the Kubernetes clients, the informer caches, the work queue,
    the file system.  Each such call is an event of a signature [E]; a handler
    is a finite tree of calls, [prog E A], that continues with whatever the
    call returns.  A theorem about all executions of the tree therefore holds
    whatever the environment answers and however other goroutines change it
    between two calls.  A Go panic is an outcome of its own. *)
From stdpp Require Import base list strings.
From S2P Require Import Prelude.

Inductive outcome (A : Type) : Type :=
| Done (a : A)
| Panicked (why : string).
Arguments Done {A} a.
Arguments Panicked {A} why.

Inductive prog (E : Set -> Type) (A : Type) : Type :=
| PRet (a : A)
| PPanic (why : string)
| PVis (X : Set) (e : E X) (k : X -> prog E A).
Arguments PRet {E A} a.
Arguments PPanic {E A} why.
Arguments PVis {E A X} e k.

(** An event together with the answer it got. *)
Inductive ev (E : Set -> Type) : Type :=
| Ev (X : Set) (e : E X) (x : X).
Arguments Ev {E X} e x.

Section prog.
Context {E : Set -> Type}.

Fixpoint pbind {A B} (f : A -> prog E B) (p : prog E A) : prog E B :=
  match p with
  | PRet a => f a
  | PPanic w => PPanic w
  | PVis e k => PVis e (fun x => pbind f (k x))
  end.

#[global] Instance prog_ret : MRet (prog E) := fun A a => PRet a.
#[global] Instance prog_bind : MBind (prog E) := fun A B f p => pbind f p.

Definition trigger {X : Set} (e : E X) : prog E X := PVis e PRet.

(** Go's run-time panic on a field or method of a nil pointer. *)
Definition nil_deref : string := "invalid memory address or nil pointer dereference".
Definition deref {A} (p : ptr A) : prog E A :=
  match p with Some a => PRet a | None => PPanic nil_deref end.

(** [defer d]: [d] runs when the body returns and when it panics. *)
Fixpoint deferred {A} (d : prog E unit) (p : prog E A) : prog E A :=
  match p with
  | PRet a => pbind (fun _ => PRet a) d
  | PPanic w => pbind (fun _ => PPanic w) d
  | PVis e k => PVis e (fun x => deferred d (k x))
  end.

(** [for _, a := range l { body a }], with [continue] as the body's normal
    end. *)
Fixpoint for_each {A} (body : A -> prog E unit) (l : list A) : prog E unit :=
  match l with
  | [] => PRet tt
  | a :: l' => pbind (fun _ => for_each body l') (body a)
  end.

(** The same loop with an early [return r]: [Some r] leaves the loop. *)
Fixpoint for_each_ret {A R} (body : A -> prog E (option R)) (l : list A)
  : prog E (option R) :=
  match l with
  | [] => PRet None
  | a :: l' =>
      pbind (fun o => match o with
                      | Some r => PRet (Some r)
                      | None => for_each_ret body l'
                      end) (body a)
  end.

(** [for i := range l { l[i] = body l[i] }] *)
Fixpoint map_each {A B} (body : A -> prog E B) (l : list A) : prog E (list B) :=
  match l with
  | [] => PRet []
  | a :: l' => pbind (fun b => pbind (fun bs => PRet (b :: bs)) (map_each body l')) (body a)
  end.
End prog.

(** Equations of the bind. *)
Section equations.
Context {E : Set -> Type} {A B : Type} (f : A -> prog E B).

Lemma ret_bind a : (PRet a ≫= f) = f a.
Proof. reflexivity. Qed.
Lemma mret_bind a : (mret a ≫= f) = f a.
Proof. reflexivity. Qed.
Lemma panic_bind w : (PPanic w ≫= f) = PPanic w.
Proof. reflexivity. Qed.
Lemma vis_bind (X : Set) (e : E X) k : (PVis e k ≫= f) = PVis e (fun x => k x ≫= f).
Proof. reflexivity. Qed.
Lemma trigger_bind {X : Set} (g : X -> prog E B) (e : E X) : (trigger e ≫= g) = PVis e g.
Proof. reflexivity. Qed.
Lemma mret_ret (a : A) : mret (M := prog E) a = PRet a.
Proof. reflexivity. Qed.
End equations.
#[export] Hint Rewrite @ret_bind @mret_bind @panic_bind @trigger_bind : syncer.

(** Run the silent steps of a program. *)
Ltac prog_simpl :=
  cbn [deref negb andb];
  repeat (first [ rewrite ret_bind | rewrite mret_bind | rewrite panic_bind
                | rewrite trigger_bind | rewrite vis_bind ]; cbn [deref negb andb]).

(** ** Executions *)
Section exec.
Context {E : Set -> Type}.

(** [exec p t o]: [p] can make exactly the calls of [t], getting the answers
    recorded there, and end with [o]. *)
Fixpoint exec {A} (p : prog E A) (t : list (ev E)) (o : outcome A) : Prop :=
  match p with
  | PRet a => t = [] /\ o = Done a
  | PPanic w => t = [] /\ o = Panicked w
  | PVis e k => exists x t', t = Ev e x :: t' /\ exec (k x) t' o
  end.

(** Every call [p] can make, with any answer, satisfies [P]. *)
Fixpoint safe {A} (P : ev E -> Prop) (p : prog E A) : Prop :=
  match p with
  | PRet _ | PPanic _ => True
  | PVis e k => forall x, P (Ev e x) /\ safe P (k x)
  end.

(** [p] cannot panic, whatever the answers. *)
Fixpoint no_panic {A} (p : prog E A) : Prop :=
  match p with
  | PRet _ => True
  | PPanic _ => False
  | PVis e k => forall x, no_panic (k x)
  end.

Lemma exec_pbind {A B} (f : A -> prog E B) p t o :
  exec (pbind f p) t o <->
  (exists t1 t2 a, t = t1 ++ t2 /\ exec p t1 (Done a) /\ exec (f a) t2 o) \/
  (exists w, exec p t (Panicked w) /\ o = Panicked w).
Proof.
  revert t. induction p as [a|w|X e k IH]; intros t; simpl; split.
  - intros H. left. by exists [], t, a.
  - intros [(t1 & t2 & b & -> & [-> Hb] & H)|(w & [_ ?] & _)]; by simplify_eq.
  - intros [-> ->]. right. by exists w.
  - intros [(t1 & t2 & b & _ & [_ ?] & _)|(w' & [-> Hw] & ->)]; by simplify_eq.
  - intros (x & t' & -> & [(t1 & t2 & a & -> & H1 & H2)|(w & H1 & ->)]%IH).
    + left. exists (Ev e x :: t1), t2, a. split; [done|]. split; [by exists x, t1 | done].
    + right. exists w. split; [by exists x, t' | done].
  - intros [(t1 & t2 & a & -> & (x & t' & -> & H1) & H2)|(w & (x & t' & -> & H1) & ->)];
      exists x; eexists; (split; [by simpl |]); apply IH.
    + left. by exists t', t2, a.
    + right. by exists w.
Qed.

Lemma exec_bind {A B} (f : A -> prog E B) (p : prog E A) t o :
  exec (p ≫= f) t o <->
  (exists t1 t2 a, t = t1 ++ t2 /\ exec p t1 (Done a) /\ exec (f a) t2 o) \/
  (exists w, exec p t (Panicked w) /\ o = Panicked w).
Proof. apply exec_pbind. Qed.

(** The common case: the first part returned. *)
Lemma exec_bind_done {A B} (f : A -> prog E B) (p : prog E A) t1 t2 a o :
  exec p t1 (Done a) -> exec (f a) t2 o -> exec (p ≫= f) (t1 ++ t2) o.
Proof. intros H1 H2. apply exec_bind. left. eauto 10. Qed.

Lemma exec_trigger {X : Set} (e : E X) t o :
  exec (trigger e) t o <-> exists x, t = [Ev e x] /\ o = Done x.
Proof. simpl. split; [intros (x & t' & -> & -> & ->) | intros (x & -> & ->)]; eauto 10. Qed.

(** A loop that ends made, for each element, the calls of a complete run of
    the body. *)
Lemma exec_for_each {A} (body : A -> prog E unit) l t :
  exec (for_each body l) t (Done tt) <->
  exists ts, t = concat ts /\ Forall2 (fun a ta => exec (body a) ta (Done tt)) l ts.
Proof.
  revert t. induction l as [|a l IH]; intros t; simpl.
  - split.
    + intros [-> _]. exists []. split; [done | constructor].
    + intros (ts & -> & H). by inversion H.
  - rewrite exec_pbind. split.
    + intros [(t1 & t2 & [] & -> & H1 & (ts & -> & H2)%IH)|(w & _ & [=])].
      exists (t1 :: ts). split; [done | by constructor].
    + intros (ts & -> & H). inversion H as [|? t1 ? ts' H1 H2]; subst.
      left. exists t1, (concat ts'), tt. split; [done|]. split; [done|]. apply IH. eauto.
Qed.

(** A loop that panics does so in the body of one element, after complete runs
    for the ones before it. *)
Lemma exec_for_each_panic {A} (body : A -> prog E unit) l t w :
  exec (for_each body l) t (Panicked w) ->
  exists l1 a l2 ts ta, l = l1 ++ a :: l2 /\ t = concat ts ++ ta /\
    Forall2 (fun a ta => exec (body a) ta (Done tt)) l1 ts /\ exec (body a) ta (Panicked w).
Proof.
  revert t. induction l as [|a l IH]; intros t; simpl; [by intros [_ ?]|].
  rewrite exec_pbind. intros [(t1 & t2 & [] & -> & H1 & H2)|(w' & H1 & [= ->])].
  - apply IH in H2 as (l1 & b & l2 & ts & ta & -> & -> & H3 & H4).
    exists (a :: l1), b, l2, (t1 :: ts), ta. simpl. rewrite <- app_assoc.
    split_and!; [done|done|by constructor|done].
  - exists [], a, l, [], t. split_and!; [done|done|constructor|done].
Qed.

Lemma safe_pbind {A B} P (f : A -> prog E B) p :
  safe P p -> (forall a, safe P (f a)) -> safe P (pbind f p).
Proof.
  induction p as [a|w|X e k IH]; simpl; intros Hp Hf; [done..|].
  intros x. destruct (Hp x). auto.
Qed.

Lemma safe_bind {A B} P (f : A -> prog E B) (p : prog E A) :
  safe P p -> (forall a, safe P (f a)) -> safe P (p ≫= f).
Proof. apply safe_pbind. Qed.

Lemma safe_for_each {A} P (body : A -> prog E unit) l :
  (forall a, a ∈ l -> safe P (body a)) -> safe P (for_each body l).
Proof.
  induction l as [|a l IH]; simpl; intros H; [done|].
  apply safe_pbind; [apply H; by left|]. intros _. apply IH. intros b Hb. apply H. by right.
Qed.

Lemma safe_for_each_ret {A R} P (body : A -> prog E (option R)) l :
  (forall a, a ∈ l -> safe P (body a)) -> safe P (for_each_ret body l).
Proof.
  induction l as [|a l IH]; simpl; intros H; [done|].
  apply safe_pbind; [apply H; by left|]. intros [r|]; [done|].
  apply IH. intros b Hb. apply H. by right.
Qed.

Lemma safe_map_each {A B} P (body : A -> prog E B) l :
  (forall a, safe P (body a)) -> safe P (map_each body l).
Proof.
  intros H. induction l as [|a l IH]; simpl; [done|].
  apply safe_pbind; [done|]. intros b. by apply safe_pbind.
Qed.

Lemma safe_deferred {A} P d (p : prog E A) :
  safe P d -> safe P p -> safe P (deferred d p).
Proof.
  intros Hd. induction p as [a|w|X e k IH]; simpl; intros Hp.
  - by apply safe_pbind.
  - by apply safe_pbind.
  - intros x. destruct (Hp x). auto.
Qed.

(** Safety is a statement about every execution. *)
Lemma safe_exec {A} P (p : prog E A) t o :
  safe P p -> exec p t o -> Forall P t.
Proof.
  revert t. induction p as [a|w|X e k IH]; simpl; intros t Hs.
  - by intros [-> _].
  - by intros [-> _].
  - intros (x & t' & -> & H). destruct (Hs x). constructor; eauto.
Qed.

Lemma safe_impl {A} (P Q : ev E -> Prop) (p : prog E A) :
  (forall e, P e -> Q e) -> safe P p -> safe Q p.
Proof.
  intros HPQ. induction p as [a|w|X e k IH]; simpl; intros Hs; [done..|].
  intros x. destruct (Hs x). auto.
Qed.

Lemma no_panic_pbind {A B} (f : A -> prog E B) p :
  no_panic p -> (forall a, no_panic (f a)) -> no_panic (pbind f p).
Proof. induction p; simpl; intros; auto. Qed.

Lemma no_panic_bind {A B} (f : A -> prog E B) (p : prog E A) :
  no_panic p -> (forall a, no_panic (f a)) -> no_panic (p ≫= f).
Proof. apply no_panic_pbind. Qed.

Lemma no_panic_for_each {A} (body : A -> prog E unit) l :
  (forall a, a ∈ l -> no_panic (body a)) -> no_panic (for_each body l).
Proof.
  induction l as [|a l IH]; simpl; intros H; [done|].
  apply no_panic_pbind; [apply H; by left|]. intros _. apply IH. intros b Hb. apply H. by right.
Qed.

Lemma no_panic_exec {A} (p : prog E A) t o :
  no_panic p -> exec p t o -> exists a, o = Done a.
Proof.
  revert t. induction p as [a|w|X e k IH]; simpl; intros t Hn.
  - intros [_ ->]. eauto.
  - done.
  - intros (x & t' & -> & H). eauto.
Qed.

(** An execution of the deferred call follows the body's. *)
Lemma exec_deferred {A} (d : prog E unit) (p : prog E A) t o :
  exec (deferred d p) t o <->
  (exists t1 t2 o1, t = t1 ++ t2 /\ exec p t1 o1 /\
     ((exec d t2 (Done tt) /\ o = o1) \/
      (exists w, exec d t2 (Panicked w) /\ o = Panicked w))).
Proof.
  revert t. induction p as [a|w|X e k IH]; intros t; simpl.
  - rewrite exec_pbind. split.
    + intros [(t1 & t2 & [] & -> & H & -> & ->)|(w & H & ->)].
      * exists [], t1, (Done a). rewrite app_nil_r. eauto 10.
      * exists [], t, (Done a). eauto 10.
    + intros (t1 & t2 & o1 & -> & [-> ->] & [[H ->]|(w & H & ->)]).
      * left. exists t2, [], tt. by rewrite app_nil_r.
      * right. eauto.
  - rewrite exec_pbind. split.
    + intros [(t1 & t2 & [] & -> & H & -> & ->)|(w' & H & ->)].
      * exists [], t1, (Panicked w). rewrite app_nil_r. eauto 10.
      * exists [], t, (Panicked w). eauto 10.
    + intros (t1 & t2 & o1 & -> & [-> ->] & [[H ->]|(w' & H & ->)]).
      * left. exists t2, [], tt. by rewrite app_nil_r.
      * right. eauto.
  - split.
    + intros (x & t' & -> & (t1 & t2 & o1 & -> & H1 & H2)%IH).
      exists (Ev e x :: t1), t2, o1. eauto 10.
    + intros (t1 & t2 & o1 & -> & (x & t' & -> & H1) & H2).
      exists x, (t' ++ t2). split; [done|]. apply IH. eauto 10.
Qed.
End exec.

(** ** Single calls

    [call p e p']: [p] makes the call of [e], gets its answer, and [p'] is
    left to do.  Goroutines that run at the same time take turns in calls. *)
Inductive call {E A} : prog E A -> ev E -> prog E A -> Prop :=
| call_vis (X : Set) (e : E X) (k : X -> prog E A) (x : X) : call (PVis e k) (Ev e x) (k x).

Lemma call_safe {E A} P (p : prog E A) e p' : call p e p' -> safe P p -> P e /\ safe P p'.
Proof. destruct 1 as [X e k x]. simpl. auto. Qed.

(** ** Running against a handler

    A handler answers each call from a state of its own; [run] gives the
    outcome, the final state and the calls made. *)
Section run.
Context {E : Set -> Type} {S : Type} (h : forall X : Set, E X -> S -> X * S).

Fixpoint run {A} (p : prog E A) (s : S) : outcome A * S * list (ev E) :=
  match p with
  | PRet a => (Done a, s, [])
  | PPanic w => (Panicked w, s, [])
  | PVis e k =>
      let '(x, s') := h _ e s in
      let '(o, s'', t) := run (k x) s' in
      (o, s'', Ev e x :: t)
  end.

(** What [run] computes is an execution. *)
Lemma run_exec {A} (p : prog E A) s o s' t :
  run p s = (o, s', t) -> exec p t o.
Proof.
  revert s o s' t. induction p as [a|w|X e k IH]; simpl; intros s o s' t H.
  - by simplify_eq.
  - by simplify_eq.
  - destruct (h X e s) as [x s1] eqn:Hh. destruct (run (k x) s1) as [[o1 s2] t1] eqn:Hr.
    simplify_eq. eauto.
Qed.

Lemma run_pbind {A B} (f : A -> prog E B) p s :
  run (pbind f p) s =
  match run p s with
  | (Done a, s1, t1) => let '(o, s2, t2) := run (f a) s1 in (o, s2, t1 ++ t2)
  | (Panicked w, s1, t1) => (Panicked w, s1, t1)
  end.
Proof.
  revert s. induction p as [a|w|X e k IH]; simpl; intros s.
  - by destruct (run (f a) s) as [[??]?].
  - done.
  - destruct (h X e s) as [x s1]. rewrite IH.
    destruct (run (k x) s1) as [[[a|w] s2] t1]; [|done].
    by destruct (run (f a) s2) as [[??]?].
Qed.

Lemma run_bind {A B} (f : A -> prog E B) (p : prog E A) s :
  run (p ≫= f) s =
  match run p s with
  | (Done a, s1, t1) => let '(o, s2, t2) := run (f a) s1 in (o, s2, t1 ++ t2)
  | (Panicked w, s1, t1) => (Panicked w, s1, t1)
  end.
Proof. apply run_pbind. Qed.
End run.

(** Equations of [exec]. *)
Section exec_equations.
Context {E : Set -> Type} {A : Type}.
Lemma exec_ret (a : A) t o : exec (E := E) (PRet a) t o <-> t = [] /\ o = Done a.
Proof. reflexivity. Qed.
Lemma exec_mret (a : A) t o : exec (E := E) (mret a) t o <-> t = [] /\ o = Done a.
Proof. reflexivity. Qed.
Lemma exec_panic w t o : exec (E := E) (A := A) (PPanic w) t o <-> t = [] /\ o = Panicked w.
Proof. reflexivity. Qed.
Lemma exec_vis (X : Set) (e : E X) (k : X -> prog E A) t o :
  exec (PVis e k) t o <-> exists x t', t = Ev e x :: t' /\ exec (k x) t' o.
Proof. reflexivity. Qed.
End exec_equations.

(** Read an execution [H] as far as its program is known: each call gives its
    answer and the rest of the trace, a return or panic ends it. *)
Ltac prog_simpl_in H :=
  cbn [deref negb andb] in H;
  repeat (first [ rewrite ret_bind in H | rewrite mret_bind in H | rewrite panic_bind in H
                | rewrite trigger_bind in H | rewrite vis_bind in H ]; cbn [deref negb andb] in H).

(** The execution ends here. *)
Ltac exec_end H :=
  prog_simpl_in H;
  first
    [ rewrite exec_ret in H | rewrite exec_mret in H | rewrite exec_panic in H ];
  first
    [ destruct H as [-> ->] | destruct H as [_ ->]
    | let Ht := fresh "Ht" in let Ho := fresh "Ho" in destruct H as [Ht Ho]; simplify_eq ].

(** The next call, its answer [x], and the rest [t] of the trace. *)
Tactic Notation "exec_call" hyp(H) "as" simple_intropattern(x) ident(t) :=
  prog_simpl_in H; rewrite exec_vis in H;
  destruct H as (x & t & -> & H); prog_simpl_in H.

(** The last call, whose answer is returned. *)
Tactic Notation "exec_last" hyp(H) "as" simple_intropattern(x) :=
  prog_simpl_in H; rewrite exec_trigger in H; destruct H as (x & -> & ->).

(** Show that a program makes the calls of a given trace. *)
Ltac exec_build :=
  repeat (prog_simpl;
    first
      [ rewrite exec_vis; eexists _, _; split; [reflexivity|]
      | rewrite exec_trigger; eexists; split; reflexivity
      | rewrite exec_mret; split; reflexivity
      | rewrite exec_ret; split; reflexivity
      | rewrite exec_panic; split; reflexivity ]).

#[export] Hint Resolve safe_bind safe_for_each safe_for_each_ret safe_map_each safe_deferred : syncer.
#[export] Hint Resolve no_panic_bind no_panic_for_each : syncer.

(** Discharge a [safe] or [no_panic] goal by the structure of the program; the
    leaves are left to [solve_leaf]. *)
Ltac prog_struct :=
  repeat first
    [ progress intros
    | progress simpl
    | apply safe_bind | apply safe_pbind
    | apply safe_for_each | apply safe_for_each_ret | apply safe_map_each
    | apply no_panic_bind | apply no_panic_pbind | apply no_panic_for_each
    | match goal with
      | |- _ /\ _ => split
      | |- safe _ (match ?x with _ => _ end) => destruct x eqn:?
      | |- no_panic (match ?x with _ => _ end) => destruct x eqn:?
      | |- True => exact I
      end ].

(** ** Composition

    [interp h p]: the calls of [p] are carried out by the programs [h], over
    the calls of another signature. *)
Section interp.
Context {E F : Set -> Type} (h : forall X : Set, E X -> prog F X).

Fixpoint interp {A} (p : prog E A) : prog F A :=
  match p with
  | PRet a => PRet a
  | PPanic w => PPanic w
  | PVis e k => pbind (fun x => interp (k x)) (h _ e)
  end.

(** [t] are the calls by which the call of [e] got its answer. *)
Definition carried (e : ev E) (t : list (ev F)) : Prop :=
  match e with Ev e x => exec (h _ e) t (Done x) end.

(** An execution that returns is one of [p] whose calls were carried out one
    after the other. *)
Lemma exec_interp {A} (p : prog E A) t (a : A) :
  exec (interp p) t (Done a) <->
  exists te ts, exec p te (Done a) /\ t = concat ts /\ Forall2 carried te ts.
Proof.
  revert t. induction p as [b|w|X e k IH]; intros t; simpl.
  - split.
    + intros [-> [= ->]]. exists [], []. by split_and!.
    + intros (te & ts & [-> [= ->]] & -> & Hts). by inversion Hts.
  - split; [by intros [_ [=]]|]. by intros (te & ts & [_ [=]] & _).
  - rewrite exec_pbind. split.
    + intros [(t1 & t2 & x & -> & H1 & (te & ts & Hp & -> & Hts)%IH)|(w & _ & [=])].
      exists (Ev e x :: te), (t1 :: ts). split_and!; [eauto|done|by constructor].
    + intros (te & ts & (x & te' & -> & Hp) & -> & Hts).
      inversion Hts as [|? t1 ? ts' H1 H2]; subst. left.
      exists t1, (concat ts'), x. split_and!; [done|exact H1|]. apply IH. eauto.
Qed.

(** And so is every execution, if the calls are carried out without panics. *)
Lemma exec_interp_no_panic {A} (p : prog E A) t o :
  (forall X (e : E X), no_panic (h X e)) -> exec (interp p) t o ->
  exists te ts, exec p te o /\ t = concat ts /\ Forall2 carried te ts.
Proof.
  intros Hn. revert t. induction p as [b|w|X e k IH]; intros t; simpl.
  - intros [-> ->]. exists [], []. by split_and!.
  - intros [-> ->]. exists [], []. by split_and!.
  - rewrite exec_pbind. intros [(t1 & t2 & x & -> & H1 & (te & ts & Hp & -> & Hts)%IH)|(w & Hw & ->)].
    + exists (Ev e x :: te), (t1 :: ts). split_and!; [eauto|done|by constructor].
    + by apply (no_panic_exec _ _ _ (Hn X e)) in Hw as [? [=]].
Qed.
End interp.

(** The calls of [E] as calls of a larger signature. *)
Section lift.
Context {E F : Set -> Type} (inj : forall X : Set, E X -> F X).

Definition lift {A} (p : prog E A) : prog F A := interp (fun X e => trigger (inj X e)) p.
Definition lift_ev (e : ev E) : ev F := match e with Ev e x => Ev (inj _ e) x end.

Lemma exec_lift {A} (p : prog E A) t (a : A) :
  exec (lift p) t (Done a) <-> exists te, exec p te (Done a) /\ t = map lift_ev te.
Proof.
  unfold lift. rewrite exec_interp. split.
  - intros (te & ts & Hp & -> & Hts). exists te. split; [done|]. clear Hp.
    induction Hts as [|[X e x] t1 te ts H1 _ IH]; [done|]. simpl.
    apply exec_trigger in H1 as (y & -> & [= <-]). simpl. by rewrite IH.
  - intros (te & Hp & ->). exists te, (map (fun e => [lift_ev e]) te). split_and!; [done|..].
    + clear Hp. induction te as [|e te IH]; [done|]. simpl. by rewrite IH.
    + clear Hp. induction te as [|[X e x] te IH]; simpl; constructor; [|done].
      apply exec_trigger. eauto.
Qed.
End lift.
