(* ===== verification/Mutex.v ===== *)
(** * Methods under a lock

    Several packages guard an object with a [sync.Mutex] or a [sync.RWMutex]:
    they lock it, work on its fields, and unlock it.  Here goroutines do so at
    the same time, and take turns in every single access.  What comes out is
    what would come out if each such section ran in one step
    ([locked_atomic]), and nobody waits for ever on the lock ([locked_runs]).
    A writer that waits for an [RWMutex] keeps new readers out, in Go; here it
    need not, which allows more interleavings. *)
From stdpp Require Import base list gmap relations.
From S2P Require Import Prelude Prog.

(** How a section takes the lock. *)
Inductive Mode := Exclusive | Sharing.

(** What a call of a goroutine is: a section under the lock, with its accesses
    to the object, or one call that does not concern the object. *)
Inductive Sect (E F : Set -> Type) (X : Set) :=
| Guarded (mode : Mode) (body : prog E X)
| Unguarded (e : F X).
Arguments Guarded {E F X} mode body.
Arguments Unguarded {E F X} e.

(** No calls. *)
Inductive NoE : Set -> Type := .
Definition no_effect {R : Type} (X : Set) (e : NoE X) (r : R) (x : X) (r' : R) : Prop := False.

Section mutex.
(** The accesses, and what they do to the object (and to anything else they
    reach under the lock); the other calls, and what they do to the rest. *)
Context {E F : Set -> Type} {O R : Type}.
Variables (sem : forall X : Set, E X -> O -> X -> O -> Prop)
  (env : forall X : Set, F X -> R -> X -> R -> Prop).
Context {M : Set -> Type}.
Variable (sect : forall X : Set, M X -> Sect E F X).

Inductive LockE : Set -> Type :=
| Lock : LockE unit
| Unlock : LockE unit
| RLock : LockE unit
| RUnlock : LockE unit
| Access (X : Set) (e : E X) : LockE X
| Other (X : Set) (e : F X) : LockE X.

Definition acquire (mode : Mode) : LockE unit :=
  match mode with Exclusive => Lock | Sharing => RLock end.
Definition release (mode : Mode) : LockE unit :=
  match mode with Exclusive => Unlock | Sharing => RUnlock end.

(** [l.Lock(); defer l.Unlock(); ...], or with [RLock] and [RUnlock] *)
Definition locked (X : Set) (m : M X) : prog LockE X :=
  match sect X m with
  | Guarded mode body =>
      trigger (acquire mode);; deferred (trigger (release mode)) (lift Access body)
  | Unguarded e => trigger (Other X e)
  end.

(** ** Goroutines

    A goroutine is a program over these calls.  Its code is that program with
    the calls' code in place of the calls. *)
Context {A : Type}.
Definition code (q : prog M A) : prog LockE A := interp locked q.

(** The lock: who writes and who reads, under goroutine numbers. *)
Record Machine := mkMachine {
  goroutines : list (prog LockE A);
  writer : option nat;
  readers : gset nat;
  object : O;
  others : R
}.

(** A step of the machine: one call of one goroutine. *)
Definition step_of (i : nat) (p : prog LockE A) (c c' : Machine) : Prop :=
  match p with
  | PVis e k =>
      match e in LockE X return (X -> prog LockE A) -> Prop with
      | Lock => fun k => writer c = None /\ readers c = ∅ /\
          c' = mkMachine (<[i := k tt]> (goroutines c)) (Some i) ∅ (object c) (others c)
      | Unlock => fun k => is_Some (writer c) /\
          c' = mkMachine (<[i := k tt]> (goroutines c)) None (readers c) (object c) (others c)
      | RLock => fun k => writer c = None /\
          c' = mkMachine (<[i := k tt]> (goroutines c)) None ({[i]} ∪ readers c) (object c) (others c)
      | RUnlock => fun k => i ∈ readers c /\
          c' = mkMachine (<[i := k tt]> (goroutines c)) (writer c) (readers c ∖ {[i]})
                 (object c) (others c)
      | Access X e => fun k => exists x s', sem X e (object c) x s' /\
          c' = mkMachine (<[i := k x]> (goroutines c)) (writer c) (readers c) s' (others c)
      | Other X e => fun k => exists x r', env X e (others c) x r' /\
          c' = mkMachine (<[i := k x]> (goroutines c)) (writer c) (readers c) (object c) r'
      end k
  | _ => False
  end.
Definition step (c c' : Machine) : Prop :=
  exists i p, goroutines c !! i = Some p /\ step_of i p c c'.

(** *** Sections in one step *)

(** The accesses of an execution, one after the other. *)
Fixpoint accesses (s : O) (t : list (ev E)) (s' : O) : Prop :=
  match t with
  | [] => s' = s
  | Ev e x :: t' => exists s1, sem _ e s x s1 /\ accesses s1 t' s'
  end.
Definition does {X : Set} (body : prog E X) (s : O) (o : outcome X) (s' : O) : Prop :=
  exists t, exec body t o /\ accesses s t s'.

(** A call by goroutine [i], and how it ended. *)
Inductive Called := mkCalled (i : nat) (X : Set) (m : M X) (o : outcome X).

Definition performs {X : Set} (m : M X) (a : O * R) (o : outcome X) (a' : O * R) : Prop :=
  match sect X m with
  | Guarded _ body => does body a.1 o a'.1 /\ a'.2 = a.2
  | Unguarded e => exists x, o = Done x /\ env X e a.2 x a'.2 /\ a'.1 = a.1
  end.

Definition continue {X : Set} (o : outcome X) (k : X -> prog M A) : prog M A :=
  match o with Done x => k x | Panicked w => PPanic w end.

Abbreviation whole := (list (prog M A) * (O * R))%type.
Inductive atomic_step : whole -> Called -> whole -> Prop :=
| atomic_call qs a i (X : Set) (m : M X) (k : X -> prog M A) o a' :
    qs !! i = Some (PVis m k) -> performs m a o a' ->
    atomic_step (qs, a) (mkCalled i X m o) (<[i := continue o k]> qs, a').
Inductive atomic (w : whole) : list Called -> whole -> Prop :=
| atomic_nil : atomic w [] w
| atomic_snoc l w1 cl w2 : atomic w l w1 -> atomic_step w1 cl w2 -> atomic w (l ++ [cl])%list w2.

(** Readers only read. *)
Definition reads (e : ev E) : Prop :=
  match e with Ev e x => forall s s', sem _ e s x s' -> s' = s end.
Hypothesis (shared_reads : forall (X : Set) (m : M X) body,
  sect X m = Guarded Sharing body -> safe reads body).

(** ** The lock makes sections atomic *)

Lemma accesses_app s t1 t2 s' :
  accesses s (t1 ++ t2) s' <-> exists s1, accesses s t1 s1 /\ accesses s1 t2 s'.
Proof.
  revert s. induction t1 as [|[X e x] t1 IH]; intros s; simpl.
  - split; [eauto|by intros (s1 & -> & ?)].
  - setoid_rewrite IH. split; [intros (s1 & ? & s2 & ? & ?)|intros (s2 & (s1 & ? & ?) & ?)]; eauto 10.
Qed.

(** [rest p t b]: [b] is left of [p] after the calls [t]. *)
Inductive rest {X : Set} : prog E X -> list (ev E) -> prog E X -> Prop :=
| rest_here p : rest p [] p
| rest_vis (Y : Set) (e : E Y) k y t b : rest (k y) t b -> rest (PVis e k) (Ev e y :: t) b.

Lemma rest_exec {X : Set} (p b : prog E X) t t' o :
  rest p t b -> exec b t' o -> exec p (t ++ t') o.
Proof. induction 1 as [p|Y e k y t b _ IH]; simpl; [done|]. intros He. eauto. Qed.

Lemma rest_call {X Y : Set} (p : prog E X) t (e : E Y) k y :
  rest p t (PVis e k) -> rest p (t ++ [Ev e y]) (k y).
Proof.
  intros Hr. remember (PVis e k) as b eqn:Hb. revert Hb.
  induction Hr as [p|Z e' k' z t b _ IH]; intros ->; simpl; constructor; [constructor|by apply IH].
Qed.

Lemma rest_safe {X : Set} P (p b : prog E X) t : rest p t b -> safe P p -> safe P b.
Proof.
  induction 1 as [p|Y e k y t b _ IH]; [done|]. intros Hs. apply IH. by destruct (Hs y).
Qed.

(** The code of a goroutine that runs a section, where [b] is left of the
    section's body and [k] comes after it. *)
Definition inside {X : Set} (mode : Mode) (b : prog E X) (k : X -> prog M A) : prog LockE A :=
  pbind (fun x => code (k x)) (deferred (trigger (release mode)) (lift Access b)).

(** Goroutine [i] holds the lock in this mode. *)
Definition holds (c : Machine) (mode : Mode) (i : nat) : Prop :=
  match mode with Exclusive => writer c = Some i | Sharing => i ∈ readers c end.

(** A goroutine of a machine, and of the abstraction of it: outside of
    sections its code is to be run; inside, it has made some accesses since
    the section began at the object [s]. *)
Inductive related (c : Machine) (s : O) (i : nat) : prog LockE A -> prog M A -> Prop :=
| related_outside q : (forall mode, ~ holds c mode i) -> related c s i (code q) q
| related_inside (X : Set) (m : M X) mode body k t b :
    sect X m = Guarded mode body -> holds c mode i ->
    rest body t b -> accesses s t (object c) ->
    related c s i (inside mode b k) (PVis m k).

Record abstracts (c : Machine) (w : whole) : Prop := {
  abs_length : length (goroutines c) = length w.1;
  abs_threads i p q :
    goroutines c !! i = Some p -> w.1 !! i = Some q -> related c w.2.1 i p q;
  abs_object : writer c = None -> object c = w.2.1;
  abs_others : others c = w.2.2;
  abs_alone : writer c <> None -> readers c = ∅;
  abs_holders mode i : holds c mode i -> is_Some (goroutines c !! i)
}.

Lemma abstracts_init qs a :
  abstracts (mkMachine (map code qs) None ∅ a.1 a.2) (qs, a).
Proof.
  split; simpl; try done; [apply length_map| |].
  - intros i p q Hp Hq. rewrite list_lookup_fmap, Hq in Hp. injection Hp as <-.
    constructor. intros []; simpl; [done|set_solver].
  - intros [] i; simpl; [done|set_solver].
Qed.

(** A goroutine that another's step leaves where it is. *)
Lemma related_other c c' s s' j p q :
  (forall mode, holds c' mode j <-> holds c mode j) ->
  (object c' = object c /\ s' = s) \/ (forall mode, ~ holds c mode j) ->
  related c s j p q -> related c' s' j p q.
Proof.
  intros Hh Hsame Hr. destruct Hr as [q Hn|X m mode body k t b Hm Hj Hb Ha].
  - constructor. intros mode. by rewrite Hh.
  - destruct Hsame as [[Ho ->]|Hn]; [|by destruct (Hn mode)].
    econstructor; [exact Hm|by apply Hh|exact Hb|]. by rewrite Ho.
Qed.

(** The invariant after a step of goroutine [i]. *)
Lemma abstracts_insert c c' w w' i p' q' :
  abstracts c w -> is_Some (goroutines c !! i) -> is_Some (w.1 !! i) ->
  goroutines c' = <[i := p']> (goroutines c) -> w'.1 = <[i := q']> w.1 ->
  related c' w'.2.1 i p' q' ->
  (forall j mode, j <> i -> holds c' mode j <-> holds c mode j) ->
  (object c' = object c /\ w'.2.1 = w.2.1) \/ (forall j mode, j <> i -> ~ holds c mode j) ->
  (writer c' = None -> object c' = w'.2.1) -> others c' = w'.2.2 ->
  (writer c' <> None -> readers c' = ∅) ->
  abstracts c' w'.
Proof.
  intros Ha [p0 Hi] [q0 Hq0] Hg Hw Hr Hj Hsame Ho Hr2 Halone. split; try done.
  - rewrite Hg, Hw, !length_insert. apply (abs_length _ _ Ha).
  - intros j p q. rewrite Hg, Hw. destruct (decide (j = i)) as [->|Hne].
    + rewrite !list_lookup_insert_eq by (by eapply lookup_lt_Some).
      intros [= <-] [= <-]. exact Hr.
    + rewrite !list_lookup_insert_ne by done. intros Hp Hq.
      eapply (related_other c); [by intros; apply Hj| |by apply (abs_threads _ _ Ha)].
      destruct Hsame as [?|Hn]; [by left|]. right. intros mode. by apply Hn.
  - intros mode j Hjh. rewrite Hg. destruct (decide (j = i)) as [->|Hne].
    + by rewrite list_lookup_insert_eq by (by eapply lookup_lt_Some).
    + rewrite list_lookup_insert_ne by done. apply Hj in Hjh; [|done].
      by apply (abs_holders _ _ Ha) in Hjh.
Qed.

(** *** The steps *)

(** Taking and releasing the lock. *)
Definition takes (mode : Mode) (i : nat) (p : prog LockE A) (c : Machine) : Machine :=
  match mode with
  | Exclusive => mkMachine (<[i := p]> (goroutines c)) (Some i) ∅ (object c) (others c)
  | Sharing => mkMachine (<[i := p]> (goroutines c)) None ({[i]} ∪ readers c) (object c) (others c)
  end.
Definition frees (mode : Mode) (i : nat) (p : prog LockE A) (c : Machine) : Machine :=
  match mode with
  | Exclusive => mkMachine (<[i := p]> (goroutines c)) None (readers c) (object c) (others c)
  | Sharing =>
      mkMachine (<[i := p]> (goroutines c)) (writer c) (readers c ∖ {[i]}) (object c) (others c)
  end.

(** The first call of a goroutine outside of sections. *)
Lemma code_step i q c c' :
  step_of i (code q) c c' ->
  exists (X : Set) (m : M X) k, q = PVis m k /\
    match sect X m with
    | Guarded mode body => writer c = None /\ (mode = Exclusive -> readers c = ∅) /\
        c' = takes mode i (inside mode body k) c
    | Unguarded e => exists x r', env X e (others c) x r' /\
        c' = mkMachine (<[i := code (k x)]> (goroutines c)) (writer c) (readers c) (object c) r'
    end.
Proof.
  destruct q as [|w|X m k]; simpl; [done..|]. intros Hs. exists X, m, k. split; [done|].
  unfold code in Hs. cbn [interp] in Hs. unfold locked in Hs. destruct (sect X m) as [[] body|e]; simpl in Hs.
  - by destruct Hs as (? & ? & ->).
  - by destruct Hs as (? & ->).
  - exact Hs.
Qed.

(** And of one inside. *)
Lemma inside_step i (X : Set) mode (b : prog E X) k c c' :
  step_of i (inside mode b k) c c' ->
  match b with
  | PRet x => c' = frees mode i (code (k x)) c
  | PPanic w => c' = frees mode i (code (PPanic w)) c
  | PVis e k' => exists y s', sem _ e (object c) y s' /\
      c' = mkMachine (<[i := inside mode (k' y) k]> (goroutines c)) (writer c) (readers c) s' (others c)
  end.
Proof. destruct b as [x|w|Y e k']; [destruct mode; by intros [_ ->]..|done]. Qed.

Lemma holds_takes mode i p c j mode' :
  j <> i -> writer c = None -> (mode = Exclusive -> readers c = ∅) ->
  holds (takes mode i p c) mode' j <-> holds c mode' j.
Proof.
  intros Hj Hw Hr. destruct mode, mode'; simpl; rewrite ?Hw; [split; congruence| |done|].
  - by rewrite Hr.
  - rewrite elem_of_union, elem_of_singleton. tauto.
Qed.

Lemma holds_frees mode i p c j mode' :
  j <> i -> holds c mode i -> holds (frees mode i p c) mode' j <-> holds c mode' j.
Proof. intros Hj Hi. destruct mode, mode'; simpl in *; [split; congruence|done|done|].
  rewrite elem_of_difference, elem_of_singleton. tauto.
Qed.

(** Whoever writes is alone. *)
Lemma writer_alone c w i j mode :
  abstracts c w -> writer c = Some i -> holds c mode j -> j = i.
Proof.
  intros Ha Hw. destruct mode; simpl; [by rewrite Hw; intros [= ->]|].
  rewrite (abs_alone _ _ Ha) by congruence. set_solver.
Qed.

(** A goroutine in a section sees the object of the abstraction with its own
    accesses; a reader sees it as it is. *)
Lemma reader_object c w i : abstracts c w -> i ∈ readers c -> writer c = None /\ object c = w.2.1.
Proof.
  intros Ha Hi. destruct (writer c) as [j|] eqn:Hw.
  - pose proof (abs_alone _ _ Ha) as Hn. rewrite Hw in Hn. rewrite Hn in Hi by done. set_solver.
  - split; [done|]. by apply (abs_object _ _ Ha).
Qed.

(** A section begins: nothing happens to the abstraction. *)
Lemma takes_abstracts c w i q mode (X : Set) (m : M X) body k :
  abstracts c w -> goroutines c !! i = Some (code q) -> w.1 !! i = Some q ->
  q = PVis m k -> sect X m = Guarded mode body ->
  writer c = None -> (mode = Exclusive -> readers c = ∅) ->
  abstracts (takes mode i (inside mode body k) c) w.
Proof.
  intros Ha Hi Hq -> Hm Hw Hr. pose proof (abs_object _ _ Ha Hw) as Ho.
  apply (abstracts_insert c _ w w i (inside mode body k) (PVis m k)); try done.
  - by destruct mode.
  - by rewrite list_insert_id.
  - econstructor; [exact Hm| |constructor|]; destruct mode; simpl; [done|set_solver|done..].
  - intros j mode' Hj. by apply holds_takes.
  - left. by destruct mode.
  - destruct mode; by simpl.
  - destruct mode; apply (abs_others _ _ Ha).
  - by destruct mode.
Qed.

(** A section ends: that is when it happened. *)
Lemma frees_abstracts c w i mode (X : Set) (m : M X) body k t b o :
  abstracts c w -> is_Some (goroutines c !! i) -> w.1 !! i = Some (PVis m k) ->
  sect X m = Guarded mode body -> holds c mode i ->
  rest body t b -> accesses w.2.1 t (object c) -> exec b [] o ->
  exists w', atomic_step w (mkCalled i X m o) w' /\
    abstracts (frees mode i (code (continue o k)) c) w'.
Proof.
  intros Ha Hi Hq Hm Hh Hb Hacc He. destruct w as [qs [s r]]. cbn [fst snd] in *.
  exists (<[i := continue o k]> qs, (object c, r)). split.
  { constructor; [done|]. unfold performs. rewrite Hm. split; [|done].
    exists t. split; [|done]. rewrite <- (app_nil_r t). by eapply rest_exec. }
  apply (abstracts_insert c _ (qs, (s, r)) _ i (code (continue o k)) (continue o k)); try done.
  - by destruct mode.
  - constructor. intros mode'. destruct mode; simpl in *; destruct mode'; simpl; [done| | |].
    + rewrite (abs_alone _ _ Ha) by congruence. apply not_elem_of_empty.
    + by destruct (reader_object _ _ _ Ha Hh) as [-> _].
    + rewrite elem_of_difference, elem_of_singleton. tauto.
  - intros j mode' Hj. by apply holds_frees.
  - cbn [fst snd]. destruct mode; simpl in Hh.
    + right. intros j mode' Hj Hjh. by apply (writer_alone _ _ _ _ _ Ha Hh) in Hjh.
    + left. split; [done|]. apply (reader_object _ _ _ Ha Hh).
  - by destruct mode.
  - destruct mode; apply (abs_others _ _ Ha).
  - destruct mode; simpl in *; [done|]. intros Hn. by destruct (reader_object _ _ _ Ha Hh) as [? _].
Qed.

(** An access inside of a section. *)
Lemma access_abstracts c w i mode (X Y : Set) (m : M X) body k t (e : E Y) k' y s' :
  abstracts c w -> is_Some (goroutines c !! i) -> w.1 !! i = Some (PVis m k) ->
  sect X m = Guarded mode body -> holds c mode i ->
  rest body t (PVis e k') -> accesses w.2.1 t (object c) -> sem Y e (object c) y s' ->
  abstracts (mkMachine (<[i := inside mode (k' y) k]> (goroutines c)) (writer c) (readers c) s'
               (others c)) w.
Proof.
  intros Ha Hi Hq Hm Hh Hb Hacc Hs.
  assert (Hobj : mode = Sharing -> s' = object c).
  { intros ->. pose proof (rest_safe _ _ _ _ Hb (shared_reads _ _ _ Hm)) as Hsafe.
    destruct (Hsafe y) as [Hr _]. by eapply Hr. }
  apply (abstracts_insert c _ w w i (inside mode (k' y) k) (PVis m k)); try done.
  - by rewrite list_insert_id.
  - econstructor; [exact Hm|by destruct mode|by eapply rest_call|].
    apply accesses_app. exists (object c). split; [done|]. by exists s'.
  - destruct mode; simpl in Hh; [right|left; by rewrite Hobj].
    intros j mode' Hj Hjh. by apply (writer_alone _ _ _ _ _ Ha Hh) in Hjh.
  - simpl. intros Hw. destruct mode; simpl in Hh; [congruence|]. rewrite Hobj by done.
    by apply (abs_object _ _ Ha).
  - apply (abs_others _ _ Ha).
  - apply (abs_alone _ _ Ha).
Qed.

(** A call that does not concern the object. *)
Lemma other_abstracts c w i (X : Set) (m : M X) (e : F X) k x r' :
  abstracts c w -> goroutines c !! i = Some (code (PVis m k)) -> w.1 !! i = Some (PVis m k) ->
  (forall mode, ~ holds c mode i) -> sect X m = Unguarded e -> env X e (others c) x r' ->
  exists w', atomic_step w (mkCalled i X m (Done x)) w' /\
    abstracts (mkMachine (<[i := code (k x)]> (goroutines c)) (writer c) (readers c) (object c) r') w'.
Proof.
  intros Ha Hi Hq Hn Hm He. destruct w as [qs [s r]]. cbn [fst snd] in *.
  exists (<[i := continue (Done x) k]> qs, (s, r')). split.
  { constructor; [done|]. unfold performs. rewrite Hm. exists x. cbn [fst snd].
    pose proof (abs_others _ _ Ha) as Hr. cbn in Hr. by rewrite <- Hr. }
  apply (abstracts_insert c _ (qs, (s, r)) _ i (code (k x)) (k x)); try done.
  - constructor. intros mode. by apply (Hn mode).
  - by left.
  - apply (abs_object _ _ Ha).
  - apply (abs_alone _ _ Ha).
Qed.

(** One step of the machine is no step of the abstraction, or one. *)
Lemma step_abstracts c c' w :
  abstracts c w -> step c c' ->
  abstracts c' w \/ exists cl w', atomic_step w cl w' /\ abstracts c' w'.
Proof.
  intros Ha (i & p & Hi & Hs).
  destruct (lookup_lt_is_Some_2 w.1 i) as [q Hq].
  { rewrite <- (abs_length _ _ Ha). by eapply lookup_lt_Some. }
  destruct (abs_threads _ _ Ha i p q Hi Hq) as [q Hn|X m mode body k t b Hm Hh Hb Hacc].
  - apply code_step in Hs as (X & m & k & -> & Hs).
    destruct (sect X m) as [mode body|e] eqn:Hm.
    + destruct Hs as (Hw & Hr & ->). left. by eapply takes_abstracts.
    + destruct Hs as (x & r' & He & ->). right.
      destruct (other_abstracts c w i X m e k x r') as (w' & ? & ?); eauto.
  - apply inside_step in Hs. destruct b as [x|y|Y e k'].
    + subst c'. right. destruct (frees_abstracts c w i mode X m body k t (PRet x) (Done x))
        as (w' & ? & ?); eauto; by split.
    + subst c'. right. destruct (frees_abstracts c w i mode X m body k t (PPanic y) (Panicked y))
        as (w' & ? & ?); eauto; by split.
    + destruct Hs as (y & s' & Hsem & ->). left. by eapply access_abstracts.
Qed.

(** Whatever the goroutines call and however they take turns: what they have
    seen so far is what they see when each section runs in one step, in an
    order that fits. *)
Lemma locked_atomic qs a c :
  rtc step (mkMachine (map code qs) None ∅ a.1 a.2) c ->
  exists l w, atomic (qs, a) l w /\ abstracts c w.
Proof.
  revert c. apply rtc_ind_r.
  - exists [], (qs, a). split; [constructor|apply abstracts_init].
  - intros c c' _ Hs (l & w & Hl & Ha). destruct (step_abstracts _ _ _ Ha Hs) as [Ha'|(cl & w' & Hc & Ha')]; [eauto|].
    exists (l ++ [cl])%list, w'. split; [by econstructor|done].
Qed.

(** While nobody holds the lock, the goroutines are where the sections in one
    step have brought them, and so is the object. *)
Lemma abstracts_free c w :
  abstracts c w -> writer c = None -> readers c = ∅ ->
  goroutines c = map code w.1 /\ (object c, others c) = w.2.
Proof.
  intros Ha Hw Hr. split.
  - apply list_eq. intros i. rewrite list_lookup_fmap. pose proof (abs_length _ _ Ha) as Hl.
    destruct (goroutines c !! i) as [p|] eqn:Hp, (w.1 !! i) as [q|] eqn:Hq; simpl.
    + destruct (abs_threads _ _ Ha i p q Hp Hq) as [q _|X m [] body k t b _ Hh _ _]; [done|..]; simpl in Hh.
      * congruence.
      * rewrite Hr in Hh. set_solver.
    + apply lookup_lt_Some in Hp. apply lookup_ge_None in Hq. lia.
    + apply lookup_lt_Some in Hq. apply lookup_ge_None in Hp. lia.
    + done.
  - rewrite (abs_object _ _ Ha Hw), (abs_others _ _ Ha). by destruct w as [? [? ?]].
Qed.

(** A [sync.Mutex] has no readers. *)
Lemma no_readers c w :
  abstracts c w -> (forall (X : Set) (m : M X) body, sect X m <> Guarded Sharing body) -> readers c = ∅.
Proof.
  intros Ha Hm. apply set_eq. intros i. split; [|set_solver]. intros Hi.
  destruct (abs_holders _ _ Ha Sharing i Hi) as [p Hp].
  destruct (lookup_lt_is_Some_2 w.1 i) as [q Hq].
  { rewrite <- (abs_length _ _ Ha). by eapply lookup_lt_Some. }
  destruct (abs_threads _ _ Ha i p q Hp Hq) as [q Hn|X m [] body k t b Hs Hh _ _].
  - by destruct (Hn Sharing).
  - simpl in Hh. by rewrite (abs_alone _ _ Ha) in Hi by congruence.
  - by destruct (Hm X m body).
Qed.

(** *** Nobody waits for ever *)

Definition finished (p : prog LockE A) : Prop :=
  match p with PVis _ _ => False | _ => True end.
#[local] Instance finished_dec p : Decision (finished p).
Proof. destruct p; simpl; apply _. Defined.

(** Whatever is read and called can be answered. *)
Hypothesis (sem_total : forall X (e : E X) s, exists x s', sem X e s x s').
Hypothesis (env_total : forall X (m : M X) (e : F X) r,
  sect X m = Unguarded e -> exists x r', env X e r x r').

(** A goroutine that holds the lock can go on. *)
Lemma holder_runs c w mode i :
  abstracts c w -> holds c mode i -> exists p c', goroutines c !! i = Some p /\ step_of i p c c'.
Proof.
  intros Ha Hh. destruct (abs_holders _ _ Ha mode i Hh) as [p Hp].
  destruct (lookup_lt_is_Some_2 w.1 i) as [q Hq].
  { rewrite <- (abs_length _ _ Ha). by eapply lookup_lt_Some. }
  exists p. destruct (abs_threads _ _ Ha i p q Hp Hq) as [q Hn|X m mode' body k t b _ Hh' _ _];
    [by destruct (Hn mode)|].
  destruct b as [x|y|Y e k'].
  - destruct mode'; eexists; (split; [exact Hp|]); simpl in *; rewrite ?Hh'; by split.
  - destruct mode'; eexists; (split; [exact Hp|]); simpl in *; rewrite ?Hh'; by split.
  - destruct (sem_total Y e (object c)) as (y & s' & Hs). eexists. split; [exact Hp|].
    simpl. by exists y, s'.
Qed.

(** As long as a goroutine is not finished, some goroutine can go on. *)
Lemma locked_runs c w :
  abstracts c w -> Forall finished (goroutines c) \/ exists c', step c c'.
Proof.
  intros Ha. destruct (writer c) as [i|] eqn:Hw.
  { destruct (holder_runs c w Exclusive i Ha Hw) as (p & c' & ? & ?). right. exists c', i, p. eauto. }
  destruct (set_choose_or_empty (readers c)) as [[i Hi]|Hr%leibniz_equiv].
  { destruct (holder_runs c w Sharing i Ha Hi) as (p & c' & ? & ?). right. exists c', i, p. eauto. }
  destruct (abstracts_free c w Ha Hw Hr) as [Hg _].
  destruct (decide (Forall finished (goroutines c))) as [?|Hn]; [by left|right].
  apply not_Forall_Exists, Exists_exists in Hn as (p & [i Hp]%list_elem_of_lookup & Hn); [|apply _].
  pose proof Hp as Hq. rewrite Hg, list_lookup_fmap in Hq. destruct (w.1 !! i) as [q|]; [|done].
  injection Hq as <-. destruct q as [x|y|X m k]; [by destruct Hn..|].
  enough (exists c', step_of i (code (PVis m k)) c c') as [c' Hc] by (exists c', i, (code (PVis m k)); eauto).
  unfold code. cbn [interp]. unfold locked. destruct (sect X m) as [[] body|e] eqn:Hm.
  - eexists. simpl. by split_and!.
  - eexists. simpl. by split.
  - destruct (env_total X m e (others c) Hm) as (x & r' & He). eexists. simpl. by exists x, r'.
Qed.

(** ** Running a schedule

    With functions that answer the calls, the machine runs: the list says
    whose turn it is. *)
Variables (answer : forall X : Set, E X -> O -> X * O) (answer_other : forall X : Set, F X -> R -> X * R).

Definition turn (i : nat) (c : Machine) : option Machine :=
  match goroutines c !! i with
  | Some (PVis e k) =>
      match e in LockE X return (X -> prog LockE A) -> option Machine with
      | Lock => fun k =>
          if decide (writer c = None /\ readers c = ∅)
          then Some (mkMachine (<[i := k tt]> (goroutines c)) (Some i) ∅ (object c) (others c)) else None
      | Unlock => fun k =>
          if decide (writer c = None) then None
          else Some (mkMachine (<[i := k tt]> (goroutines c)) None (readers c) (object c) (others c))
      | RLock => fun k =>
          if decide (writer c = None)
          then Some (mkMachine (<[i := k tt]> (goroutines c)) None ({[i]} ∪ readers c) (object c) (others c))
          else None
      | RUnlock => fun k =>
          if decide (i ∈ readers c)
          then Some (mkMachine (<[i := k tt]> (goroutines c)) (writer c) (readers c ∖ {[i]})
                       (object c) (others c))
          else None
      | Access X e => fun k =>
          let '(x, s') := answer X e (object c) in
          Some (mkMachine (<[i := k x]> (goroutines c)) (writer c) (readers c) s' (others c))
      | Other X e => fun k =>
          let '(x, r') := answer_other X e (others c) in
          Some (mkMachine (<[i := k x]> (goroutines c)) (writer c) (readers c) (object c) r')
      end k
  | _ => None
  end.

(** A turn of a goroutine that cannot go on passes. *)
Definition schedule (turns : list nat) (c : Machine) : Machine :=
  fold_left (fun c i => default c (turn i c)) turns c.

Hypothesis (answer_sem : forall X (e : E X) s, sem X e s (answer X e s).1 (answer X e s).2).
Hypothesis (answer_env : forall X (e : F X) r, env X e r (answer_other X e r).1 (answer_other X e r).2).

Lemma turn_step i c c' : turn i c = Some c' -> step c c'.
Proof.
  unfold turn. destruct (goroutines c !! i) as [p|] eqn:Hp; [|done]. intros Ht.
  exists i, p. split; [done|]. destruct p as [x|w|X e k]; [done..|].
  destruct e as [| | | |X e|X e]; simpl; repeat case_decide; try done; try injection Ht as <-.
  - by destruct_and?.
  - split; [|done]. by apply not_eq_None_Some.
  - done.
  - done.
  - pose proof (answer_sem X e (object c)) as Hs. destruct (answer X e (object c)) as [x s'].
    injection Ht as <-. by exists x, s'.
  - pose proof (answer_env X e (others c)) as Hs. destruct (answer_other X e (others c)) as [x r'].
    injection Ht as <-. by exists x, r'.
Qed.

Lemma schedule_steps turns c : rtc step c (schedule turns c).
Proof.
  revert c. induction turns as [|i turns IH]; intros c; [constructor|].
  unfold schedule. cbn [fold_left]. fold (schedule turns (default c (turn i c))).
  destruct (turn i c) as [c'|] eqn:Ht; [|apply IH]. eapply rtc_l; [by eapply turn_step|apply IH].
Qed.
End mutex.
