(* ===== verification/GoStrings.v ===== *)
(** * Go's [strings] functions

    The functions of the standard package [strings] the syncer calls, over
    byte strings, and the lemmas the components share about them.
    [Replace s old new] is [strings.Replace(s, old, new, -1)] for a nonempty
    [old]: non-overlapping occurrences, from the left. *)
From Stdlib Require Import Ascii.
From stdpp Require Import base list strings.
From S2P Require Import Prelude.
#[local] Open Scope string_scope.

Abbreviation dash := ("-"%char).
Abbreviation dot := ("."%char).

Definition HasPrefix (s p : string) : bool := String.prefix p s.

Fixpoint drop_bytes (n : nat) (s : string) : string :=
  match n, s with
  | S n', String _ s' => drop_bytes n' s'
  | _, _ => s
  end.

Definition TrimPrefix (s p : string) : string :=
  if HasPrefix s p then drop_bytes (String.length p) s else s.

(** [skip] counts the bytes of an occurrence that was already replaced. *)
Fixpoint replace_from (skip : nat) (old new s : string) : string :=
  match s with
  | EmptyString => EmptyString
  | String c s' =>
      match skip with
      | S k => replace_from k old new s'
      | O => if String.prefix old s
             then new +:+ replace_from (String.length old - 1) old new s'
             else String c (replace_from 0 old new s')
      end
  end.

Definition Replace (s old new : string) : string := replace_from 0 old new s.

(** The byte [c] occurs in [s]. *)
Fixpoint has_byte (c : Ascii.ascii) (s : string) : bool :=
  match s with
  | EmptyString => false
  | String c' s' => Ascii.eqb c c' || has_byte c s'
  end.

(** Byte-wise substitution, what [Replace] does for a one-byte [old]. *)
Fixpoint subst_bytes (f : Ascii.ascii -> string) (s : string) : string :=
  match s with
  | EmptyString => EmptyString
  | String c s' => f c +:+ subst_bytes f s'
  end.

Definition subst1 (old : Ascii.ascii) (new : string) (c : Ascii.ascii) : string :=
  if Ascii.eqb old c then new else String c "".

(** stdpp keeps [+:+] folded; these are its equations. *)
Lemma string_app_empty (s : string) : "" +:+ s = s.
Proof. reflexivity. Qed.

Lemma string_app_cons c (a b : string) : String c a +:+ b = String c (a +:+ b).
Proof. reflexivity. Qed.

Ltac str_simpl := simpl; rewrite ?string_app_cons, ?string_app_empty; simpl.

(** ** Prefixes *)

Lemma prefix_app p s : String.prefix p (p +:+ s) = true.
Proof.
  induction p as [|c p IH]; str_simpl; [by destruct s|].
  destruct (Ascii.ascii_dec c c); done.
Qed.

Lemma prefix_spec p s : String.prefix p s = true <-> exists s', s = p +:+ s'.
Proof.
  split; [|intros [s' ->]; apply prefix_app].
  revert s. induction p as [|c p IH]; intros s; str_simpl; [by eauto|].
  destruct s as [|c' s]; [done|]. simpl. destruct (Ascii.ascii_dec c c') as [<-|]; [|done].
  intros [s' ->]%IH. by exists s'.
Qed.

Lemma HasPrefix_spec s p : HasPrefix s p = true <-> exists s', s = p +:+ s'.
Proof. apply prefix_spec. Qed.

Lemma HasPrefix_app p s : HasPrefix (p +:+ s) p = true.
Proof. apply prefix_app. Qed.

Lemma drop_bytes_app p s : drop_bytes (String.length p) (p +:+ s) = s.
Proof. induction p as [|c p IH]; str_simpl; [by destruct s | done]. Qed.

Lemma TrimPrefix_app p s : TrimPrefix (p +:+ s) p = s.
Proof. unfold TrimPrefix. by rewrite HasPrefix_app, drop_bytes_app. Qed.

Lemma TrimPrefix_no s p : HasPrefix s p = false -> TrimPrefix s p = s.
Proof. unfold TrimPrefix. by intros ->. Qed.

Lemma string_app_assoc (a b c : string) : (a +:+ b) +:+ c = a +:+ (b +:+ c).
Proof. induction a as [|x a IH]; str_simpl; [done | by rewrite IH]. Qed.

Lemma string_app_nil_r (a : string) : a +:+ "" = a.
Proof. induction a as [|x a IH]; str_simpl; [done | by rewrite IH]. Qed.

Lemma string_app_inj_l (p a b : string) : p +:+ a = p +:+ b -> a = b.
Proof. induction p as [|c p IH]; str_simpl; [done|]. intros [= ?]. auto. Qed.

Lemma HasPrefix_trans s p q : HasPrefix s p = true -> HasPrefix p q = true -> HasPrefix s q = true.
Proof.
  rewrite !HasPrefix_spec. intros [s' ->] [p' ->]. exists (p' +:+ s').
  by rewrite string_app_assoc.
Qed.

(** ** One-byte replacement *)

Lemma prefix1 c d s : String.prefix (String c "") (String d s) = Ascii.eqb c d.
Proof.
  simpl. destruct (Ascii.ascii_dec c d) as [->|Hn].
  - rewrite Ascii.eqb_refl. by destruct s.
  - symmetry. by apply Ascii.eqb_neq.
Qed.

Lemma Replace1 s c new : Replace s (String c "") new = subst_bytes (subst1 c new) s.
Proof.
  unfold Replace. induction s as [|d s IH]; [done|].
  change (replace_from 0 (String c "") new (String d s)) with
    (if String.prefix (String c "") (String d s)
     then new +:+ replace_from 0 (String c "") new s
     else String d (replace_from 0 (String c "") new s)).
  rewrite prefix1, IH. simpl. unfold subst1.
  by destruct (Ascii.eqb c d).
Qed.

Lemma subst_bytes_app f a b : subst_bytes f (a +:+ b) = subst_bytes f a +:+ subst_bytes f b.
Proof. induction a as [|c a IH]; str_simpl; [done|]. by rewrite IH, string_app_assoc. Qed.

Lemma subst_bytes_comp f g s :
  subst_bytes g (subst_bytes f s) = subst_bytes (fun c => subst_bytes g (f c)) s.
Proof. induction s as [|c s IH]; str_simpl; [done|]. by rewrite subst_bytes_app, IH. Qed.

Lemma subst_bytes_ext f g s :
  (forall c, has_byte c s = true -> f c = g c) -> subst_bytes f s = subst_bytes g s.
Proof.
  induction s as [|c s IH]; str_simpl; intros H; [done|].
  rewrite (H c) by (by rewrite Ascii.eqb_refl).
  rewrite IH; [done|]. intros d Hd. apply H. by rewrite Hd, orb_true_r.
Qed.

Lemma subst_bytes_id s : subst_bytes (fun c => String c "") s = s.
Proof. induction s as [|c s IH]; str_simpl; [done | by rewrite IH]. Qed.

Lemma Replace1_absent s c new : has_byte c s = false -> Replace s (String c "") new = s.
Proof.
  intros H. rewrite Replace1, <- (subst_bytes_id s) at 1.
  rewrite subst_bytes_id. rewrite <- (subst_bytes_id s) at 2.
  apply subst_bytes_ext. intros d Hd. unfold subst1.
  destruct (Ascii.eqb_spec c d) as [->|]; [congruence | done].
Qed.

Lemma has_byte_app c a b : has_byte c (a +:+ b) = has_byte c a || has_byte c b.
Proof. induction a as [|d a IH]; str_simpl; [done|]. by rewrite IH, orb_assoc. Qed.

(** ** Replacing a doubled byte *)

Lemma Replace2_pair c new s :
  Replace (String c (String c s)) (String c (String c "")) new
  = new +:+ Replace s (String c (String c "")) new.
Proof. unfold Replace. simpl. destruct (Ascii.ascii_dec c c); [by destruct s | done]. Qed.

Lemma Replace2_single c d new s :
  c <> d ->
  Replace (String d s) (String c (String c "")) new
  = String d (Replace s (String c (String c "")) new).
Proof. intros H. unfold Replace. simpl. by destruct (Ascii.ascii_dec c d). Qed.

Lemma Replace2_lone c d new s :
  c <> d ->
  Replace (String c (String d s)) (String c (String c "")) new
  = String c (Replace (String d s) (String c (String c "")) new).
Proof.
  intros H. unfold Replace. simpl. destruct (Ascii.ascii_dec c c); [|done].
  by destruct (Ascii.ascii_dec c d).
Qed.

Lemma Replace2_last c new :
  Replace (String c "") (String c (String c "")) new = String c "".
Proof. unfold Replace. simpl. by destruct (Ascii.ascii_dec c c). Qed.

#[export] Hint Rewrite Replace2_pair Replace2_last string_app_assoc string_app_nil_r
  HasPrefix_app TrimPrefix_app : syncer.
