(* ===== verification/GoTime.v ===== *)
(** * Go's [time.Time.Format(time.RFC3339)] in UTC

    Instants are nanoseconds since the Unix epoch.  The civil date is that of
    the proleptic Gregorian calendar, as in package [time]. *)
From stdpp Require Import base list strings.
From S2P Require Import Prelude GoStrings.

Definition ns_per_second : Z := 1000000000.

(** ** Civil dates

    The computation of [time.Time.Date]: 400-year, 100-year, 4-year and 1-year
    cycles counted off from January 1st of year 1, then the month. *)
Definition isLeap (year : Z) : bool :=
  (year `mod` 4 =? 0) && (negb (year `mod` 100 =? 0) || (year `mod` 400 =? 0)).

(** Year and day of the year (from 0) of a number of days since 1970-01-01. *)
Definition year_yday (days : Z) : Z * Z :=
  let d := days + 719162 in
  let n400 := d / 146097 in
  let d := d - 146097 * n400 in
  let n100 := d / 36524 in
  let n100 := n100 - Z.shiftr n100 2 in
  let d := d - 36524 * n100 in
  let n4 := d / 1461 in
  let d := d - 1461 * n4 in
  let n1 := d / 365 in
  let n1 := n1 - Z.shiftr n1 2 in
  (400 * n400 + 100 * n100 + 4 * n4 + n1 + 1, d - 365 * n1).

Definition daysBefore : list Z := [0; 31; 59; 90; 120; 151; 181; 212; 243; 273; 304; 334; 365].

(** Month and day of a day of the year. *)
Definition month_day (leap : bool) (yday : Z) : Z * Z :=
  if leap && (yday =? 59) then (2, 29)
  else
    let day := if leap && (59 <? yday) then yday - 1 else yday in
    let month := day / 31 in
    let end_ := default 0 (daysBefore !! Z.to_nat (month + 1)) in
    if end_ <=? day then (month + 2, day - end_ + 1)
    else (month + 1, day - default 0 (daysBefore !! Z.to_nat month) + 1).

Definition civil_from_days (days : Z) : Z * Z * Z :=
  let '(year, yday) := year_yday days in
  let '(m, d) := month_day (isLeap year) yday in (year, m, d).

(** And back. *)
Definition yday_of (leap : bool) (m d : Z) : Z :=
  default 0 (daysBefore !! Z.to_nat (m - 1)) + d - 1 + (if leap && (2 <? m) then 1 else 0).

Definition days_before_year (year : Z) : Z :=
  let y := year - 1 in 365 * y + y / 4 - y / 100 + y / 400 - 719162.

Definition days_from_civil (y m d : Z) : Z :=
  days_before_year y + yday_of (isLeap y) m d.

(** [lia] with quotients and remainders by constants. *)
Ltac dlia := Z.div_mod_to_equations; lia.

(** One 400-year cycle: what the shorter cycles leave. *)
Lemma cycles_ok r :
  0 <= r < 146097 ->
  let b0 := r / 36524 in let b := b0 - b0 / 4 in
  let r1 := r - 36524 * b in
  let c := r1 / 1461 in let r2 := r1 - 1461 * c in
  let e0 := r2 / 365 in let e := e0 - e0 / 4 in
  0 <= b <= 3 /\ 0 <= c <= 24 /\ 0 <= e <= 3 /\ 0 <= r2 - 365 * e <= 365 /\
  (r2 - 365 * e = 365 -> e = 3 /\ (c = 24 -> b = 3)).
Proof.
  intros Hr b0 b r1 c r2 e0 e.
  assert (Hb : 0 <= b <= 3 /\ 0 <= r1 <= 36524 /\ (r1 = 36524 -> b = 3)) by (subst r1 b b0; dlia).
  clearbody r1 b.
  assert (Hc : 0 <= c <= 24 /\ 0 <= r2 <= 1460 /\ (c = 24 -> r2 = 1460 -> r1 = 36524))
    by (subst r2 c; dlia).
  clearbody r2 c. assert (He : 0 <= e <= 3 /\ 0 <= r2 - 365 * e <= 365 /\
    (r2 - 365 * e = 365 -> e = 3 /\ r2 = 1460)) by (subst e e0; dlia).
  clearbody e. intuition lia.
Qed.

Lemma year_yday_back days :
  let '(y, yday) := year_yday days in
  days_before_year y + yday = days /\ 0 <= yday <= 365 /\
  (yday = 365 -> isLeap y = true).
Proof.
  unfold year_yday, days_before_year. cbv zeta. rewrite !Z.shiftr_div_pow2 by lia.
  change (2 ^ 2) with 4. remember (days + 719162) as d eqn:Hd.
  set (a := d / 146097). set (r := d - 146097 * a).
  assert (Hr : 0 <= r < 146097) by (subst r a; dlia).
  pose proof (cycles_ok r Hr) as Hc. cbv zeta in Hc.
  set (b := r / 36524 - r / 36524 / 4) in *. set (r1 := r - 36524 * b) in *.
  set (c := r1 / 1461) in *. set (r2 := r1 - 1461 * c) in *.
  set (e := r2 / 365 - r2 / 365 / 4) in *. destruct Hc as (Hb & Hc & He & Hy & Hl).
  split; [|split; [exact Hy|]].
  2:{ intros [H3 H24]%Hl. unfold isLeap. clearbody a b c e. clear Hl Hy Hd Hr r1 r2 r d.
      rewrite andb_true_iff, orb_true_iff, negb_true_iff, !Z.eqb_eq, Z.eqb_neq. split; [dlia|].
      destruct (decide (c = 24)); [right; dlia | left; dlia]. }
  replace (400 * a + 100 * b + 4 * c + e + 1 - 1) with (400 * a + 100 * b + 4 * c + e) by lia.
  assert (H4 : (400 * a + 100 * b + 4 * c + e) / 4 = 100 * a + 25 * b + c) by (clearbody a b c e; dlia).
  assert (H100 : (400 * a + 100 * b + 4 * c + e) / 100 = 4 * a + b) by (clearbody a b c e; dlia).
  assert (H400 : (400 * a + 100 * b + 4 * c + e) / 400 = a) by (clearbody a b c e; dlia).
  rewrite H4, H100, H400. clearbody e. lia.
Qed.

(** The month table, checked on every day of both kinds of years. *)
Definition month_day_ok (leap : bool) (yday : nat) : bool :=
  let '(m, d) := month_day leap (Z.of_nat yday) in
  (1 <=? m) && (m <=? 12) && (1 <=? d) && (d <=? 31) &&
  (yday_of leap m d =? Z.of_nat yday).

Lemma month_days_ok leap (yday : Z) :
  0 <= yday <= 365 -> (yday = 365 -> leap = true) ->
  let '(m, d) := month_day leap yday in
  1 <= m <= 12 /\ 1 <= d <= 31 /\ yday_of leap m d = yday.
Proof.
  intros Hy Hl.
  assert (Hok : month_day_ok leap (Z.to_nat yday) = true).
  { assert (Hall : forallb (month_day_ok true) (seq 0 366) = true /\
                   forallb (month_day_ok false) (seq 0 365) = true) by (split; vm_compute; reflexivity).
    rewrite !forallb_forall in Hall. destruct Hall as [Ht Hf].
    destruct leap; [apply Ht | apply Hf]; apply in_seq; [lia|].
    assert (yday <> 365) by (intros ?%Hl; done). lia. }
  unfold month_day_ok in Hok. rewrite Z2Nat.id in Hok by lia.
  destruct (month_day leap yday) as [m d].
  rewrite !andb_true_iff, !Z.leb_le, Z.eqb_eq in Hok. lia.
Qed.

Lemma days_from_civil_from_days days :
  let '(y, m, d) := civil_from_days days in
  days_from_civil y m d = days /\ 1 <= m <= 12 /\ 1 <= d <= 31.
Proof.
  unfold civil_from_days, days_from_civil.
  pose proof (year_yday_back days) as Hy. destruct (year_yday days) as [y yd].
  destruct Hy as (H1 & H2 & H3). pose proof (month_days_ok (isLeap y) yd H2 H3) as Hm.
  destruct (month_day (isLeap y) yd) as [m d]. destruct Hm as (Hm & Hd & Hyd).
  rewrite Hyd. lia.
Qed.

(** ** Digits *)
#[local] Open Scope string_scope.

Definition digit (n : Z) : Ascii.ascii := Ascii.ascii_of_nat (Z.to_nat n + 48).

(** The last [w] decimal digits of [n]. *)
Fixpoint pad (w : nat) (n : Z) : string :=
  match w with
  | O => ""
  | S w' => pad w' (n / 10) +:+ String (digit (n `mod` 10)) ""
  end.

(** A year is written with at least four digits. *)
Definition year_width (y : Z) : nat := if (y <? 10000)%Z then 4 else if (y <? 100000)%Z then 5 else 6.

(** Date and second of the day. *)
Definition format_date_time (days s : Z) : string :=
  let '(y, m, d) := civil_from_days days in
  pad (year_width y) y +:+ "-" +:+ pad 2 m +:+ "-" +:+ pad 2 d +:+ "T" +:+
  pad 2 (s / 3600) +:+ ":" +:+ pad 2 ((s / 60) `mod` 60) +:+ ":" +:+ pad 2 (s `mod` 60) +:+ "Z".

Definition FormatRFC3339 (t : Z) : string :=
  let secs := t / ns_per_second in
  format_date_time (secs / 86400) (secs `mod` 86400).

Example format_epoch : FormatRFC3339 0 = "1970-01-01T00:00:00Z".
Proof. vm_compute. reflexivity. Qed.
Example format_leap : FormatRFC3339 (951782400 * ns_per_second + 305000000) = "2000-02-29T00:00:00Z".
Proof. vm_compute. reflexivity. Qed.
Example format_2019 : FormatRFC3339 (1561145289 * ns_per_second) = "2019-06-21T19:28:09Z".
Proof. vm_compute. reflexivity. Qed.

Lemma digit_inj a b : 0 <= a < 10 -> 0 <= b < 10 -> digit a = digit b -> a = b.
Proof.
  unfold digit. intros Ha Hb H. apply (f_equal Ascii.nat_of_ascii) in H.
  rewrite !Ascii.nat_ascii_embedding in H by lia. lia.
Qed.

Lemma string_length_app a b : String.length (a +:+ b) = (String.length a + String.length b)%nat.
Proof. induction a as [|c a IH]; [done|]. rewrite string_app_cons. simpl. by rewrite IH. Qed.

Lemma pad_length w n : String.length (pad w n) = w.
Proof. revert n. induction w as [|w IH]; intros n; [done|]. simpl. rewrite string_length_app, IH. simpl. lia. Qed.

Lemma string_app_inj a a' b b' :
  String.length a = String.length a' -> a +:+ b = a' +:+ b' -> a = a' /\ b = b'.
Proof.
  revert a'. induction a as [|c a IH]; intros [|c' a']; try done.
  rewrite !string_app_cons. simpl. intros [= Hl] [= -> H]. by destruct (IH a' Hl H) as [-> ->].
Qed.

Lemma pad_inj w a b :
  0 <= a < 10 ^ Z.of_nat w -> 0 <= b < 10 ^ Z.of_nat w -> pad w a = pad w b -> a = b.
Proof.
  revert a b. induction w as [|w IH]; intros a b; [simpl; lia|].
  rewrite Nat2Z.inj_succ, Z.pow_succ_r by lia. cbn [pad]. intros Ha Hb H.
  apply string_app_inj in H as [H1 [= H2]]; [|by rewrite !pad_length].
  apply digit_inj in H2; [|apply Z.mod_pos_bound; lia..].
  apply IH in H1;
    [|split; [apply Z.div_pos; lia | apply Z.div_lt_upper_bound; lia]..].
  rewrite (Z.div_mod a 10), (Z.div_mod b 10) by lia. congruence.
Qed.

Lemma civil_year_nonneg days :
  0 <= days -> let '(y, m, d) := civil_from_days days in 0 <= y.
Proof.
  intros Hd. unfold civil_from_days. pose proof (year_yday_back days) as Hy.
  destruct (year_yday days) as [y yd]. destruct (month_day (isLeap y) yd) as [m d].
  destruct Hy as (H1 & H2 & _). unfold days_before_year in H1. dlia.
Qed.

(** Fields of equal width, one after the other. *)
Lemma pad_field_inj w a b (rest rest' : string) :
  0 <= a < 10 ^ Z.of_nat w -> 0 <= b < 10 ^ Z.of_nat w ->
  pad w a +:+ rest = pad w b +:+ rest' -> a = b /\ rest = rest'.
Proof.
  intros Ha Hb [H1 H2]%string_app_inj; [|by rewrite !pad_length].
  split; [by apply (pad_inj w) | done].
Qed.

Lemma year_width_inj y y' (rest rest' : string) :
  0 <= y < 10000 -> 0 <= y' -> String.length rest = String.length rest' ->
  pad (year_width y) y +:+ rest = pad (year_width y') y' +:+ rest' -> y = y' /\ rest = rest'.
Proof.
  intros Hy Hy' Hl H. assert (Hw : year_width y = 4%nat).
  { unfold year_width. by rewrite (proj2 (Z.ltb_lt y 10000)) by lia. }
  rewrite Hw in H. unfold year_width in H.
  destruct (Z.ltb_spec y' 10000).
  - apply pad_field_inj in H; simpl; lia || done.
  - exfalso. apply (f_equal String.length) in H. rewrite !string_length_app, !pad_length in H.
    destruct (_ <? _)%Z; lia.
Qed.

(** The text determines the second, for the years written with four digits. *)
Lemma format_date_time_inj da sa db sb :
  0 <= da -> 0 <= db -> 0 <= sa < 86400 -> 0 <= sb < 86400 ->
  (civil_from_days da).1.1 < 10000 ->
  format_date_time da sa = format_date_time db sb -> da = db /\ sa = sb.
Proof.
  unfold format_date_time. intros Hda Hdb Hsa Hsb Hy.
  pose proof (civil_year_nonneg da Hda) as Hya. pose proof (civil_year_nonneg db Hdb) as Hyb.
  pose proof (days_from_civil_from_days da) as Hca. pose proof (days_from_civil_from_days db) as Hcb.
  destruct (civil_from_days da) as [[y m] d], (civil_from_days db) as [[y' m'] d'].
  simpl in Hy. destruct Hca as (Hca & Hma & Hdda), Hcb as (Hcb & Hmb & Hddb).
  intros H. apply year_width_inj in H as [-> H]; [|lia|lia|].
  2:{ rewrite !string_length_app, !pad_length. done. }
  apply string_app_inj_l in H. apply pad_field_inj in H as [-> H]; [|simpl; lia..].
  apply string_app_inj_l in H. apply pad_field_inj in H as [-> H]; [|simpl; lia..].
  apply string_app_inj_l in H. apply pad_field_inj in H as [H1 H]; [|simpl; dlia..].
  apply string_app_inj_l in H. apply pad_field_inj in H as [H2 H]; [|simpl; dlia..].
  apply string_app_inj_l in H. apply pad_field_inj in H as [H3 _]; [|simpl; dlia..].
  split; [congruence | dlia].
Qed.

Lemma FormatRFC3339_inj a b :
  0 <= a -> 0 <= b -> (civil_from_days (a / ns_per_second / 86400)).1.1 < 10000 ->
  FormatRFC3339 a = FormatRFC3339 b -> a / ns_per_second = b / ns_per_second.
Proof.
  unfold FormatRFC3339. intros Ha Hb Hy.
  assert (Hab : 0 <= a / ns_per_second /\ 0 <= b / ns_per_second) by (unfold ns_per_second; dlia).
  revert Hy Hab. generalize (a / ns_per_second) as sa, (b / ns_per_second) as sb.
  intros sa sb Hy [H1 H2] H.
  apply format_date_time_inj in H as [Hd Hs]; [|dlia..|done]. dlia.
Qed.

(** The only instants of 1970 and later written as the epoch are those of its
    first second. *)
Lemma FormatRFC3339_epoch t :
  0 <= t -> FormatRFC3339 t = "1970-01-01T00:00:00Z" <-> t < ns_per_second.
Proof.
  intros Ht. split.
  - intros H. rewrite <- format_epoch in H. symmetry in H.
    apply FormatRFC3339_inj in H; [|done|done|vm_compute; reflexivity].
    unfold ns_per_second in *. dlia.
  - intros Hl. unfold FormatRFC3339. replace (t / ns_per_second) with 0; [reflexivity|].
    unfold ns_per_second in *. dlia.
Qed.
