(* ===== verification/RateLimiter.v ===== *)
(** * pkg/ratelimiter: spacing of work-queue additions

    A limiter keeps, per item, how often it was added since it was last
    forgotten, and the instant at which the last addition is released.  Times
    are nanoseconds; [time.Now()] is an argument.  Durations are 64-bit, and
    [time.Time.Sub] saturates. *)
From stdpp Require Import base list gmap sorting.
From S2P Require Import Prelude.

Section limiter.
Context `{Countable K}.

Record RateLimiter := mkRateLimiter {
  failures : gmap K Z;
  currentDelay : Z;
  delayInterval : Z
}.

Definition NewRateLimiter (now delay : Z) : RateLimiter :=
  mkRateLimiter ∅ (now + wrap64 (-1 * delay)) delay.

(** The zero value for a missing key. *)
Definition failures_of (r : RateLimiter) (item : K) : Z := default 0 (failures r !! item).

Definition When (now : Z) (item : K) (r : RateLimiter) : Z * RateLimiter :=
  let fs := <[item := wrap64 (failures_of r item + 1)]> (failures r) in
  let newDelay := currentDelay r + delayInterval r in
  if newDelay <? now then (0, mkRateLimiter fs now (delayInterval r))
  else (clamp64 (newDelay - now), mkRateLimiter fs newDelay (delayInterval r)).

Definition Forget (item : K) (r : RateLimiter) : RateLimiter :=
  mkRateLimiter (delete item (failures r)) (currentDelay r) (delayInterval r).

Definition NumRequeues (item : K) (r : RateLimiter) : Z := failures_of r item.

(** ** One call *)

Lemma When_currentDelay now item r :
  currentDelay (When now item r).2 = Z.max now (currentDelay r + delayInterval r).
Proof. unfold When. destruct (Z.ltb_spec (currentDelay r + delayInterval r) now); simpl; lia. Qed.

Lemma When_delayInterval now item r :
  delayInterval (When now item r).2 = delayInterval r.
Proof. unfold When. by destruct (_ <? _). Qed.

(** Without saturation the item is released at the new [currentDelay]. *)
Lemma When_release now item r :
  currentDelay r + delayInterval r - now <= max_int64 ->
  now + (When now item r).1 = currentDelay (When now item r).2.
Proof.
  intros Hm. unfold When. destruct (Z.ltb_spec (currentDelay r + delayInterval r) now); simpl;
    [lia|]. rewrite clamp64_id; [lia|]. unfold in_int64, min_int64. lia.
Qed.

Lemma When_nonneg now item r : 0 <= (When now item r).1.
Proof.
  unfold When. destruct (Z.ltb_spec (currentDelay r + delayInterval r) now); simpl; [done|].
  apply clamp64_nonneg. lia.
Qed.

Lemma When_failures now item r :
  failures (When now item r).2 = <[item := wrap64 (failures_of r item + 1)]> (failures r).
Proof. unfold When. by destruct (_ <? _). Qed.

(** ** Sequences of additions *)

(** The additions of [calls], clock and item; the instants at which they are
    released. *)
Fixpoint releases (r : RateLimiter) (calls : list (Z * K)) : list Z :=
  match calls with
  | [] => []
  | (now, item) :: rest =>
      let '(d, r') := When now item r in (now + d) :: releases r' rest
  end.

(** The clock does not go back, from [t] on. *)
Fixpoint clock_from (t : Z) (calls : list (Z * K)) : Prop :=
  match calls with
  | [] => True
  | (now, _) :: rest => t <= now /\ clock_from now rest
  end.

(** Enough room for the delays of all the calls in a [time.Duration]. *)
Definition fits (t : Z) (r : RateLimiter) (calls : list (Z * K)) : Prop :=
  currentDelay r - t + Z.of_nat (length calls) * delayInterval r <= max_int64 /\
  Z.of_nat (length calls) * delayInterval r <= max_int64.

Lemma fits_step t now item r calls :
  0 <= delayInterval r -> t <= now -> fits t r ((now, item) :: calls) ->
  fits now (When now item r).2 calls /\
  currentDelay r + delayInterval r - now <= max_int64.
Proof.
  intros HD Ht. unfold fits. simpl length.
  rewrite When_currentDelay, When_delayInterval. unfold max_int64.
  rewrite Nat2Z.inj_succ, Z.mul_succ_l.
  pose proof (Z.mul_nonneg_nonneg (Z.of_nat (length calls)) (delayInterval r)). lia.
Qed.

Lemma releases_lookup_lb r calls t j b :
  0 <= delayInterval r -> clock_from t calls -> fits t r calls ->
  releases r calls !! j = Some b ->
  currentDelay r + (Z.of_nat j + 1) * delayInterval r <= b.
Proof.
  revert r t j. induction calls as [|[now item] calls IH]; intros r t j HD Hc Hf; [done|].
  destruct Hc as [Ht Hc]. destruct (fits_step _ _ _ _ _ HD Ht Hf) as [Hf' Hs].
  cbn [releases]. pose proof (When_release now item r Hs) as Hr.
  pose proof (When_currentDelay now item r) as Hcd.
  pose proof (When_delayInterval now item r) as Hdi.
  destruct (When now item r) as [d r'] eqn:Hw. simpl in *.
  destruct j as [|j]; simpl; [intros [= <-]; lia|].
  intros Hb. apply (IH r' now j) in Hb; [|by rewrite Hdi|done|done].
  rewrite Hcd, Hdi in Hb. nia.
Qed.

Lemma releases_spaced r calls t i j a b :
  0 <= delayInterval r -> clock_from t calls -> fits t r calls ->
  releases r calls !! i = Some a -> releases r calls !! j = Some b -> (i < j)%nat ->
  a + (Z.of_nat j - Z.of_nat i) * delayInterval r <= b.
Proof.
  revert r t i j. induction calls as [|[now item] calls IH]; intros r t i j HD Hc Hf; [done|].
  destruct Hc as [Ht Hc]. destruct (fits_step _ _ _ _ _ HD Ht Hf) as [Hf' Hs].
  cbn [releases]. pose proof (When_release now item r Hs) as Hr.
  pose proof (When_delayInterval now item r) as Hdi.
  destruct (When now item r) as [d r'] eqn:Hw. simpl in *.
  destruct j as [|j]; [lia|]. destruct i as [|i]; simpl.
  - intros [= <-] Hb _. apply (releases_lookup_lb r' calls now) in Hb; [|by rewrite Hdi|done|done].
    rewrite Hdi in Hb. rewrite Hr. nia.
  - intros Ha Hb Hij. rewrite <- Hdi.
    pose proof (IH r' now i j ltac:(by rewrite Hdi) Hc Hf' Ha Hb). lia.
Qed.

(** C26. Whatever the clock does (as long as it does not go back) the
    releases of two additions [i < j] are at least [j - i] intervals apart,
    also after an idle period, and none is released before it is asked for. *)
Theorem When_spacing r calls t :
  0 <= delayInterval r -> clock_from t calls -> fits t r calls ->
  (forall i j a b, releases r calls !! i = Some a -> releases r calls !! j = Some b ->
     (i < j)%nat -> a + (Z.of_nat j - Z.of_nat i) * delayInterval r <= b) /\
  Forall2 (fun c a => c.1 <= a) calls (releases r calls).
Proof.
  intros HD Hc Hf. split; [eauto using releases_spaced|].
  clear HD Hc Hf. revert r. induction calls as [|[now item] calls IH]; intros r; [constructor|].
  cbn [releases]. pose proof (When_nonneg now item r).
  destruct (When now item r) as [d r'] eqn:Hw. simpl in *. constructor; [simpl; lia | apply IH].
Qed.

(** [k] additions at the instant [now]. *)
Lemma releases_burst r now items :
  0 <= delayInterval r -> now <= currentDelay r + delayInterval r ->
  currentDelay r + Z.of_nat (length items) * delayInterval r - now <= max_int64 ->
  releases r (map (pair now) items) =
  map (fun i => currentDelay r + (Z.of_nat i + 1) * delayInterval r) (seq 0 (length items)).
Proof.
  revert r. induction items as [|item items IH]; intros r HD Hn Hm; [done|].
  cbn [map releases length seq] in *. rewrite <- seq_shift, map_map.
  pose proof (When_release now item r ltac:(nia)) as Hr.
  pose proof (When_currentDelay now item r) as Hcd.
  pose proof (When_delayInterval now item r) as Hdi.
  destruct (When now item r) as [d r'] eqn:Hw. simpl in *.
  rewrite Z.max_r in Hcd by lia. f_equal; [lia|].
  rewrite IH by (rewrite ?Hcd, ?Hdi; nia). apply map_ext. intros i. rewrite Hcd, Hdi. lia.
Qed.

Lemma wrap64_neg d : 0 <= d <= max_int64 -> wrap64 (-1 * d) = - d.
Proof. intros Hd. rewrite wrap64_id; unfold in_int64, min_int64, max_int64 in *; lia. Qed.

(** C27. A burst on a new limiter: of the items added at one instant the
    first is released at once, the second one interval later, the [i]-th
    [i] intervals later. *)
Theorem When_burst t0 delay now items :
  0 <= delay -> t0 <= now ->
  Z.of_nat (length items) * delay <= max_int64 ->
  releases (NewRateLimiter t0 delay) (map (pair now) items) =
  map (fun i => now + Z.of_nat i * delay) (seq 0 (length items)).
Proof.
  intros HD Ht Hm. destruct items as [|item items]; [done|]. cbn [map releases length] in *.
  rewrite Nat2Z.inj_succ, Z.mul_succ_l in Hm.
  pose proof (Z.mul_nonneg_nonneg (Z.of_nat (length items)) delay ltac:(lia) HD) as Hk.
  assert (Hneg : wrap64 (-1 * delay) = - delay) by (apply wrap64_neg; lia).
  set (r := NewRateLimiter t0 delay). assert (currentDelay r = t0 - delay) by (simpl; lia).
  assert (delayInterval r = delay) by done.
  pose proof (When_release now item r) as Hr. pose proof (When_currentDelay now item r) as Hcd.
  pose proof (When_delayInterval now item r) as Hdi.
  destruct (When now item r) as [d r'] eqn:Hw. simpl in Hr, Hcd, Hdi.
  cbn [seq map].
  assert (currentDelay r' = now) as Hnow by lia. f_equal; [unfold max_int64 in *; lia|].
  rewrite releases_burst by (rewrite ?Hnow, ?Hdi; nia).
  rewrite <- seq_shift, map_map. apply map_ext. intros i. lia.
Qed.

(** ** The failure count *)

Inductive op := OpWhen (now : Z) (item : K) | OpForget (item : K).

Definition step_op (r : RateLimiter) (o : op) : RateLimiter :=
  match o with
  | OpWhen now item => (When now item r).2
  | OpForget item => Forget item r
  end.

(** How often [item] was added since it was last forgotten, the most recent
    operation first. *)
Fixpoint since_forget (item : K) (recent : list op) : nat :=
  match recent with
  | [] => 0
  | OpWhen _ i :: rest => (if decide (i = item) then 1 else 0) + since_forget item rest
  | OpForget i :: rest => if decide (i = item) then 0 else since_forget item rest
  end.

Lemma since_forget_le item recent : (since_forget item recent <= length recent)%nat.
Proof.
  induction recent as [|[now i|i] rest IH]; simpl; [lia|..]; case_decide; lia.
Qed.

(** [NumRequeues] counts the additions of the item since it was last
    forgotten, whatever happened to other items: adding an item that
    succeeds counts like adding one that failed. *)
Theorem NumRequeues_counts t0 delay ops item :
  Z.of_nat (length ops) <= max_int64 ->
  NumRequeues item (fold_left step_op ops (NewRateLimiter t0 delay)) =
  Z.of_nat (since_forget item (rev ops)).
Proof.
  induction ops as [|o ops IH] using rev_ind; [done|].
  rewrite length_app, fold_left_app, rev_app_distr. simpl. intros Hl.
  specialize (IH ltac:(lia)). revert IH.
  generalize (fold_left step_op ops (NewRateLimiter t0 delay)). intros r IH.
  destruct o as [now i|i]; simpl; unfold NumRequeues, failures_of in *; simpl.
  - rewrite When_failures, lookup_insert. case_decide; [subst|done]. simpl.
    unfold failures_of. rewrite IH, wrap64_id; [lia|].
    pose proof (since_forget_le item (rev ops)) as Hsf. rewrite length_rev in Hsf.
    unfold in_int64, min_int64, max_int64 in *. lia.
  - rewrite lookup_delete. by case_decide.
Qed.
End limiter.
Arguments RateLimiter K {_ _}.

Example When_spacing_witness :
  let r := NewRateLimiter (K := Z) 1000 250 in
  let calls := [(1000, 1); (1000, 2); (1400, 1); (5000, 3); (5000, 4)] in
  releases r calls = [1000; 1250; 1500; 5000; 5250] /\
  Forall2 (fun c a => c.1 <= a) calls (releases r calls).
Proof.
  split; [reflexivity|].
  apply (When_spacing (NewRateLimiter (K := Z) 1000 250) _ 1000);
    [vm_compute; discriminate | simpl; lia | split; vm_compute; discriminate].
Defined.

Example When_burst_witness :
  releases (NewRateLimiter (K := Z) 1000 250) (map (pair 1700) [7; 8; 9]) = [1700; 1950; 2200].
Proof.
  exact (When_burst 1000 250 1700 [7; 8; 9] ltac:(lia) ltac:(lia)
           ltac:(unfold max_int64; simpl; lia)).
Defined.

Example NumRequeues_counts_witness :
  NumRequeues 1 (fold_left step_op [OpWhen 0 1; OpWhen 5 1; OpForget 2; OpWhen 9 1]
                   (NewRateLimiter 0 250)) = 3.
Proof.
  exact (NumRequeues_counts 0 250 [OpWhen 0 1; OpWhen 5 1; OpForget 2; OpWhen 9 1] 1
           ltac:(unfold max_int64; simpl; lia)).
Defined.
