(* ===== verification/SharedLimiter.v ===== *)
(** * pkg/ratelimiter shared by goroutines

    The limiter of the work queue is called by the worker, the crons and the
    handlers of the informers at the same time.  Here its methods are the
    accesses to the fields they make under [failuresLock], any number of
    goroutines call them, and every interleaving of the accesses has the
    results of [RateLimiter]'s functions, applied one after the other. *)
From stdpp Require Import base list gmap relations.
From S2P Require Import Prelude Prog Mutex RateLimiter.

Section shared.
Context `{Countable K}.

(** ** The methods, access by access *)

Inductive LimE : Set -> Type :=
| GetFailures (item : K) : LimE Z
| SetFailures (item : K) (n : Z) : LimE unit
| DeleteFailures (item : K) : LimE unit
| GetCurrentDelay : LimE Z
| SetCurrentDelay (t : Z) : LimE unit
| GetDelayInterval : LimE Z
| TimeNow : LimE Z.

Inductive LimM : Set -> Type :=
| MWhen (item : K) : LimM Z
| MForget (item : K) : LimM unit
| MNumRequeues (item : K) : LimM Z.

Definition When_body (item : K) : prog LimE Z :=
  n ← trigger (GetFailures item);
  trigger (SetFailures item (wrap64 (n + 1)));;
  now ← trigger TimeNow;
  currentDelay ← trigger GetCurrentDelay;
  delayInterval ← trigger GetDelayInterval;
  let newDelay := currentDelay + delayInterval in
  if newDelay <? now then
    trigger (SetCurrentDelay now);;
    mret 0
  else
    trigger (SetCurrentDelay newDelay);;
    currentDelay ← trigger GetCurrentDelay;
    mret (clamp64 (currentDelay - now)).
Definition Forget_body (item : K) : prog LimE unit := trigger (DeleteFailures item).
Definition NumRequeues_body (item : K) : prog LimE Z := trigger (GetFailures item).

Definition method_body (X : Set) (m : LimM X) : prog LimE X :=
  match m with
  | MWhen item => When_body item
  | MForget item => Forget_body item
  | MNumRequeues item => NumRequeues_body item
  end.
(** [r.failuresLock.Lock(); defer r.failuresLock.Unlock()] *)
Definition method (X : Set) (m : LimM X) : Sect LimE NoE X := Guarded Exclusive (method_body X m).

(** The fields, and the instant the clock has reached, which does not go back
    ([time.Now] reads a monotonic clock). *)
Abbreviation state := (RateLimiter K * Z)%type.
Definition set_failures (f : gmap K Z) (r : RateLimiter K) : RateLimiter K :=
  mkRateLimiter f (currentDelay r) (delayInterval r).
Definition set_currentDelay (t : Z) (r : RateLimiter K) : RateLimiter K :=
  mkRateLimiter (failures r) t (delayInterval r).

Definition access (X : Set) (e : LimE X) : state -> X -> state -> Prop :=
  match e in LimE X return state -> X -> state -> Prop with
  | GetFailures item => fun s x s' => x = failures_of s.1 item /\ s' = s
  | SetFailures item n => fun s _ s' => s' = (set_failures (<[item := n]> (failures s.1)) s.1, s.2)
  | DeleteFailures item => fun s _ s' => s' = (set_failures (delete item (failures s.1)) s.1, s.2)
  | GetCurrentDelay => fun s x s' => x = currentDelay s.1 /\ s' = s
  | SetCurrentDelay t => fun s _ s' => s' = (set_currentDelay t s.1, s.2)
  | GetDelayInterval => fun s x s' => x = delayInterval s.1 /\ s' = s
  | TimeNow => fun s x s' => s.2 <= x /\ s' = (s.1, x)
  end.

(** Undisturbed, each method is the function of [RateLimiter]. *)
Lemma When_does item r t o s' :
  does access (When_body item) (r, t) o s' ->
  exists now, t <= now /\ o = Done (When now item r).1 /\ s' = ((When now item r).2, now).
Proof.
  intros (tr & He & Ha). unfold When_body in He. unfold When.
  exec_call He as n t1. destruct Ha as (s1 & [-> ->] & Ha).
  exec_call He as [] t2. destruct Ha as (s2 & -> & Ha).
  exec_call He as now t3. destruct Ha as (s3 & [Hnow ->] & Ha).
  exec_call He as cd t4. destruct Ha as (s4 & [-> ->] & Ha).
  exec_call He as di t5. destruct Ha as (s5 & [-> ->] & Ha).
  cbv zeta in He. cbn in He, Ha, Hnow |- *. exists now. split; [done|].
  destruct (currentDelay r + delayInterval r <? now).
  - exec_call He as [] t6. destruct Ha as (s6 & -> & Ha). exec_end He. by cbn in Ha; subst.
  - exec_call He as [] t6. destruct Ha as (s6 & -> & Ha).
    exec_call He as cd t7. destruct Ha as (s7 & [-> ->] & Ha). exec_end He. by cbn in Ha; subst.
Qed.

Lemma Forget_does item r t o s' :
  does access (Forget_body item) (r, t) o s' -> o = Done tt /\ s' = (Forget item r, t).
Proof.
  intros (tr & He & Ha). unfold Forget_body in He.
  exec_last He as []. destruct Ha as (s1 & -> & Ha). by cbn in Ha; subst.
Qed.

Lemma NumRequeues_does item r t o s' :
  does access (NumRequeues_body item) (r, t) o s' ->
  o = Done (NumRequeues item r) /\ s' = (r, t).
Proof.
  intros (tr & He & Ha). unfold NumRequeues_body in He.
  exec_last He as n. destruct Ha as (s1 & [-> ->] & Ha). by cbn in Ha; subst.
Qed.

(** ** Histories

    Calls one after the other, with what the functions return; the second
    list are the additions with the instants [When] read. *)
Inductive history (r0 : RateLimiter K) (t0 : Z)
  : list (Called (M := LimM)) -> list (Z * K) -> RateLimiter K -> Z -> Prop :=
| history_nil : history r0 t0 [] [] r0 t0
| history_When l calls r t i item now :
    history r0 t0 l calls r t -> t <= now ->
    history r0 t0 (l ++ [mkCalled i Z (MWhen item) (Done (When now item r).1)])
      (calls ++ [(now, item)]) (When now item r).2 now
| history_Forget l calls r t i item :
    history r0 t0 l calls r t ->
    history r0 t0 (l ++ [mkCalled i unit (MForget item) (Done tt)]) calls (Forget item r) t
| history_NumRequeues l calls r t i item :
    history r0 t0 l calls r t ->
    history r0 t0 (l ++ [mkCalled i Z (MNumRequeues item) (Done (NumRequeues item r))]) calls r t.

Lemma atomic_history {A} (qs : list (prog LimM A)) r0 t0 l a :
  atomic access no_effect method (qs, (r0, t0, tt)) l a ->
  exists calls, history r0 t0 l calls a.2.1.1 a.2.1.2.
Proof.
  induction 1 as [|l a1 cl a2 _ (calls & Hh) Hs]; [exists []; constructor|].
  destruct Hs as [qs1 [[r t] []] i X m k o [s' []] _ [Hd _]]. simpl in Hh, Hd.
  destruct m as [item|item|item]; simpl in *.
  - apply When_does in Hd as (now & Hnow & -> & ->). exists (calls ++ [(now, item)])%list. by apply (history_When _ _ _ _ _ t).
  - apply Forget_does in Hd as (-> & ->). eexists. by apply history_Forget.
  - apply NumRequeues_does in Hd as (-> & ->). eexists. by apply history_NumRequeues.
Qed.

(** The waits that [When] returned. *)
Definition waited (cl : Called (M := LimM)) : option Z :=
  match cl with
  | mkCalled _ _ m o =>
      match m in LimM X return outcome X -> option Z with
      | MWhen _ => fun o => match o with Done d => Some d | Panicked _ => None end
      | _ => fun _ => None
      end o
  end.

(** The limiter after the additions alone: the delays are the same. *)
Definition after (r : RateLimiter K) (calls : list (Z * K)) : RateLimiter K :=
  fold_left (fun r c => (When c.1 c.2 r).2) calls r.

Lemma releases_snoc r calls now item :
  releases r (calls ++ [(now, item)]) =
  (releases r calls ++ [now + (When now item (after r calls)).1])%list.
Proof.
  revert r. induction calls as [|[n i] calls IH]; intros r; cbn [releases app].
  - by destruct (When now item r) as [d r'] eqn:Hw; cbn; rewrite Hw.
  - unfold after. cbn [fold_left fst snd]. fold (after (When n i r).2 calls).
    destruct (When n i r) as [d r'] eqn:Hw. cbn [snd]. by rewrite IH.
Qed.

Lemma clock_from_snoc t (calls : list (Z * K)) now item t' :
  clock_from t calls -> t <= t' -> (forall c : Z * K, c ∈ calls -> c.1 <= t') -> t' <= now ->
  clock_from t (calls ++ [(now, item)]).
Proof.
  revert t. induction calls as [|[n i] calls IH]; intros t; simpl; [intros; lia|].
  intros [Htn Hc] Ht Hall Hnow. split; [done|]. apply IH; auto.
  - apply (Hall (n, i)). by left.
  - intros c Hin. apply Hall. by right.
Qed.

Lemma When_delays now (i1 i2 : K) r1 r2 :
  currentDelay r1 = currentDelay r2 -> delayInterval r1 = delayInterval r2 ->
  (When now i1 r1).1 = (When now i2 r2).1 /\
  currentDelay (When now i1 r1).2 = currentDelay (When now i2 r2).2.
Proof. unfold When. intros -> ->. by destruct (_ <? _). Qed.

Lemma after_snoc r calls now item :
  after r (calls ++ [(now, item)]) = (When now item (after r calls)).2.
Proof. unfold after. by rewrite fold_left_app. Qed.

(** What the additions of a history waited for are the releases of
    [RateLimiter], at a clock that does not go back. *)
Lemma history_releases r0 t0 l calls r t :
  history r0 t0 l calls r t ->
  clock_from t0 calls /\ t0 <= t /\ (forall c : Z * K, c ∈ calls -> c.1 <= t) /\
  currentDelay r = currentDelay (after r0 calls) /\ delayInterval r = delayInterval (after r0 calls) /\
  zip_with Z.add calls.*1 (omap waited l) = releases r0 calls /\ length (omap waited l) = length calls.
Proof.
  induction 1 as [|l calls r t i item now _ IH Hnow|l calls r t i item _ IH|l calls r t i item _ IH].
  - split_and!; try done. by intros c ?%not_elem_of_nil.
  - destruct IH as (Hc & Ht & Hall & Hcd & Hdi & Hz & Hlen).
    destruct (When_delays now item item r (after r0 calls) Hcd Hdi) as [Hw1 Hw2].
    split_and!.
    + by eapply clock_from_snoc.
    + lia.
    + intros c [Hin| ->%list_elem_of_singleton]%elem_of_app; [|done].
      specialize (Hall c Hin). lia.
    + by rewrite after_snoc.
    + rewrite after_snoc, !When_delayInterval. done.
    + rewrite releases_snoc, omap_app, fmap_app, zip_with_app by (by rewrite length_fmap).
      rewrite Hz. cbn. by rewrite Hw1.
    + rewrite omap_app, !length_app, Hlen. done.
  - rewrite omap_app, app_nil_r. exact IH.
  - rewrite omap_app, app_nil_r. exact IH.
Qed.

Lemma access_total X (e : LimE X) s : exists x s', access X e s x s'.
Proof.
  destruct s as [r t].
  destruct e; simpl;
    [by eexists _, _ | by exists tt; eexists | by exists tt; eexists | by eexists _, _
    | by exists tt; eexists | by eexists _, _ | exists t, (r, t); split; [cbn; lia|done]].
Qed.

(** C28. Any number of goroutines share one limiter, each running any
    program over its methods, and take turns in single accesses to its
    fields.  At every moment what they have seen is what they see when each
    call happens in one step, one after the other, with the results of the
    functions [When], [Forget] and [NumRequeues]; the instants [When] reads
    are then in order, so that the additions are released as [releases] says
    (and spaced as [When_spacing] says); and as long as one of them is not
    finished, one of them can go on. *)
Theorem limiter_linearizable {A} (qs : list (prog LimM A)) r0 t0 c :
  rtc (step access no_effect) (mkMachine (map (code method) qs) None ∅ (r0, t0) tt) c ->
  (exists l calls qs' r t,
     atomic access no_effect method (qs, (r0, t0, tt)) l (qs', (r, t, tt)) /\
     history r0 t0 l calls r t /\
     clock_from t0 calls /\ zip_with Z.add calls.*1 (omap waited l) = releases r0 calls /\
     (writer c = None -> goroutines c = map (code method) qs' /\ object c = (r, t))) /\
  (Forall finished (goroutines c) \/ exists c', step access no_effect c c').
Proof.
  intros Hs.
  apply (locked_atomic access no_effect method ltac:(done) qs (r0, t0, tt)) in Hs
    as (l & [qs' [[r t] []]] & Hl & Ha). split.
  - destruct (atomic_history _ _ _ _ _ Hl) as (calls & Hh).
    destruct (history_releases _ _ _ _ _ _ Hh) as (Hc & _ & _ & _ & _ & Hz & _).
    exists l, calls, qs', r, t. split_and!; try done. intros Hfree.
    pose proof (no_readers access method ltac:(done) _ _ Ha ltac:(done)) as Hr.
    destruct (abstracts_free access method ltac:(done) _ _ Ha Hfree Hr) as [Hg [= Ho]]. by rewrite Ho.
  - apply (locked_runs access no_effect method ltac:(done) access_total ltac:(done) c _ Ha).
Qed.
End shared.

(** ** Witness: two goroutines whose additions meet *)
Module SharedLimiterExample.
Definition adds (item : Z) : prog (LimM (K := Z)) Z :=
  d ← trigger (MWhen item); n ← trigger (MNumRequeues item); mret (d + 1000 * n).

(** The clock advances by one at each reading. *)
Definition answer (X : Set) (e : LimE (K := Z) X) (s : RateLimiter Z * Z) : X * (RateLimiter Z * Z) :=
  match e in LimE X return X * (RateLimiter Z * Z) with
  | GetFailures item => (failures_of s.1 item, s)
  | SetFailures item n => (tt, (set_failures (<[item := n]> (failures s.1)) s.1, s.2))
  | DeleteFailures item => (tt, (set_failures (delete item (failures s.1)) s.1, s.2))
  | GetCurrentDelay => (currentDelay s.1, s)
  | SetCurrentDelay t => (tt, (set_currentDelay t s.1, s.2))
  | GetDelayInterval => (delayInterval s.1, s)
  | TimeNow => (s.2 + 1, (s.1, s.2 + 1))
  end.
Lemma answer_access X (e : LimE X) s : access X e s (answer X e s).1 (answer X e s).2.
Proof. destruct e; simpl; try done. split; [cbn; lia|done]. Qed.

Definition answer_none (X : Set) (e : NoE X) (r : unit) : X * unit := match e with end.

Definition programs : list (prog (LimM (K := Z)) Z) := [adds 7; adds 8].
Definition start : Machine :=
  mkMachine (map (code method) programs) None ∅ (NewRateLimiter (K := Z) 1000 250, 1000) tt.
(** Both in turn: the second waits while the first holds the lock. *)
Definition turns : list nat := concat (repeat [0; 1]%nat 30).
Lemma calls_run : goroutines (schedule answer answer_none turns start) = [PRet 1000; PRet 1249].
Proof. vm_compute. reflexivity. Qed.
End SharedLimiterExample.

Example limiter_linearizable_witness :
  exists l calls qs' r t,
    atomic access no_effect method
      (SharedLimiterExample.programs, (NewRateLimiter (K := Z) 1000 250, 1000, tt)) l (qs', (r, t, tt)) /\
    history (NewRateLimiter 1000 250) 1000 l calls r t.
Proof.
  destruct (limiter_linearizable SharedLimiterExample.programs (NewRateLimiter 1000 250) 1000 _
    (schedule_steps access no_effect SharedLimiterExample.answer SharedLimiterExample.answer_none
       SharedLimiterExample.answer_access (fun X e r => match e with end)
       SharedLimiterExample.turns SharedLimiterExample.start))
    as [(l & calls & qs' & r & t & Ha & Hh & _) _].
  exists l, calls, qs', r, t. split; [exact Ha|exact Hh].
Defined.
