(* ===== verification/Zms.v ===== *)
(** * The data: Athenz domains and the AthenzDomain custom resource

    The [zms] records are those of the Athenz client library.  The fields the
    syncer reads or writes are fields here; what it only carries along
    (members, assertions, services, ...) is a type parameter per record, with
    decidable equality because [reflect.DeepEqual] compares it.
    [pkg/apis/athenz/v1/types.go] gives AthenzDomain, AthenzDomainSpec and
    AthenzDomainStatus. *)
From stdpp Require Import base list strings.
From S2P Require Import Prelude.

Class ZmsData := {
  RoleRest : Set;
  PolicyRest : Set;
  DomainRest : Set;
  (** TypeMeta and the fields of ObjectMeta other than name and version *)
  MetaRest : Set;
  (** their zero value *)
  MetaZero : MetaRest;
  RoleRest_dec :: EqDecision RoleRest;
  PolicyRest_dec :: EqDecision PolicyRest;
  DomainRest_dec :: EqDecision DomainRest;
}.

Section data.
Context `{ZmsData}.

Record Role := mkRole {
  Role_Name : string;
  Role_Trust : string;
  Role_rest : RoleRest
}.

Record Policy := mkPolicy {
  Policy_Name : string;
  Policy_rest : PolicyRest
}.

Record DomainPolicies := mkDomainPolicies {
  DP_Domain : string;
  DP_Policies : slice (ptr Policy)
}.

Record SignedPolicies := mkSignedPolicies {
  SP_Contents : ptr DomainPolicies;
  SP_Signature : string;
  SP_KeyId : string
}.

(** [Modified] is the instant, in nanoseconds since the Unix epoch. *)
Record DomainData := mkDomainData {
  DD_Name : string;
  DD_Modified : Z;
  DD_Roles : slice (ptr Role);
  DD_Policies : ptr SignedPolicies;
  DD_rest : DomainRest
}.

Record SignedDomain := mkSignedDomain {
  SD_Domain : ptr DomainData;
  SD_Signature : string;
  SD_KeyId : string
}.

Record SignedDomains := mkSignedDomains { SDs_Domains : slice (ptr SignedDomain) }.

(** AthenzDomainSpec embeds a SignedDomain. *)
Record AthenzDomainSpec := mkSpec { Spec_SignedDomain : SignedDomain }.

Record AthenzDomainStatus := mkStatus { Status_Message : string }.

Record ObjectMeta := mkMeta {
  Meta_Name : string;
  Meta_ResourceVersion : string;
  Meta_rest : MetaRest
}.

Record AthenzDomain := mkAthenzDomain {
  AD_Meta : ObjectMeta;
  AD_Status : AthenzDomainStatus;
  AD_Spec : AthenzDomainSpec
}.

(** Structural equality, which is [reflect.DeepEqual] on these values. *)
#[global] Instance Role_dec : EqDecision Role.
Proof. solve_decision. Defined.
#[global] Instance Policy_dec : EqDecision Policy.
Proof. solve_decision. Defined.
#[global] Instance DomainPolicies_dec : EqDecision DomainPolicies.
Proof. solve_decision. Defined.
#[global] Instance SignedPolicies_dec : EqDecision SignedPolicies.
Proof. solve_decision. Defined.
#[global] Instance DomainData_dec : EqDecision DomainData.
Proof. solve_decision. Defined.
#[global] Instance SignedDomain_dec : EqDecision SignedDomain.
Proof. solve_decision. Defined.
#[global] Instance Spec_dec : EqDecision AthenzDomainSpec.
Proof. solve_decision. Defined.
#[global] Instance Status_dec : EqDecision AthenzDomainStatus.
Proof. solve_decision. Defined.

(** ** Assignments to fields *)

Definition set_Roles (r : slice (ptr Role)) (d : DomainData) : DomainData :=
  mkDomainData (DD_Name d) (DD_Modified d) r (DD_Policies d) (DD_rest d).
Definition set_Policies (p : ptr SignedPolicies) (d : DomainData) : DomainData :=
  mkDomainData (DD_Name d) (DD_Modified d) (DD_Roles d) p (DD_rest d).
Definition set_DP_Policies (l : slice (ptr Policy)) (p : DomainPolicies) : DomainPolicies :=
  mkDomainPolicies (DP_Domain p) l.
Definition set_SP_Contents (c : ptr DomainPolicies) (p : SignedPolicies) : SignedPolicies :=
  mkSignedPolicies c (SP_Signature p) (SP_KeyId p).
Definition set_SP_Signature (s : string) (p : SignedPolicies) : SignedPolicies :=
  mkSignedPolicies (SP_Contents p) s (SP_KeyId p).
Definition set_SD_Domain (d : ptr DomainData) (s : SignedDomain) : SignedDomain :=
  mkSignedDomain d (SD_Signature s) (SD_KeyId s).
Definition set_SD_Signature (g : string) (s : SignedDomain) : SignedDomain :=
  mkSignedDomain (SD_Domain s) g (SD_KeyId s).
Definition set_ResourceVersion (v : string) (a : AthenzDomain) : AthenzDomain :=
  mkAthenzDomain (mkMeta (Meta_Name (AD_Meta a)) v (Meta_rest (AD_Meta a)))
    (AD_Status a) (AD_Spec a).
Definition set_Message (m : string) (a : AthenzDomain) : AthenzDomain :=
  mkAthenzDomain (AD_Meta a) (mkStatus m) (AD_Spec a).

(** The domain data a CR carries, through the embedded struct. *)
Definition AD_Domain (a : AthenzDomain) : ptr DomainData :=
  SD_Domain (Spec_SignedDomain (AD_Spec a)).
Definition AD_Name (a : AthenzDomain) : string := Meta_Name (AD_Meta a).
End data.

(** The deep-copy library [types.go] calls: [Copy] returns an [interface{}],
    [None] when the assertion back to [*AthenzDomainSpec] fails. *)
Class DeepCopyLib `{ZmsData} := {
  deepcopy_Copy : AthenzDomainSpec -> option AthenzDomainSpec
}.
(** Its documented behaviour: a value equal to its argument. *)
Class DeepCopyOk `{DeepCopyLib} : Prop :=
  deepcopy_clone : forall s, deepcopy_Copy s = Some s.

(** [AthenzDomainSpec.DeepCopy] *)
Definition AthenzDomainSpec_DeepCopy `{DeepCopyLib} (i : ptr AthenzDomainSpec)
  : ptr AthenzDomainSpec :=
  match i with
  | None => None
  | Some s =>
      match deepcopy_Copy s with
      | None => None
      | Some out => Some out
      end
  end.

(** A concrete choice of the unread fields, for examples. *)
Definition plain_data : ZmsData := {|
  RoleRest := list string;
  PolicyRest := list string;
  DomainRest := bool;
  MetaRest := list (string * string);
  MetaZero := []
|}.
Definition plain_copy : @DeepCopyLib plain_data := @Build_DeepCopyLib plain_data Some.
Lemma plain_copy_ok : @DeepCopyOk plain_data plain_copy.
Proof. intros s. reflexivity. Defined.
