(* ===== verification/Util.v ===== *)
(** * pkg/util: names of namespaces and domains, and the MSD filter

    [Util] is the configuration every other component holds.  The namespace
    and domain conversions, the membership tests, and [FilterMSDRules], which
    drops the roles and policies Athenz generates for micro-segmentation. *)
From stdpp Require Import base list strings gmap.
From S2P Require Import Prelude Prog GoStrings Zms.
#[local] Open Scope string_scope.

(** ** The configuration *)

Record Util := mkUtil {
  adminDomain : string;
  systemNamespaces : list string;
  excludeNamespaces : gmap string bool;
  excludeMSDRules : bool
}.

Definition NewUtil (admin : string) (system exclude : list string) (msd : bool) : Util :=
  let excludedNamespaceMap :=
    fold_left (fun m ns => <[ns := true]> m) exclude (∅ : gmap string bool) in
  mkUtil admin system excludedNamespaceMap msd.

(** ** Names *)

Definition DomainToNamespace (u : Util) (domain : string) : string :=
  if negb (String.eqb (adminDomain u) "") && HasPrefix domain (adminDomain u)
  then TrimPrefix domain (adminDomain u +:+ ".")
  else
    let dubdash := Replace domain "-" "--" in
    Replace dubdash "." "-".

Fixpoint in_list (ns : string) (l : list string) : bool :=
  match l with
  | [] => false
  | v :: l' => if String.eqb ns v then true else in_list ns l'
  end.

Definition isSystemNamespace (u : Util) (ns : string) : bool :=
  in_list ns (systemNamespaces u).

Definition NamespaceToDomain (u : Util) (ns : string) : string :=
  if isSystemNamespace u ns then adminDomain u +:+ "." +:+ ns
  else
    let dotted := Replace ns "-" "." in
    Replace dotted ".." "-".

Definition IsSystemDomain (u : Util) (domain : string) : bool :=
  (fix loop (l : list string) : bool :=
     match l with
     | [] => false
     | ns :: l' =>
         let sysDomain := NamespaceToDomain u ns in
         if String.eqb domain sysDomain then true else loop l'
     end) (systemNamespaces u).

Definition IsNamespaceExcluded (u : Util) (ns : string) : bool :=
  match excludeNamespaces u !! ns with Some _ => true | None => false end.

Definition IsAdminDomain (u : Util) (domain : string) : bool :=
  if String.eqb domain (adminDomain u) then true else false.

Definition GetAdminDomain (u : Util) : string := adminDomain u.

Definition GetSystemNSDomains (u : Util) : list string :=
  fold_left (fun domains ns => (domains ++ [NamespaceToDomain u ns])%list) (systemNamespaces u) [].

(** [getenv] is [os.Getenv]: the empty string for an unset variable. *)
Definition HomeDir (getenv : string -> string) : string :=
  let h := getenv "HOME" in
  if negb (String.eqb h "") then h else getenv "USERPROFILE".

(** ** The MSD filter *)

Section msd.
Context `{ZmsData} {E : Set -> Type}.

Definition msd_role (domainName : string) (role : Role) : bool :=
  HasPrefix (Role_Name role) (domainName +:+ ":role.acl.") ||
  HasPrefix (Role_Name role) (domainName +:+ ":role.msd-read-role-").

Definition msd_policy (domainName : string) (policy : Policy) : bool :=
  HasPrefix (Policy_Name policy) (domainName +:+ ":policy.acl.") ||
  HasPrefix (Policy_Name policy) (domainName +:+ ":policy.msd-read-policy-").

(** The two loops: [skip] decides [continue], the rest is appended. *)
Fixpoint filter_loop {A} (skip : A -> bool) (l : list (ptr A)) : prog E (list (ptr A)) :=
  match l with
  | [] => mret []
  | p :: l' =>
      a ← deref p;
      if skip a then filter_loop skip l'
      else rest ← filter_loop skip l'; mret (p :: rest)
  end.

Definition filterMSDRules (domain : ptr DomainData) : prog E (ptr DomainData) :=
  d ← deref domain;
  let domainName := DD_Name d in
  filteredRoles ← filter_loop (msd_role domainName) (elems (DD_Roles d));
  let d := set_Roles (slice_of filteredRoles) d in
  sp ← deref (DD_Policies d);
  contents ← deref (SP_Contents sp);
  filteredPolicies ← filter_loop (msd_policy domainName) (elems (DP_Policies contents));
  let contents := set_DP_Policies (slice_of filteredPolicies) contents in
  mret (Some (set_Policies (Some (set_SP_Contents (Some contents) sp)) d)).

Definition FilterMSDRules (u : Util) (domainData : ptr DomainData) : prog E (ptr DomainData) :=
  if negb (excludeMSDRules u) then mret domainData
  else filterMSDRules domainData.
End msd.

(** ** Membership *)

Lemma in_list_spec ns l : in_list ns l = true <-> ns ∈ l.
Proof.
  induction l as [|v l IH]; simpl; [by rewrite elem_of_nil|].
  rewrite elem_of_cons. destruct (String.eqb_spec ns v); [split; by auto|]. rewrite IH. tauto.
Qed.

Lemma fold_insert_lookup (l : list string) (m : gmap string bool) ns :
  is_Some (fold_left (fun m ns => <[ns := true]> m) l m !! ns) <-> is_Some (m !! ns) \/ ns ∈ l.
Proof.
  revert m. induction l as [|a l IH]; simpl; intros m.
  - rewrite elem_of_nil. tauto.
  - rewrite IH, elem_of_cons, lookup_insert_is_Some'. intuition congruence.
Qed.

Lemma fold_app_map {A B} (f : A -> B) l acc :
  fold_left (fun ds x => ds ++ [f x])%list l acc = (acc ++ map f l)%list.
Proof.
  revert acc. induction l as [|x l IH]; simpl; intros acc; [by rewrite app_nil_r|].
  by rewrite IH, <- app_assoc.
Qed.

Lemma isSystemNamespace_spec u ns :
  isSystemNamespace u ns = true <-> ns ∈ systemNamespaces u.
Proof. apply in_list_spec. Qed.

(** ** The conversions, byte by byte *)


(** '-' doubled, '.' turned into '-' : what [DomainToNamespace] does outside the
    admin domain. *)
Definition dash_code (c : Ascii.ascii) : string :=
  if Ascii.eqb dash c then "--" else if Ascii.eqb dot c then "-" else String c "".

(** [DomainToNamespace] is in its second branch. *)
Definition admin_prefixed (u : Util) (d : string) : bool :=
  negb (String.eqb (adminDomain u) "") && HasPrefix d (adminDomain u).

Lemma DomainToNamespace_user u d :
  admin_prefixed u d = false -> DomainToNamespace u d = subst_bytes dash_code d.
Proof.
  intros H. unfold DomainToNamespace. unfold admin_prefixed in H. rewrite H.
  cbv zeta. rewrite !Replace1, subst_bytes_comp. apply subst_bytes_ext. intros c _.
  unfold dash_code. unfold subst1 at 2.
  destruct (Ascii.eqb_spec dash c) as [<-|]; [reflexivity|].
  cbn [subst_bytes]. by rewrite string_app_nil_r.
Qed.

(** Dashes of a namespace become dots, then pairs of dots become dashes. *)
Definition collapse (s : string) : string := Replace s ".." "-".

Lemma NamespaceToDomain_user u ns :
  isSystemNamespace u ns = false ->
  NamespaceToDomain u ns = collapse (subst_bytes (subst1 dash ".") ns).
Proof.
  intros H. unfold NamespaceToDomain. rewrite H. cbv zeta. by rewrite Replace1.
Qed.

(** [subst_bytes f (String c s)] for the codes used here. *)
Lemma subst_bytes_cons f c s : subst_bytes f (String c s) = f c +:+ subst_bytes f s.
Proof. reflexivity. Qed.

Lemma has_byte_subst_dots ns : has_byte dash (subst_bytes (subst1 dash ".") ns) = false.
Proof.
  induction ns as [|c s IH]; [done|]. rewrite subst_bytes_cons, has_byte_app, IH, orb_false_r.
  unfold subst1. destruct (Ascii.eqb_spec dash c) as [<-|Hn]; [done|].
  cbn [has_byte]. rewrite orb_false_r. by apply Ascii.eqb_neq.
Qed.

(** Undoing [collapse]: in a string without dashes, expanding the dashes that
    [collapse] introduced gives back the string with dots read as dashes. *)
Lemma expand_collapse s :
  has_byte dash s = false ->
  subst_bytes dash_code (collapse s) = subst_bytes (subst1 dot "-") s.
Proof.
  unfold collapse. remember (String.length s) as n eqn:Hn. revert s Hn.
  induction n as [n IH] using (well_founded_induction lt_wf). intros s -> Hs.
  destruct s as [|c s]; [done|]. cbn [has_byte] in Hs. apply orb_false_iff in Hs as [Hc Hs].
  destruct (Ascii.eqb_spec dot c) as [<-|Hne].
  - destruct s as [|d s]; [done|]. destruct (Ascii.eqb_spec dot d) as [<-|Hd].
    + rewrite Replace2_pair, subst_bytes_app, !subst_bytes_cons.
      rewrite (IH (String.length s)) by (simpl in *; auto with lia). done.
    + rewrite Replace2_lone by done. rewrite subst_bytes_cons.
      rewrite (IH (String.length (String d s))) by (simpl in *; auto with lia). done.
  - rewrite Replace2_single by done. rewrite !subst_bytes_cons.
    rewrite (IH (String.length s)) by (simpl in *; auto with lia).
    unfold dash_code, subst1. apply Ascii.eqb_neq in Hne. by rewrite Hc, Hne.
Qed.

(** Where a domain survives the way to its namespace and back: no dot is
    followed by another dot or by a dash.  Athenz domain names, whose
    components start with a letter, a digit or an underscore, are such. *)
Fixpoint separators_ok (d : string) : bool :=
  match d with
  | EmptyString => true
  | String c d' =>
      negb (Ascii.eqb dot c && (HasPrefix d' "." || HasPrefix d' "-")) && separators_ok d'
  end.

Lemma HasPrefix1_cons c d s : HasPrefix (String d s) (String c "") = Ascii.eqb c d.
Proof. apply prefix1. Qed.

(** [collapse] only leaves a dot that no separator follows. *)
Lemma separators_ok_collapse s :
  has_byte dash s = false ->
  separators_ok (collapse s) = true /\
  (HasPrefix s "." = false ->
   HasPrefix (collapse s) "." = false /\ HasPrefix (collapse s) "-" = false).
Proof.
  unfold collapse. remember (String.length s) as n eqn:Hn. revert s Hn.
  induction n as [n IH] using (well_founded_induction lt_wf). intros s -> Hs.
  destruct s as [|c s]; [done|]. cbn [has_byte] in Hs. apply orb_false_iff in Hs as [Hc Hs].
  rewrite HasPrefix1_cons.
  destruct (Ascii.eqb_spec dot c) as [<-|Hne].
  - split; [|done]. destruct s as [|d s]; [done|].
    destruct (Ascii.eqb_spec dot d) as [<-|Hd].
    + rewrite Replace2_pair. apply (IH (String.length s)); [simpl; lia | done | done].
    + rewrite Replace2_lone by done. cbn [separators_ok].
      edestruct (IH (String.length (String d s))) as [H1 H2]; [|done|done|].
      { simpl. lia. }
      rewrite HasPrefix1_cons in H2. apply Ascii.eqb_neq in Hd.
      destruct (H2 Hd) as [-> ->]. by rewrite H1.
  - rewrite Replace2_single by done. cbn [separators_ok]. rewrite !HasPrefix1_cons.
    apply Ascii.eqb_neq in Hne. rewrite Hne, Hc. split; [|done].
    apply (IH (String.length s)); [simpl; lia | done | done].
Qed.

(** A domain as its namespace spells it, once the dashes are read as dots. *)
Definition dotted_code (c : Ascii.ascii) : string :=
  if Ascii.eqb dash c then ".." else String c "".

Lemma dotted_dash_code d :
  subst_bytes (subst1 dash ".") (subst_bytes dash_code d) = subst_bytes dotted_code d.
Proof.
  rewrite subst_bytes_comp. apply subst_bytes_ext. intros c _. unfold dash_code, dotted_code.
  destruct (Ascii.eqb_spec dash c) as [<-|Hd]; [done|].
  destruct (Ascii.eqb_spec dot c) as [<-|Ht]; [done|].
  cbn [subst_bytes]. rewrite string_app_nil_r. unfold subst1.
  apply Ascii.eqb_neq in Hd. by rewrite Hd.
Qed.

Lemma has_dash_dotted d : has_byte dash (subst_bytes dotted_code d) = false.
Proof. rewrite <- dotted_dash_code. apply has_byte_subst_dots. Qed.

Lemma collapse_dotted d :
  separators_ok d = true -> collapse (subst_bytes dotted_code d) = d.
Proof.
  unfold collapse. induction d as [|c d IH]; [done|]. cbn [separators_ok].
  rewrite andb_true_iff, negb_true_iff. intros [Hc Hd]. specialize (IH Hd).
  rewrite subst_bytes_cons. unfold dotted_code at 1.
  destruct (Ascii.eqb_spec dash c) as [<-|Hne].
  { rewrite !string_app_cons, string_app_empty, Replace2_pair, IH. done. }
  rewrite string_app_cons, string_app_empty.
  destruct (Ascii.eqb_spec dot c) as [<-|Ht].
  2:{ by rewrite Replace2_single, IH. }
  destruct d as [|e d]; [done|]. rewrite !HasPrefix1_cons in Hc. change (Ascii.eqb dot dot) with true in Hc. rewrite andb_true_l in Hc.
  apply orb_false_iff in Hc as [He1 He2].
  rewrite subst_bytes_cons in IH |- *. unfold dotted_code at 1. unfold dotted_code at 1 in IH.
  rewrite He2 in IH |- *. rewrite string_app_cons, string_app_empty in IH |- *.
  rewrite Replace2_lone; [by rewrite IH | by apply Ascii.eqb_neq].
Qed.

(** The domain of a user namespace, expanded again, is the namespace. *)
Lemma expand_NamespaceToDomain u ns :
  isSystemNamespace u ns = false -> has_byte dot ns = false ->
  subst_bytes dash_code (NamespaceToDomain u ns) = ns.
Proof.
  intros Hs Hd. rewrite NamespaceToDomain_user by done.
  rewrite expand_collapse by apply has_byte_subst_dots.
  rewrite subst_bytes_comp. rewrite <- (subst_bytes_id ns) at 2. apply subst_bytes_ext.
  intros c Hc. unfold subst1 at 2. destruct (Ascii.eqb_spec dash c) as [<-|]; [done|].
  cbn [subst_bytes]. rewrite string_app_nil_r. unfold subst1.
  destruct (Ascii.eqb_spec dot c) as [<-|]; [congruence | done].
Qed.

(** ** Theorems: the conversions *)

(** A namespace without dots, which is what Kubernetes accepts, is found
    again from its domain, unless it is a system namespace or its domain
    starts with the admin domain. *)
Theorem namespace_roundtrip u ns :
  isSystemNamespace u ns = false ->
  has_byte dot ns = false ->
  admin_prefixed u (NamespaceToDomain u ns) = false ->
  DomainToNamespace u (NamespaceToDomain u ns) = ns.
Proof.
  intros Hs Hd Ha. rewrite DomainToNamespace_user by done. by apply expand_NamespaceToDomain.
Qed.

Example namespace_roundtrip_witness :
  let u := NewUtil "admin.domain" ["kube-system"] [] false in
  DomainToNamespace u (NamespaceToDomain u "hello--world-test") = "hello--world-test".
Proof. apply namespace_roundtrip; reflexivity. Defined.

(** A domain survives the way to its namespace and back exactly when none
    of its dots is followed by a dot or a dash. *)
Theorem domain_roundtrip_iff u d :
  admin_prefixed u d = false ->
  isSystemNamespace u (DomainToNamespace u d) = false ->
  NamespaceToDomain u (DomainToNamespace u d) = d <-> separators_ok d = true.
Proof.
  intros Ha Hs. rewrite NamespaceToDomain_user by done.
  rewrite DomainToNamespace_user by done. rewrite dotted_dash_code.
  split; [intros <- | apply collapse_dotted].
  apply separators_ok_collapse, has_dash_dotted.
Qed.

Example domain_roundtrip_iff_witness :
  let u := NewUtil "admin.domain" ["kube-system"] [] false in
  (NamespaceToDomain u (DomainToNamespace u "k8s.athenz-istio-auth") = "k8s.athenz-istio-auth"
   <-> separators_ok "k8s.athenz-istio-auth" = true) /\
  (NamespaceToDomain u (DomainToNamespace u "a.-b") = "a.-b" <-> separators_ok "a.-b" = true).
Proof. split; apply domain_roundtrip_iff; reflexivity. Defined.

(** A domain below the admin domain's name is read as that of a system
    namespace; a namespace with such a domain that is none is lost. *)
Lemma admin_child_namespace_lost u ns s :
  adminDomain u <> "" -> NamespaceToDomain u ns = adminDomain u +:+ "." +:+ s ->
  DomainToNamespace u (NamespaceToDomain u ns) = s.
Proof.
  intros Ha ->. unfold DomainToNamespace. rewrite HasPrefix_app, andb_true_r.
  apply String.eqb_neq in Ha. rewrite Ha. simpl negb. cbv iota.
  by rewrite <- string_app_assoc, TrimPrefix_app.
Qed.

Example admin_child_namespace_lost_witness :
  let u := NewUtil "k8s" [] [] false in
  NamespaceToDomain u "k8s-foo" = "k8s.foo" /\ DomainToNamespace u (NamespaceToDomain u "k8s-foo") = "foo".
Proof. split; [reflexivity|]. apply admin_child_namespace_lost; [discriminate|reflexivity]. Defined.

(** A system namespace is found again from its domain, which is the admin
    domain, a dot and the namespace, provided there is an admin domain. *)
Theorem system_namespace_roundtrip u ns :
  isSystemNamespace u ns = true ->
  adminDomain u <> "" ->
  NamespaceToDomain u ns = adminDomain u +:+ "." +:+ ns /\
  DomainToNamespace u (NamespaceToDomain u ns) = ns.
Proof.
  intros Hs Ha. assert (NamespaceToDomain u ns = adminDomain u +:+ "." +:+ ns) as Hd.
  { unfold NamespaceToDomain. by rewrite Hs. }
  split; [done|]. by apply admin_child_namespace_lost.
Qed.

Example system_namespace_roundtrip_witness :
  let u := NewUtil "admin.domain" ["kube-system"] [] false in
  NamespaceToDomain u "kube-system" = "admin.domain.kube-system" /\
  DomainToNamespace u (NamespaceToDomain u "kube-system") = "kube-system".
Proof. apply system_namespace_roundtrip; [reflexivity | discriminate]. Defined.

(** C22. Every namespace Kubernetes accepts is found again from its domain: a
    system namespace when there is an admin domain, any other one, which has
    no dots, unless its domain starts with the admin domain's text. *)
Theorem namespaces_roundtrip u ns :
  (if isSystemNamespace u ns then adminDomain u <> ""
   else has_byte dot ns = false /\ admin_prefixed u (NamespaceToDomain u ns) = false) ->
  DomainToNamespace u (NamespaceToDomain u ns) = ns.
Proof.
  destruct (isSystemNamespace u ns) eqn:Hs.
  - intros Ha. by apply system_namespace_roundtrip.
  - intros [Hd Ha]. by apply namespace_roundtrip.
Qed.

Example namespaces_roundtrip_witness :
  let u := NewUtil "admin.domain" ["kube-system"] [] false in
  DomainToNamespace u (NamespaceToDomain u "kube-system") = "kube-system" /\
  DomainToNamespace u (NamespaceToDomain u "hello--world-test") = "hello--world-test".
Proof. split; apply namespaces_roundtrip; [discriminate | split; reflexivity]. Defined.

(** Two user namespaces never share a domain. *)
Lemma NamespaceToDomain_inj u ns1 ns2 :
  isSystemNamespace u ns1 = false -> isSystemNamespace u ns2 = false ->
  has_byte dot ns1 = false -> has_byte dot ns2 = false ->
  NamespaceToDomain u ns1 = NamespaceToDomain u ns2 -> ns1 = ns2.
Proof.
  intros Hs1 Hs2 Hd1 Hd2 H.
  rewrite <- (expand_NamespaceToDomain u ns1), <- (expand_NamespaceToDomain u ns2) by done.
  by rewrite H.
Qed.


(** The admin-domain test compares bytes, not components: a domain that
    merely starts with the admin domain's text, with no dot after it, is not
    converted at all.  A user domain such as [admin.domainx] so "becomes" the
    namespace [admin.domainx], which no cluster has, and not [admin-domainx]. *)
Theorem admin_sibling_not_converted u s :
  adminDomain u <> "" ->
  HasPrefix s "." = false ->
  DomainToNamespace u (adminDomain u +:+ s) = adminDomain u +:+ s.
Proof.
  intros Ha Hs. unfold DomainToNamespace. rewrite HasPrefix_app, andb_true_r.
  apply String.eqb_neq in Ha. rewrite Ha. simpl negb. cbv iota.
  apply TrimPrefix_no, not_true_iff_false. intros [s' Hp]%HasPrefix_spec.
  rewrite string_app_assoc in Hp. apply string_app_inj_l in Hp as ->.
  by rewrite HasPrefix_app in Hs.
Qed.

Example admin_sibling_not_converted_witness :
  let u := NewUtil "admin.domain" [] [] false in
  NamespaceToDomain u "admin-domainx" = "admin.domainx" /\
  DomainToNamespace u "admin.domainx" = "admin.domainx".
Proof.
  split; [reflexivity|].
  apply (admin_sibling_not_converted (NewUtil "admin.domain" [] [] false) "x");
    [discriminate | reflexivity].
Defined.

(** The namespaces given to [NewUtil] are the excluded ones. *)
Lemma IsNamespaceExcluded_NewUtil a sys excl msd ns :
  IsNamespaceExcluded (NewUtil a sys excl msd) ns = true <-> ns ∈ excl.
Proof.
  unfold IsNamespaceExcluded. simpl.
  pose proof (fold_insert_lookup excl ∅ ns) as Hl. rewrite lookup_empty, is_Some_alt in Hl.
  destruct (fold_left _ _ _ !! ns); split; intros; [|done|done|].
  - destruct Hl as [[[] |] _]; done.
  - destruct Hl as [_ []]. by right.
Qed.

Lemma GetSystemNSDomains_map u :
  GetSystemNSDomains u = map (fun ns => adminDomain u +:+ "." +:+ ns) (systemNamespaces u).
Proof.
  unfold GetSystemNSDomains. rewrite fold_app_map. simpl. apply map_ext_in.
  intros ns Hns%list_elem_of_In. unfold NamespaceToDomain.
  by rewrite (proj2 (isSystemNamespace_spec u ns) Hns).
Qed.

Lemma IsAdminDomain_spec u d : IsAdminDomain u d = true <-> d = adminDomain u.
Proof. unfold IsAdminDomain. destruct (String.eqb_spec d (adminDomain u)); naive_solver. Qed.

(** [IsSystemDomain] holds exactly of the domains [GetSystemNSDomains]
    lists, which are the system namespaces below the admin domain; none of
    them is empty, even when there is no admin domain. *)
Theorem IsSystemDomain_spec u d :
  (IsSystemDomain u d = true <-> d ∈ GetSystemNSDomains u) /\
  (d ∈ GetSystemNSDomains u <->
     exists ns, ns ∈ systemNamespaces u /\ d = adminDomain u +:+ "." +:+ ns) /\
  "" ∉ GetSystemNSDomains u.
Proof.
  assert (Hiff : d ∈ GetSystemNSDomains u <->
     exists ns, ns ∈ systemNamespaces u /\ d = adminDomain u +:+ "." +:+ ns).
  { rewrite GetSystemNSDomains_map, list_elem_of_In, in_map_iff.
    setoid_rewrite <- list_elem_of_In. firstorder eauto. }
  split; [|split; [exact Hiff|]].
  - clear Hiff. unfold GetSystemNSDomains, IsSystemDomain. rewrite fold_app_map. simpl.
    induction (systemNamespaces u) as [|ns l IH]; simpl; [by rewrite elem_of_nil|].
    rewrite elem_of_cons. destruct (String.eqb_spec d (NamespaceToDomain u ns)).
    + split; auto.
    + rewrite IH. tauto.
  - rewrite GetSystemNSDomains_map, list_elem_of_In, in_map_iff.
    intros (ns & H & _). by destruct (adminDomain u).
Qed.

(** ** Theorems: the MSD filter *)

Section msd_facts.
Context `{ZmsData} {E : Set -> Type}.
Implicit Types (d : DomainData).

(** Both loops at once: all pointers good, the kept ones stay in order; a
    nil pointer anywhere panics. *)
Lemma filter_loop_spec {A} (skip : A -> bool) (l : list (ptr A)) :
  filter_loop (E := E) skip l =
  match mapM id l with
  | Some xs => PRet (map Some (List.filter (fun a => negb (skip a)) xs))
  | None => PPanic nil_deref
  end.
Proof.
  induction l as [|[a|] l IH]; [done| |done].
  cbn [filter_loop deref]. prog_simpl. cbn [mapM id mbind option_bind]. rewrite IH. destruct (mapM id l) as [xs|] eqn:Hxs; simpl.
  - destruct (skip a); done.
  - by destruct (skip a).
Qed.

(** The domain the filter works on, with every pointer it follows non-nil. *)
Definition well_formed (d : DomainData) : bool :=
  match mapM id (elems (DD_Roles d)) with
  | None => false
  | Some _ =>
      match DD_Policies d with
      | Some (mkSignedPolicies (Some c) _ _) =>
          match mapM id (elems (DP_Policies c)) with Some _ => true | None => false end
      | _ => false
      end
  end.

(** The roles and the policies of a domain. *)
Definition roles_of (d : DomainData) : list Role :=
  omap id (elems (DD_Roles d)).
Definition policies_of (d : DomainData) : list Policy :=
  match DD_Policies d with
  | Some (mkSignedPolicies (Some c) _ _) => omap id (elems (DP_Policies c))
  | _ => []
  end.

Lemma mapM_id_omap {A} (l : list (ptr A)) xs : mapM id l = Some xs -> omap id l = xs.
Proof.
  revert xs. induction l as [|[a|] l IH]; intros xs; simpl; [by intros [= <-] | | done].
  destruct (mapM id l) as [ys|]; simpl; [|done]. intros [= <-]. f_equal. by apply IH.
Qed.

Lemma omap_id_Some {A} (xs : list A) : omap id (map Some xs) = xs.
Proof. induction xs as [|x xs IH]; simpl; [done | f_equal; apply IH]. Qed.

Lemma mapM_id_Some {A} (xs : list A) : mapM id (map Some xs) = Some xs.
Proof. induction xs as [|x xs IH]; simpl; [done | by rewrite IH]. Qed.

(** What the filter makes of a well-formed domain. *)
Definition filtered (d : DomainData) : DomainData :=
  let roles := List.filter (fun r => negb (msd_role (DD_Name d) r)) (roles_of d) in
  let pols := List.filter (fun p => negb (msd_policy (DD_Name d) p)) (policies_of d) in
  let d := set_Roles (slice_of (map Some roles)) d in
  match DD_Policies d with
  | Some (mkSignedPolicies (Some c) s k) =>
      set_Policies
        (Some (mkSignedPolicies (Some (set_DP_Policies (slice_of (map Some pols)) c)) s k)) d
  | _ => d
  end.

Lemma filterMSDRules_eq (p : ptr DomainData) :
  filterMSDRules (E := E) p =
  match p with
  | Some d => if well_formed d then PRet (Some (filtered d)) else PPanic nil_deref
  | None => PPanic nil_deref
  end.
Proof.
  destruct p as [d|]; [|done]. unfold filterMSDRules, well_formed, filtered, roles_of, policies_of.
  cbn [deref]. prog_simpl.
  rewrite filter_loop_spec. destruct (mapM id (elems (DD_Roles d))) as [rs|] eqn:Hr; [|done].
  rewrite (mapM_id_omap _ _ Hr). prog_simpl. cbn [DD_Policies set_Roles].
  destruct (DD_Policies d) as [[[c|] sg k]|]; [|done..].
  cbn [deref SP_Contents]. prog_simpl. cbn [deref SP_Contents]. prog_simpl.
  rewrite filter_loop_spec. destruct (mapM id (elems (DP_Policies c))) as [ps|] eqn:Hp; [|done].
  rewrite (mapM_id_omap _ _ Hp). done.
Qed.

(** C23. With MSD rules excluded, a well-formed domain keeps, in order,
    exactly the roles and policies whose names do not start with one of the
    MSD prefixes of the domain; every other field is as it was: the name, the
    modification time and the rest of the domain, the signature and the key
    of its signed policies and the domain named in their contents.  The
    result is well formed again. *)
Theorem FilterMSDRules_spec u d :
  excludeMSDRules u = true -> well_formed d = true ->
  exists d', FilterMSDRules (E := E) u (Some d) = PRet (Some d') /\
    roles_of d' = List.filter (fun r => negb (msd_role (DD_Name d) r)) (roles_of d) /\
    policies_of d' = List.filter (fun p => negb (msd_policy (DD_Name d) p)) (policies_of d) /\
    DD_Name d' = DD_Name d /\ DD_Modified d' = DD_Modified d /\ DD_rest d' = DD_rest d /\
    (exists sp c sp' c', DD_Policies d = Some sp /\ SP_Contents sp = Some c /\
       DD_Policies d' = Some sp' /\ SP_Contents sp' = Some c' /\
       SP_Signature sp' = SP_Signature sp /\ SP_KeyId sp' = SP_KeyId sp /\
       DP_Domain c' = DP_Domain c) /\
    well_formed d' = true.
Proof.
  intros Hu Hw. exists (filtered d). unfold FilterMSDRules. rewrite Hu. simpl negb. cbv iota.
  rewrite filterMSDRules_eq, Hw. split; [done|].
  unfold filtered, roles_of, policies_of, well_formed in *.
  destruct (mapM id (elems (DD_Roles d))) as [rs|] eqn:Hr; [|done].
  destruct d as [n m r p re]. simpl in *.
  destruct p as [[[c|] sg k]|]; [|done..].
  destruct (mapM id (elems (DP_Policies c))) as [ps|] eqn:Hp; [|done].
  simpl. rewrite !elems_slice_of, !omap_id_Some, !mapM_id_Some. split_and!; try done.
  by eexists _, c, _, _.
Qed.

(** The filter panics exactly on a domain with a nil pointer on its way:
    the domain itself, a role, the signed policies, their contents or a
    policy. *)
Lemma FilterMSDRules_panics u (p : ptr DomainData) :
  excludeMSDRules u = true ->
  FilterMSDRules (E := E) u p = PPanic nil_deref <->
  match p with Some d => well_formed d = false | None => True end.
Proof.
  intros Hu. unfold FilterMSDRules. rewrite Hu. simpl negb. cbv iota.
  rewrite filterMSDRules_eq. destruct p as [d|]; [|done].
  by destruct (well_formed d).
Qed.

(** Filtering twice is filtering once. *)
Theorem FilterMSDRules_idempotent u d d' :
  FilterMSDRules (E := E) u (Some d) = PRet (Some d') ->
  FilterMSDRules (E := E) u (Some d') = PRet (Some d').
Proof.
  unfold FilterMSDRules. destruct (excludeMSDRules u); simpl; [|by intros [= ->]].
  rewrite !filterMSDRules_eq. destruct (well_formed d) eqn:Hw; [|done]. intros [= <-].
  unfold well_formed, filtered, roles_of, policies_of in *.
  destruct (mapM id (elems (DD_Roles d))) as [rs|] eqn:Hr; [|done].
  destruct d as [n m r p re]. simpl in *.
  destruct p as [[[c|] sg k]|]; [|done..].
  destruct (mapM id (elems (DP_Policies c))) as [ps|] eqn:Hp; [|done].
  simpl. rewrite !elems_slice_of, !mapM_id_Some. simpl.
  rewrite ?elems_slice_of, ?omap_id_Some, ?filter_filter_id. done.
Qed.
End msd_facts.

(** ** Witnesses for the filter *)
Module MsdExample.
#[local] Existing Instance plain_data.

Definition role (n : string) : ptr Role := Some (mkRole n "" ["user.name"]).
Definition policy (n : string) : ptr Policy := Some (mkPolicy n []).
Definition d : DomainData :=
  mkDomainData "test.domain" 0
    (Some [role "test.domain:role.admin"; role "test.domain:role.acl.msd";
           role "test.domain:role.msd-read-role"])
    (Some (mkSignedPolicies (Some (mkDomainPolicies "test.domain"
       (Some [policy "test.domain:policy.msd-read-policy-x"]))) "sig" "key"))
    true.
Definition nil_role : DomainData := set_Roles (Some [role "a"; None]) d.
Definition u : Util := NewUtil "" [] [] true.
End MsdExample.

Example FilterMSDRules_spec_witness :
  exists d', FilterMSDRules (E := option) MsdExample.u (Some MsdExample.d) = PRet (Some d') /\
    length (@roles_of plain_data d') = 2%nat /\ @policies_of plain_data d' = [].
Proof.
  destruct (@FilterMSDRules_spec plain_data option MsdExample.u MsdExample.d)
    as (d' & H1 & H2 & H3 & _); [reflexivity..|].
  exists d'. rewrite H1, H2, H3. repeat split.
Defined.


Example FilterMSDRules_idempotent_witness :
  FilterMSDRules (E := option) MsdExample.u (Some (filtered MsdExample.d))
  = PRet (Some (filtered MsdExample.d)).
Proof.
  apply (@FilterMSDRules_idempotent plain_data option MsdExample.u MsdExample.d
           (filtered MsdExample.d)).
  reflexivity.
Defined.
