(* ===== verification/Effects.v ===== *)
(** * The calls the syncer makes outside its own code

    One constructor per call of a library or service that the handlers use,
    with the type of its answer: the ZMS client, the AthenzDomain client, the
    two informer caches, the work queue and the config-map client.  What a
    call answers is left to the environment. *)
From stdpp Require Import base list strings gmap.
From S2P Require Import Prelude Prog Zms.
#[local] Open Scope string_scope.

(** ** Errors

    A Go [error] is nil or one of these.  [ResourceError] is [rdl]'s error,
    [StatusError] the Kubernetes API's, with the reason the [apiError]
    predicates read; [OtherError] is any other error of a library.  [errors_New] and
    [Errorf] are built here by [errors.New] and [fmt.Errorf], the latter
    around the error it reports. *)
Inductive StatusReason := ReasonNotFound | ReasonAlreadyExists | ReasonOther.

Inductive error :=
| ResourceError (Code : Z) (Message : string)
| StatusError (Reason : StatusReason) (Message : string)
| OtherError (Message : string)
| errors_New (s : string)
| Errorf (format : string) (cause : error).

Definition IsNotFound (e : error) : bool :=
  match e with StatusError ReasonNotFound _ => true | _ => false end.
Definition IsAlreadyExists (e : error) : bool :=
  match e with StatusError ReasonAlreadyExists _ => true | _ => false end.

(** The texts [Error()] gives. *)
Class ErrorText := error_text : error -> string.

(** The method call [err.Error()], which panics on a nil error. *)
Definition error_Error `{ErrorText} {E} (e : option error) : prog E string :=
  e ← deref e; mret (error_text e).

Section effects.
Context `{ZmsData}.

(** The values kept in informer stores and handed to event handlers
    ([interface{}]), as far as type assertions tell them apart.  Of a
    namespace only the name is read. *)
Inductive Obj :=
| ObjNil
| ObjAthenzDomain (p : ptr AthenzDomain)
| ObjNamespace (p : ptr string)
| ObjTombstone (Key : string) (o : Obj)
| ObjOther.

(** The items of the work queue: strings, as far as this program adds them. *)
Inductive Item := ItemString (s : string) | ItemOther (n : nat).

Record ConfigMap := mkConfigMap {
  CM_Name : string;
  CM_Data : gmap string string
}.

Inductive K8sE : Set -> Type :=
(** [zmsClient.GetSignedDomains] : the domains, the etag and the error *)
| ZmsGetSignedDomains (domain metaOnly metaAttr : string) (master conditions : bool)
    (matchingTag : string) : K8sE (ptr SignedDomains * string * option error)
(** the AthenzDomain informer *)
| CrGetByKey (key : string) : K8sE (Obj * bool * option error)
| CrByIndex (index value : string) : K8sE (list Obj * option error)
| CrListIndexFuncValues (index : string) : K8sE (list string)
| CrList : K8sE (list Obj)
(** the namespace informer *)
| NsGetByKey (key : string) : K8sE (Obj * bool * option error)
| NsList : K8sE (list Obj)
(** [athenzClientset.AthenzDomains()] *)
| AdCreate (cr : AthenzDomain) : K8sE (ptr AthenzDomain * option error)
| AdUpdate (cr : AthenzDomain) : K8sE (ptr AthenzDomain * option error)
| AdDelete (name : string) : K8sE (option error)
(** [cache.WaitForCacheSync] on both informers *)
| WaitForCacheSync : K8sE bool
(** the rate-limited work queue *)
| QAddRateLimited (item : Item) : K8sE unit
| QNumRequeues (item : Item) : K8sE Z
| QForget (item : Item) : K8sE unit
| QGet : K8sE (Item * bool)
| QDone (item : Item) : K8sE unit
(** [k8sClient.CoreV1().ConfigMaps(ns)] *)
| CmGet (ns name : string) : K8sE (ptr ConfigMap * option error)
| CmCreate (ns : string) (cm : ConfigMap) : K8sE (ptr ConfigMap * option error)
| CmUpdate (ns : string) (cm : ConfigMap) : K8sE (ptr ConfigMap * option error).

(** [queue.AddRateLimited(s)] *)
Definition AddRateLimited (s : string) : prog K8sE unit :=
  trigger (QAddRateLimited (ItemString s)).

(** ** Views of an event, for statements about executions *)

(** The AthenzDomain a call writes to the cluster. *)
Definition written (e : ev K8sE) : option AthenzDomain :=
  match e with
  | Ev (AdCreate cr) _ => Some cr
  | Ev (AdUpdate cr) _ => Some cr
  | _ => None
  end.

(** The name a call deletes. *)
Definition deleted (e : ev K8sE) : option string :=
  match e with Ev (AdDelete n) _ => Some n | _ => None end.

(** The item a call adds to the queue. *)
Definition queued (e : ev K8sE) : option Item :=
  match e with Ev (QAddRateLimited i) _ => Some i | _ => None end.

(** The call changes the AthenzDomains of the cluster. *)
Definition is_write (e : ev K8sE) : bool :=
  match e with
  | Ev (AdCreate _) _ | Ev (AdUpdate _) _ | Ev (AdDelete _) _ => true
  | _ => false
  end.

(** The items an execution adds to the queue, in order. *)
Definition queued_items (t : list (ev K8sE)) : list Item := omap queued t.

Lemma queued_items_app t1 t2 : queued_items (t1 ++ t2) = (queued_items t1 ++ queued_items t2)%list.
Proof. apply omap_app. Qed.

(** The calls of an execution that change the cluster's AthenzDomains. *)
Definition writes (t : list (ev K8sE)) : list (ev K8sE) := List.filter is_write t.

Lemma writes_app t1 t2 : writes (t1 ++ t2) = (writes t1 ++ writes t2)%list.
Proof. apply List.filter_app. Qed.

(** A call that neither writes nor queues. *)
Definition quiet (e : ev K8sE) : Prop := is_write e = false /\ queued e = None.

Lemma quiet_trace t : Forall quiet t -> writes t = [] /\ queued_items t = [].
Proof.
  unfold writes, queued_items. induction 1 as [|e t [He Hq] _ [IH1 IH2]]; [done|].
  simpl. by rewrite He, Hq.
Qed.

Lemma unwritten_trace t : Forall (fun e => is_write e = false) t -> writes t = [].
Proof. unfold writes. induction 1 as [|e t He _ IH]; [done|]. simpl. by rewrite He. Qed.

Lemma unqueued_trace t : Forall (fun e : ev K8sE => queued e = None) t -> queued_items t = [].
Proof. unfold queued_items. induction 1 as [|e t He _ IH]; [done|]. simpl. by rewrite He. Qed.
End effects.

(** Programs over these calls. *)
Abbreviation kprog := (prog K8sE).
