(* ===== verification/Cr.v ===== *)
(** * pkg/cr: the AthenzDomain custom resources

    [CRUtil] has no state of its own: it reads the informer cache and calls the
    AthenzDomain client.  A program here is one of its methods; [ctx] is not
    modelled, nor is logging. *)
From stdpp Require Import base list strings gmap.
From S2P Require Import Prelude Prog GoStrings GoTime Zms Effects.
#[local] Open Scope string_scope.

Definition trustDomainIndexKey : string := "trustDomain".

Section cr.
Context `{DeepCopyLib}.

(** ** Reading the cache *)

Definition GetCRByName (domain : string) : kprog (ptr AthenzDomain * bool * option error) :=
  '(object, exists_, _) ← trigger (CrGetByKey domain);
  if negb exists_ then mret (None, exists_, None)
  else
    match object with
    | ObjAthenzDomain obj => mret (obj, exists_, None)
    | _ => mret (None, exists_, Some (errors_New "Error occurred when casting AthenzDomain object"))
    end.

(** ** Writing *)

(** [x.Signature = ""; x.Domain.Policies.Signature = ""] on a copy [x]. *)
Definition clear_signatures (x : ptr AthenzDomainSpec) : kprog AthenzDomainSpec :=
  s ← deref x;
  let sd := set_SD_Signature "" (Spec_SignedDomain s) in
  d ← deref (SD_Domain sd);
  p ← deref (DD_Policies d);
  mret (mkSpec (set_SD_Domain (Some (set_Policies (Some (set_SP_Signature "" p)) d)) sd)).

Definition updateCR (object newCR : ptr AthenzDomain)
  : kprog (ptr AthenzDomain * option error) :=
  match object, newCR with
  | Some object, Some newCR =>
      let oldObjCopy := AthenzDomainSpec_DeepCopy (Some (AD_Spec object)) in
      let newObjCopy := AthenzDomainSpec_DeepCopy (Some (AD_Spec newCR)) in
      oldObjCopy ← clear_signatures oldObjCopy;
      newObjCopy ← clear_signatures newObjCopy;
      let eql := bool_decide (oldObjCopy = newObjCopy) in
      let statusEql := bool_decide (AD_Status object = AD_Status newCR) in
      if eql && statusEql then mret (None, None)
      else
        let resourceVersion := Meta_ResourceVersion (AD_Meta object) in
        let newCR := set_ResourceVersion resourceVersion newCR in
        trigger (AdUpdate newCR)
  | _, _ => mret (None, Some (errors_New "one of the domain objects to compare is empty"))
  end.

(** The object [CreateUpdateAthenzDomain] builds. *)
Definition desired (domain : string) (data : SignedDomain) : AthenzDomain :=
  mkAthenzDomain (mkMeta domain "" MetaZero) (mkStatus "") (mkSpec data).

Definition CreateUpdateAthenzDomain (domain : string) (domainData : ptr SignedDomain)
  : kprog (ptr AthenzDomain * option error) :=
  match domainData with
  | None => mret (None, Some (errors_New "Domain data from ZMS API call is nil"))
  | Some data =>
      let newCR := desired domain data in
      '(obj, exists_, err) ← GetCRByName domain;
      match err with
      | Some err =>
          mret (None, Some (Errorf "Did not find key in store. Error while looking up for key: %v" err))
      | None =>
          if negb exists_ then
            '(cr, err) ← trigger (AdCreate newCR);
            match err with
            | None => mret (cr, None)
            | Some err =>
                if negb (IsAlreadyExists err)
                then mret (None, Some (Errorf "Failed to create new AthenzDomain CR: %s. Error: %v" err))
                else updateCR obj (Some newCR)
            end
          else updateCR obj (Some newCR)
      end
  end.

Definition RemoveAthenzDomain (domain : string) : kprog (option error) :=
  '(obj, exists_, err) ← GetCRByName domain;
  match err with
  | Some err => mret (Some err)
  | None =>
      match exists_, obj with
      | true, Some _ =>
          err ← trigger (AdDelete domain);
          match err with
          | Some err => mret (Some err)
          | None => mret None
          end
      | _, _ => mret None
      end
  end.

Definition UpdateErrorStatus (obj : ptr AthenzDomain) : kprog unit :=
  o ← deref obj;
  '(_, _) ← trigger (AdUpdate o);
  mret tt.

(** ** The latest modification time *)

(** The loop of [GetLatestTimestamp]: [None] for its early [return ""]. *)
Fixpoint latest_loop (crs : list Obj) (latest : Z) : kprog (option Z) :=
  match crs with
  | [] => mret (Some latest)
  | ObjAthenzDomain cr :: crs' =>
      cr ← deref cr;
      d ← deref (AD_Domain cr);
      let timestamp := DD_Modified d in
      latest_loop crs' (if latest <? timestamp then timestamp else latest)%Z
  | _ :: _ => mret None
  end.

Definition GetLatestTimestamp : kprog string :=
  crs ← trigger CrList;
  let latest := 0 in
  if (length crs =? 0)%nat then mret ""
  else
    r ← latest_loop crs latest;
    match r with
    | None => mret ""
    | Some latest =>
        let timestr := FormatRFC3339 latest in
        if String.eqb timestr "1970-01-01T00:00:00Z" then mret "" else mret timestr
    end.

(** ** Trust domains *)

Definition IsTrustDomain (domainName : string) : kprog bool :=
  '(delegatedList, err) ← trigger (CrByIndex trustDomainIndexKey domainName);
  match err with
  | Some _ => mret false
  | None => if (length delegatedList =? 0)%nat then mret false else mret true
  end.

Fixpoint trust_loop {E} (roles : list (ptr Role)) (trustDomains : list string)
  : prog E (list string) :=
  match roles with
  | [] => mret trustDomains
  | role :: roles' =>
      role ← deref role;
      trust_loop roles'
        (if negb (String.eqb (Role_Trust role) "")
         then (trustDomains ++ [Role_Trust role])%list else trustDomains)
  end.

(** The keys under which the index files an object. *)
Definition TrustDomainIndexFunc {E} (obj : Obj) : prog E (list string * option error) :=
  let go (domain : ptr AthenzDomain) : prog E (list string * option error) :=
    domain ← deref domain;
    match AD_Domain domain with
    | None => mret ([], None)
    | Some data => ts ← trust_loop (elems (DD_Roles data)) []; mret (ts, None)
    end in
  match obj with
  | ObjAthenzDomain domain => go domain
  | ObjTombstone _ (ObjAthenzDomain domain) => go domain
  | ObjTombstone _ _ => mret ([], None)
  | _ => mret ([], None)
  end.
End cr.

(** ** Content: a spec up to its signatures *)

Section content.
Context `{ZmsData}.

(** The spec with both signatures removed, wherever there is one. *)
Definition unsigned (s : AthenzDomainSpec) : AthenzDomainSpec :=
  let sd := Spec_SignedDomain s in
  let strip d := set_Policies (set_SP_Signature "" <$> DD_Policies d) d in
  mkSpec (mkSignedDomain (strip <$> SD_Domain sd) "" (SD_KeyId sd)).

(** [clear_signatures] does not meet a nil pointer. *)
Definition has_policies (s : AthenzDomainSpec) : bool :=
  match SD_Domain (Spec_SignedDomain s) with
  | Some d => match DD_Policies d with Some _ => true | None => false end
  | None => false
  end.

(** Same content, whatever the signatures. *)
Definition content_eq (s1 s2 : AthenzDomainSpec) : Prop := unsigned s1 = unsigned s2.

#[global] Instance content_eq_equiv : Equivalence content_eq.
Proof.
  split; unfold content_eq; [by intros ? | by intros ??-> | by intros ???->].
Qed.
#[global] Instance content_eq_dec : RelDecision content_eq.
Proof. intros s1 s2. unfold content_eq. apply _. Defined.

#[global] Instance has_policies_proper : Proper (content_eq ==> eq) has_policies.
Proof.
  intros [[d1 g1 k1]] [[d2 g2 k2]] Heq. unfold content_eq, unsigned in Heq. simpl in Heq.
  injection Heq as Hd Hk. unfold has_policies. simpl.
  destruct d1 as [[n1 m1 r1 [p1|] x1]|], d2 as [[n2 m2 r2 [p2|] x2]|]; unfold set_Policies in *; simpl in *; congruence.
Qed.
#[global] Instance unsigned_proper : Proper (content_eq ==> eq) unsigned.
Proof. by intros s1 s2 ?. Qed.
End content.

Section cr_facts.
Context `{DeepCopyOk}.

Lemma clear_signatures_eq s :
  clear_signatures (Some s) = if has_policies s then PRet (unsigned s) else PPanic nil_deref.
Proof.
  destruct s as [[d g k]]. unfold clear_signatures, has_policies, unsigned. prog_simpl.
  simpl. destruct d as [[n m r [p|] x]|]; reflexivity.
Qed.

Lemma DeepCopy_eq s : AthenzDomainSpec_DeepCopy (Some s) = Some s.
Proof. unfold AthenzDomainSpec_DeepCopy. by rewrite deepcopy_clone. Qed.

Lemma updateCR_nil n :
  updateCR None n =
  PRet (None, Some (errors_New "one of the domain objects to compare is empty")).
Proof. reflexivity. Qed.

Lemma updateCR_eq o n :
  updateCR (Some o) (Some n) =
  if has_policies (AD_Spec o) && has_policies (AD_Spec n) then
    if decide (content_eq (AD_Spec o) (AD_Spec n) /\ AD_Status o = AD_Status n)
    then PRet (None, None)
    else trigger (AdUpdate (set_ResourceVersion (Meta_ResourceVersion (AD_Meta o)) n))
  else PPanic nil_deref.
Proof.
  unfold updateCR. cbv zeta. rewrite !DeepCopy_eq, !clear_signatures_eq.
  destruct (has_policies (AD_Spec o)); [|done]. prog_simpl.
  destruct (has_policies (AD_Spec n)); [|done]. prog_simpl. simpl.
  unfold content_eq. destruct (decide _) as [[Hc Hs]|Hn].
  - by rewrite !bool_decide_eq_true_2.
  - destruct (bool_decide_reflect (unsigned (AD_Spec o) = unsigned (AD_Spec n))); [|done].
    destruct (bool_decide_reflect (AD_Status o = AD_Status n)); [tauto | done].
Qed.

(** ** The contract of [CreateUpdateAthenzDomain]

    One constructor per way the call can go: the calls it makes, with their
    answers, and what it returns. *)
Inductive Upsert (d : string) (data : SignedDomain)
  : list (ev K8sE) -> outcome (ptr AthenzDomain * option error) -> Prop :=
| UpsertCastError obj e0 :
    (forall p, obj <> ObjAthenzDomain p) ->
    Upsert d data [Ev (CrGetByKey d) (obj, true, e0)]
      (Done (None, Some (Errorf "Did not find key in store. Error while looking up for key: %v"
         (errors_New "Error occurred when casting AthenzDomain object"))))
| UpsertNilObject e0 :
    Upsert d data [Ev (CrGetByKey d) (ObjAthenzDomain None, true, e0)]
      (Done (None, Some (errors_New "one of the domain objects to compare is empty")))
| UpsertCreated obj e0 cr :
    Upsert d data [Ev (CrGetByKey d) (obj, false, e0);
                   Ev (AdCreate (desired d data)) (cr, None)] (Done (cr, None))
| UpsertCreateRaced obj e0 cr err :
    IsAlreadyExists err = true ->
    Upsert d data [Ev (CrGetByKey d) (obj, false, e0);
                   Ev (AdCreate (desired d data)) (cr, Some err)]
      (Done (None, Some (errors_New "one of the domain objects to compare is empty")))
| UpsertCreateFailed obj e0 cr err :
    IsAlreadyExists err = false ->
    Upsert d data [Ev (CrGetByKey d) (obj, false, e0);
                   Ev (AdCreate (desired d data)) (cr, Some err)]
      (Done (None, Some (Errorf "Failed to create new AthenzDomain CR: %s. Error: %v" err)))
| UpsertUpToDate old e0 :
    has_policies (AD_Spec old) = true ->
    content_eq (AD_Spec old) (mkSpec data) -> Status_Message (AD_Status old) = "" ->
    Upsert d data [Ev (CrGetByKey d) (ObjAthenzDomain (Some old), true, e0)]
      (Done (None, None))
| UpsertUpdated old e0 r :
    has_policies (AD_Spec old) = true -> has_policies (mkSpec data) = true ->
    ~ (content_eq (AD_Spec old) (mkSpec data) /\ Status_Message (AD_Status old) = "") ->
    Upsert d data [Ev (CrGetByKey d) (ObjAthenzDomain (Some old), true, e0);
                   Ev (AdUpdate (set_ResourceVersion (Meta_ResourceVersion (AD_Meta old))
                                   (desired d data))) r] (Done r)
| UpsertPanics old e0 :
    has_policies (AD_Spec old) && has_policies (mkSpec data) = false ->
    Upsert d data [Ev (CrGetByKey d) (ObjAthenzDomain (Some old), true, e0)]
      (Panicked nil_deref).

Lemma status_empty (st : AthenzDomainStatus) : st = mkStatus "" <-> Status_Message st = "".
Proof. destruct st; simpl; split; [by intros [= ->] | by intros ->]. Qed.

Lemma CreateUpdate_upsert d data t o :
  exec (CreateUpdateAthenzDomain d (Some data)) t o -> Upsert d data t o.
Proof.
  unfold CreateUpdateAthenzDomain, GetCRByName. cbv zeta. intros He.
  exec_call He as [[obj ex] e0] t1. destruct ex; prog_simpl_in He.
  - destruct obj as [|[old|] | | |]; prog_simpl_in He.
    2:{ rewrite updateCR_eq in He. cbn [AD_Spec AD_Status desired] in He.
        destruct (has_policies (AD_Spec old)) eqn:Ho; cbn [andb] in He.
        2:{ exec_end He. apply UpsertPanics. by rewrite Ho. }
        destruct (has_policies (mkSpec data)) eqn:Hd; cbn [andb] in He.
        2:{ exec_end He. apply UpsertPanics. by rewrite Ho, Hd. }
        destruct (decide _) as [[Hc Hs%status_empty]|Hn].
        - exec_end He. by apply UpsertUpToDate.
        - exec_last He as r. apply UpsertUpdated; [done..|].
          by rewrite <- status_empty. }
    all: cbn [updateCR] in He; exec_end He; by constructor.
  - exec_call He as [cr [err|]] t2; [|exec_end He; constructor].
    destruct (IsAlreadyExists err) eqn:Ha; cbn [updateCR] in He; exec_end He; by constructor.
Qed.

Lemma upsert_CreateUpdate d data t o :
  Upsert d data t o -> exec (CreateUpdateAthenzDomain d (Some data)) t o.
Proof.
  unfold CreateUpdateAthenzDomain, GetCRByName. cbv zeta.
  destruct 1 as [obj e0 Ho|e0|obj e0 cr|obj e0 cr err Ha|obj e0 cr err Ha
                |old e0 Hp Hc Hm|old e0 r Hp Hd Hn|old e0 Hp];
    [destruct obj as [|p| | |]; [|by destruct (Ho p)|..]|..];
    exec_build; prog_simpl; rewrite ?Ha, ?updateCR_nil; cbn [negb]; exec_build;
    rewrite updateCR_eq; cbn [AD_Spec AD_Status desired].
  - rewrite <- Hc, Hp. rewrite decide_True by (by rewrite status_empty). exec_build.
  - rewrite Hp, Hd. cbn [andb]. rewrite decide_False by (by rewrite status_empty). exec_build.
  - rewrite Hp. exec_build.
Qed.

(** ** Theorems *)

(** C17. [CreateUpdateAthenzDomain] does exactly what its contract says: it
    looks the domain up in the cache, creates the CR when it is not there,
    reports a cast error, does nothing when the cached CR has the same
    content (signatures apart) and no error message, and otherwise updates
    it, carrying over the cached resource version.  It panics exactly when
    the cached or the new domain has no policies to clear the signature of,
    and a creation that loses a race against another writer is an error. *)
Theorem CreateUpdateAthenzDomain_contract d data t o :
  exec (CreateUpdateAthenzDomain d (Some data)) t o <-> Upsert d data t o.
Proof. split; [apply CreateUpdate_upsert | apply upsert_CreateUpdate]. Qed.

(** Between two CRs with policies, [updateCR] makes no call exactly when
    contents agree up to signatures and the statuses agree; otherwise it
    makes one update, of the new CR with the old one's resource version,
    and returns what that returns. *)
Theorem updateCR_spec o n :
  has_policies (AD_Spec o) = true -> has_policies (AD_Spec n) = true ->
  let same := content_eq (AD_Spec o) (AD_Spec n) /\ AD_Status o = AD_Status n in
  (exec (updateCR (Some o) (Some n)) [] (Done (None, None)) <-> same) /\
  (forall r, exec (updateCR (Some o) (Some n))
     [Ev (AdUpdate (set_ResourceVersion (Meta_ResourceVersion (AD_Meta o)) n)) r] (Done r)
     <-> ~ same) /\
  (forall t w, ~ exec (updateCR (Some o) (Some n)) t (Panicked w)).
Proof.
  intros Ho Hn same. rewrite updateCR_eq, Ho, Hn. cbn [andb]. subst same.
  destruct (decide _) as [Hs|Hs]; split_and!.
  - split; [done|]. intros _. by split.
  - intros r. split; [by intros [? _] | done].
  - by intros t w [_ ?].
  - split; [|done]. intros (x & t' & [=] & _).
  - intros r. split; [done|]. intros _. eexists _, _. split; [done|]. by split.
  - intros t w (x & t' & _ & _ & [=]).
Qed.

(** The CR a look-up of the cache yields to [RemoveAthenzDomain]. *)
Definition cached (obj : Obj) (ex : bool) : ptr AthenzDomain :=
  match obj with ObjAthenzDomain p => if ex then p else None | _ => None end.

Definition cast_error (obj : Obj) (ex : bool) : bool :=
  match obj with ObjAthenzDomain _ => false | _ => ex end.

Lemma RemoveAthenzDomain_exec d t o :
  exec (RemoveAthenzDomain d) t o <->
  exists obj ex e0,
    (cached obj ex <> None /\ exists r, o = Done r /\
       t = [Ev (CrGetByKey d) (obj, ex, e0); Ev (AdDelete d) r]) \/
    (cached obj ex = None /\ t = [Ev (CrGetByKey d) (obj, ex, e0)] /\
       o = Done (if cast_error obj ex
                 then Some (errors_New "Error occurred when casting AthenzDomain object")
                 else None)).
Proof.
  unfold RemoveAthenzDomain, GetCRByName. split.
  - intros He. exec_call He as [[obj ex] e0] t1. exists obj, ex, e0.
    destruct ex; prog_simpl_in He.
    + destruct obj as [|[p|] | | |]; prog_simpl_in He.
      2:{ exec_call He as [r|] t2; exec_end He; left; eauto 10. }
      all: exec_end He; right; auto.
    + exec_end He. right. destruct obj; auto.
  - intros (obj & ex & e0 & [(Hc & r & -> & ->)|(Hc & -> & ->)]).
    + destruct obj as [|[p|] | | |], ex; try done. exec_build. destruct r; exec_build.
    + destruct obj as [|[p|] | | |], ex; try done; exec_build.
Qed.

(** [RemoveAthenzDomain] deletes the domain it is given, and only when
    the cache holds it; it returns the deletion's error, or the cast error
    of a cache entry of another type, and never panics. *)
Theorem RemoveAthenzDomain_spec d t o :
  exec (RemoveAthenzDomain d) t o <->
  exists obj ex e0,
    (cached obj ex <> None /\ exists r, o = Done r /\
       t = [Ev (CrGetByKey d) (obj, ex, e0); Ev (AdDelete d) r]) \/
    (cached obj ex = None /\ t = [Ev (CrGetByKey d) (obj, ex, e0)] /\
       o = Done (if cast_error obj ex
                 then Some (errors_New "Error occurred when casting AthenzDomain object")
                 else None)).
Proof. apply RemoveAthenzDomain_exec. Qed.
End cr_facts.

Section read_facts.
Context `{ZmsData}.

(** The modification time of a cache entry, when it is a well-formed CR. *)
Definition modified_of (o : Obj) : option Z :=
  match o with
  | ObjAthenzDomain (Some cr) => DD_Modified <$> AD_Domain cr
  | _ => None
  end.

Definition latest_of (l : Z) (ts : list Z) : Z := fold_left Z.max ts l.

Lemma latest_of_spec l ts :
  l <= latest_of l ts /\ (forall t, t ∈ ts -> t <= latest_of l ts) /\
  (latest_of l ts = l \/ latest_of l ts ∈ ts).
Proof.
  unfold latest_of. revert l. induction ts as [|t ts IH]; intros l; simpl.
  - split_and!; [lia | by intros t Hn%elem_of_nil | by left].
  - destruct (IH (Z.max l t)) as (H1 & H2 & H3). split_and!; [lia| |].
    + intros t' [->|Hi]%elem_of_cons; [lia | by apply H2].
    + rewrite elem_of_cons. destruct H3 as [->|]; [|by auto].
      destruct (Z.max_spec l t) as [[_ ->]|[_ ->]]; auto.
Qed.

Lemma latest_loop_eq crs l ts :
  mapM modified_of crs = Some ts -> latest_loop crs l = PRet (Some (latest_of l ts)).
Proof.
  revert l ts. induction crs as [|c crs IH]; intros l ts; [by intros [= <-]|].
  intros (m & Hm & (ts' & Hts & [= <-])%bind_Some)%bind_Some.
  destruct c as [|[cr|]| | |]; try done. simpl in Hm.
  destruct (AD_Domain cr) as [d|] eqn:Hd; [|done]. injection Hm as <-.
  cbn [latest_loop]. prog_simpl. rewrite Hd. prog_simpl.
  assert (Hmax : (if (l <? DD_Modified d)%Z then DD_Modified d else l) = Z.max l (DD_Modified d)).
  { destruct (Z.ltb_spec l (DD_Modified d)); lia. }
  rewrite Hmax. rewrite (IH _ ts') by done. done.
Qed.

Lemma latest_loop_silent crs l :
  (exists r, latest_loop crs l = PRet r) \/ latest_loop crs l = PPanic nil_deref.
Proof.
  revert l. induction crs as [|c crs IH]; intros l; [by eauto|].
  destruct c as [|[cr|]| | |]; cbn [latest_loop]; prog_simpl; eauto.
  destruct (AD_Domain cr) as [d|]; prog_simpl; eauto.
Qed.

(** What the initial etag says of the modification times [ts]. *)
Definition etag_of (ts : list Z) (s : string) : Prop :=
  (s = "" /\ Forall (fun m => m < ns_per_second) ts) \/
  (exists m, m ∈ ts /\ ns_per_second <= m /\ (forall m', m' ∈ ts -> m' <= m) /\
     s = FormatRFC3339 m).

Lemma etag_of_latest ts :
  etag_of ts (if String.eqb (FormatRFC3339 (latest_of 0 ts)) "1970-01-01T00:00:00Z"
              then "" else FormatRFC3339 (latest_of 0 ts)).
Proof.
  destruct (latest_of_spec 0 ts) as (H0 & Hub & Hin).
  destruct (String.eqb_spec (FormatRFC3339 (latest_of 0 ts)) "1970-01-01T00:00:00Z") as [He|Hn].
  - left. split; [done|]. apply FormatRFC3339_epoch in He; [|done].
    apply Forall_forall. intros m Hm%Hub. lia.
  - right. rewrite FormatRFC3339_epoch in Hn by done. exists (latest_of 0 ts).
    split_and!; [|lia|done|done]. destruct Hin as [Hz|]; [|done].
    exfalso. apply Hn. rewrite Hz. unfold ns_per_second. lia.
Qed.

(** On a cache of well-formed CRs the initial etag is the latest
    modification time, in RFC 3339 to the second, hence never later than
    that time; it is empty exactly when nothing was modified after the
    first second of 1970 (in particular when the cache is empty).  The order
    in which the cache lists the CRs does not matter. *)
Theorem GetLatestTimestamp_spec t o :
  exec GetLatestTimestamp t o ->
  exists crs, t = [Ev CrList crs] /\
    forall ts, mapM modified_of crs = Some ts -> exists s, o = Done s /\ etag_of ts s.
Proof.
  unfold GetLatestTimestamp. cbv zeta. intros He. exec_call He as crs t1.
  exists crs. destruct (Nat.eqb_spec (length crs) 0) as [Hl|Hl].
  - exec_end He. split; [done|]. intros ts Hm. exists "". split; [done|].
    apply nil_length_inv in Hl as ->. injection Hm as <-. left. by split.
  - assert (Hnil : t1 = []).
    { destruct (latest_loop_silent crs 0) as [[r Hr]|Hr]; rewrite Hr in He; prog_simpl_in He.
      - destruct r; prog_simpl_in He; [destruct (String.eqb _ _)|]; by exec_end He.
      - by exec_end He. }
    subst t1. split; [done|]. intros ts Hm. rewrite (latest_loop_eq _ _ _ Hm) in He.
    pose proof (etag_of_latest ts) as Hs. prog_simpl_in He.
    destruct (String.eqb _ _); exec_end He; eauto.
Qed.

(** The trusts of the roles, in order. *)
Definition trusts (roles : list Role) : list string :=
  List.filter (fun t => negb (String.eqb t "")) (map Role_Trust roles).

Lemma trust_loop_eq {E} roles acc :
  trust_loop (E := E) roles acc =
  match mapM id roles with
  | Some rs => PRet (acc ++ trusts rs)%list
  | None => PPanic nil_deref
  end.
Proof.
  revert acc. induction roles as [|[r|] roles IH]; intros acc.
  - simpl. by rewrite app_nil_r.
  - cbn [trust_loop]. prog_simpl. rewrite IH.
    cbn [mapM id mbind option_bind]. destruct (mapM id roles) as [rs|]; [|done].
    unfold trusts. simpl. destruct (String.eqb (Role_Trust r) ""); simpl; [done|].
    by rewrite <- app_assoc.
  - done.
Qed.

(** The pointer to a CR an index function is given, directly or in the
    tombstone of a deletion. *)
Definition indexed_cr (o : Obj) : option (ptr AthenzDomain) :=
  match o with
  | ObjAthenzDomain p | ObjTombstone _ (ObjAthenzDomain p) => Some p
  | _ => None
  end.

(** C18. A CR, also one found in a deletion's tombstone, is filed under
    exactly the non-empty trust domains of its roles, in role order and as
    often as they occur; one without domain data, and any other object, under
    nothing.  A nil CR or a nil role makes the index function panic, and
    nothing else does.  It never returns an error. *)
Theorem TrustDomainIndexFunc_spec {E} o :
  TrustDomainIndexFunc (E := E) o =
  match indexed_cr o with
  | None => PRet ([], None)
  | Some None => PPanic nil_deref
  | Some (Some cr) =>
      match AD_Domain cr with
      | None => PRet ([], None)
      | Some d =>
          match mapM id (elems (DD_Roles d)) with
          | Some rs => PRet (trusts rs, None)
          | None => PPanic nil_deref
          end
      end
  end.
Proof.
  unfold TrustDomainIndexFunc. cbv zeta.
  destruct o as [|[cr|]| |k [|[cr|]| | |]|]; try done; cbn [indexed_cr]; prog_simpl;
    destruct (AD_Domain cr) as [d|]; try done; rewrite trust_loop_eq;
    by destruct (mapM id (elems (DD_Roles d))).
Qed.
End read_facts.

(** ** Witnesses *)
Module CrExample.
#[local] Existing Instance plain_data.
#[local] Existing Instance plain_copy.

Definition policies (sig : string) : ptr SignedPolicies :=
  Some (mkSignedPolicies (Some (mkDomainPolicies "home.domain" None)) sig "col-env-1.1").
Definition roles : slice (ptr Role) :=
  Some [Some (mkRole "home.domain:role.admin" "" ["user.name"]);
        Some (mkRole "home.domain:role.trust" "parent.domain" [])].
(** Modified 2019-06-21T19:28:09.305Z *)
Definition data (sig : string) : SignedDomain :=
  mkSignedDomain (Some (mkDomainData "home.domain" (1561145289305 * 1000000) roles
                          (policies sig) true)) sig "colo-env-1.1".
Definition cr (sig version : string) : AthenzDomain :=
  mkAthenzDomain (mkMeta "home.domain" version []) (mkStatus "") (mkSpec (data sig)).
Definition renamed (version : string) : AthenzDomain :=
  mkAthenzDomain (mkMeta "home.domain" version []) (mkStatus "")
    (mkSpec (set_SD_Domain None (data "s"))).
End CrExample.

Example CreateUpdateAthenzDomain_contract_witness :
  exec (@CreateUpdateAthenzDomain plain_data plain_copy "home.domain" (Some (CrExample.data "new")))
    [Ev (@CrGetByKey plain_data "home.domain")
       (ObjAthenzDomain (Some (CrExample.cr "old" "7")), true, None)] (Done (None, None)).
Proof.
  apply (proj2 (@CreateUpdateAthenzDomain_contract plain_data plain_copy plain_copy_ok _ _ _ _)).
  apply UpsertUpToDate; reflexivity.
Defined.

Example updateCR_spec_witness :
  exec (@updateCR plain_data plain_copy (Some (CrExample.cr "old" "7"))
          (Some (CrExample.cr "new" ""))) [] (Done (None, None)).
Proof.
  destruct (@updateCR_spec plain_data plain_copy plain_copy_ok
           (CrExample.cr "old" "7") (CrExample.cr "new" "") eq_refl eq_refl) as [[_ Hs] _].
  apply Hs. split; reflexivity.
Defined.

Example GetLatestTimestamp_spec_witness :
  exec (@GetLatestTimestamp plain_data)
    [Ev (@CrList plain_data) [ObjAthenzDomain (Some (CrExample.cr "a" "1"))]]
    (Done "2019-06-21T19:28:09Z") /\
  exists crs, [Ev (@CrList plain_data) [ObjAthenzDomain (Some (CrExample.cr "a" "1"))]]
              = [Ev (@CrList plain_data) crs].
Proof.
  assert (He : exec (@GetLatestTimestamp plain_data)
    [Ev (@CrList plain_data) [ObjAthenzDomain (Some (CrExample.cr "a" "1"))]]
    (Done "2019-06-21T19:28:09Z")).
  { eexists _, _. split; [reflexivity|]. vm_compute. split; reflexivity. }
  split; [exact He|].
  destruct (@GetLatestTimestamp_spec plain_data _ _ He) as (crs & Ht & _).
  exists crs. exact Ht.
Defined.
