(* ===== verification/Heap.v ===== *)
(** * The data as objects on a heap

    The values of [Zms] abstract from the pointers between the objects: a
    function that assigns a field returns a new value there.  The code
    assigns through pointers to objects that others hold as well, the
    informer cache first of all.  Here the objects are cells of a heap: what
    values they stand for, when a heap is well typed, which cells a value
    depends on, and programs that work on a part of the heap.

    Roles, policies and the metadata of a CR are cells or fields nobody
    assigns to, except the resource version. *)
From stdpp Require Import base list strings gmap.
From S2P Require Import Prelude Zms.
#[local] Open Scope string_scope.

(** ** The heap *)

Abbreviation loc := positive.

Section heap.
Context `{ZmsData}.

(** The structs, with locations for their pointer fields. *)
Record HDomainPolicies := mkHDomainPolicies {
  HC_Domain : string;
  HC_Policies : slice (ptr loc)
}.

Record HSignedPolicies := mkHSignedPolicies {
  HP_Contents : ptr loc;
  HP_Signature : string;
  HP_KeyId : string
}.

Record HDomainData := mkHDomainData {
  HD_Name : string;
  HD_Modified : Z;
  HD_Roles : slice (ptr loc);
  HD_Policies : ptr loc;
  HD_rest : DomainRest
}.

(** [zms.SignedDomain], which [AthenzDomainSpec] embeds. *)
Record HSignedDomain := mkHSignedDomain {
  HS_Domain : ptr loc;
  HS_Signature : string;
  HS_KeyId : string
}.

Record HAthenzDomain := mkHAthenzDomain {
  HA_Meta : ObjectMeta;
  HA_Status : AthenzDomainStatus;
  HA_Spec : HSignedDomain
}.

Inductive Cell :=
| CRole (r : Role)
| CPolicy (p : Policy)
| CDomainPolicies (c : HDomainPolicies)
| CSignedPolicies (p : HSignedPolicies)
| CDomainData (d : HDomainData)
| CSignedDomain (s : HSignedDomain)
| CAthenzDomain (a : HAthenzDomain).

Abbreviation Heap := (gmap loc Cell).

Definition as_Role (c : Cell) : option Role := match c with CRole x => Some x | _ => None end.
Definition as_Policy (c : Cell) : option Policy := match c with CPolicy x => Some x | _ => None end.
Definition as_DomainPolicies (c : Cell) : option HDomainPolicies :=
  match c with CDomainPolicies x => Some x | _ => None end.
Definition as_SignedPolicies (c : Cell) : option HSignedPolicies :=
  match c with CSignedPolicies x => Some x | _ => None end.
Definition as_DomainData (c : Cell) : option HDomainData :=
  match c with CDomainData x => Some x | _ => None end.
Definition as_SignedDomain (c : Cell) : option HSignedDomain :=
  match c with CSignedDomain x => Some x | _ => None end.
Definition as_AthenzDomain (c : Cell) : option HAthenzDomain :=
  match c with CAthenzDomain x => Some x | _ => None end.

(** ** Programs over the heap

    A program returns, panics on a nil pointer, or is stuck: it followed a
    location that holds nothing or an object of another type, which Go's type
    system excludes. *)
Inductive hres (A : Type) :=
| HOk (a : A) (h : Heap)
| HPanic
| HStuck.
#[global] Arguments HOk {A} _ _.
#[global] Arguments HPanic {A}.
#[global] Arguments HStuck {A}.

Definition heapM (A : Type) : Type := Heap -> hres A.

#[global] Instance heapM_ret : MRet heapM := fun A a h => HOk a h.
#[global] Instance heapM_bind : MBind heapM := fun A B f m h =>
  match m h with HOk a h' => f a h' | HPanic => HPanic | HStuck => HStuck end.

(** [*p] at the type of [as_]. *)
Definition load {A} (as_ : Cell -> option A) (p : ptr loc) : heapM A := fun h =>
  match p with
  | None => HPanic
  | Some l => match h !! l ≫= as_ with Some a => HOk a h | None => HStuck end
  end.
(** [*p = c] *)
Definition store (p : ptr loc) (c : Cell) : heapM unit := fun h =>
  match p with None => HPanic | Some l => HOk tt (<[l := c]> h) end.
(** [&c] *)
Definition alloc (c : Cell) : heapM loc := fun h =>
  let l := fresh (dom h) in HOk l (<[l := c]> h).

(** ** The values the objects stand for *)

Definition read_ptr {A} (rd : Cell -> option A) (h : Heap) (p : ptr loc) : option (ptr A) :=
  match p with
  | None => Some None
  | Some l => c ← h !! l; a ← rd c; Some (Some a)
  end.
Definition read_slice {A} (rd : Cell -> option A) (h : Heap) (s : slice (ptr loc))
  : option (slice (ptr A)) :=
  match s with
  | None => Some None
  | Some l => xs ← mapM (read_ptr rd h) l; Some (Some xs)
  end.

Definition read_DomainPolicies (h : Heap) (c : Cell) : option DomainPolicies :=
  p ← as_DomainPolicies c;
  ps ← read_slice as_Policy h (HC_Policies p);
  Some (mkDomainPolicies (HC_Domain p) ps).
Definition read_SignedPolicies (h : Heap) (c : Cell) : option SignedPolicies :=
  p ← as_SignedPolicies c;
  cs ← read_ptr (read_DomainPolicies h) h (HP_Contents p);
  Some (mkSignedPolicies cs (HP_Signature p) (HP_KeyId p)).
Definition read_DomainData (h : Heap) (c : Cell) : option DomainData :=
  d ← as_DomainData c;
  rs ← read_slice as_Role h (HD_Roles d);
  ps ← read_ptr (read_SignedPolicies h) h (HD_Policies d);
  Some (mkDomainData (HD_Name d) (HD_Modified d) rs ps (HD_rest d)).
Definition read_SignedDomain (h : Heap) (s : HSignedDomain) : option SignedDomain :=
  d ← read_ptr (read_DomainData h) h (HS_Domain s);
  Some (mkSignedDomain d (HS_Signature s) (HS_KeyId s)).
Definition read_Spec (h : Heap) (s : HSignedDomain) : option AthenzDomainSpec :=
  mkSpec <$> read_SignedDomain h s.
Definition read_AthenzDomain (h : Heap) (a : HAthenzDomain) : option AthenzDomain :=
  mkAthenzDomain (HA_Meta a) (HA_Status a) <$> read_Spec h (HA_Spec a).

(** What is at a location. *)
Definition at_DomainData (h : Heap) (l : loc) : option DomainData :=
  c ← h !! l; read_DomainData h c.
Definition at_Spec (h : Heap) (l : loc) : option AthenzDomainSpec :=
  c ← h !! l; s ← as_SignedDomain c; read_Spec h s.
Definition at_AthenzDomain (h : Heap) (l : loc) : option AthenzDomain :=
  c ← h !! l; a ← as_AthenzDomain c; read_AthenzDomain h a.

(** ** Assignments to fields *)

Definition hset_Roles (r : slice (ptr loc)) (d : HDomainData) : HDomainData :=
  mkHDomainData (HD_Name d) (HD_Modified d) r (HD_Policies d) (HD_rest d).
Definition hset_Policies (l : slice (ptr loc)) (c : HDomainPolicies) : HDomainPolicies :=
  mkHDomainPolicies (HC_Domain c) l.
Definition hset_SP_Signature (s : string) (p : HSignedPolicies) : HSignedPolicies :=
  mkHSignedPolicies (HP_Contents p) s (HP_KeyId p).
Definition hset_SD_Signature (g : string) (s : HSignedDomain) : HSignedDomain :=
  mkHSignedDomain (HS_Domain s) g (HS_KeyId s).
Definition hset_ResourceVersion (v : string) (a : HAthenzDomain) : HAthenzDomain :=
  mkHAthenzDomain (mkMeta (Meta_Name (HA_Meta a)) v (Meta_rest (HA_Meta a)))
    (HA_Status a) (HA_Spec a).
End heap.
Abbreviation Heap := (gmap loc Cell).

(** ** Well-typed heaps

    Every pointer of every object is nil or leads to an object of the type
    the struct declares. *)
Section typing.
Context `{ZmsData}.

Inductive Kind := KRole | KPolicy | KDomainPolicies | KSignedPolicies | KDomainData
  | KSignedDomain | KAthenzDomain.

Definition kind_of (c : Cell) : Kind :=
  match c with
  | CRole _ => KRole
  | CPolicy _ => KPolicy
  | CDomainPolicies _ => KDomainPolicies
  | CSignedPolicies _ => KSignedPolicies
  | CDomainData _ => KDomainData
  | CSignedDomain _ => KSignedDomain
  | CAthenzDomain _ => KAthenzDomain
  end.

Definition points (h : Heap) (k : Kind) (p : ptr loc) : Prop :=
  match p with None => True | Some l => kind_of <$> h !! l = Some k end.

Definition cell_ok (h : Heap) (c : Cell) : Prop :=
  match c with
  | CRole _ | CPolicy _ => True
  | CDomainPolicies c => Forall (points h KPolicy) (elems (HC_Policies c))
  | CSignedPolicies p => points h KDomainPolicies (HP_Contents p)
  | CDomainData d =>
      Forall (points h KRole) (elems (HD_Roles d)) /\ points h KSignedPolicies (HD_Policies d)
  | CSignedDomain s => points h KDomainData (HS_Domain s)
  | CAthenzDomain a => points h KDomainData (HS_Domain (HA_Spec a))
  end.

Definition well_typed (h : Heap) : Prop := forall l c, h !! l = Some c -> cell_ok h c.

(** The objects of [h] are still there, with their types. *)
Definition same_kinds (h h' : Heap) : Prop :=
  forall l k, kind_of <$> h !! l = Some k -> kind_of <$> h' !! l = Some k.

#[global] Instance same_kinds_preorder : PreOrder same_kinds.
Proof. split; [by intros h l k | intros h1 h2 h3 H1 H2 l k Hl; auto]. Qed.

Lemma points_mono h h' k p : same_kinds h h' -> points h k p -> points h' k p.
Proof. intros Hs. destruct p; simpl; auto. Qed.

Lemma cell_ok_mono h h' c : same_kinds h h' -> cell_ok h c -> cell_ok h' c.
Proof.
  intros Hs. destruct c; simpl; intros; destruct_hyps; try split; trivial;
    eauto using points_mono; (eapply Forall_impl; [eassumption|]); eauto using points_mono.
Qed.

Lemma subseteq_same_kinds h h' : h ⊆ h' -> same_kinds h h'.
Proof.
  intros Hs l k (c & Hc & ->)%fmap_Some. by rewrite (lookup_weaken _ _ _ _ Hc Hs).
Qed.

Lemma same_kinds_insert h l c c' :
  h !! l = Some c -> kind_of c = kind_of c' -> same_kinds h (<[l := c']> h).
Proof.
  intros Hl Hk l' k Hl'. rewrite lookup_insert. case_decide as Hd; [|done].
  rewrite <- Hd, Hl in Hl'. simpl in *. congruence.
Qed.

Lemma well_typed_insert h l c' :
  well_typed h -> same_kinds h (<[l := c']> h) -> cell_ok h c' -> well_typed (<[l := c']> h).
Proof.
  intros Hw Hs Hc l' d. rewrite lookup_insert_Some.
  intros [[_ <-]|[_ Hl']]; (eapply cell_ok_mono; [exact Hs|]); eauto.
Qed.

(** An assignment of an object of the same type, whose pointers were good. *)
Lemma well_typed_assign h l c c' :
  well_typed h -> h !! l = Some c -> kind_of c = kind_of c' -> cell_ok h c' ->
  well_typed (<[l := c']> h).
Proof.
  intros Hw Hl Hk Hc. pose proof (same_kinds_insert _ _ _ _ Hl Hk) as Hs.
  apply well_typed_insert; [done..|]. by eapply cell_ok_mono.
Qed.

Lemma well_typed_alloc h l c :
  well_typed h -> h !! l = None -> cell_ok h c -> well_typed (<[l := c]> h).
Proof.
  intros Hw Hl Hc. apply well_typed_insert; [done| |done].
  by apply subseteq_same_kinds, insert_subseteq.
Qed.

Lemma well_typed_union h1 h2 :
  h1 ##ₘ h2 -> well_typed h1 -> well_typed h2 -> well_typed (h1 ∪ h2).
Proof.
  intros Hd H1 H2 l c [Hl|Hl]%lookup_union_Some; [|..|done].
  - eapply cell_ok_mono; [apply subseteq_same_kinds, map_union_subseteq_l | eauto].
  - eapply cell_ok_mono; [by apply subseteq_same_kinds, map_union_subseteq_r | eauto].
Qed.

Lemma points_lookup h k l : points h k (Some l) -> exists c, h !! l = Some c /\ kind_of c = k.
Proof. intros (c & Hc & ->)%fmap_Some. eauto. Qed.

(** *** In a well-typed heap every object stands for a value *)

Lemma read_ptr_total {A} (rd : Cell -> option A) h k p :
  (forall l c, h !! l = Some c -> kind_of c = k -> is_Some (rd c)) ->
  points h k p -> is_Some (read_ptr rd h p).
Proof.
  intros Hrd. destruct p as [l|]; [|by eexists]. intros (c & Hc & Hk)%points_lookup.
  destruct (Hrd l c Hc Hk) as [a Ha]. unfold read_ptr. rewrite Hc. simpl. rewrite Ha. by eexists.
Qed.

Lemma read_slice_total {A} (rd : Cell -> option A) h k s :
  (forall l c, h !! l = Some c -> kind_of c = k -> is_Some (rd c)) ->
  Forall (points h k) (elems s) -> is_Some (read_slice rd h s).
Proof.
  intros Hrd. destruct s as [l|]; [|by eexists]. simpl. intros Hl.
  assert (is_Some (mapM (read_ptr rd h) l)) as [xs Hx].
  { apply mapM_is_Some. eapply Forall_impl; [exact Hl|]. intros p. by apply read_ptr_total. }
  rewrite Hx. by eexists.
Qed.

Ltac kind_cases :=
  let Hk := fresh in
  intros ? [] ? Hk; simpl in Hk; try discriminate Hk; clear Hk.

Lemma read_DomainData_total h l c :
  well_typed h -> h !! l = Some c -> kind_of c = KDomainData -> is_Some (read_DomainData h c).
Proof.
  intros Hw Hl Hk. destruct c; try discriminate Hk. destruct (Hw _ _ Hl) as [Hr Hp].
  unfold read_DomainData. simpl.
  destruct (read_slice_total as_Role h KRole (HD_Roles d)) as [rs ->]; [by kind_cases|done|].
  destruct (read_ptr_total (read_SignedPolicies h) h KSignedPolicies (HD_Policies d))
    as [ps ->]; [|done|by eexists].
  kind_cases. unfold read_SignedPolicies. simpl.
  destruct (read_ptr_total (read_DomainPolicies h) h KDomainPolicies (HP_Contents p))
    as [cs ->]; [| |by eexists].
  - kind_cases. unfold read_DomainPolicies. simpl.
    destruct (read_slice_total as_Policy h KPolicy (HC_Policies c)) as [xs ->];
      [by kind_cases| |by eexists].
    by eapply (Hw _ (CDomainPolicies c)).
  - by eapply (Hw _ (CSignedPolicies p)).
Qed.

Lemma read_Spec_total h s :
  well_typed h -> points h KDomainData (HS_Domain s) -> is_Some (read_Spec h s).
Proof.
  intros Hw Hp. unfold read_Spec, read_SignedDomain.
  destruct (read_ptr_total (read_DomainData h) h KDomainData (HS_Domain s)) as [d ->];
    [|done|by eexists].
  intros l c Hl Hk. by eapply read_DomainData_total.
Qed.

Lemma at_AthenzDomain_total h l :
  well_typed h -> points h KAthenzDomain (Some l) -> is_Some (at_AthenzDomain h l).
Proof.
  intros Hw (c & Hc & Hk)%points_lookup. destruct c; try discriminate Hk.
  unfold at_AthenzDomain, read_AthenzDomain. rewrite Hc. simpl.
  destruct (read_Spec_total h (HA_Spec a)) as [v ->]; [done|exact (Hw _ _ Hc)|by eexists].
Qed.

Lemma at_DomainData_total h l :
  well_typed h -> points h KDomainData (Some l) -> is_Some (at_DomainData h l).
Proof.
  intros Hw (c & Hc & Hk)%points_lookup. unfold at_DomainData. rewrite Hc. simpl.
  by eapply read_DomainData_total.
Qed.
End typing.

(** ** Framing

    Objects are layered: what an object stands for depends on its own cell and
    on cells of lower rank. *)
Section framing.
Context `{ZmsData}.

Definition rank (c : Cell) : nat :=
  match c with
  | CRole _ | CPolicy _ => 0
  | CDomainPolicies _ => 1
  | CSignedPolicies _ => 2
  | CDomainData _ => 3
  | CSignedDomain _ => 4
  | CAthenzDomain _ => 5
  end.

(** Every cell of [h] below rank [n] is in [h']. *)
Definition extends (n : nat) (h h' : Heap) : Prop :=
  forall l c, h !! l = Some c -> (rank c < n)%nat -> h' !! l = Some c.

#[global] Instance extends_preorder n : PreOrder (extends n).
Proof. split; [by intros h l c | intros h1 h2 h3 H1 H2 l c Hl Hk; auto]. Qed.

Lemma subseteq_extends n h h' : h ⊆ h' -> extends n h h'.
Proof. intros Hs l c Hl _. by eapply lookup_weaken. Qed.

Lemma extends_le n m h h' : (n <= m)%nat -> extends m h h' -> extends n h h'.
Proof. intros Hnm He l c Hl Hn. apply He; [done | lia]. Qed.

(** An assignment to a cell keeps those of lower rank. *)
Lemma insert_extends n h l c c' :
  h !! l = Some c -> (n <= rank c)%nat -> extends n h (<[l := c']> h).
Proof.
  intros Hl Hk l' d Hl' Hd. rewrite lookup_insert_ne; [done|].
  intros <-. rewrite Hl in Hl'. injection Hl' as <-. lia.
Qed.

Lemma read_ptr_mono {A} n (rd rd' : Cell -> option A) h h' p v :
  (forall c a, rd c = Some a -> (rank c < n)%nat /\ rd' c = Some a) ->
  extends n h h' -> read_ptr rd h p = Some v -> read_ptr rd' h' p = Some v.
Proof.
  intros Hrd He. destruct p as [l|]; [|done]. unfold read_ptr.
  destruct (h !! l) as [c|] eqn:Hl; [|done]. simpl.
  destruct (rd c) as [a|] eqn:Ha; [|done]. intros Hv.
  destruct (Hrd c a Ha) as [Hk Ha']. rewrite (He l c Hl Hk). simpl. by rewrite Ha'.
Qed.

Lemma read_slice_mono {A} (rd : Cell -> option A) h h' s v :
  (forall c a, rd c = Some a -> rank c = 0%nat) ->
  extends 1 h h' -> read_slice rd h s = Some v -> read_slice rd h' s = Some v.
Proof.
  intros Hrd He. destruct s as [l|]; [|done]. unfold read_slice.
  destruct (mapM (read_ptr rd h) l) as [xs|] eqn:Hl; [|done]. intros Hv.
  assert (mapM (read_ptr rd h') l = Some xs) as ->; [|done].
  apply mapM_Some in Hl. apply mapM_Some. eapply Forall2_impl; [exact Hl|].
  intros p x. apply (read_ptr_mono 1); [|done]. intros c a Ha. split; [|done].
  rewrite (Hrd c a Ha). lia.
Qed.

Lemma as_Role_rank c r : as_Role c = Some r -> rank c = 0%nat.
Proof. by destruct c. Qed.
Lemma as_Policy_rank c p : as_Policy c = Some p -> rank c = 0%nat.
Proof. by destruct c. Qed.

Lemma read_DomainPolicies_mono h h' c v :
  extends 1 h h' -> read_DomainPolicies h c = Some v ->
  rank c = 1%nat /\ read_DomainPolicies h' c = Some v.
Proof.
  intros He. destruct c; try done. unfold read_DomainPolicies. simpl.
  destruct (read_slice as_Policy h (HC_Policies c)) as [ps|] eqn:Hp; [|done].
  by rewrite (read_slice_mono _ _ _ _ _ as_Policy_rank He Hp).
Qed.

Lemma read_SignedPolicies_mono h h' c v :
  extends 2 h h' -> read_SignedPolicies h c = Some v ->
  rank c = 2%nat /\ read_SignedPolicies h' c = Some v.
Proof.
  intros He. destruct c; try done. unfold read_SignedPolicies. simpl.
  destruct (read_ptr (read_DomainPolicies h) h (HP_Contents p)) as [cs|] eqn:Hp; [|done].
  assert (read_ptr (read_DomainPolicies h') h' (HP_Contents p) = Some cs) as ->; [|done].
  eapply (read_ptr_mono 2); [|done|exact Hp]. intros c a Ha.
  eapply read_DomainPolicies_mono in Ha as [-> Ha]; [by split; [lia|]|].
  eapply extends_le; [|done]. lia.
Qed.

Lemma read_DomainData_mono h h' c v :
  extends 3 h h' -> read_DomainData h c = Some v ->
  rank c = 3%nat /\ read_DomainData h' c = Some v.
Proof.
  intros He. destruct c; try done. unfold read_DomainData. simpl.
  destruct (read_slice as_Role h (HD_Roles d)) as [rs|] eqn:Hr; [|done].
  rewrite (read_slice_mono as_Role h h' _ rs as_Role_rank); [|by eapply extends_le; [|done]; lia|done].
  simpl.
  destruct (read_ptr (read_SignedPolicies h) h (HD_Policies d)) as [ps|] eqn:Hp; [|done].
  assert (read_ptr (read_SignedPolicies h') h' (HD_Policies d) = Some ps) as ->; [|done].
  eapply (read_ptr_mono 3); [|done|exact Hp]. intros c a Ha.
  eapply read_SignedPolicies_mono in Ha as [-> Ha]; [by split; [lia|]|].
  eapply extends_le; [|done]. lia.
Qed.

Lemma read_Spec_mono h h' s v :
  extends 4 h h' -> read_Spec h s = Some v -> read_Spec h' s = Some v.
Proof.
  intros He. unfold read_Spec, read_SignedDomain.
  destruct (read_ptr (read_DomainData h) h (HS_Domain s)) as [d|] eqn:Hd; [|done].
  intros Hv. assert (read_ptr (read_DomainData h') h' (HS_Domain s) = Some d) as ->; [|done].
  eapply (read_ptr_mono 4); [|done|exact Hd]. intros c a Ha.
  eapply read_DomainData_mono in Ha as [-> Ha]; [by split; [lia|]|].
  eapply extends_le; [|done]. lia.
Qed.

Lemma at_Spec_mono h h' l v : extends 5 h h' -> at_Spec h l = Some v -> at_Spec h' l = Some v.
Proof.
  intros He. unfold at_Spec. destruct (h !! l) as [[]|] eqn:Hl; try done. simpl.
  rewrite (He _ _ Hl); [|simpl; lia]. simpl. apply read_Spec_mono.
  eapply extends_le; [|done]. lia.
Qed.

Lemma at_DomainData_mono h h' l v :
  extends 4 h h' -> at_DomainData h l = Some v -> at_DomainData h' l = Some v.
Proof.
  intros He. unfold at_DomainData. destruct (h !! l) as [c|] eqn:Hl; [|done]. simpl.
  intros Hv. eapply read_DomainData_mono in Hv as [Hk Hv].
  - rewrite (He _ _ Hl); [|lia]. exact Hv.
  - eapply extends_le; [|done]. lia.
Qed.

(** A CR whose own cell is unchanged stands for the same value. *)
Lemma at_AthenzDomain_mono h h' l v :
  extends 4 h h' -> h' !! l = h !! l -> at_AthenzDomain h l = Some v ->
  at_AthenzDomain h' l = Some v.
Proof.
  intros He Hl. unfold at_AthenzDomain. rewrite Hl.
  destruct (h !! l) as [[]|]; try done. simpl. unfold read_AthenzDomain.
  destruct (read_Spec h (HA_Spec a)) as [s|] eqn:Hs; [|done].
  by rewrite (read_Spec_mono _ _ _ _ He Hs).
Qed.

(** Reading a CR, taken apart. *)
Lemma at_AthenzDomain_inv h l v :
  at_AthenzDomain h l = Some v ->
  exists a, h !! l = Some (CAthenzDomain a) /\ read_Spec h (HA_Spec a) = Some (AD_Spec v) /\
    HA_Meta a = AD_Meta v /\ HA_Status a = AD_Status v.
Proof.
  unfold at_AthenzDomain, read_AthenzDomain.
  destruct (h !! l) as [[]|]; try done. simpl.
  destruct (read_Spec h (HA_Spec a)) as [s|] eqn:Hs; [|done].
  intros [= <-]. by exists a.
Qed.

Lemma at_AthenzDomain_intro h l a s :
  h !! l = Some (CAthenzDomain a) -> read_Spec h (HA_Spec a) = Some s ->
  at_AthenzDomain h l = Some (mkAthenzDomain (HA_Meta a) (HA_Status a) s).
Proof.
  intros Hl Hs. unfold at_AthenzDomain, read_AthenzDomain. rewrite Hl. simpl. by rewrite Hs.
Qed.
End framing.

(** ** Local reasoning

    [triple hn m Q]: run on a heap one part of which is [hn], [m] returns [a]
    with that part changed to some [hn'] such that [Q a hn'], and leaves the
    rest alone. *)
Section local.
Context `{ZmsData}.

Definition triple {A} (hn : Heap) (m : heapM A) (Q : A -> Heap -> Prop) : Prop :=
  forall h, h ##ₘ hn ->
  exists a hn', m (h ∪ hn) = HOk a (h ∪ hn') /\ h ##ₘ hn' /\ Q a hn'.

Lemma triple_ret {A} hn (a : A) (Q : A -> Heap -> Prop) : Q a hn -> triple hn (mret a) Q.
Proof. intros Hq h Hd. by exists a, hn. Qed.

Lemma triple_bind {A B} hn (m : heapM A) (f : A -> heapM B) P Q :
  triple hn m P -> (forall a hn', P a hn' -> triple hn' (f a) Q) -> triple hn (m ≫= f) Q.
Proof.
  intros Hm Hf h Hd. destruct (Hm h Hd) as (a & hn' & Ha & Hd' & Hp).
  destruct (Hf a hn' Hp h Hd') as (b & hn'' & Hb & Hd'' & Hq).
  exists b, hn''. unfold mbind, heapM_bind. by rewrite Ha.
Qed.

Lemma triple_alloc hn c (Q : loc -> Heap -> Prop) :
  (forall l, hn !! l = None -> Q l (<[l := c]> hn)) -> triple hn (alloc c) Q.
Proof.
  intros Hq h Hd. unfold alloc. set (l := fresh (dom (h ∪ hn))).
  assert ((h ∪ hn) !! l = None) as [Hh Hn]%lookup_union_None.
  { apply not_elem_of_dom, is_fresh. }
  exists l, (<[l := c]> hn). rewrite insert_union_r by done.
  split; [done|]. split; [by apply map_disjoint_insert_r | by apply Hq].
Qed.

Lemma triple_load {A} hn (as_ : Cell -> option A) l c a (Q : A -> Heap -> Prop) :
  hn !! l = Some c -> as_ c = Some a -> Q a hn -> triple hn (load as_ (Some l)) Q.
Proof.
  intros Hl Ha Hq h Hd. exists a, hn. split; [|done]. unfold load.
  rewrite (lookup_union_Some_r _ _ _ _ Hd Hl). simpl. by rewrite Ha.
Qed.

Lemma triple_store hn l c c' (Q : unit -> Heap -> Prop) :
  hn !! l = Some c -> Q tt (<[l := c']> hn) -> triple hn (store (Some l) c') Q.
Proof.
  intros Hl Hq h Hd. exists tt, (<[l := c']> hn).
  assert (h !! l = None) by by eapply map_disjoint_Some_r.
  unfold store. rewrite insert_union_r by done.
  split; [done|]. split; [by apply map_disjoint_insert_r | done].
Qed.

(** ** Building an object from a value

    What a decoder does, and half of what a deep copy does. *)
Definition build_ptr {A} (mk : A -> heapM loc) (p : ptr A) : heapM (ptr loc) :=
  match p with None => mret None | Some a => l ← mk a; mret (Some l) end.
Fixpoint build_list {A} (mk : A -> heapM loc) (l : list (ptr A)) : heapM (list (ptr loc)) :=
  match l with
  | [] => mret []
  | p :: l' => x ← build_ptr mk p; xs ← build_list mk l'; mret (x :: xs)
  end.
Definition build_slice {A} (mk : A -> heapM loc) (s : slice (ptr A)) : heapM (slice (ptr loc)) :=
  match s with None => mret None | Some l => xs ← build_list mk l; mret (Some xs) end.

Definition build_DomainPolicies (v : DomainPolicies) : heapM loc :=
  ps ← build_slice (fun p => alloc (CPolicy p)) (DP_Policies v);
  alloc (CDomainPolicies (mkHDomainPolicies (DP_Domain v) ps)).
Definition build_SignedPolicies (v : SignedPolicies) : heapM loc :=
  c ← build_ptr build_DomainPolicies (SP_Contents v);
  alloc (CSignedPolicies (mkHSignedPolicies c (SP_Signature v) (SP_KeyId v))).
Definition build_DomainData (v : DomainData) : heapM loc :=
  rs ← build_slice (fun r => alloc (CRole r)) (DD_Roles v);
  p ← build_ptr build_SignedPolicies (DD_Policies v);
  alloc (CDomainData (mkHDomainData (DD_Name v) (DD_Modified v) rs p (DD_rest v))).
Definition build_SignedDomain (v : SignedDomain) : heapM loc :=
  d ← build_ptr build_DomainData (SD_Domain v);
  alloc (CSignedDomain (mkHSignedDomain d (SD_Signature v) (SD_KeyId v))).

(** [mk a] adds an object of kind [k] that stands for [a], in terms of [rd]. *)
Definition grown (hn hn' : Heap) : Prop := hn ⊆ hn' /\ well_typed hn'.
Definition builder {A} (rd : Heap -> Cell -> option A) (k : Kind) (mk : A -> heapM loc) : Prop :=
  forall a hn, well_typed hn -> triple hn (mk a) (fun l hn' =>
    grown hn hn' /\ points hn' k (Some l) /\ read_ptr (rd hn') hn' (Some l) = Some (Some a)).
(** Reading survives growth. *)
Definition stable {A} (rd : Heap -> Cell -> option A) : Prop :=
  forall h h' c v, h ⊆ h' -> rd h c = Some v -> (rank c < 4)%nat /\ rd h' c = Some v.

Lemma grown_refl hn : well_typed hn -> grown hn hn.
Proof. by split. Qed.
Lemma grown_trans h1 h2 h3 : grown h1 h2 -> grown h2 h3 -> grown h1 h3.
Proof. intros [? _] [? ?]. split; [by etrans | done]. Qed.

Lemma build_leaf {A} (as_ : Cell -> option A) k (con : A -> Cell) :
  (forall a, as_ (con a) = Some a) -> (forall a, kind_of (con a) = k) ->
  (forall h a, cell_ok h (con a)) -> builder (fun _ => as_) k (fun a => alloc (con a)).
Proof.
  intros Has Hk Hok a hn Hw. apply triple_alloc. intros l Hl. split_and!.
  - split; [by apply insert_subseteq | by apply well_typed_alloc].
  - simpl. rewrite lookup_insert_eq. simpl. by rewrite Hk.
  - unfold read_ptr. rewrite lookup_insert_eq. simpl. by rewrite Has.
Qed.

Lemma build_ptr_ok {A} (rd : Heap -> Cell -> option A) k mk p hn :
  builder rd k mk -> well_typed hn ->
  triple hn (build_ptr mk p) (fun x hn' =>
    grown hn hn' /\ points hn' k x /\ read_ptr (rd hn') hn' x = Some p).
Proof.
  intros Hb Hw. destruct p as [a|]; simpl.
  - eapply triple_bind; [by apply Hb|]. intros l hn' Hp. by apply triple_ret.
  - apply triple_ret. split; [by apply grown_refl | done].
Qed.

Lemma build_list_ok {A} (rd : Heap -> Cell -> option A) k mk l hn :
  builder rd k mk -> stable rd -> well_typed hn ->
  triple hn (build_list mk l) (fun xs hn' =>
    grown hn hn' /\ Forall (points hn' k) xs /\ mapM (read_ptr (rd hn') hn') xs = Some l).
Proof.
  intros Hb Hs. revert hn. induction l as [|p l IH]; intros hn Hw; simpl.
  { apply triple_ret. split; [by apply grown_refl | done]. }
  eapply triple_bind; [by apply (build_ptr_ok rd k)|]. intros x hn1 (Hg1 & Hp1 & Hr1).
  eapply triple_bind; [apply IH, Hg1|]. intros xs hn2 (Hg2 & Hp2 & Hr2).
  apply triple_ret. split_and!.
  - by eapply grown_trans.
  - constructor; [|done]. eapply points_mono; [apply subseteq_same_kinds, Hg2 | done].
  - assert (read_ptr (rd hn2) hn2 x = Some p) as Hx.
    { eapply (read_ptr_mono 4); [|apply subseteq_extends, Hg2|exact Hr1].
      intros c a. apply Hs, Hg2. }
    simpl. by rewrite Hx, Hr2.
Qed.

Lemma build_slice_ok {A} (rd : Heap -> Cell -> option A) k mk s hn :
  builder rd k mk -> stable rd -> well_typed hn ->
  triple hn (build_slice mk s) (fun xs hn' =>
    grown hn hn' /\ Forall (points hn' k) (elems xs) /\ read_slice (rd hn') hn' xs = Some s).
Proof.
  intros Hb Hs Hw. destruct s as [l|]; simpl.
  - eapply triple_bind; [by apply (build_list_ok rd k)|]. intros xs hn' (Hg & Hp & Hr).
    apply triple_ret. simpl. by rewrite Hr.
  - apply triple_ret. split; [by apply grown_refl | done].
Qed.
End local.

Section builders.
Context `{ZmsData}.

(** The last step of a builder. *)
Lemma build_last {A} (rd : Heap -> Cell -> option A) hn hn1 c v :
  stable rd -> grown hn hn1 -> cell_ok hn1 c -> rd hn1 c = Some v ->
  triple hn1 (alloc c) (fun l hn' =>
    grown hn hn' /\ points hn' (kind_of c) (Some l) /\ read_ptr (rd hn') hn' (Some l) = Some (Some v)).
Proof.
  intros Hs [Hg Hw] Hc Hr. apply triple_alloc. intros l Hl.
  assert (hn1 ⊆ <[l := c]> hn1) by by apply insert_subseteq.
  split_and!.
  - split; [by etrans | by apply well_typed_alloc].
  - simpl. by rewrite lookup_insert_eq.
  - unfold read_ptr. rewrite lookup_insert_eq. simpl.
    destruct (Hs hn1 (<[l := c]> hn1) c v) as [_ ->]; done.
Qed.

Lemma stable_Role : stable (fun _ => as_Role).
Proof. intros h h' c v _ Hr. rewrite (as_Role_rank c v); [split; [lia | done] | done]. Qed.
Lemma stable_Policy : stable (fun _ => as_Policy).
Proof. intros h h' c v _ Hr. rewrite (as_Policy_rank c v); [split; [lia | done] | done]. Qed.

Ltac stable_by L :=
  let Hs := fresh in intros ? ? ? ? Hs ?;
  edestruct L as [-> ?]; [apply subseteq_extends, Hs | eassumption | split; [lia | done]].
Lemma stable_DomainPolicies : stable read_DomainPolicies.
Proof. stable_by read_DomainPolicies_mono. Qed.
Lemma stable_SignedPolicies : stable read_SignedPolicies.
Proof. stable_by read_SignedPolicies_mono. Qed.
Lemma stable_DomainData : stable read_DomainData.
Proof. stable_by read_DomainData_mono. Qed.

Lemma build_Role_ok : builder (fun _ => as_Role) KRole (fun r => alloc (CRole r)).
Proof. by apply build_leaf. Qed.
Lemma build_Policy_ok : builder (fun _ => as_Policy) KPolicy (fun p => alloc (CPolicy p)).
Proof. by apply build_leaf. Qed.
#[local] Hint Resolve stable_Role stable_Policy stable_DomainPolicies stable_SignedPolicies
  stable_DomainData build_Role_ok build_Policy_ok : core.

Lemma build_DomainPolicies_ok : builder read_DomainPolicies KDomainPolicies build_DomainPolicies.
Proof.
  intros [d ps] hn Hw. unfold build_DomainPolicies. simpl.
  eapply triple_bind; [by apply (build_slice_ok _ KPolicy _ _ _ build_Policy_ok)|].
  intros xs hn1 (Hg & Hp & Hr). eapply (build_last _ _ _ (CDomainPolicies _)); [done..|].
  unfold read_DomainPolicies. simpl. by rewrite Hr.
Qed.
#[local] Hint Resolve build_DomainPolicies_ok : core.

Lemma build_SignedPolicies_ok : builder read_SignedPolicies KSignedPolicies build_SignedPolicies.
Proof.
  intros [c s k] hn Hw. unfold build_SignedPolicies. simpl.
  eapply triple_bind; [by apply (build_ptr_ok _ KDomainPolicies _ _ _ build_DomainPolicies_ok)|].
  intros x hn1 (Hg & Hp & Hr). eapply (build_last _ _ _ (CSignedPolicies _)); [done..|].
  unfold read_SignedPolicies. simpl. by rewrite Hr.
Qed.
#[local] Hint Resolve build_SignedPolicies_ok : core.

Lemma build_DomainData_ok : builder read_DomainData KDomainData build_DomainData.
Proof.
  intros [n m r p e] hn Hw. unfold build_DomainData. simpl.
  eapply triple_bind; [by apply (build_slice_ok _ KRole _ _ _ build_Role_ok)|].
  intros xs hn1 (Hg1 & Hp1 & Hr1).
  eapply triple_bind.
  { apply (build_ptr_ok _ KSignedPolicies _ _ _ build_SignedPolicies_ok), Hg1. }
  intros x hn2 (Hg2 & Hp2 & Hr2).
  eapply (build_last _ _ _ (CDomainData _)); [done|by eapply grown_trans|..].
  - split; [|done]. eapply Forall_impl; [exact Hp1|]. intros q.
    apply points_mono, subseteq_same_kinds, Hg2.
  - unfold read_DomainData. simpl.
    rewrite (read_slice_mono _ _ _ _ _ as_Role_rank (subseteq_extends _ _ _ (proj1 Hg2)) Hr1).
    simpl. by rewrite Hr2.
Qed.
#[local] Hint Resolve build_DomainData_ok : core.

(** A signed domain built from a value lives in new cells and stands for it. *)
Lemma build_SignedDomain_ok v hn :
  well_typed hn ->
  triple hn (build_SignedDomain v) (fun l hn' =>
    grown hn hn' /\ at_Spec hn' l = Some (mkSpec v)).
Proof.
  intros Hw. destruct v as [d s k]. unfold build_SignedDomain. simpl.
  eapply triple_bind; [by apply (build_ptr_ok _ KDomainData _ _ _ build_DomainData_ok)|].
  intros x hn1 ([Hg Hw1] & Hp & Hr). apply triple_alloc. intros l Hl.
  assert (hn1 ⊆ <[l := CSignedDomain (mkHSignedDomain x s k)]> hn1) by by apply insert_subseteq.
  split.
  - split; [by etrans | by apply well_typed_alloc].
  - unfold at_Spec. rewrite lookup_insert_eq. simpl. eapply read_Spec_mono; [by apply subseteq_extends|].
    unfold read_Spec, read_SignedDomain. simpl. by rewrite Hr.
Qed.
End builders.

Lemma well_typed_empty `{ZmsData} : well_typed ∅.
Proof. intros l c. by rewrite lookup_empty. Qed.
