(* ===== verification/HeapOps.v ===== *)
(** * The operations that write to shared objects

    [filterMSDRules] of pkg/util, [updateCR] and [CreateUpdateAthenzDomain] of
    pkg/cr and the deep copies of pkg/apis/athenz/v1
    ([zz_generated.deepcopy.go], [types.go]) as programs over the heap of
    [Heap], each related to its counterpart on values: same result, and no
    write to an object of somebody else. *)
From stdpp Require Import base list strings gmap.
From S2P Require Import Prelude Prog Zms Util Effects Cr Heap.
#[local] Open Scope string_scope.

(** ** pkg/util: the MSD filter, in place *)

Section msd.
Context `{ZmsData}.

Fixpoint filter_ptrs {A} (as_ : Cell -> option A) (skip : A -> bool) (l : list (ptr loc))
  : heapM (list (ptr loc)) :=
  match l with
  | [] => mret []
  | p :: l' =>
      a ← load as_ p;
      if skip a then filter_ptrs as_ skip l'
      else rest ← filter_ptrs as_ skip l'; mret (p :: rest)
  end.

Definition filterMSDRules (domain : ptr loc) : heapM (ptr loc) :=
  d ← load as_DomainData domain;
  let domainName := HD_Name d in
  filteredRoles ← filter_ptrs as_Role (msd_role domainName) (elems (HD_Roles d));
  store domain (CDomainData (hset_Roles (slice_of filteredRoles) d));;
  d ← load as_DomainData domain;
  sp ← load as_SignedPolicies (HD_Policies d);
  contents ← load as_DomainPolicies (HP_Contents sp);
  filteredPolicies ← filter_ptrs as_Policy (msd_policy domainName) (elems (HC_Policies contents));
  store (HP_Contents sp) (CDomainPolicies (hset_Policies (slice_of filteredPolicies) contents));;
  mret domain.

Definition FilterMSDRules (u : Util) (domainData : ptr loc) : heapM (ptr loc) :=
  if negb (excludeMSDRules u) then mret domainData else filterMSDRules domainData.
End msd.

(** ** pkg/apis/athenz/v1: deep copies

    The deep-copy library gets a pointer to a spec, which may be a field of a
    CR, so its argument is the struct pointed to; it returns a pointer to a
    new one, or something the type assertion refuses. *)
Class HeapCopyLib `{ZmsData} := {
  hdeepcopy_Copy : HSignedDomain -> heapM (option (ptr loc))
}.

Section copies.
Context `{HeapCopyLib}.

Definition Spec_DeepCopy (i : ptr HSignedDomain) : heapM (ptr loc) :=
  match i with
  | None => mret None
  | Some i =>
      outRaw ← hdeepcopy_Copy i;
      match outRaw with
      | None => mret None
      | Some out => mret out
      end
  end.

(** The values the [DeepCopyInto] functions write to [*out]. *)
Definition Spec_DeepCopyInto (i : HSignedDomain) : heapM HSignedDomain :=
  clone ← Spec_DeepCopy (Some i);
  load as_SignedDomain clone.
Definition Status_DeepCopyInto (i : AthenzDomainStatus) : AthenzDomainStatus := i.
Definition Status_DeepCopy (i : ptr AthenzDomainStatus) : ptr AthenzDomainStatus :=
  match i with
  | None => None
  | Some i => let out := Status_DeepCopyInto i in Some out
  end.

(** [ObjectMeta.DeepCopyInto] belongs to Kubernetes; nothing in this program
    assigns through the metadata, which is a value here. *)
Definition AthenzDomain_DeepCopyInto (i : HAthenzDomain) : heapM HAthenzDomain :=
  spec ← Spec_DeepCopyInto (HA_Spec i);
  mret (mkHAthenzDomain (HA_Meta i) (HA_Status i) spec).
Definition AthenzDomain_DeepCopy (i : ptr loc) : heapM (ptr loc) :=
  match i with
  | None => mret None
  | Some l =>
      i ← load as_AthenzDomain (Some l);
      out ← AthenzDomain_DeepCopyInto i;
      l ← alloc (CAthenzDomain out);
      mret (Some l)
  end.

(** [runtime.Object]: [None] is the nil interface, [Some p] an interface that
    holds the pointer [p]. *)
Definition AthenzDomain_DeepCopyObject (i : ptr loc) : heapM (option (ptr loc)) :=
  c ← AthenzDomain_DeepCopy i;
  match c with
  | Some l => mret (Some (Some l))
  | None => mret None
  end.

(** [AthenzDomainList]: the items are structs, not pointers. *)
Record HAthenzDomainList := mkHList {
  HL_Meta : MetaRest;
  HL_Items : slice HAthenzDomain
}.

Fixpoint copy_items (l : list HAthenzDomain) : heapM (list HAthenzDomain) :=
  match l with
  | [] => mret []
  | i :: l' => o ← AthenzDomain_DeepCopyInto i; os ← copy_items l'; mret (o :: os)
  end.
Definition AthenzDomainList_DeepCopyInto (i : HAthenzDomainList) : heapM HAthenzDomainList :=
  match HL_Items i with
  | None => mret (mkHList (HL_Meta i) None)
  | Some l => items ← copy_items l; mret (mkHList (HL_Meta i) (Some items))
  end.
Definition AthenzDomainList_DeepCopy (i : ptr HAthenzDomainList) : heapM (ptr HAthenzDomainList) :=
  match i with
  | None => mret None
  | Some i => out ← AthenzDomainList_DeepCopyInto i; mret (Some out)
  end.
Definition AthenzDomainList_DeepCopyObject (i : ptr HAthenzDomainList)
  : heapM (option (ptr HAthenzDomainList)) :=
  c ← AthenzDomainList_DeepCopy i;
  match c with
  | Some l => mret (Some (Some l))
  | None => mret None
  end.

(** ** pkg/cr: the comparison of two CRs *)

(** [x.Signature = ""; x.Domain.Policies.Signature = ""] *)
Definition clear_signatures (x : ptr loc) : heapM unit :=
  s ← load as_SignedDomain x;
  store x (CSignedDomain (hset_SD_Signature "" s));;
  s ← load as_SignedDomain x;
  d ← load as_DomainData (HS_Domain s);
  p ← load as_SignedPolicies (HD_Policies d);
  store (HD_Policies d) (CSignedPolicies (hset_SP_Signature "" p)).

(** [reflect.DeepEqual] of two pointers to specs: it compares what they
    point to, all the way down. *)
Definition deep_equal (x y : ptr loc) : heapM bool := fun h =>
  match x, y with
  | Some x, Some y =>
      match at_Spec h x, at_Spec h y with
      | Some a, Some b => HOk (bool_decide (a = b)) h
      | _, _ => HStuck
      end
  | None, None => HOk true h
  | _, _ => HOk false h
  end.

(** What [updateCR] does in the end: it returns without a CR, or calls
    [Update] with the object at a location. *)
Inductive UpdateCall :=
| UpdReturn (err : option error)
| UpdCall (newCR : loc).

Definition updateCR (object newCR : ptr loc) : heapM UpdateCall :=
  match object, newCR with
  | Some _, Some new =>
      o ← load as_AthenzDomain object;
      oldObjCopy ← Spec_DeepCopy (Some (HA_Spec o));
      n ← load as_AthenzDomain newCR;
      newObjCopy ← Spec_DeepCopy (Some (HA_Spec n));
      clear_signatures oldObjCopy;;
      clear_signatures newObjCopy;;
      eql ← deep_equal oldObjCopy newObjCopy;
      let statusEql := bool_decide (HA_Status o = HA_Status n) in
      if eql && statusEql then mret (UpdReturn None)
      else
        o ← load as_AthenzDomain object;
        n ← load as_AthenzDomain newCR;
        let resourceVersion := Meta_ResourceVersion (HA_Meta o) in
        store newCR (CAthenzDomain (hset_ResourceVersion resourceVersion n));;
        mret (UpdCall new)
  | _, _ => mret (UpdReturn (Some (errors_New "one of the domain objects to compare is empty")))
  end.

(** The object [CreateUpdateAthenzDomain] builds: its spec is a copy of the
    struct ZMS sent, the domain data below it is shared. *)
Definition new_CR (domain : string) (domainData : ptr loc) : heapM loc :=
  sd ← load as_SignedDomain domainData;
  alloc (CAthenzDomain (mkHAthenzDomain (mkMeta domain "" MetaZero) (mkStatus "") sd)).

(** [CreateUpdateAthenzDomain] when the cache has the CR, at [obj]. *)
Definition update_cached (domain : string) (obj domainData : ptr loc) : heapM UpdateCall :=
  newCR ← new_CR domain domainData;
  updateCR obj (Some newCR).
End copies.

(** ** The law of the deep-copy library

    [Copy] of an object that stands for [v] gives a pointer to an object that
    stands for [v] in newly allocated cells alone, and changes no other. *)
Class HeapCopyOk `{HeapCopyLib} : Prop :=
  hdeepcopy_fresh : forall s h v, read_Spec h s = Some v ->
    exists l hn, hdeepcopy_Copy s h = HOk (Some (Some l)) (h ∪ hn) /\ h ##ₘ hn /\
      well_typed hn /\ at_Spec hn l = Some v.

(** One library with this law: read the value, build it anew. *)
Definition rebuild_copy `{ZmsData} : HeapCopyLib := {|
  hdeepcopy_Copy s := fun h =>
    match read_SignedDomain h s with
    | Some v => (l ← build_SignedDomain v; mret (Some (Some l))) h
    | None => HStuck
    end
|}.

Lemma rebuild_copy_ok `{ZmsData} : @HeapCopyOk _ rebuild_copy.
Proof.
  intros s h v. unfold read_Spec. simpl. destruct (read_SignedDomain h s) as [d|]; [|done].
  intros [= <-].
  destruct (build_SignedDomain_ok d ∅ well_typed_empty h) as (l & hn & Hl & Hd & [_ Hw] & Hr).
  { apply map_disjoint_empty_r. }
  exists l, hn. rewrite (right_id_L ∅ _) in Hl. unfold mbind, heapM_bind. by rewrite Hl.
Qed.

(** ** Clearing the signatures of a copy *)

Section clearing.
Context `{ZmsData}.

Lemma at_Spec_inv h l v :
  at_Spec h l = Some v ->
  exists s, h !! l = Some (CSignedDomain s) /\ read_Spec h s = Some v.
Proof. unfold at_Spec. destruct (h !! l) as [[]|]; try done. simpl. eauto. Qed.

(** A spec whose pointers lead to signed policies: its parts. *)
Record spec_parts (h : Heap) (s : HSignedDomain) (ld : loc) (d : HDomainData) (lp : loc)
    (p : HSignedPolicies) (rs : slice (ptr Role)) (c : ptr DomainPolicies) : Prop := {
  sp_domain : HS_Domain s = Some ld;
  sp_data : h !! ld = Some (CDomainData d);
  sp_policies : HD_Policies d = Some lp;
  sp_signed : h !! lp = Some (CSignedPolicies p);
  sp_roles : read_slice as_Role h (HD_Roles d) = Some rs;
  sp_contents : read_ptr (read_DomainPolicies h) h (HP_Contents p) = Some c
}.

Definition spec_of (s : HSignedDomain) (d : HDomainData) (p : HSignedPolicies)
    (rs : slice (ptr Role)) (c : ptr DomainPolicies) : AthenzDomainSpec :=
  mkSpec (mkSignedDomain
    (Some (mkDomainData (HD_Name d) (HD_Modified d) rs
             (Some (mkSignedPolicies c (HP_Signature p) (HP_KeyId p))) (HD_rest d)))
    (HS_Signature s) (HS_KeyId s)).

Lemma read_Spec_parts h s v :
  read_Spec h s = Some v -> has_policies v = true ->
  exists ld d lp p rs c, spec_parts h s ld d lp p rs c /\ v = spec_of s d p rs c.
Proof.
  destruct s as [[ld|] sg k]; [|by intros [= <-]].
  unfold read_Spec, read_SignedDomain. simpl.
  destruct (h !! ld) as [[]|] eqn:Hld; try done. simpl. unfold read_DomainData. simpl.
  destruct d as [n m rs [lp|] e]; simpl.
  2:{ destruct (read_slice _ _ rs); [|done]. by intros [= <-]. }
  destruct (read_slice as_Role h rs) as [rs'|] eqn:Hr; [|done]. simpl.
  destruct (h !! lp) as [[]|] eqn:Hlp; try done. simpl. unfold read_SignedPolicies. simpl.
  destruct (read_ptr _ h (HP_Contents p)) as [c|] eqn:Hc; [|done]. simpl.
  intros [= <-] _. eexists ld, _, lp, p, rs', c. split; [by constructor|done].
Qed.

Lemma read_Spec_of_parts h s ld d lp p rs c :
  spec_parts h s ld d lp p rs c -> read_Spec h s = Some (spec_of s d p rs c).
Proof.
  intros [Hd Hld Hdp Hlp Hr Hc]. unfold read_Spec, read_SignedDomain.
  rewrite Hd. simpl. rewrite Hld. simpl. unfold read_DomainData. simpl.
  rewrite Hr. simpl. rewrite Hdp. simpl. rewrite Hlp. simpl.
  unfold read_SignedPolicies. simpl. by rewrite Hc.
Qed.

(** The assignment to the signature below. *)
Lemma spec_parts_sign hn s ld d lp p rs c g g' :
  spec_parts hn s ld d lp p rs c ->
  spec_parts (<[lp := CSignedPolicies (hset_SP_Signature g p)]> hn) (hset_SD_Signature g' s)
    ld d lp (hset_SP_Signature g p) rs c.
Proof.
  intros [Hd Hld Hdp Hlp Hr Hc].
  assert (extends 2 hn (<[lp := CSignedPolicies (hset_SP_Signature g p)]> hn)) as He
    by by eapply insert_extends.
  split; [done| |done|apply lookup_insert_eq| |].
  - rewrite lookup_insert_ne; [done|]. intros Heq. rewrite Heq in Hlp. congruence.
  - eapply read_slice_mono; [exact as_Role_rank|eapply extends_le; [|exact He]; lia|done].
  - eapply (read_ptr_mono 2); [|exact He|exact Hc]. intros x a Ha.
    eapply read_DomainPolicies_mono in Ha as [-> Ha]; [by split; [lia|]|].
    eapply extends_le; [|exact He]. lia.
Qed.

Lemma spec_parts_extends h h' s ld d lp p rs c :
  extends 4 h h' -> spec_parts h s ld d lp p rs c -> spec_parts h' s ld d lp p rs c.
Proof.
  intros He [Hd Hld Hdp Hlp Hr Hc].
  split; [done|apply He; [done|simpl; lia]|done|apply He; [done|simpl; lia]| |].
  - eapply read_slice_mono; [exact as_Role_rank|eapply extends_le; [|exact He]; lia|done].
  - eapply (read_ptr_mono 2); [|eapply extends_le; [|exact He]; lia|exact Hc]. intros x a Ha.
    eapply read_DomainPolicies_mono in Ha as [-> Ha]; [by split; [lia|]|].
    eapply extends_le; [|exact He]. lia.
Qed.

(** A load whose cell is known. *)
Lemma triple_load_then {A B} hn (as_ : Cell -> option A) l c a (f : A -> heapM B) Q :
  hn !! l = Some c -> as_ c = Some a -> triple hn (f a) Q ->
  triple hn (x ← load as_ (Some l); f x) Q.
Proof.
  intros Hl Ha Hf. eapply triple_bind; [by eapply triple_load with (Q := fun x h => x = a /\ h = hn)|].
  by intros ? ? [-> ->].
Qed.

Lemma clear_signatures_ok hn l v :
  well_typed hn -> at_Spec hn l = Some v -> has_policies v = true ->
  triple hn (clear_signatures (Some l)) (fun _ hn' =>
    well_typed hn' /\ at_Spec hn' l = Some (unsigned v)).
Proof.
  intros Hw (s & Hl & Hs)%at_Spec_inv Hp.
  destruct (read_Spec_parts _ _ _ Hs Hp) as (ld & d & lp & p & rs & c & Hparts & ->).
  unfold clear_signatures. eapply triple_load_then; [done..|].
  eapply triple_bind; [by eapply triple_store with (Q := fun _ h => h = <[l := _]> hn)|].
  intros [] ? ->.
  assert (well_typed (<[l := CSignedDomain (hset_SD_Signature "" s)]> hn)) as Hw1.
  { eapply well_typed_assign; [done|exact Hl|done|]. exact (Hw _ _ Hl). }
  assert (spec_parts (<[l := CSignedDomain (hset_SD_Signature "" s)]> hn) s ld d lp p rs c)
    as Hparts1 by by eapply spec_parts_extends; [eapply insert_extends|].
  assert (Hl1 := lookup_insert_eq hn l (CSignedDomain (hset_SD_Signature "" s))).
  revert Hw1 Hparts1 Hl1. generalize (<[l := CSignedDomain (hset_SD_Signature "" s)]> hn).
  clear Hw Hl Hs Hparts. intros h1 Hw1 Hparts1 Hl1.
  eapply triple_load_then; [done..|]. simpl HS_Domain.
  destruct (Hparts1) as [Hd Hld Hdp Hlp Hr Hc]. rewrite Hd.
  eapply triple_load_then; [done..|]. rewrite Hdp.
  eapply triple_load_then; [done..|]. eapply triple_store; [done|]. split.
  - eapply well_typed_assign; [done|exact Hlp|done|]. exact (Hw1 _ _ Hlp).
  - unfold at_Spec. rewrite lookup_insert_ne, Hl1 by (intros Heq; rewrite Heq in Hlp; congruence).
    simpl. rewrite (read_Spec_of_parts _ _ _ _ _ _ _ _ (spec_parts_sign _ _ _ _ _ _ _ _ "" "" Hparts1)).
    done.
Qed.

(** Without policies to sign, the assignment follows a nil pointer. *)
Lemma clear_signatures_panic h l v :
  at_Spec h l = Some v -> has_policies v = false -> clear_signatures (Some l) h = HPanic.
Proof.
  intros (s & Hl & Hs)%at_Spec_inv. unfold clear_signatures, mbind, heapM_bind, load, store.
  rewrite Hl. simpl. rewrite lookup_insert_eq. simpl.
  destruct s as [[ld|] sg k]; [|done]. unfold read_Spec, read_SignedDomain in Hs. simpl in *.
  destruct (h !! ld) as [[]|] eqn:Hld; try done. simpl in Hs.
  rewrite lookup_insert_ne, Hld by (intros Heq; rewrite Heq in Hl; congruence). simpl.
  unfold read_DomainData in Hs. simpl in Hs.
  destruct (read_slice _ _ _) as [rs|]; [|done]. simpl in Hs.
  destruct (HD_Policies d) as [lp|]; [|done]. simpl in Hs.
  destruct (h !! lp) as [[]|]; try done. simpl in Hs.
  destruct (read_SignedPolicies _ _) as [sp|]; [|done]. by injection Hs as <-.
Qed.
End clearing.

(** ** [updateCR] *)

Section updating.
Context `{HeapCopyOk}.

Lemma Spec_DeepCopy_run s h v :
  read_Spec h s = Some v ->
  exists l hn, Spec_DeepCopy (Some s) h = HOk (Some l) (h ∪ hn) /\ h ##ₘ hn /\
    well_typed hn /\ at_Spec hn l = Some v.
Proof.
  intros (l & hn & Hc & Hrest)%hdeepcopy_fresh. exists l, hn.
  unfold Spec_DeepCopy, mbind, heapM_bind. by rewrite Hc.
Qed.

Lemma bind_ok {A B} (m : heapM A) (f : A -> heapM B) h a h' :
  m h = HOk a h' -> (m ≫= f) h = f a h'.
Proof. unfold mbind, heapM_bind. by intros ->. Qed.
Lemma bind_panic {A B} (m : heapM A) (f : A -> heapM B) h :
  m h = HPanic -> (m ≫= f) h = HPanic.
Proof. unfold mbind, heapM_bind. by intros ->. Qed.
Lemma bind_assoc {A B C} (m : heapM A) (f : A -> heapM B) (g : B -> heapM C) h :
  (m ≫= fun a => f a ≫= g) h = ((m ≫= f) ≫= g) h.
Proof. unfold mbind, heapM_bind. by destruct (m h). Qed.

Lemma load_run {A} (as_ : Cell -> option A) h l c a :
  h !! l = Some c -> as_ c = Some a -> load as_ (Some l) h = HOk a h.
Proof. intros Hl Ha. unfold load. rewrite Hl. simpl. by rewrite Ha. Qed.

(** Two copies made one after the other, and cleared: both are there, in
    cells of their own. *)
Lemma clear_both h hn1 hn2 l1 l2 v1 v2 :
  h ##ₘ hn1 -> h ∪ hn1 ##ₘ hn2 ->
  well_typed hn1 -> at_Spec hn1 l1 = Some v1 ->
  well_typed hn2 -> at_Spec hn2 l2 = Some v2 ->
  if has_policies v1 && has_policies v2 then
    exists hn, h ##ₘ hn /\ well_typed hn /\
      (clear_signatures (Some l1);; clear_signatures (Some l2)) (h ∪ hn1 ∪ hn2)
        = HOk tt (h ∪ hn) /\
      at_Spec (h ∪ hn) l1 = Some (unsigned v1) /\ at_Spec (h ∪ hn) l2 = Some (unsigned v2)
  else (clear_signatures (Some l1);; clear_signatures (Some l2)) (h ∪ hn1 ∪ hn2) = HPanic.
Proof.
  intros Hd1 [Hd2 Hd3]%map_disjoint_union_l Hw1 Hr1 Hw2 Hr2. unfold mbind, heapM_bind.
  assert (h ∪ hn1 ∪ hn2 = h ∪ hn2 ∪ hn1) as ->.
  { rewrite <- !(assoc_L (∪)). f_equal. by apply map_union_comm. }
  assert (at_Spec (h ∪ hn2 ∪ hn1) l1 = Some v1) as Hr1'.
  { eapply at_Spec_mono; [apply subseteq_extends, map_union_subseteq_r|done].
    by apply map_disjoint_union_l. }
  destruct (has_policies v1) eqn:Hp1; simpl; [|by rewrite (clear_signatures_panic _ _ v1)].
  destruct (clear_signatures_ok hn1 l1 v1 Hw1 Hr1 Hp1 (h ∪ hn2)) as ([] & hn1' & -> & Hd' & Hw1' & Hr1'').
  { by apply map_disjoint_union_l. }
  apply map_disjoint_union_l in Hd' as [Hd4 Hd5].
  assert (h ∪ hn2 ∪ hn1' = h ∪ hn1' ∪ hn2) as ->.
  { rewrite <- !(assoc_L (∪)). f_equal. by apply map_union_comm. }
  destruct (has_policies v2) eqn:Hp2.
  - destruct (clear_signatures_ok hn2 l2 v2 Hw2 Hr2 Hp2 (h ∪ hn1')) as ([] & hn2' & -> & Hd' & Hw2' & Hr2').
    { by apply map_disjoint_union_l. }
    apply map_disjoint_union_l in Hd' as [Hd6 Hd7]. exists (hn1' ∪ hn2').
    rewrite (assoc_L (∪)). split_and!; [by apply map_disjoint_union_r|by apply well_typed_union|done| |].
    + eapply at_Spec_mono; [apply subseteq_extends|exact Hr1''].
      etrans; [by apply map_union_subseteq_r with (m1 := h) | apply map_union_subseteq_l].
    + eapply at_Spec_mono; [apply subseteq_extends, map_union_subseteq_r|exact Hr2'].
      by apply map_disjoint_union_l.
  - eapply clear_signatures_panic; [|exact Hp2].
    eapply at_Spec_mono; [apply subseteq_extends, map_union_subseteq_r|exact Hr2].
    by apply map_disjoint_union_l.
Qed.

(** The whole effect of [updateCR]: new cells beside the heap, and at most
    the version of the new CR. *)
Lemma updateCR_run h lo ln o n :
  at_AthenzDomain h lo = Some o -> at_AthenzDomain h ln = Some n ->
  if has_policies (AD_Spec o) && has_policies (AD_Spec n) then
    exists hn a, h ##ₘ hn /\ well_typed hn /\ h !! ln = Some (CAthenzDomain a) /\
    updateCR (Some lo) (Some ln) h =
      if decide (content_eq (AD_Spec o) (AD_Spec n) /\ AD_Status o = AD_Status n)
      then HOk (UpdReturn None) (h ∪ hn)
      else HOk (UpdCall ln) (<[ln := CAthenzDomain (hset_ResourceVersion
             (Meta_ResourceVersion (AD_Meta o)) a)]> (h ∪ hn))
  else updateCR (Some lo) (Some ln) h = HPanic.
Proof.
  intros (ao & Hlo & Hso & Hmo & Hto)%at_AthenzDomain_inv (an & Hln & Hsn & _ & Htn)%at_AthenzDomain_inv.
  unfold updateCR. rewrite (bind_ok _ _ _ ao h) by by eapply load_run.
  destruct (Spec_DeepCopy_run _ _ _ Hso) as (l1 & hn1 & Hc1 & Hd1 & Hw1 & Hr1).
  assert (h ⊆ h ∪ hn1) as Hs1 by apply map_union_subseteq_l.
  rewrite (bind_ok _ _ _ _ _ Hc1).
  rewrite (bind_ok _ _ _ an (h ∪ hn1)) by by eapply load_run; [eapply lookup_weaken|].
  destruct (Spec_DeepCopy_run (HA_Spec an) (h ∪ hn1) (AD_Spec n)) as (l2 & hn2 & Hc2 & Hd2 & Hw2 & Hr2).
  { eapply read_Spec_mono; [by apply subseteq_extends | done]. }
  rewrite (bind_ok _ _ _ _ _ Hc2), bind_assoc.
  pose proof (clear_both _ _ _ _ _ _ _ Hd1 Hd2 Hw1 Hr1 Hw2 Hr2) as Hclear.
  destruct (has_policies (AD_Spec o) && has_policies (AD_Spec n)); [|by apply bind_panic].
  destruct Hclear as (hn & Hd & Hw & Hrun & Ho & Hn). exists hn, an. split_and!; [done..|].
  rewrite (bind_ok _ _ _ _ _ Hrun).
  rewrite (bind_ok _ _ _ (bool_decide (unsigned (AD_Spec o) = unsigned (AD_Spec n))) (h ∪ hn))
    by (unfold deep_equal; by rewrite Ho, Hn).
  rewrite Hto, Htn. assert (h ⊆ h ∪ hn) as Hs by apply map_union_subseteq_l.
  assert (Hne : forall b, b = false -> (if b then mret (UpdReturn None) else
    o ← load as_AthenzDomain (Some lo); n ← load as_AthenzDomain (Some ln);
    store (Some ln) (CAthenzDomain (hset_ResourceVersion (Meta_ResourceVersion (HA_Meta o)) n));;
    mret (UpdCall ln)) (h ∪ hn) = HOk (UpdCall ln) (<[ln := CAthenzDomain
      (hset_ResourceVersion (Meta_ResourceVersion (AD_Meta o)) an)]> (h ∪ hn))).
  { intros b ->. rewrite (bind_ok _ _ _ ao (h ∪ hn)) by by eapply load_run; [eapply lookup_weaken|].
    rewrite (bind_ok _ _ _ an (h ∪ hn)) by by eapply load_run; [eapply lookup_weaken|].
    by rewrite <- Hmo. }
  unfold content_eq. destruct (decide _) as [[-> ->]|Hn'].
  - by rewrite !bool_decide_eq_true_2.
  - apply Hne. apply andb_false_iff. rewrite !bool_decide_eq_false.
    destruct (decide (unsigned (AD_Spec o) = unsigned (AD_Spec n))); tauto.
Qed.
End updating.

(** ** The MSD filter *)

Section filtering.
Context `{ZmsData}.

Lemma load_read {A} (as_ : Cell -> option A) h p x :
  read_ptr as_ h p = Some x ->
  load as_ p h = match x with Some a => HOk a h | None => HPanic end.
Proof.
  unfold load, read_ptr. destruct p as [l|]; [|by intros [= <-]].
  destruct (h !! l) as [c|]; [|done]. simpl. destruct (as_ c); [|done]. by intros [= <-].
Qed.

(** One loop: it reads every object, and keeps a sublist of the pointers. *)
Lemma filter_ptrs_run {A} (as_ : Cell -> option A) skip h l xs :
  mapM (read_ptr as_ h) l = Some xs ->
  match mapM id xs with
  | Some ys => exists ls, filter_ptrs as_ skip l h = HOk ls h /\ ls `sublist_of` l /\
      mapM (read_ptr as_ h) ls = Some (map Some (List.filter (fun a => negb (skip a)) ys))
  | None => filter_ptrs as_ skip l h = HPanic
  end.
Proof.
  revert xs. induction l as [|p l IH]; intros xs; simpl.
  { intros [= <-]. simpl. by exists []. }
  destruct (read_ptr as_ h p) as [x|] eqn:Hp; [|done]. simpl.
  destruct (mapM (read_ptr as_ h) l) as [xs'|]; [|done]. intros [= <-]. specialize (IH xs' eq_refl).
  simpl. destruct x as [a|]; simpl; [|by apply bind_panic; rewrite (load_read _ _ _ _ Hp)].
  rewrite (bind_ok _ _ _ a h) by by rewrite (load_read _ _ _ _ Hp).
  destruct (mapM id xs') as [ys|]; simpl.
  - destruct IH as (ls & Hf & Hsub & Hls). destruct (skip a); simpl.
    + exists ls. split_and!; [done|by constructor|done].
    + exists (p :: ls). rewrite (bind_ok _ _ _ _ _ Hf).
      split_and!; [done|by constructor|]. simpl. by rewrite Hp, Hls.
  - destruct (skip a); [done|]. by apply bind_panic.
Qed.

Lemma sublist_points h k ls l :
  ls `sublist_of` l -> Forall (points h k) l -> Forall (points h k) ls.
Proof.
  induction 1; [done|..]; intros Hl; apply Forall_cons in Hl as [? ?]; auto.
Qed.

(** The location of the policy contents of a domain. *)
Definition contents_of (h : Heap) (l : loc) : ptr loc :=
  c ← h !! l; d ← as_DomainData c; lp ← HD_Policies d;
  c ← h !! lp; p ← as_SignedPolicies c; HP_Contents p.

(** What [read_DomainData] follows. *)
Lemma at_DomainData_inv h l v :
  at_DomainData h l = Some v ->
  exists d rs sp, h !! l = Some (CDomainData d) /\
    read_slice as_Role h (HD_Roles d) = Some rs /\
    read_ptr (read_SignedPolicies h) h (HD_Policies d) = Some sp /\
    v = mkDomainData (HD_Name d) (HD_Modified d) rs sp (HD_rest d).
Proof.
  unfold at_DomainData. destruct (h !! l) as [[]|] eqn:Hl; try done. simpl.
  unfold read_DomainData. simpl. destruct (read_slice _ _ _) as [rs|] eqn:Hr; [|done]. simpl.
  destruct (read_ptr _ _ _) as [sp|] eqn:Hp; [|done]. intros [= <-]. by exists d, rs, sp.
Qed.

Lemma read_slice_elems {A} (rd : Cell -> option A) h s v :
  read_slice rd h s = Some v -> mapM (read_ptr rd h) (elems s) = Some (elems v).
Proof.
  destruct s as [l|]; simpl; [|by intros [= <-]].
  destruct (mapM _ l); [|done]. by intros [= <-].
Qed.

Lemma read_slice_of {A} (rd : Cell -> option A) h l v :
  mapM (read_ptr rd h) l = Some v -> read_slice rd h (slice_of l) = Some (slice_of v).
Proof.
  destruct l as [|p l].
  - by intros [= <-].
  - intros Hm. unfold slice_of at 1, read_slice. rewrite Hm. simpl.
    destruct v; [|done]. by apply mapM_Some, Forall2_length in Hm.
Qed.

(** The signed policies of a domain with contents. *)
Lemma read_SignedPolicies_inv h p sp :
  read_ptr (read_SignedPolicies h) h p = Some (Some sp) ->
  exists lp q, p = Some lp /\ h !! lp = Some (CSignedPolicies q) /\
    read_ptr (read_DomainPolicies h) h (HP_Contents q) = Some (SP_Contents sp) /\
    SP_Signature sp = HP_Signature q /\ SP_KeyId sp = HP_KeyId q.
Proof.
  destruct p as [lp|]; [|done]. unfold read_ptr at 1.
  destruct (h !! lp) as [[]|] eqn:Hl; try done. simpl. unfold read_SignedPolicies at 1. simpl.
  destruct (read_ptr _ _ _) as [c|] eqn:Hc; [|done]. intros [= <-]. by exists lp, p.
Qed.

Lemma read_DomainPolicies_inv h p c :
  read_ptr (read_DomainPolicies h) h p = Some (Some c) ->
  exists lc q, p = Some lc /\ h !! lc = Some (CDomainPolicies q) /\
    read_slice as_Policy h (HC_Policies q) = Some (DP_Policies c) /\ DP_Domain c = HC_Domain q.
Proof.
  destruct p as [lc|]; [|done]. unfold read_ptr.
  destruct (h !! lc) as [[]|] eqn:Hl; try done. simpl. unfold read_DomainPolicies. simpl.
  destruct (read_slice _ _ _) as [ps|] eqn:Hc; [|done]. intros [= <-]. by exists lc, c0.
Qed.

(** The value of a domain whose contents were assigned to. *)
Lemma at_DomainData_of h l d lp p lc c rs ps :
  h !! l = Some (CDomainData d) -> read_slice as_Role h (HD_Roles d) = Some rs ->
  HD_Policies d = Some lp -> h !! lp = Some (CSignedPolicies p) ->
  HP_Contents p = Some lc -> h !! lc = Some (CDomainPolicies c) ->
  read_slice as_Policy h (HC_Policies c) = Some ps ->
  at_DomainData h l = Some (mkDomainData (HD_Name d) (HD_Modified d) rs
    (Some (mkSignedPolicies (Some (mkDomainPolicies (HC_Domain c) ps)) (HP_Signature p) (HP_KeyId p)))
    (HD_rest d)).
Proof.
  intros Hl Hr Hd Hlp Hp Hlc Hps. unfold at_DomainData. rewrite Hl. simpl.
  unfold read_DomainData. simpl. rewrite Hr. simpl. rewrite Hd. simpl. rewrite Hlp. simpl.
  unfold read_SignedPolicies. simpl. rewrite Hp. simpl. rewrite Hlc. simpl.
  unfold read_DomainPolicies. simpl. by rewrite Hps.
Qed.

(** Assigning the policies of the contents of a domain. *)
Lemma assign_policies h l d lp q lc cc rs ls ps :
  h !! l = Some (CDomainData d) -> read_slice as_Role h (HD_Roles d) = Some rs ->
  HD_Policies d = Some lp -> h !! lp = Some (CSignedPolicies q) ->
  HP_Contents q = Some lc -> h !! lc = Some (CDomainPolicies cc) ->
  mapM (read_ptr as_Policy h) ls = Some ps ->
  at_DomainData (<[lc := CDomainPolicies (hset_Policies (slice_of ls) cc)]> h) l =
    Some (mkDomainData (HD_Name d) (HD_Modified d) rs
      (Some (mkSignedPolicies (Some (mkDomainPolicies (HC_Domain cc) (slice_of ps)))
        (HP_Signature q) (HP_KeyId q))) (HD_rest d)).
Proof.
  intros Hl Hr Hd Hlp Hq Hlc Hps.
  assert (extends 1 h (<[lc := CDomainPolicies (hset_Policies (slice_of ls) cc)]> h)) as He
    by by eapply insert_extends.
  apply (at_DomainData_of _ _ d lp q lc (hset_Policies (slice_of ls) cc)).
  - rewrite lookup_insert_ne; [done|]. intros Heq. rewrite Heq in Hlc. congruence.
  - by eapply read_slice_mono; [exact as_Role_rank|exact He|].
  - done.
  - rewrite lookup_insert_ne; [done|]. intros Heq. rewrite Heq in Hlc. congruence.
  - done.
  - apply lookup_insert_eq.
  - eapply read_slice_mono; [exact as_Policy_rank|exact He|]. by apply read_slice_of.
Qed.

(** The second half of the filter, which goes on from the roles. *)
Definition filter_policies (domain : ptr loc) (domainName : string) : heapM (ptr loc) :=
  d ← load as_DomainData domain;
  sp ← load as_SignedPolicies (HD_Policies d);
  contents ← load as_DomainPolicies (HP_Contents sp);
  filteredPolicies ← filter_ptrs as_Policy (msd_policy domainName) (elems (HC_Policies contents));
  store (HP_Contents sp) (CDomainPolicies (hset_Policies (slice_of filteredPolicies) contents));;
  mret domain.

Lemma filter_policies_run h l n v :
  at_DomainData h l = Some v ->
  match DD_Policies v with
  | Some (mkSignedPolicies (Some c) sg k) =>
      match mapM id (elems (DP_Policies c)) with
      | Some ys => exists h',
          filter_policies (Some l) n h = HOk (Some l) h' /\
          at_DomainData h' l = Some (set_Policies (Some (mkSignedPolicies (Some (set_DP_Policies
            (slice_of (map Some (List.filter (fun p => negb (msd_policy n p)) ys))) c)) sg k)) v) /\
          (forall l', contents_of h l <> Some l' -> h' !! l' = h !! l') /\
          (well_typed h -> well_typed h' /\ same_kinds h h')
      | None => filter_policies (Some l) n h = HPanic
      end
  | _ => filter_policies (Some l) n h = HPanic
  end.
Proof.
  intros (d & rs & sp & Hl & Hr & Hp & ->)%at_DomainData_inv. simpl.
  unfold filter_policies. rewrite (bind_ok _ _ _ d h) by by eapply load_run.
  destruct sp as [sp|].
  2:{ destruct (HD_Policies d) as [lp|] eqn:Hd; [|done]. exfalso. revert Hp. unfold read_ptr.
      destruct (h !! lp) as [c|]; simpl; [|done]. by destruct (read_SignedPolicies h c). }
  destruct (read_SignedPolicies_inv _ _ _ Hp) as (lp & q & Hd & Hlp & Hc & Hsg & Hk).
  rewrite Hd, (bind_ok _ _ _ q h) by by eapply load_run.
  destruct sp as [[c|] sg k]; simpl in *.
  2:{ destruct (HP_Contents q) as [lc|]; [|done]. exfalso. revert Hc. unfold read_ptr.
      destruct (h !! lc) as [x|]; simpl; [|done]. by destruct (read_DomainPolicies h x). }
  destruct (read_DomainPolicies_inv _ _ _ Hc) as (lc & cc & Hq & Hlc & Hps & Hdom).
  rewrite Hq, (bind_ok _ _ _ cc h) by by eapply load_run.
  pose proof (filter_ptrs_run as_Policy (msd_policy n) h _ _ (read_slice_elems _ _ _ _ Hps)) as Hf.
  destruct (mapM id (elems (DP_Policies c))) as [ys|]; [|by apply bind_panic].
  destruct Hf as (ls & Hf & Hsub & Hls). rewrite (bind_ok _ _ _ _ _ Hf).
  set (cc' := hset_Policies (slice_of ls) cc).
  exists (<[lc := CDomainPolicies cc']> h). split; [done|]. split; [|split].
  - unfold cc'. rewrite (assign_policies _ _ d lp q lc cc rs ls _) by done.
    unfold set_Policies, set_DP_Policies. simpl. by rewrite Hsg, Hk, Hdom.
  - intros l' Hl'. apply lookup_insert_ne. intros <-. apply Hl'.
    unfold contents_of. rewrite Hl. simpl. rewrite Hd. simpl. by rewrite Hlp.
  - intros Hw. split; [|by eapply same_kinds_insert].
    eapply well_typed_assign; [done|exact Hlc|done|]. simpl. rewrite elems_slice_of.
    eapply sublist_points; [done|]. exact (Hw _ _ Hlc).
Qed.
End filtering.

Section filter_facts.
Context `{ZmsData}.

(** Assigning the roles of a domain. *)
Lemma assign_roles h l d v ls rs :
  h !! l = Some (CDomainData d) -> at_DomainData h l = Some v ->
  mapM (read_ptr as_Role h) ls = Some rs ->
  at_DomainData (<[l := CDomainData (hset_Roles (slice_of ls) d)]> h) l =
    Some (set_Roles (slice_of rs) v).
Proof.
  intros Hl Hv Hls. destruct (at_DomainData_inv _ _ _ Hv) as (d' & rs0 & sp & Hl' & _ & Hp & ->).
  rewrite Hl in Hl'. injection Hl' as <-.
  set (h1 := <[l := CDomainData (hset_Roles (slice_of ls) d)]> h).
  assert (extends 3 h h1) as He by by eapply insert_extends.
  assert (h1 !! l = Some (CDomainData (hset_Roles (slice_of ls) d))) as Hl1
    by apply lookup_insert_eq.
  unfold at_DomainData. rewrite Hl1. simpl. unfold read_DomainData. simpl.
  rewrite (read_slice_mono as_Role h h1 _ _ as_Role_rank (extends_le 1 3 _ _ ltac:(lia) He)
    (read_slice_of _ _ _ _ Hls)). simpl.
  assert (read_ptr (read_SignedPolicies h1) h1 (HD_Policies d) = Some sp) as ->; [|done].
  eapply (read_ptr_mono 3); [|exact He|exact Hp]. intros c a Ha.
  eapply read_SignedPolicies_mono in Ha as [-> Ha]; [by split; [lia|]|].
  eapply extends_le; [|exact He]. lia.
Qed.

Lemma contents_of_assign h l d r :
  h !! l = Some (CDomainData d) ->
  contents_of (<[l := CDomainData (hset_Roles r d)]> h) l = contents_of h l.
Proof.
  intros Hl. unfold contents_of. rewrite lookup_insert_eq, Hl. simpl.
  destruct (HD_Policies d) as [lp|]; [|done]. simpl.
  destruct (decide (l = lp)) as [<-|]; [by rewrite lookup_insert_eq, Hl|].
  by rewrite lookup_insert_ne.
Qed.

(** [filtered] in two steps. *)
Lemma filtered_eq v ys :
  mapM id (elems (DD_Roles v)) = Some ys ->
  let v1 := set_Roles (slice_of (map Some
    (List.filter (fun r => negb (msd_role (DD_Name v) r)) ys))) v in
  filtered v = match DD_Policies v with
    | Some (mkSignedPolicies (Some c) s k) =>
        set_Policies (Some (mkSignedPolicies (Some (set_DP_Policies (slice_of (map Some
          (List.filter (fun p => negb (msd_policy (DD_Name v) p))
             (omap id (elems (DP_Policies c)))))) c)) s k)) v1
    | _ => v1
    end.
Proof.
  intros Hys. unfold filtered, roles_of, policies_of. rewrite (mapM_id_omap _ _ Hys).
  cbn [DD_Policies set_Roles]. by destruct (DD_Policies v) as [[[c|] s k]|].
Qed.

Lemma filterMSDRules_run h l v :
  at_DomainData h l = Some v ->
  if well_formed v then exists h',
    filterMSDRules (Some l) h = HOk (Some l) h' /\ at_DomainData h' l = Some (filtered v) /\
    (forall l', l' <> l -> contents_of h l <> Some l' -> h' !! l' = h !! l') /\
    (well_typed h -> well_typed h' /\ same_kinds h h')
  else filterMSDRules (Some l) h = HPanic.
Proof.
  intros Hv. destruct (at_DomainData_inv _ _ _ Hv) as (d & rs & sp & Hl & Hr & Hp & Hveq).
  assert (DD_Name v = HD_Name d /\ DD_Roles v = rs) as [Hn Hrs] by by rewrite Hveq.
  unfold filterMSDRules. rewrite (bind_ok _ _ _ d h) by by eapply load_run.
  pose proof (filter_ptrs_run as_Role (msd_role (HD_Name d)) h _ _ (read_slice_elems _ _ _ _ Hr)) as Hf.
  unfold well_formed. rewrite Hrs.
  destruct (mapM id (elems rs)) as [ys|] eqn:Hys; [|by apply bind_panic].
  rewrite filtered_eq with (ys := ys) by by rewrite Hrs.
  destruct Hf as (ls & Hf & Hsub & Hls). rewrite (bind_ok _ _ _ _ _ Hf).
  set (h1 := <[l := CDomainData (hset_Roles (slice_of ls) d)]> h).
  rewrite (bind_ok _ _ _ tt h1) by done.
  pose proof (filter_policies_run h1 l (HD_Name d) _ (assign_roles _ _ _ _ _ _ Hl Hv Hls)) as Hpol.
  unfold filter_policies in Hpol. simpl DD_Policies in Hpol. rewrite Hn.
  destruct (DD_Policies v) as [[[c|] sg k]|]; [|done..].
  destruct (mapM id (elems (DP_Policies c))) as [ps|] eqn:Hps; [|done].
  destruct Hpol as (h2 & Hrun & Hv2 & Hframe & Htyped). exists h2.
  rewrite (mapM_id_omap _ _ Hps). split_and!; [done|done| |].
  - intros l' Hne Hc. rewrite Hframe.
    + unfold h1. by rewrite lookup_insert_ne.
    + unfold h1. by rewrite contents_of_assign.
  - intros Hw. destruct Htyped as [Hw2 Hs2].
    + eapply well_typed_assign; [done|exact Hl|done|]. destruct (Hw _ _ Hl) as [Hrs' Hpp].
      split; [|done]. simpl. rewrite elems_slice_of. by eapply sublist_points.
    + split; [done|]. etrans; [|exact Hs2]. by eapply same_kinds_insert.
Qed.
End filter_facts.

(** ** Deep copies *)

Section copying.
Context `{HeapCopyOk}.

Lemma Spec_DeepCopyInto_run s h v :
  read_Spec h s = Some v ->
  exists s' hn, Spec_DeepCopyInto s h = HOk s' (h ∪ hn) /\ h ##ₘ hn /\ well_typed hn /\
    points hn KDomainData (HS_Domain s') /\ read_Spec hn s' = Some v.
Proof.
  intros (l & hn & Hc & Hd & Hw & Hl)%Spec_DeepCopy_run.
  destruct (at_Spec_inv _ _ _ Hl) as (s' & Hs' & Hr). exists s', hn.
  unfold Spec_DeepCopyInto. rewrite (bind_ok _ _ _ _ _ Hc). split_and!; try done.
  - eapply load_run; [by apply lookup_union_Some_r|done].
  - exact (Hw _ _ Hs').
Qed.

Lemma AthenzDomain_DeepCopyInto_run a h v :
  read_AthenzDomain h a = Some v ->
  exists a' hn, AthenzDomain_DeepCopyInto a h = HOk a' (h ∪ hn) /\ h ##ₘ hn /\ well_typed hn /\
    points hn KDomainData (HS_Domain (HA_Spec a')) /\ read_AthenzDomain hn a' = Some v.
Proof.
  unfold read_AthenzDomain. destruct (read_Spec h (HA_Spec a)) as [s|] eqn:Hs; [|done].
  intros [= <-]. destruct (Spec_DeepCopyInto_run _ _ _ Hs) as (s' & hn & Hrun & Hd & Hw & Hp & Hr).
  exists (mkHAthenzDomain (HA_Meta a) (HA_Status a) s'), hn.
  unfold AthenzDomain_DeepCopyInto. rewrite (bind_ok _ _ _ _ _ Hrun).
  split_and!; try done. simpl. by rewrite Hr.
Qed.

Lemma read_AthenzDomain_mono h h' a v :
  extends 4 h h' -> read_AthenzDomain h a = Some v -> read_AthenzDomain h' a = Some v.
Proof.
  intros He. unfold read_AthenzDomain. destruct (read_Spec h (HA_Spec a)) as [s|] eqn:Hs; [|done].
  by rewrite (read_Spec_mono _ _ _ _ He Hs).
Qed.

Lemma AthenzDomain_DeepCopy_run l h v :
  at_AthenzDomain h l = Some v ->
  exists l' hn, AthenzDomain_DeepCopy (Some l) h = HOk (Some l') (h ∪ hn) /\ h ##ₘ hn /\
    well_typed hn /\ at_AthenzDomain hn l' = Some v.
Proof.
  intros Hv. destruct (h !! l) as [[]|] eqn:Hl; unfold at_AthenzDomain in Hv; rewrite Hl in Hv; try done.
  simpl in Hv. destruct (AthenzDomain_DeepCopyInto_run _ _ _ Hv) as (a' & hn & Hrun & Hd & Hw & Hp & Hr).
  unfold AthenzDomain_DeepCopy. rewrite (bind_ok _ _ _ a h) by by eapply load_run.
  rewrite (bind_ok _ _ _ _ _ Hrun).
  destruct (triple_alloc hn (CAthenzDomain a') (fun l' hn' => hn !! l' = None /\
    hn' = <[l' := CAthenzDomain a']> hn) ltac:(done) h Hd) as (l' & hn' & Ha & Hd' & Hn & ->).
  rewrite (bind_ok _ _ _ _ _ Ha). exists l', (<[l' := CAthenzDomain a']> hn).
  split_and!; [done|done|by apply well_typed_alloc|].
  unfold at_AthenzDomain. rewrite lookup_insert_eq. simpl.
  eapply read_AthenzDomain_mono; [|exact Hr]. by apply subseteq_extends, insert_subseteq.
Qed.

Lemma copy_items_run l h vs :
  mapM (read_AthenzDomain h) l = Some vs ->
  exists l' hn, copy_items l h = HOk l' (h ∪ hn) /\ h ##ₘ hn /\ well_typed hn /\
    mapM (read_AthenzDomain hn) l' = Some vs.
Proof.
  revert h vs. induction l as [|a l IH]; intros h vs; simpl.
  { intros [= <-]. exists [], ∅. rewrite (right_id_L ∅ _).
    split_and!; [done|apply map_disjoint_empty_r|apply well_typed_empty|done]. }
  destruct (read_AthenzDomain h a) as [v|] eqn:Ha; [|done]. simpl.
  destruct (mapM (read_AthenzDomain h) l) as [vs'|] eqn:Hl; [|done]. intros [= <-].
  destruct (AthenzDomain_DeepCopyInto_run _ _ _ Ha) as (a' & hn1 & Hrun1 & Hd1 & Hw1 & _ & Hr1).
  destruct (IH (h ∪ hn1) vs') as (l' & hn2 & Hrun2 & [Hd2 Hd3]%map_disjoint_union_l & Hw2 & Hr2).
  { apply mapM_Some in Hl. apply mapM_Some. eapply Forall2_impl; [exact Hl|].
    intros x y. apply read_AthenzDomain_mono, subseteq_extends, map_union_subseteq_l. }
  exists (a' :: l'), (hn1 ∪ hn2). rewrite (bind_ok _ _ _ _ _ Hrun1), (bind_ok _ _ _ _ _ Hrun2).
  rewrite (assoc_L (∪)). split_and!; [done|by apply map_disjoint_union_r|by apply well_typed_union|].
  simpl. rewrite (read_AthenzDomain_mono hn1 (hn1 ∪ hn2) a' v); [|by apply subseteq_extends, map_union_subseteq_l|done].
  simpl. assert (mapM (read_AthenzDomain (hn1 ∪ hn2)) l' = Some vs') as ->; [|done].
  apply mapM_Some in Hr2. apply mapM_Some. eapply Forall2_impl; [exact Hr2|].
  intros x y. by apply read_AthenzDomain_mono, subseteq_extends, map_union_subseteq_r.
Qed.
End copying.

(** ** Theorems *)

Section heap_theorems.
Context {Zms : ZmsData} {HLib : HeapCopyLib} {HLaw : HeapCopyOk}.
Context {VLib : DeepCopyLib} {VLaw : DeepCopyOk}.

(** [updateCR] on objects does what [Cr.updateCR] does on the values they
    stand for; of the objects that were there it changes at most the new CR,
    whose resource version it sets. *)
Lemma updateCR_refines h lo ln o n :
  at_AthenzDomain h lo = Some o -> at_AthenzDomain h ln = Some n -> lo <> ln ->
  match updateCR (Some lo) (Some ln) h with
  | HOk r h' =>
      (forall l c, h !! l = Some c -> l <> ln -> h' !! l = Some c) /\
      at_AthenzDomain h' lo = Some o /\
      match r with
      | UpdReturn e => Cr.updateCR (Some o) (Some n) = PRet (None, e) /\ h ⊆ h'
      | UpdCall l => l = ln /\ exists cr, at_AthenzDomain h' ln = Some cr /\
          Cr.updateCR (Some o) (Some n) = trigger (AdUpdate cr)
      end
  | HPanic => Cr.updateCR (Some o) (Some n) = PPanic nil_deref
  | HStuck => False
  end.
Proof.
  intros Ho Hn Hne. pose proof (updateCR_run _ _ _ _ _ Ho Hn) as Hrun.
  rewrite updateCR_eq. destruct (has_policies (AD_Spec o) && has_policies (AD_Spec n)); [|by rewrite Hrun].
  destruct Hrun as (hn & a & Hd & Hw & Ha & ->).
  assert (h ⊆ h ∪ hn) as Hs by apply map_union_subseteq_l.
  assert (is_Some (h !! lo)) as [c Hc].
  { apply at_AthenzDomain_inv in Ho as (ao & -> & _). by eexists. }
  destruct (decide _).
  - split_and!; [intros l x Hl _; by eapply lookup_weaken| |done..].
    eapply at_AthenzDomain_mono; [by apply subseteq_extends| |exact Ho].
    by rewrite (lookup_weaken _ _ _ _ Hc Hs).
  - set (a' := hset_ResourceVersion _ a). assert (extends 4 h (<[ln := CAthenzDomain a']> (h ∪ hn))) as He.
    { etrans; [by apply subseteq_extends|]. eapply insert_extends; [by eapply lookup_weaken|simpl; lia]. }
    split_and!; [| |done|].
    + intros l x Hl Hl'. rewrite lookup_insert_ne by done. by eapply lookup_weaken.
    + eapply at_AthenzDomain_mono; [exact He| |exact Ho].
      by rewrite lookup_insert_ne, (lookup_weaken _ _ _ _ Hc Hs).
    + destruct (at_AthenzDomain_inv _ _ _ Hn) as (a0 & Ha0 & Hs0 & Hm0 & Ht0).
      rewrite Ha in Ha0. injection Ha0 as <-. eexists. split.
      * eapply at_AthenzDomain_intro; [apply lookup_insert_eq|].
        eapply (read_Spec_mono h); [exact He|exact Hs0].
      * unfold set_ResourceVersion. simpl. by rewrite Hm0, Ht0.
Qed.

(** The answer of a look-up in the CR cache. *)
Definition cr_answer (e : ev K8sE) : option (Obj * bool * option error) :=
  match e with
  | Ev e x => match e in K8sE X return X -> option (Obj * bool * option error) with
              | CrGetByKey _ => Some
              | _ => fun _ => None
              end x
  end.

(** C9. When the cache has the CR, [CreateUpdateAthenzDomain] on objects does
    what it does on the values they stand for: it returns, calls [Update] with
    the same CR or panics in the same cases.  It changes no object that was
    there before: neither the cached CR, which belongs to the informer, nor
    the data ZMS sent, which the new CR shares. *)
Theorem update_cached_refines domain h lo ld o data :
  at_AthenzDomain h lo = Some o -> at_Spec h ld = Some (mkSpec data) ->
  forall e0 t out,
  exec (CreateUpdateAthenzDomain domain (Some data))
    (Ev (CrGetByKey domain) (ObjAthenzDomain (Some o), true, e0) :: t) out <->
  match update_cached domain (Some lo) (Some ld) h with
  | HOk r h' =>
      h ⊆ h' /\
      match r with
      | UpdReturn e => exec (E := K8sE) (mret (None, e)) t out
      | UpdCall l => exists cr, at_AthenzDomain h' l = Some cr /\ exec (trigger (AdUpdate cr)) t out
      end
  | HPanic => exec (E := K8sE) (A := ptr AthenzDomain * option error) (PPanic nil_deref) t out
  | HStuck => False
  end.
Proof.
  intros Ho (s & Hs & Hr)%at_Spec_inv e0 t out.
  assert (exec (CreateUpdateAthenzDomain domain (Some data))
    (Ev (CrGetByKey domain) (ObjAthenzDomain (Some o), true, e0) :: t) out <->
    exec (Cr.updateCR (Some o) (Some (desired domain data))) t out) as ->.
  { simpl. split; [|by eauto]. intros (x & t' & Heq & He).
    apply (f_equal (fun l => (head l ≫= cr_answer, tail l))) in Heq. simpl in Heq.
    injection Heq as Hx Ht. by subst x t'. }
  unfold update_cached, new_CR. set (a := mkHAthenzDomain (mkMeta domain "" MetaZero) (mkStatus "") s).
  set (ln := fresh (dom h)). set (h1 := <[ln := CAthenzDomain a]> h).
  assert (h !! ln = None) as Hln by apply not_elem_of_dom, is_fresh.
  assert (h ⊆ h1) as Hs1 by by apply insert_subseteq.
  rewrite (bind_ok _ _ _ ln h1).
  2:{ rewrite (bind_ok _ _ _ s h) by by eapply load_run. done. }
  assert (at_AthenzDomain h1 ln = Some (desired domain data)) as Hn.
  { apply (at_AthenzDomain_intro h1 ln a (mkSpec data)); [apply lookup_insert_eq|].
    by eapply read_Spec_mono; [apply subseteq_extends|]. }
  assert (exists c, h !! lo = Some c) as [c Hc].
  { apply at_AthenzDomain_inv in Ho as (ao & -> & _). eauto. }
  assert (at_AthenzDomain h1 lo = Some o) as Ho1.
  { eapply at_AthenzDomain_mono; [by apply subseteq_extends| |exact Ho].
    by rewrite (lookup_weaken _ _ _ _ Hc Hs1). }
  assert (lo <> ln) as Hne by congruence.
  pose proof (updateCR_refines h1 lo ln o _ Ho1 Hn Hne) as Href.
  destruct (updateCR _ _ h1) as [r h'| |]; [|by rewrite Href|done].
  destruct Href as (Hframe & _ & Href).
  assert (h ⊆ h') as Hs'.
  { apply map_subseteq_spec. intros l x Hl. apply Hframe; [by eapply lookup_weaken|congruence]. }
  destruct r as [e|l].
  - destruct Href as [-> _]. tauto.
  - destruct Href as (-> & cr & Hcr & ->). split; [eauto|].
    intros (_ & cr' & Hcr' & He). rewrite Hcr in Hcr'. by injection Hcr' as <-.
Qed.

(** C24. The in-place filter agrees with [Util.FilterMSDRules] on values: it
    returns the pointer it got, to the filtered domain, or panics in the same
    cases; besides that domain it changes only the policy contents below it. *)
Theorem FilterMSDRules_in_place (E : Set -> Type) u h l v :
  at_DomainData h l = Some v ->
  match FilterMSDRules u (Some l) h with
  | HOk p h' => p = Some l /\
      (exists v', at_DomainData h' l = Some v' /\
        Util.FilterMSDRules (E := E) u (Some v) = PRet (Some v')) /\
      (forall l', l' <> l -> contents_of h l <> Some l' -> h' !! l' = h !! l')
  | HPanic => Util.FilterMSDRules (E := E) u (Some v) = PPanic nil_deref
  | HStuck => False
  end.
Proof.
  intros Hv. unfold FilterMSDRules, Util.FilterMSDRules. destruct (excludeMSDRules u); simpl.
  - pose proof (filterMSDRules_run _ _ _ Hv) as Hrun. rewrite filterMSDRules_eq.
    destruct (well_formed v); [|by rewrite Hrun].
    destruct Hrun as (h' & -> & Hv' & Hf & _). eauto.
  - eauto.
Qed.

(** C25. A deep copy is equal and separate: the copy of a CR, or of a list of
    CRs, stands for the same value as the original and is readable in the
    newly allocated cells alone, so that no assignment below the copy can
    reach the original, which is unchanged.  As a [runtime.Object] it is
    never an interface around a nil pointer. *)
Theorem deep_copies_separate h l v items vs :
  at_AthenzDomain h l = Some v ->
  mapM (read_AthenzDomain h) items = Some vs ->
  (exists l' hn, AthenzDomain_DeepCopyObject (Some l) h = HOk (Some (Some l')) (h ∪ hn) /\
     h ##ₘ hn /\ at_AthenzDomain hn l' = Some v) /\
  (forall m, exists items' hn,
     AthenzDomainList_DeepCopyObject (Some (mkHList m (Some items))) h
       = HOk (Some (Some (mkHList m (Some items')))) (h ∪ hn) /\
     h ##ₘ hn /\ mapM (read_AthenzDomain hn) items' = Some vs) /\
  AthenzDomain_DeepCopyObject None h = HOk None h /\
  AthenzDomainList_DeepCopyObject None h = HOk None h.
Proof.
  intros Hv Hvs. split_and!; [| |done|done].
  - destruct (AthenzDomain_DeepCopy_run _ _ _ Hv) as (l' & hn & Hrun & Hd & _ & Hr).
    exists l', hn. unfold AthenzDomain_DeepCopyObject. by rewrite (bind_ok _ _ _ _ _ Hrun).
  - intros m. destruct (copy_items_run _ _ _ Hvs) as (items' & hn & Hrun & Hd & _ & Hr).
    exists items', hn. split_and!; [|done..].
    unfold AthenzDomainList_DeepCopyObject, AthenzDomainList_DeepCopy, AthenzDomainList_DeepCopyInto.
    simpl. unfold mbind, heapM_bind. by rewrite Hrun.
Qed.
End heap_theorems.

(** ** Witnesses *)
Module HeapExample.
#[local] Existing Instance plain_data.
#[local] Existing Instance plain_copy.

(** A cached CR and the data ZMS sent, each built from its value. *)
Definition start (old new : SignedDomain) : heapM (loc * loc) :=
  ls ← build_SignedDomain old;
  s ← load as_SignedDomain (Some ls);
  lo ← alloc (CAthenzDomain (mkHAthenzDomain (mkMeta "home.domain" "7" []) (mkStatus "") s));
  ld ← build_SignedDomain new;
  mret (lo, ld).
Definition run (old new : SignedDomain) : loc * loc * Heap :=
  match start old new ∅ with HOk (lo, ld) h => (lo, ld, h) | _ => (1%positive, 1%positive, ∅) end.

(** The same content, signed anew. *)
Definition lo : loc := (run (CrExample.data "old") (CrExample.data "new")).1.1.
Definition ld : loc := (run (CrExample.data "old") (CrExample.data "new")).1.2.
Definition h : Heap := (run (CrExample.data "old") (CrExample.data "new")).2.

Lemma h_old : at_AthenzDomain h lo = Some (CrExample.cr "old" "7").
Proof. vm_compute. reflexivity. Qed.
Lemma h_new : at_Spec h ld = Some (mkSpec (CrExample.data "new")).
Proof. vm_compute. reflexivity. Qed.

(** Whether a heap is well typed can be computed. *)
#[global] Instance Kind_dec : EqDecision Kind.
Proof. solve_decision. Defined.
#[global] Instance points_dec h k p : Decision (points h k p).
Proof. destruct p; simpl; apply _. Defined.
#[global] Instance cell_ok_dec h c : Decision (cell_ok h c).
Proof. destruct c; simpl; apply _. Defined.
Definition well_typed_dec (h : Heap) : bool := bool_decide (map_Forall (fun _ c => cell_ok h c) h).

Lemma h_typed : well_typed h.
Proof.
  assert (map_Forall (fun _ c => cell_ok h c) h) as Hw; [|intros l c; apply Hw].
  apply (bool_decide_eq_true_1 _). vm_compute. reflexivity.
Qed.

(** The domain data of the MSD example. *)
Definition msd : loc * Heap :=
  match build_DomainData MsdExample.d ∅ with HOk l h => (l, h) | _ => (1%positive, ∅) end.
End HeapExample.

Example update_cached_refines_witness :
  match @update_cached plain_data rebuild_copy "home.domain" (Some HeapExample.lo) (Some HeapExample.ld)
          HeapExample.h with
  | HOk (UpdReturn None) h' => HeapExample.h ⊆ h'
  | _ => False
  end.
Proof.
  pose proof (@update_cached_refines plain_data rebuild_copy rebuild_copy_ok plain_copy plain_copy_ok
    "home.domain" HeapExample.h HeapExample.lo HeapExample.ld _ _ HeapExample.h_old HeapExample.h_new
    None [] (Done (None, None))) as Href.
  revert Href.
  assert (exec (@CreateUpdateAthenzDomain plain_data plain_copy "home.domain" (Some (CrExample.data "new")))
    [Ev (@CrGetByKey plain_data "home.domain") (ObjAthenzDomain (Some (CrExample.cr "old" "7")), true, None)]
    (Done (None, None))) as Hex.
  { simpl. eexists _, _. split; [reflexivity|]. vm_compute. split; reflexivity. }
  intros [Hr _]. specialize (Hr Hex). destruct (update_cached _ _ _ _) as [[[]|] h'| |].
  - destruct Hr as (_ & _ & [=]).
  - apply Hr.
  - destruct Hr as (_ & cr & _ & x & t' & [=] & _).
  - destruct Hr as [_ [=]].
  - exact Hr.
Defined.

Example FilterMSDRules_in_place_witness :
  exists h' v', @FilterMSDRules plain_data MsdExample.u (Some HeapExample.msd.1) HeapExample.msd.2
      = HOk (Some HeapExample.msd.1) h' /\
    @at_DomainData plain_data h' HeapExample.msd.1 = Some v' /\
    @Util.FilterMSDRules plain_data option MsdExample.u (Some MsdExample.d) = PRet (Some v') /\
    v' <> MsdExample.d.
Proof.
  pose proof (@FilterMSDRules_in_place plain_data option MsdExample.u HeapExample.msd.2
    HeapExample.msd.1 MsdExample.d ltac:(vm_compute; reflexivity)) as Hf.
  destruct (@FilterMSDRules plain_data _ _ _) as [p h'| |].
  - destruct Hf as (-> & (v' & Hv & Hr) & _). exists h', v'. split; [reflexivity|].
    split; [exact Hv|]. split; [exact Hr|]. intros ->. discriminate Hr.
  - discriminate Hf.
  - destruct Hf.
Defined.

Example deep_copies_separate_witness :
  exists l' hn, @AthenzDomain_DeepCopyObject plain_data rebuild_copy (Some HeapExample.lo) HeapExample.h
      = HOk (Some (Some l')) (HeapExample.h ∪ hn) /\
    @at_AthenzDomain plain_data hn l' = Some (CrExample.cr "old" "7").
Proof.
  destruct (@deep_copies_separate plain_data rebuild_copy rebuild_copy_ok HeapExample.h HeapExample.lo
    _ [] [] HeapExample.h_old eq_refl) as [(l' & hn & Hrun & _ & Hr) _].
  exists l', hn. split; [exact Hrun | exact Hr].
Defined.
