(* ===== verification/Caches.v ===== *)
(** * The informer caches at one instant

    The two informer caches and the trust index over the second one, as a
    value; [agrees C e] says that the call [e] was answered from the caches
    [C].  An execution all of whose calls agree with [C] ran while the caches
    were [C].  Calls that do not read a cache are not constrained. *)
From stdpp Require Import base list strings gmap sorting.
From S2P Require Import Prelude Prog Zms Effects Cr.
#[local] Open Scope string_scope.

Section caches.
Context `{ZmsData}.

(** The names of the cached namespaces, and the cached CRs by key: both kinds
    are cluster-scoped, so a key is a name. *)
Record Caches := mkCaches {
  cached_ns : gset string;
  cached_crs : gmap string AthenzDomain
}.

(** The keys [TrustDomainIndexFunc] files a CR under. *)
Definition index_keys (cr : AthenzDomain) : list string :=
  match AD_Domain cr with
  | None => []
  | Some d => trusts (omap id (elems (DD_Roles d)))
  end.

(** The cached CRs filed under [d]. *)
Definition trusting (C : Caches) (d : string) : list AthenzDomain :=
  filter (fun cr => d ∈ index_keys cr) (map_to_list (cached_crs C)).*2.

Definition agrees (C : Caches) (e : ev K8sE) : Prop :=
  match e with
  | Ev e x =>
      match e in K8sE X return X -> Prop with
      | NsGetByKey k => fun x => x.1.2 = bool_decide (k ∈ cached_ns C) /\ x.2 = None
      | NsList => fun l =>
          exists names, l = map (fun n => ObjNamespace (Some n)) names /\
            NoDup names /\ list_to_set names = cached_ns C
      | CrGetByKey k => fun x =>
          match cached_crs C !! k with
          | Some cr => x = (ObjAthenzDomain (Some cr), true, None)
          | None => x = (ObjNil, false, None)
          end
      | CrList => fun l => l ≡ₚ map (fun cr => ObjAthenzDomain (Some cr)) (map_to_list (cached_crs C)).*2
      | CrByIndex i d => fun x =>
          i = trustDomainIndexKey ->
          x.2 = None /\ x.1 ≡ₚ map (fun cr => ObjAthenzDomain (Some cr)) (trusting C d)
      | CrListIndexFuncValues i => fun l =>
          i = trustDomainIndexKey ->
          NoDup l /\ forall d, trusting C d <> [] -> d ∈ l
      | _ => fun _ => True
      end x
  end.

(** The cached CR a domain is a trust domain of. *)
Definition trusted (C : Caches) (d : string) : bool :=
  match trusting C d with [] => false | _ => true end.

Lemma trusted_spec C d :
  trusted C d = true <->
  exists k cr, cached_crs C !! k = Some cr /\ d ∈ index_keys cr.
Proof.
  assert (Hin : forall cr, cr ∈ trusting C d <->
    d ∈ index_keys cr /\ exists k, cached_crs C !! k = Some cr).
  { intros cr. unfold trusting. rewrite list_elem_of_filter, list_elem_of_fmap.
    f_equiv. split.
    - intros ([k cr'] & -> & Hk%elem_of_map_to_list). eauto.
    - intros (k & Hk). exists (k, cr). by rewrite elem_of_map_to_list. }
  unfold trusted. destruct (trusting C d) as [|cr l] eqn:Hl; split.
  - done.
  - intros (k & cr & Hk & Hd). exfalso. apply (not_elem_of_nil cr). apply Hin. eauto.
  - intros _. destruct (proj1 (Hin cr)) as (Hd & k & Hk); [by left|]. eauto.
  - done.
Qed.

(** What the answers of agreeing calls are. *)
Lemma agrees_ns C k obj ex e :
  agrees C (Ev (NsGetByKey k) (obj, ex, e)) ->
  ex = bool_decide (k ∈ cached_ns C) /\ e = None.
Proof. done. Qed.

Lemma agrees_cr C k x :
  agrees C (Ev (CrGetByKey k) x) ->
  x = match cached_crs C !! k with
      | Some cr => (ObjAthenzDomain (Some cr), true, None)
      | None => (ObjNil, false, None)
      end.
Proof. simpl. by destruct (cached_crs C !! k). Qed.

Lemma agrees_trust C d l err :
  agrees C (Ev (CrByIndex trustDomainIndexKey d) (l, err)) ->
  match err with None => match l with [] => false | _ => true end | Some _ => false end
  = trusted C d.
Proof.
  simpl. intros Ha. destruct (Ha eq_refl) as [-> Hp]. unfold trusted.
  destruct (trusting C d); simpl in Hp.
  - by apply Permutation_nil_r in Hp as ->.
  - destruct l; [|done]. by apply Permutation_nil_cons in Hp.
Qed.

(** A loop whose body queues [f a] for the element [a], while the caches are
    [C], queues the concatenation. *)
Lemma for_each_queued {A} C (body : A -> kprog unit) (f : A -> list Item) l t o :
  (forall a ta oa, a ∈ l -> exec (body a) ta oa -> Forall (agrees C) ta ->
     oa = Done tt /\ queued_items ta = f a) ->
  exec (for_each body l) t o -> Forall (agrees C) t ->
  o = Done tt /\ queued_items t = l ≫= f.
Proof.
  revert t. induction l as [|a l IH]; intros t Hb He Ha.
  { by destruct He as [-> ->]. }
  apply exec_pbind in He as [(t1 & t2 & [] & -> & H1 & H2)|(w & H1 & ->)].
  - apply Forall_app in Ha as [Ha1 Ha2].
    destruct (Hb a t1 (Done tt)) as [_ Hq]; [by left|done..|].
    destruct (IH t2) as [-> Hq2]; [|done..|].
    + intros b tb ob Hin. apply Hb. by right.
    + by rewrite queued_items_app, Hq, Hq2.
  - by destruct (Hb a t (Panicked w)) as [[=] _]; [left|done..|].
Qed.
End caches.

(** Read the answers of the agreeing calls in the context. *)
Ltac agree_simpl :=
  repeat match goal with
  | Ha : Forall (agrees _) (_ ++ _) |- _ => rewrite Forall_app in Ha; destruct Ha
  | Ha : Forall (agrees _) (_ :: _) |- _ => rewrite Forall_cons in Ha; destruct Ha
  | Ha : Forall (agrees _) [] |- _ => clear Ha
  | Ha : agrees _ (Ev (NsGetByKey _) _) |- _ => apply agrees_ns in Ha as [? ?]
  | Ha : agrees _ (Ev (CrGetByKey _) _) |- _ => apply agrees_cr in Ha
  | Ha : agrees _ (Ev (CrByIndex trustDomainIndexKey _) _) |- _ => apply agrees_trust in Ha
  end.
