(* ===== verification/Cron.v ===== *)
(** * pkg/cron: the update cron and the full-resync cron

    [Cron] holds the configuration and the etag of the last answer of ZMS; a
    method that changes it returns the new value.  The two endless loops,
    [UpdateCron] and [FullResync], are step relations whose steps run the
    loop's body. *)
From stdpp Require Import base list strings gmap.
From S2P Require Import Prelude Prog GoStrings Zms Util Effects Cr Caches.
#[local] Open Scope string_scope.
#[local] Set Warnings "-clear-no-such-hyp".

Definition Second : Z := 1000000000.

Record AthenzContactTimeConfigMap := mkContactTimeCm {
  ACT_Namespace : string;
  ACT_Name : string;
  ACT_Key : string
}.

Record Cron := mkCron {
  checkInterval : Z;
  syncInterval : Z;
  etag : string;
  util : Util;
  contactTimeCm : ptr AthenzContactTimeConfigMap
}.

Definition NewCron (checkInterval syncInterval : Z) (etag : string) (util : Util)
    (cm : ptr AthenzContactTimeConfigMap) : Cron :=
  mkCron checkInterval syncInterval etag util cm.

Definition SetEtag (timestamp : string) (c : Cron) : Cron :=
  mkCron (checkInterval c) (syncInterval c) timestamp (util c) (contactTimeCm c).

(** The parameters of the back-off library; [Rest] stands for the fields
    [NewExponentialBackOff] sets and this code leaves alone. *)
Record ExponentialBackOff (Rest : Type) := mkBackOff {
  InitialInterval : Z;
  Multiplier : Z;
  MaxElapsedTime : Z;
  backoff_rest : Rest
}.
Arguments mkBackOff {Rest}.
Arguments InitialInterval {Rest}.
Arguments Multiplier {Rest}.
Arguments MaxElapsedTime {Rest}.
Arguments backoff_rest {Rest}.

Definition getExponentialBackoff {Rest} (NewExponentialBackOff : ExponentialBackOff Rest)
    (c : Cron) : ExponentialBackOff Rest :=
  let b := NewExponentialBackOff in
  mkBackOff (2 * Second) 2 (Z.quot (checkInterval c) 2) (backoff_rest b).

Section cron.
Context `{ZmsData}.

(** A domain to keep: one with a namespace, the admin domain, or a trust
    domain; each test is made only when the ones before failed. *)
Definition ValidateDomain (u : Util) (domain : string) : kprog bool :=
  let namespace := DomainToNamespace u domain in
  '(_, exists_, _) ← trigger (NsGetByKey namespace);
  if (exists_ : bool) then mret true
  else if IsAdminDomain u domain then mret true
  else
    trust ← IsTrustDomain domain;
    if (trust : bool) then mret true else mret false.

Definition UpdateAthenzContactTime (c : Cron) (etag : string) : kprog unit :=
  cm ← deref (contactTimeCm c);
  let configmap := mkConfigMap (ACT_Name cm) {[ACT_Key cm := etag]} in
  '(configMap, err) ← trigger (CmGet (ACT_Namespace cm) (ACT_Name cm));
  match err with
  | Some err =>
      if IsNotFound err then
        '(_, _) ← trigger (CmCreate (ACT_Namespace cm) configmap); mret tt
      else mret tt
  | None =>
      match configMap with
      | Some _ => '(_, _) ← trigger (CmUpdate (ACT_Namespace cm) configmap); mret tt
      | None => mret tt
      end
  end.

(** The body of [requestCall]'s loop. *)
Definition announce_domain (u : Util) (domain : ptr SignedDomain) : kprog unit :=
  domain ← deref domain;
  data ← deref (SD_Domain domain);
  let domainName := DD_Name data in
  valid ← ValidateDomain u domainName;
  if (valid : bool) then AddRateLimited domainName else mret tt.

Definition requestCall (c : Cron) : kprog (option error * Cron) :=
  '(domains, newEtag, err) ← trigger (ZmsGetSignedDomains "" "true" "" false false (etag c));
  match err with
  | Some err =>
      mret (Some (Errorf "Error getting latest updated domains from ZMS API. Error: %v" err), c)
  | None =>
      match domains with
      | Some domains =>
          if (0 <? length (elems (SDs_Domains domains)))%nat
          then for_each (announce_domain (util c)) (elems (SDs_Domains domains))
          else mret tt
      | None => mret tt
      end;;
      if negb (String.eqb newEtag "") then
        let c := SetEtag newEtag c in
        UpdateAthenzContactTime c newEtag;;
        mret (None, c)
      else mret (None, c)
  end.

Definition AddAdminSystemDomains (u : Util) : kprog unit :=
  let adminDomain := GetAdminDomain u in
  (if negb (String.eqb adminDomain "") then AddRateLimited adminDomain else mret tt);;
  for_each (fun domain => if negb (String.eqb domain "") then AddRateLimited domain else mret tt)
    (GetSystemNSDomains u).

(** The bodies of the two loops of a resync. *)
Definition resync_namespace (u : Util) (ns : Obj) : kprog unit :=
  match ns with
  | ObjNamespace namespace =>
      name ← deref namespace;
      if IsNamespaceExcluded u name then mret tt
      else
        let domainName := NamespaceToDomain u name in
        AddRateLimited domainName
  | _ => mret tt
  end.

Definition resync_trust (domain : string) : kprog unit :=
  '(_, exists_, err) ← trigger (CrGetByKey domain);
  match err with
  | Some _ => mret tt
  | None => if (exists_ : bool) then AddRateLimited domain else mret tt
  end.

(** What [FullResync] does each time its timer fires. *)
Definition FullResync_tick (u : Util) : kprog unit :=
  nslist ← trigger NsList;
  for_each (resync_namespace u) nslist;;
  AddAdminSystemDomains u;;
  trustdomains ← trigger (CrListIndexFuncValues trustDomainIndexKey);
  for_each resync_trust trustdomains.

(** ** The loops *)

Inductive LoopState :=
| Sleeping (c : Cron)
| Calling (c : Cron)
| Stopped (c : Cron)
| Crashed.

(** [UpdateCron]: [RetryNotify] runs [requestCall] again after a failure as
    long as the back-off schedule allows, which is left open here. *)
Inductive UpdateCron : LoopState -> list (ev K8sE) -> LoopState -> Prop :=
| UpdateCron_stop c : UpdateCron (Sleeping c) [] (Stopped c)
| UpdateCron_timer c : UpdateCron (Sleeping c) [] (Calling c)
| UpdateCron_done c t c' :
    exec (requestCall c) t (Done (None, c')) -> UpdateCron (Calling c) t (Sleeping c')
| UpdateCron_retry c t e c' :
    exec (requestCall c) t (Done (Some e, c')) -> UpdateCron (Calling c) t (Calling c')
| UpdateCron_give_up c t e c' :
    exec (requestCall c) t (Done (Some e, c')) -> UpdateCron (Calling c) t (Sleeping c')
| UpdateCron_panic c t w :
    exec (requestCall c) t (Panicked w) -> UpdateCron (Calling c) t Crashed.

Inductive FullResync : LoopState -> list (ev K8sE) -> LoopState -> Prop :=
| FullResync_stop c : FullResync (Sleeping c) [] (Stopped c)
| FullResync_timer c t :
    exec (FullResync_tick (util c)) t (Done tt) -> FullResync (Sleeping c) t (Sleeping c)
| FullResync_panic c t w :
    exec (FullResync_tick (util c)) t (Panicked w) -> FullResync (Sleeping c) t Crashed.

(** Any number of steps of a loop, with the calls made on the way. *)
Inductive steps (R : LoopState -> list (ev K8sE) -> LoopState -> Prop)
  : LoopState -> list (ev K8sE) -> LoopState -> Prop :=
| steps_refl s : steps R s [] s
| steps_more s t s' t' s'' : R s t s' -> steps R s' t' s'' -> steps R s (t ++ t')%list s''.

(** ** Validation *)

(** The calls of a validation: the index is only consulted when the first
    two tests fail, and an index error counts as "no". *)
Lemma ValidateDomain_exec u d t o :
  exec (ValidateDomain u d) t o <->
  exists obj ex e0,
    (ex || IsAdminDomain u d = true /\ o = Done true /\
     t = [Ev (NsGetByKey (DomainToNamespace u d)) (obj, ex, e0)]) \/
    (ex || IsAdminDomain u d = false /\ exists l err,
     t = [Ev (NsGetByKey (DomainToNamespace u d)) (obj, ex, e0);
          Ev (CrByIndex trustDomainIndexKey d) (l, err)] /\
     o = Done (match err, l with None, _ :: _ => true | _, _ => false end)).
Proof.
  unfold ValidateDomain, IsTrustDomain. cbv zeta. split.
  - intros He. exec_call He as [[obj ex] e0] t1. exists obj, ex, e0.
    destruct ex; [exec_end He; by left|]. cbn [orb].
    destruct (IsAdminDomain u d); [exec_end He; by left|]. right. split; [done|].
    exec_call He as [l [err|]] t2; [exec_end He; eauto|].
    destruct l as [|x l]; cbn [length Nat.eqb] in He; exec_end He; eauto.
  - intros (obj & ex & e0 & [(Hv & -> & ->)|(Hv & l & err & -> & ->)]).
    + exec_build. destruct ex; [exec_build|]. cbn [orb] in Hv. rewrite Hv. exec_build.
    + apply orb_false_iff in Hv as [-> Hv]. exec_build. rewrite Hv. exec_build.
      destruct err, l; cbn [length Nat.eqb]; exec_build.
Qed.

(** What a validation answers while the caches are [C]. *)
Definition valid (C : Caches) (u : Util) (d : string) : bool :=
  bool_decide (DomainToNamespace u d ∈ cached_ns C) || IsAdminDomain u d || trusted C d.

Lemma valid_spec C u d :
  valid C u d = true <->
  DomainToNamespace u d ∈ cached_ns C \/ d = adminDomain u \/
  exists k cr, cached_crs C !! k = Some cr /\ d ∈ index_keys cr.
Proof.
  unfold valid. rewrite <- IsAdminDomain_spec, <- trusted_spec.
  rewrite !orb_true_iff, bool_decide_eq_true. tauto.
Qed.

Lemma ValidateDomain_valid C u d t o :
  exec (ValidateDomain u d) t o -> Forall (agrees C) t ->
  o = Done (valid C u d) /\ Forall quiet t.
Proof.
  rewrite ValidateDomain_exec. unfold valid.
  intros (obj & ex & e0 & [(Hv & -> & ->)|(Hv & l & err & -> & ->)]) Ha; agree_simpl; subst ex.
  - rewrite Hv. split; [done|]. by repeat constructor.
  - rewrite Hv. split; [by f_equal|]. by repeat constructor.
Qed.

(** C21. While the caches do not change, a domain is valid exactly when its
    namespace is cached, or it is the admin domain, or some cached CR has a
    role that trusts it.  Being a system domain, which the comment and the
    log line of [sync] also list, is no reason: one whose namespace is not
    cached and that no CR trusts is invalid, although every resync queues it.
    Validation never panics, writes or queues. *)
Theorem ValidateDomain_spec C u d t o :
  exec (ValidateDomain u d) t o -> Forall (agrees C) t ->
  exists v, o = Done v /\ Forall quiet t /\
  (v = true <->
   DomainToNamespace u d ∈ cached_ns C \/ d = adminDomain u \/
   exists k cr, cached_crs C !! k = Some cr /\ d ∈ index_keys cr) /\
  (forall ns, ns ∈ systemNamespaces u -> adminDomain u <> "" ->
     d = adminDomain u +:+ "." +:+ ns -> ns ∉ cached_ns C ->
     (forall k cr, cached_crs C !! k = Some cr -> d ∉ index_keys cr) ->
     IsSystemDomain u d = true /\ v = false).
Proof.
  intros He Ha. destruct (ValidateDomain_valid C u d t o He Ha) as [-> Hq].
  exists (valid C u d). split_and!; [done..|apply valid_spec|].
  intros ns Hsys Hadm Hd Hns Htr. destruct (IsSystemDomain_spec u d) as (-> & -> & _).
  split; [eauto|]. apply not_true_iff_false. rewrite valid_spec.
  assert (NamespaceToDomain u ns = d) as Hnd.
  { unfold NamespaceToDomain. by rewrite (proj2 (isSystemNamespace_spec u ns) Hsys). }
  rewrite <- Hnd at 1. rewrite (admin_child_namespace_lost u ns ns) by (by rewrite ?Hnd).
  intros [?|[Heq|(k & cr & Hcr & Hin)]]; [done| |by eapply Htr].
  rewrite Hd in Heq. apply (f_equal String.length) in Heq. revert Heq. clear.
  induction (adminDomain u) as [|c a IH]; simpl; [done|]. intros [= ?]. by apply IH.
Qed.

(** ** One poll *)

(** The calls made for one domain of an answer: its validation, and the
    addition to the queue when it is valid. *)
Definition announced (u : Util) (domain : ptr SignedDomain) (t : list (ev K8sE)) : Prop :=
  exists sd data v tv, domain = Some sd /\ SD_Domain sd = Some data /\
    exec (ValidateDomain u (DD_Name data)) tv (Done v) /\
    t = (tv ++ if (v : bool) then [Ev (QAddRateLimited (ItemString (DD_Name data))) tt] else [])%list.

Lemma announce_domain_exec u domain t :
  exec (announce_domain u domain) t (Done tt) <-> announced u domain t.
Proof.
  unfold announce_domain, announced. cbv zeta.
  destruct domain as [sd|]; prog_simpl.
  2:{ split; [by intros [_ ?] | by intros (? & ? & ? & ? & [=] & _)]. }
  destruct (SD_Domain sd) as [data|] eqn:Hd; prog_simpl.
  2:{ split; [by intros [_ ?]|]. intros (? & ? & ? & ? & [= <-] & Hn & _). congruence. }
  rewrite exec_bind. split.
  - intros [(t1 & t2 & v & -> & Hv & He)|(w & _ & [=])].
    exists sd, data, v, t1. split_and!; [done..|]. f_equal. destruct v.
    + apply exec_trigger in He as ([] & -> & _). done.
    + by destruct He.
  - intros (? & ? & v & tv & [= <-] & Hd' & Hv & ->). simplify_eq. left.
    eexists tv, _, v. split_and!; [done..|]. destruct v; [|done].
    apply exec_trigger. by exists tt.
Qed.

(** The calls of [requestCall] once ZMS answered without error. *)
Lemma requestCall_exec c t e c' :
  exec (requestCall c) t (Done (e, c')) <->
  exists domains newEtag err t',
    t = Ev (ZmsGetSignedDomains "" "true" "" false false (etag c)) (domains, newEtag, err) :: t' /\
    match err with
    | Some err =>
        t' = [] /\ c' = c /\
        e = Some (Errorf "Error getting latest updated domains from ZMS API. Error: %v" err)
    | None =>
        exists ts t2, t' = (concat ts ++ t2)%list /\ e = None /\
          Forall2 (announced (util c)) (elems (domains ≫= SDs_Domains)) ts /\
          if String.eqb newEtag "" then t2 = [] /\ c' = c
          else c' = SetEtag newEtag c /\ exec (UpdateAthenzContactTime c' newEtag) t2 (Done tt)
    end.
Proof.
  assert (Hloop : forall domains t1,
    exec (match domains with
          | Some domains =>
              if (0 <? length (elems (SDs_Domains domains)))%nat
              then for_each (announce_domain (util c)) (elems (SDs_Domains domains))
              else mret tt
          | None => mret tt
          end) t1 (Done tt) <->
    exists ts, t1 = concat ts /\
      Forall2 (announced (util c)) (elems (domains ≫= SDs_Domains)) ts).
  { intros domains t1.
    transitivity (exec (for_each (announce_domain (util c)) (elems (domains ≫= SDs_Domains))) t1 (Done tt)).
    - destruct domains as [ds|]; [|done]. cbn [mbind option_bind].
      by destruct (elems (SDs_Domains ds)).
    - rewrite exec_for_each. f_equiv. intros ts. f_equiv.
      split; intros Hf; (eapply Forall2_impl; [exact Hf|]); intros ?? Ha;
        by apply announce_domain_exec. }
  unfold requestCall. split.
  - intros He. exec_call He as [[domains newEtag] err] t'. exists domains, newEtag, err, t'.
    split; [done|]. destruct err as [err|].
    { apply exec_mret in He as [-> [= -> ->]]. done. }
    apply exec_bind in He as [(t1 & t2 & [] & -> & Hl & He)|(w & _ & [=])].
    apply Hloop in Hl as (ts & -> & Hts).
    exists ts, t2. destruct (String.eqb_spec newEtag "") as [->|Hn]; cbn [negb] in He.
    + apply exec_mret in He as [-> [= -> ->]]. by split_and!.
    + apply exec_bind in He as [(t3 & t4 & [] & -> & Hu & [-> [= -> ->]])|(w & _ & [=])].
      rewrite app_nil_r. by split_and!.
  - intros (domains & newEtag & err & t' & -> & Hcase). prog_simpl. rewrite exec_vis.
    eexists _, t'. split; [done|]. destruct err as [err|].
    { destruct Hcase as (-> & -> & ->). by split. }
    destruct Hcase as (ts & t2 & -> & -> & Hts & Hu). apply exec_bind_done with tt.
    { apply Hloop. eauto. }
    destruct (String.eqb newEtag ""); cbn [negb].
    + destruct Hu as [-> ->]. by split.
    + destruct Hu as [-> Hu]. cbv zeta. rewrite <- (app_nil_r t2).
      apply exec_bind_done with tt; [done | by split].
Qed.

(** The names an answer lists; [None] when the answer has a nil entry. *)
Definition name_of (domain : ptr SignedDomain) : option string :=
  sd ← domain; DD_Name <$> SD_Domain sd.
Definition listed (domains : ptr SignedDomains) : list (ptr SignedDomain) :=
  elems (domains ≫= SDs_Domains).

Lemma UpdateAthenzContactTime_unqueued c e :
  safe (fun ev => queued ev = None) (UpdateAthenzContactTime c e).
Proof. unfold UpdateAthenzContactTime. destruct (contactTimeCm c); prog_struct; done. Qed.

Lemma announced_queued C u l ts :
  Forall2 (announced u) l ts -> Forall (agrees C) (concat ts) ->
  exists names, mapM name_of l = Some names /\
    queued_items (concat ts) = ItemString <$> filter (fun d => valid C u d = true) names.
Proof.
  induction 1 as [|x t l ts (sd & data & v & tv & -> & Hd & Hv & ->) _ IH]; simpl; intros Ha.
  { by exists []. }
  apply Forall_app in Ha as [Ha Hts]. destruct (IH Hts) as (names & -> & Hq).
  rewrite Hd. simpl. exists (DD_Name data :: names). split; [done|].
  apply Forall_app in Ha as [Htv _].
  destruct (ValidateDomain_valid _ _ _ _ _ Hv Htv) as [[= ->] [_ Hn]%quiet_trace].
  rewrite !queued_items_app, Hn, Hq. rewrite filter_cons. simpl.
  by destruct (valid C u (DD_Name data)).
Qed.

(** C14. A poll that ZMS answers adds to the queue, in order and once per
    entry, exactly the valid domains of the answer (no changed domain that is
    ours is dropped), takes over the answer's etag unless it is empty, and
    changes nothing else; a poll that ZMS fails returns an error, queues
    nothing and keeps the etag, so the next poll asks for the same changes
    again. *)
Theorem requestCall_spec c t r c' :
  exec (requestCall c) t (Done (r, c')) ->
  exists domains newEtag err t',
    t = Ev (ZmsGetSignedDomains "" "true" "" false false (etag c)) (domains, newEtag, err) :: t' /\
    match err with
    | Some _ => r <> None /\ t' = [] /\ c' = c
    | None =>
        r = None /\ c' = (if String.eqb newEtag "" then c else SetEtag newEtag c) /\
        forall C, Forall (agrees C) t' ->
          exists names, mapM name_of (listed domains) = Some names /\
            queued_items t' = ItemString <$> filter (fun d => valid C (util c) d = true) names
    end.
Proof.
  rewrite requestCall_exec. intros (domains & newEtag & err & t' & -> & Hcase).
  exists domains, newEtag, err, t'. split; [done|]. destruct err as [err|].
  { destruct Hcase as (-> & -> & ->). done. }
  destruct Hcase as (ts & t2 & -> & -> & Hts & Hu). split; [done|].
  assert (Hq2 : queued_items t2 = [] /\ c' = if String.eqb newEtag "" then c else SetEtag newEtag c).
  { destruct (String.eqb newEtag ""); destruct Hu as [? Hu]; subst; [done|].
    split; [|done]. apply unqueued_trace. eapply safe_exec; [|exact Hu].
    apply UpdateAthenzContactTime_unqueued. }
  destruct Hq2 as [Hq2 ->]. split; [done|]. intros C Ha. apply Forall_app in Ha as [Ha _].
  destruct (announced_queued C (util c) _ _ Hts Ha) as (names & Hn & Hq).
  exists names. split; [done|]. by rewrite queued_items_app, Hq2, app_nil_r.
Qed.

(** ** The config map *)

(** The contact time is recorded as the whole content of the configured
    config map, under the configured key: the map is created when reading it
    says "not found" and updated when it is there; on any other error, and
    on an answer without a map, nothing is written.  Errors of the writes
    are dropped, and the only panic is a nil configuration. *)
Theorem UpdateAthenzContactTime_spec c e t o :
  exec (UpdateAthenzContactTime c e) t o <->
  match contactTimeCm c with
  | None => t = [] /\ o = Panicked nil_deref
  | Some cm =>
      let new := mkConfigMap (ACT_Name cm) {[ACT_Key cm := e]} in
      o = Done tt /\ exists old err t',
        t = Ev (CmGet (ACT_Namespace cm) (ACT_Name cm)) (old, err) :: t' /\
        match err, old with
        | Some err, _ =>
            if IsNotFound err then exists r, t' = [Ev (CmCreate (ACT_Namespace cm) new) r]
            else t' = []
        | None, Some _ => exists r, t' = [Ev (CmUpdate (ACT_Namespace cm) new) r]
        | None, None => t' = []
        end
  end.
Proof.
  unfold UpdateAthenzContactTime. destruct (contactTimeCm c) as [cm|]; [|done]. cbv zeta. split.
  - intros He. exec_call He as [old err] t1. destruct err as [err|]; [destruct (IsNotFound err) eqn:Hn|].
    + exec_call He as [r1 r2] t2. exec_end He. split; [done|]. exists old, (Some err); eexists.
      rewrite Hn. eauto.
    + exec_end He. split; [done|]. exists old, (Some err); eexists. by rewrite Hn.
    + destruct old as [old|].
      * exec_call He as [r1 r2] t2. exec_end He. split; [done|]. exists (Some old), None; eexists. eauto.
      * exec_end He. split; [done|]. by exists None, None, [].
  - intros (-> & old & err & t' & -> & Hc). exec_build.
    destruct err as [err|]; [destruct (IsNotFound err)|destruct old as [old|]].
    all: match type of Hc with ex _ => destruct Hc as [[r1 r2] Hc] | _ => idtac end.
    all: subst t'; exec_build.
Qed.

(** ** A full resync *)

Lemma AddAdminSystemDomains_queued C u t o :
  exec (AddAdminSystemDomains u) t o -> Forall (agrees C) t ->
  o = Done tt /\ queued_items t =
    ItemString <$> filter (fun d => d <> "") (GetAdminDomain u :: GetSystemNSDomains u).
Proof.
  unfold AddAdminSystemDomains. cbv zeta.
  assert (Hone : forall d t1 o1,
    exec (if negb (String.eqb d "") then AddRateLimited d else mret tt) t1 o1 ->
    o1 = Done tt /\ queued_items t1 = (if String.eqb d "" then [] else [ItemString d])).
  { intros d t1 o1. destruct (String.eqb d ""); cbn [negb].
    - by intros [-> ->].
    - unfold AddRateLimited. intros H1. exec_last H1 as []. done. }
  intros He Ha. apply exec_bind in He as [(t1 & t2 & [] & -> & H1 & H2)|(w & H1 & ->)];
    apply Hone in H1 as [Ho Hq1]; [|done].
  apply Forall_app in Ha as [_ Ha2].
  apply (for_each_queued C _ (fun d => if String.eqb d "" then [] else [ItemString d]))
    in H2 as [-> Hq2]; [|by intros ???? ?%Hone ?|done].
  split; [done|]. rewrite queued_items_app, Hq1, Hq2.
  assert (Hfold : forall l, l ≫= (fun d => if String.eqb d "" then [] else [ItemString d]) =
                    ItemString <$> filter (fun d => d <> "") l).
  { induction l as [|d l IH]; [done|]. rewrite filter_cons. csimpl. rewrite IH.
    destruct (String.eqb_spec d ""); [by rewrite decide_False by tauto | by rewrite decide_True]. }
  by rewrite Hfold, filter_cons; destruct (String.eqb_spec (GetAdminDomain u) "");
    [rewrite decide_False by tauto | rewrite decide_True].
Qed.

Lemma resync_namespaces_queued C u names t o :
  exec (for_each (resync_namespace u) (map (fun n => ObjNamespace (Some n)) names)) t o ->
  Forall (agrees C) t ->
  o = Done tt /\ queued_items t =
    ItemString <$> (NamespaceToDomain u <$> filter (fun n => IsNamespaceExcluded u n = false) names).
Proof.
  pose (f := fun ns => match ns with
    | ObjNamespace (Some n) =>
        if IsNamespaceExcluded u n then [] else [ItemString (NamespaceToDomain u n)]
    | _ => []
    end).
  intros He Ha. apply (for_each_queued C _ f) in He as [-> ->]; [split; [done|]|clear He|done].
  - induction names as [|n names IH]; [done|]. rewrite filter_cons. csimpl. rewrite IH. simpl.
    by destruct (IsNamespaceExcluded u n).
  - intros ns ta oa (n & -> & _)%list_elem_of_fmap He _. unfold resync_namespace, f in *.
    prog_simpl_in He. destruct (IsNamespaceExcluded u n); [by exec_end He|].
    unfold AddRateLimited in He. by exec_last He as [].
Qed.

Lemma resync_trusts_queued C l t o :
  exec (for_each resync_trust l) t o -> Forall (agrees C) t ->
  o = Done tt /\ queued_items t = ItemString <$> filter (fun d => is_Some (cached_crs C !! d)) l.
Proof.
  pose (f := fun d => if decide (is_Some (cached_crs C !! d)) then [ItemString d] else []).
  intros He Ha. apply (for_each_queued C _ f) in He as [-> ->]; [split; [done|]|clear He|done].
  - induction l as [|d l IH]; [done|]. rewrite filter_cons. csimpl. rewrite IH. unfold f.
    by destruct (decide _).
  - intros d ta oa _ He Hd. unfold resync_trust, f in *.
    exec_call He as [[obj ex] e0] t1. agree_simpl.
    destruct (cached_crs C !! d) as [cr|]; simplify_eq.
    + unfold AddRateLimited in He. exec_last He as []. by rewrite decide_True by eauto.
    + exec_end He. rewrite decide_False; [done|]. by intros [? ?].
Qed.

(** The queue additions of a resync that lists the namespaces [names] and
    the index values [trustdomains]. *)
Lemma FullResync_tick_queued C u t o :
  exec (FullResync_tick u) t o -> Forall (agrees C) t ->
  exists names trustdomains, o = Done tt /\
    NoDup names /\ list_to_set names = cached_ns C /\
    NoDup trustdomains /\ (forall d, trusted C d = true -> d ∈ trustdomains) /\
    queued_items t = ItemString <$>
      ((NamespaceToDomain u <$> filter (fun n => IsNamespaceExcluded u n = false) names) ++
       filter (fun d => d <> "") (GetAdminDomain u :: GetSystemNSDomains u) ++
       filter (fun d => is_Some (cached_crs C !! d)) trustdomains)%list.
Proof.
  unfold FullResync_tick. intros He Ha. exec_call He as nslist t1.
  apply Forall_cons in Ha as [(names & -> & Hnd & Hset) Ha].
  assert (Hnc : forall w, Panicked w <> Done tt) by done.
  apply exec_bind in He as [(t2 & t3 & [] & -> & Hx1 & He)|(w & Hx1 & ->)];
    agree_simpl; apply (resync_namespaces_queued C) in Hx1 as [Ho Hq1]; try done.
  apply exec_bind in He as [(t4 & t5 & [] & -> & Hx2 & He)|(w & Hx2 & ->)];
    agree_simpl; apply (AddAdminSystemDomains_queued C) in Hx2 as [Ho' Hq2]; try done.
  exec_call He as trustdomains t6. agree_simpl.
  match goal with Hi : agrees C (Ev (CrListIndexFuncValues _) _) |- _ =>
    destruct (Hi eq_refl) as [Hnd' Htr] end.
  apply (resync_trusts_queued C) in He as [-> Hq3]; [|done].
  exists names, trustdomains. split_and!; try done.
  - intros d. unfold trusted. intros Hd. apply Htr. by destruct (trusting C d).
  - change (queued_items (Ev NsList _ :: ?x)) with (queued_items x).
    rewrite !queued_items_app, Hq1, Hq2.
    change (queued_items (Ev (CrListIndexFuncValues _) _ :: ?x)) with (queued_items x).
    by rewrite Hq3, !fmap_app.
Qed.

(** C16. A resync, while the caches are [C], queues the domain of every cached
    namespace that is not excluded, the admin domain, every system domain and
    every trust domain that has a CR; and it queues nothing but these (a
    trust domain may be one no CR trusts any more).  It never panics. *)
Theorem FullResync_tick_spec C u t o :
  exec (FullResync_tick u) t o -> Forall (agrees C) t ->
  let ours d :=
    (exists ns, ns ∈ cached_ns C /\ IsNamespaceExcluded u ns = false /\ d = NamespaceToDomain u ns) \/
    (d <> "" /\ (d = adminDomain u \/ 
       exists ns, ns ∈ systemNamespaces u /\ d = adminDomain u +:+ "." +:+ ns)) in
  o = Done tt /\
  (forall d, ours d \/ (trusted C d = true /\ is_Some (cached_crs C !! d)) ->
     ItemString d ∈ queued_items t) /\
  (forall i, i ∈ queued_items t ->
     exists d, i = ItemString d /\ (ours d \/ is_Some (cached_crs C !! d))).
Proof.
  intros He Ha ours.
  destruct (FullResync_tick_queued C u t o He Ha)
    as (names & l & -> & _ & Hset & _ & Htr & ->).
  assert (Hours : forall d, ours d <->
    d ∈ (NamespaceToDomain u <$> filter (fun n => IsNamespaceExcluded u n = false) names) \/
    d ∈ filter (fun d => d <> "") (GetAdminDomain u :: GetSystemNSDomains u)).
  { intros d. unfold ours. rewrite GetSystemNSDomains_map, list_elem_of_fmap,
      list_elem_of_filter, elem_of_cons, list_elem_of_fmap. f_equiv.
    - rewrite <- Hset. setoid_rewrite elem_of_list_to_set. setoid_rewrite list_elem_of_filter.
      split; intros (ns & ? & ?); exists ns; tauto.
    - unfold GetAdminDomain. f_equiv. f_equiv. split; intros (ns & ? & ?); exists ns; tauto. }
  split; [done|]. setoid_rewrite Hours. split.
  - intros d Hd. apply list_elem_of_fmap_2. rewrite !elem_of_app, (list_elem_of_filter _ l).
    destruct Hd as [[?|?]|[?%Htr ?]]; auto.
  - intros i (d & -> & Hd)%list_elem_of_fmap. exists d. split; [done|].
    rewrite !elem_of_app, (list_elem_of_filter _ l) in Hd. tauto.
Qed.

(** ** The update loop *)

(** The etag to ask with after an answer of ZMS to a poll with [e]. *)
Definition next_etag (e : string) (answer : ptr SignedDomains * string * option error) : string :=
  match answer with
  | (_, newEtag, None) => if String.eqb newEtag "" then e else newEtag
  | (_, _, Some _) => e
  end.

(** Following a trace of polls that starts with the etag [e]: the etag at its
    end, and whether every poll asked with the current one. *)
Fixpoint last_etag (e : string) (t : list (ev K8sE)) : string :=
  match t with
  | [] => e
  | Ev (ZmsGetSignedDomains _ _ _ _ _ _) answer :: t' => last_etag (next_etag e answer) t'
  | _ :: t' => last_etag e t'
  end.

Fixpoint etags_ok (e : string) (t : list (ev K8sE)) : Prop :=
  match t with
  | [] => True
  | Ev (ZmsGetSignedDomains _ _ _ _ _ tag) answer :: t' =>
      tag = e /\ etags_ok (next_etag e answer) t'
  | _ :: t' => etags_ok e t'
  end.

Definition not_poll (e : ev K8sE) : bool :=
  match e with Ev (ZmsGetSignedDomains _ _ _ _ _ _) _ => false | _ => true end.

Lemma last_etag_app e t1 t2 : last_etag e (t1 ++ t2) = last_etag (last_etag e t1) t2.
Proof. revert e. induction t1 as [|[X [] x] t1 IH]; simpl; intros; done. Qed.

Lemma etags_ok_app e t1 t2 :
  etags_ok e (t1 ++ t2) <-> etags_ok e t1 /\ etags_ok (last_etag e t1) t2.
Proof.
  revert e. induction t1 as [|[X [] x] t1 IH]; simpl; intros; rewrite ?IH; tauto.
Qed.

Lemma not_poll_etags e t :
  Forall (fun e => not_poll e = true) t -> etags_ok e t /\ last_etag e t = e.
Proof. induction 1 as [|[X [] x] t Hx Ht IH]; simpl in *; done. Qed.

(** The only poll of [requestCall] is its first call. *)
Lemma requestCall_polls c t o :
  exec (requestCall c) t o ->
  Forall (fun e => not_poll e = true) (tail t) /\ etags_ok (etag c) t.
Proof.
  unfold requestCall. intros He. exec_call He as [[domains newEtag] err] t'. cbn [tail].
  match goal with |- ?P /\ _ => assert (Hsafe : P) end.
  2:{ split; [done|]. split; [done|]. by apply not_poll_etags. }
  eapply safe_exec; [|exact He].
  assert (Hv : forall u d, safe (fun e => not_poll e = true) (announce_domain u d)).
  { intros u d. unfold announce_domain, ValidateDomain, IsTrustDomain.
    destruct d as [sd|]; [|done]. destruct (SD_Domain sd) eqn:Hsd; prog_simpl; [|by rewrite Hsd].
    rewrite Hsd. prog_struct; done. }
  assert (Hu : forall c e, safe (fun e => not_poll e = true) (UpdateAthenzContactTime c e)).
  { intros c' e. unfold UpdateAthenzContactTime. destruct (contactTimeCm c'); prog_struct; done. }
  destruct err; [done|]. apply safe_bind.
  - destruct domains; [|done]. destruct (_ <? _)%nat; [|done]. by apply safe_for_each.
  - intros _. destruct (negb _); [|done]. by apply safe_bind.
Qed.

Lemma requestCall_etags c t o :
  exec (requestCall c) t o ->
  etags_ok (etag c) t /\ forall r c', o = Done (r, c') -> etag c' = last_etag (etag c) t.
Proof.
  intros He. destruct (requestCall_polls _ _ _ He) as [Hn Hok]. split; [done|].
  intros r c' ->. apply requestCall_exec in He as (domains & newEtag & err & t1 & -> & Hc).
  cbn [last_etag tail next_etag] in *.
  destruct (not_poll_etags (next_etag (etag c) (domains, newEtag, err)) t1 Hn) as [_ Hl].
  destruct err as [err|]; cbn [next_etag] in Hl |- *; rewrite Hl.
  - by destruct Hc as (_ & -> & _).
  - destruct Hc as (ts & t2 & _ & _ & _ & Hu).
    by destruct (String.eqb newEtag ""); destruct Hu as [? ?]; subst.
Qed.

(** The etag a state of the loop holds. *)
Definition state_etag (s : LoopState) : option string :=
  match s with Sleeping c | Calling c | Stopped c => Some (etag c) | Crashed => None end.

Lemma UpdateCron_step s t s' e :
  UpdateCron s t s' -> state_etag s = Some e ->
  etags_ok e t /\ (forall e', state_etag s' = Some e' -> e' = last_etag e t).
Proof.
  destruct 1 as [c|c|c t c' He|c t x c' He|c t x c' He|c t w He]; simpl; intros [= <-];
    [naive_solver..| | | |];
    destruct (requestCall_etags _ _ _ He) as [Hok Hlast]; (split; [done|]);
    intros e' [= <-]; by eapply Hlast.
Qed.

(** C15. Over any number of rounds of the update loop, with retries after
    failures, every poll asks ZMS for the changes since the last etag that a
    successful answer carried (the initial one before that): no window of
    changes is skipped, and none is asked for twice but after a failure or
    an answer without an etag.  The loop's state holds that etag. *)
Theorem UpdateCron_etags c t s :
  steps UpdateCron (Sleeping c) t s ->
  etags_ok (etag c) t /\ (forall e, state_etag s = Some e -> e = last_etag (etag c) t).
Proof.
  intros Hs. assert (Hgen : forall s0 e0, state_etag s0 = Some e0 -> steps UpdateCron s0 t s ->
    etags_ok e0 t /\ (forall e, state_etag s = Some e -> e = last_etag e0 t)).
  { clear. intros s0 e0 He0 Hs. revert e0 He0.
    induction Hs as [s0|s0 t0 s1 t1 s2 Hstep Hrest IH]; intros e0 He0; [naive_solver|].
    destruct (UpdateCron_step _ _ _ _ Hstep He0) as [Hok Hl].
    rewrite etags_ok_app, last_etag_app.
    destruct (state_etag s1) as [e1|] eqn:He1.
    - rewrite <- (Hl e1 eq_refl). destruct (IH e1 eq_refl). done.
    - destruct s1; try done. inversion Hrest as [|? ? ? ? ? Hbad]; subst; [|by inversion Hbad].
      by split. }
  by apply (Hgen (Sleeping c) (etag c) eq_refl).
Qed.
End cron.

(** ** Witnesses *)
Module CronExample.
#[local] Existing Instance plain_data.

Definition u : Util := NewUtil "k8s.cluster" ["kube-system"] ["acceptance-test"] false.
Definition cron : Cron :=
  NewCron Second Second "e0" u (Some (mkContactTimeCm "kube-yahoo" "athenzcall-config" "latest_contact")).
Definition empty_data (n : string) : DomainData := mkDomainData n 0 None None true.
Definition domains : ptr SignedDomains :=
  Some (mkSignedDomains (Some
    [Some (mkSignedDomain (Some (empty_data "home.foo")) "" "");
     Some (mkSignedDomain (Some (empty_data "no.namespace")) "" "")])).
Definition caches : Caches :=
  mkCaches {["home-foo"; "acceptance-test"]} {["home.domain" := CrExample.cr "sig" "1"]}.

(** A poll whose answer has one valid domain and a new etag. *)
Definition poll : list (ev K8sE) :=
  [Ev (ZmsGetSignedDomains "" "true" "" false false "e0") (domains, "e1", None);
   Ev (NsGetByKey "home-foo") (ObjNamespace (Some "home-foo"), true, None);
   Ev (QAddRateLimited (ItemString "home.foo")) tt;
   Ev (NsGetByKey "no-namespace") (ObjNil, false, None);
   Ev (CrByIndex trustDomainIndexKey "no.namespace") ([], None);
   Ev (CmGet "kube-yahoo" "athenzcall-config") (None, Some (StatusError ReasonNotFound "absent"));
   Ev (CmCreate "kube-yahoo" (mkConfigMap "athenzcall-config" {["latest_contact" := "e1"]}))
      (None, None)].
Lemma poll_exec : exec (requestCall cron) poll (Done (None, SetEtag "e1" cron)).
Proof. repeat (eexists; eexists; split; [reflexivity|]). split; reflexivity. Defined.

Definition resync : list (ev K8sE) :=
  [Ev NsList [ObjNamespace (Some "home-foo"); ObjNamespace (Some "acceptance-test")];
   Ev (QAddRateLimited (ItemString "home.foo")) tt;
   Ev (QAddRateLimited (ItemString "k8s.cluster")) tt;
   Ev (QAddRateLimited (ItemString "k8s.cluster.kube-system")) tt;
   Ev (CrListIndexFuncValues trustDomainIndexKey) ["parent.domain"];
   Ev (CrGetByKey "parent.domain") (ObjNil, false, None)].
Lemma resync_exec : exec (FullResync_tick u) resync (Done tt).
Proof. repeat (eexists; eexists; split; [reflexivity|]). split; reflexivity. Defined.
Lemma resync_agrees : Forall (agrees caches) resync.
Proof.
  repeat apply Forall_cons_2; try exact I; [| | |apply Forall_nil_2].
  - exists ["home-foo"; "acceptance-test"]. split; [reflexivity|].
    split; [apply (bool_decide_unpack _); vm_compute; exact I|reflexivity].
  - intros _. split; [apply NoDup_singleton|].
    intros d Hd. assert (Ht : trusted caches d = true)
      by (unfold trusted; by destruct (trusting caches d)).
    apply trusted_spec in Ht as (k & cr & Hk & Hin).
    unfold caches in Hk. cbn [cached_crs] in Hk.
    apply lookup_singleton_Some in Hk as [<- <-]. exact Hin.
  - by cbn.
Qed.
End CronExample.

(** A system domain whose namespace is not there. *)
Example ValidateDomain_spec_witness :
  let u := NewUtil "k8s" ["kube-system"] [] false in
  exists v, exec (@ValidateDomain plain_data u "k8s.kube-system")
    [Ev (@NsGetByKey plain_data "kube-system") (@ObjNil plain_data, false, None);
     Ev (@CrByIndex plain_data trustDomainIndexKey "k8s.kube-system") ([], None)] (Done v) /\
    v = false.
Proof.
  intros u.
  assert (He : exec (@ValidateDomain plain_data u "k8s.kube-system")
    [Ev (@NsGetByKey plain_data "kube-system") (@ObjNil plain_data, false, None);
     Ev (@CrByIndex plain_data trustDomainIndexKey "k8s.kube-system") ([], None)] (Done false)).
  { repeat (eexists; eexists; split; [reflexivity|]). split; reflexivity. }
  destruct (@ValidateDomain_spec plain_data (mkCaches ∅ ∅) u "k8s.kube-system" _ _ He)
    as (v & Hv & _ & _ & Hs).
  - apply Forall_cons_2; [split; reflexivity|]. apply Forall_cons_2; [|apply Forall_nil_2].
    intros _. split; [reflexivity|]. vm_compute. apply perm_nil.
  - destruct (Hs "kube-system") as [_ Hf]; [by left|discriminate|reflexivity| | |].
    + by apply not_elem_of_empty.
    + intros k cr Hcr. cbn [cached_crs] in Hcr. by apply lookup_empty_Some in Hcr.
    + exists v. split; [rewrite <- Hv; exact He|exact Hf].
Defined.

Example requestCall_spec_witness :
  exec (@requestCall plain_data CronExample.cron) CronExample.poll
    (Done (None, SetEtag "e1" CronExample.cron)) /\
  exists domains newEtag err t', CronExample.poll =
    Ev (@ZmsGetSignedDomains plain_data "" "true" "" false false "e0") (domains, newEtag, err) :: t'.
Proof.
  split; [exact CronExample.poll_exec|].
  destruct (@requestCall_spec plain_data _ _ _ _ CronExample.poll_exec)
    as (domains & newEtag & err & t' & Ht & _).
  exists domains, newEtag, err, t'. exact Ht.
Defined.

Example FullResync_tick_spec_witness :
  ItemString "home.foo" ∈ queued_items CronExample.resync.
Proof.
  destruct (@FullResync_tick_spec plain_data _ _ _ _ CronExample.resync_exec
              CronExample.resync_agrees) as (_ & Hq & _).
  apply Hq. left. left. exists "home-foo".
  split; [apply (bool_decide_unpack _); vm_compute; exact I | split; reflexivity].
Defined.

Example UpdateCron_etags_witness :
  etags_ok "e0" CronExample.poll /\ last_etag "e0" CronExample.poll = "e1".
Proof.
  assert (Hs : steps (@UpdateCron plain_data) (Sleeping CronExample.cron) CronExample.poll
                 (Sleeping (SetEtag "e1" CronExample.cron))).
  { apply (steps_more _ _ [] (Calling CronExample.cron)); [constructor|].
    apply (steps_more _ _ CronExample.poll (Sleeping (SetEtag "e1" CronExample.cron)) []);
      [|apply steps_refl]. apply UpdateCron_done. exact CronExample.poll_exec. }
  destruct (@UpdateCron_etags plain_data _ _ _ Hs) as [Hok Hl].
  split; [exact Hok | symmetry; exact (Hl "e1" eq_refl)].
Defined.
