(* ===== verification/Controller.v ===== *)
(** * pkg/controller: the event handlers, the worker and the start of the controller

    One definition per method.  The worker ([processNextItem], [sync]) is a
    program over the calls of [Effects]; the two endless loops around it are
    relations.  The informers and the key functions belong to client-go: the
    handlers get the key function as an argument, as the code does. *)
From stdpp Require Import base list strings gmap.
From S2P Require Import Prelude Prog GoStrings RateLimiter Zms Util Effects Cr Caches Cron.
#[local] Open Scope string_scope.
#[local] Set Warnings "-clear-no-such-hyp".

Definition workerQueueRetry : Z := 3.

Section controller.
Context `{DeepCopyLib} `{ErrorText}.

(** The fields of [Controller] that are values of this program; the clients,
    the queue and the informers are reached through [K8sE]. *)
Record Controller := mkController {
  Ctl_cron : Cron;
  Ctl_util : Util
}.

(** [NewController]: the queue's rate limiter, created at [now], and the
    controller, whose cron starts without an etag. *)
Definition NewController (K : Type) `{Countable K} (now : Z)
    (updateCron resyncCron delayInterval : Z) (util : Util) (cm : ptr AthenzContactTimeConfigMap)
  : RateLimiter K * Controller :=
  let rateLimiter := NewRateLimiter now delayInterval in
  let cron := NewCron updateCron resyncCron "" util cm in
  (rateLimiter, mkController cron util).

(** ** Event handlers *)

(** [cache.KeyFunc] *)
Abbreviation KeyFunc := (Obj -> string * option error).

Definition nsinformerhandler (u : Util) (fn : KeyFunc) (obj : Obj) : kprog string :=
  let '(key, err) := fn obj in
  match err with
  | Some _ => mret ""
  | None =>
      if IsNamespaceExcluded u key then mret key
      else
        let domain := NamespaceToDomain u key in
        AddRateLimited domain;;
        mret key
  end.

Definition crinformerhandler (fn : KeyFunc) (obj : Obj) : kprog string :=
  let '(key, err) := fn obj in
  match err with
  | Some _ => mret ""
  | None => AddRateLimited key;; mret key
  end.

(** What an informer notifies. *)
Inductive Notification :=
| OnAdd (obj : Obj)
| OnUpdate (oldObj newObj : Obj)
| OnDelete (obj : Obj).

(** client-go's two key functions. *)
Class KeyFuncs := {
  MetaNamespaceKeyFunc : KeyFunc;
  DeletionHandlingMetaNamespaceKeyFunc : KeyFunc
}.

Definition addNSInformerHandlers `{!KeyFuncs} (u : Util) (n : Notification) : kprog unit :=
  match n with
  | OnAdd obj => _ ← nsinformerhandler u MetaNamespaceKeyFunc obj; mret tt
  | OnUpdate _ newObj => _ ← nsinformerhandler u MetaNamespaceKeyFunc newObj; mret tt
  | OnDelete obj => _ ← nsinformerhandler u DeletionHandlingMetaNamespaceKeyFunc obj; mret tt
  end.

(** The handlers [NewController] adds to the AthenzDomain informer. *)
Definition crInformerHandlers `{!KeyFuncs} (n : Notification) : kprog unit :=
  match n with
  | OnAdd obj => _ ← crinformerhandler MetaNamespaceKeyFunc obj; mret tt
  | OnUpdate _ newObj => _ ← crinformerhandler MetaNamespaceKeyFunc newObj; mret tt
  | OnDelete obj => _ ← crinformerhandler DeletionHandlingMetaNamespaceKeyFunc obj; mret tt
  end.

(** ** Synchronising one domain *)

(** The body of the loop that filters the answer of ZMS. *)
Definition filter_domain (u : Util) (p : ptr SignedDomain) : kprog (ptr SignedDomain) :=
  sd ← deref p;
  d ← FilterMSDRules u (SD_Domain sd);
  mret (Some (set_SD_Domain d sd)).

Definition zmsGetSignedDomains (u : Util) (domain : string)
  : kprog (ptr SignedDomains * bool * option error) :=
  '(signedDomain, _, err) ← trigger (ZmsGetSignedDomains domain "" "" false false "");
  match err with
  | Some _ => mret (None, false, err)
  | None =>
      sds ← deref signedDomain;
      if (length (elems (SDs_Domains sds)) =? 0)%nat then mret (None, false, None)
      else
        ds ← map_each (filter_domain u) (elems (SDs_Domains sds));
        mret (Some (mkSignedDomains (Some ds)), true, None)
  end.

(** The body of the loop over the roles. *)
Definition sync_role (u : Util) (domain : string) (role : ptr Role) : kprog unit :=
  match role with
  | None => mret tt
  | Some role =>
      if negb (String.eqb (Role_Trust role) "") && negb (String.eqb (Role_Trust role) domain) then
        '(_, exists_, err) ← trigger (CrGetByKey (Role_Trust role));
        match err with
        | Some _ => mret tt
        | None =>
            if negb exists_ then
              '(_, nsExists, err) ← trigger (NsGetByKey (DomainToNamespace u domain));
              match err with
              | Some _ => mret tt
              | None =>
                  if nsExists || IsAdminDomain u domain then AddRateLimited (Role_Trust role)
                  else mret tt
              end
            else mret tt
        end
      else mret tt
  end.

(** The body of the loop over the answer; [Some e] is its [return e]. *)
Definition sync_domain (u : Util) (domain : string) (domainData : ptr SignedDomain)
  : kprog (option error) :=
  sd ← deref domainData;
  d ← deref (SD_Domain sd);
  if String.eqb (DD_Name d) domain then
    '(_, err) ← CreateUpdateAthenzDomain domain (Some sd);
    match err with
    | Some err =>
        mret (Some (Errorf "Error occurred when creating AthenzDomain custom resources. Error: %v" err))
    | None => for_each (sync_role u domain) (elems (DD_Roles d));; mret None
    end
  else mret None.

(** In the branch of a ZMS error other than 404, the inner [:=] declares a new
    [err], which shadows the ZMS error to the end of the branch. *)
Definition sync (u : Util) (domain : string) : kprog (option error) :=
  valid ← ValidateDomain u domain;
  if negb valid then RemoveAthenzDomain domain
  else
    '(result, exist_, err) ← zmsGetSignedDomains u domain;
    match err with
    | Some err =>
        match err with
        | ResourceError Code _ =>
            if (Code =? 404)%Z then RemoveAthenzDomain domain
            else
              '(obj, exists_, err) ← GetCRByName domain;
              match err with
              | Some _ => mret err
              | None =>
                  (if (exists_ : bool) then
                     message ← error_Error err;
                     obj ← deref obj;
                     UpdateErrorStatus (Some (set_Message message obj))
                   else mret tt);;
                  mret err
              end
        | _ => mret (Some (errors_New "Error occurred when converting error types"))
        end
    | None =>
        if negb exist_ then RemoveAthenzDomain domain
        else
          sds ← deref result;
          for_each_ret (sync_domain u domain) (elems (SDs_Domains sds))
    end.

(** ** The worker *)

Definition processNextItem (u : Util) : kprog bool :=
  '(key, quit) ← trigger QGet;
  if (quit : bool) then mret false
  else
    deferred (trigger (QDone key))
      (match key with
       | ItemString domainName =>
           err ← sync u domainName;
           (match err with
            | Some _ =>
                n ← trigger (QNumRequeues (ItemString domainName));
                if (n <? workerQueueRetry)%Z then AddRateLimited domainName
                else trigger (QForget key)
            | None => mret tt
            end);;
           mret true
       | ItemOther _ => mret true
       end).

(** [runWorker]'s loop: executions that end, with their outcome. *)
Inductive runWorker (u : Util) : list (ev K8sE) -> outcome unit -> Prop :=
| runWorker_quit t :
    exec (processNextItem u) t (Done false) -> runWorker u t (Done tt)
| runWorker_panic t w :
    exec (processNextItem u) t (Panicked w) -> runWorker u t (Panicked w)
| runWorker_next t t' o :
    exec (processNextItem u) t (Done true) -> runWorker u t' o -> runWorker u (t ++ t')%list o.

(** ** The start

    [Run] up to its worker loop: [None] when the caches did not sync, and
    otherwise the controller whose cron goroutines, started on the way, use
    the initial etag. *)
Definition Run (c : Controller) : kprog (option Controller) :=
  synced ← trigger WaitForCacheSync;
  if negb synced then mret None
  else
    timestamp ← GetLatestTimestamp;
    let c := mkController (SetEtag timestamp (Ctl_cron c)) (Ctl_util c) in
    AddAdminSystemDomains (Ctl_util c);;
    mret (Some c).
End controller.

(** ** What [sync] may do, whatever its calls answer *)

Section safety.
Context `{DeepCopyOk} `{ErrorText}.

(** The CR [cr] is one for the domain [d]: its name, and the name in the
    data it carries, are [d], and it has no error message. *)
Definition cr_for (d : string) (cr : AthenzDomain) : Prop :=
  AD_Name cr = d /\ Status_Message (AD_Status cr) = "" /\ DD_Name <$> AD_Domain cr = Some d.

(** The calls that change something which [sync d] may make. *)
Definition sync_call (d : string) (e : ev K8sE) : Prop :=
  match e with
  | Ev (AdCreate cr) _ | Ev (AdUpdate cr) _ => cr_for d cr
  | Ev (AdDelete n) _ => n = d
  | Ev (QAddRateLimited i) _ => exists trust, i = ItemString trust /\ trust <> "" /\ trust <> d
  | Ev (QNumRequeues _) _ | Ev (QForget _) _ | Ev (QDone _) _ | Ev QGet _ | Ev (CmCreate _ _) _
  | Ev (CmUpdate _ _) _ => False
  | _ => True
  end.

Lemma GetCRByName_sync_call d n : safe (sync_call d) (GetCRByName n).
Proof. unfold GetCRByName. prog_struct. Qed.

Lemma RemoveAthenzDomain_sync_call d : safe (sync_call d) (RemoveAthenzDomain d).
Proof. unfold RemoveAthenzDomain, GetCRByName. prog_struct; done. Qed.

Lemma ValidateDomain_sync_call u n d : safe (sync_call d) (ValidateDomain u n).
Proof. unfold ValidateDomain, IsTrustDomain. prog_struct. Qed.

Lemma updateCR_sync_call d old new :
  cr_for d new -> safe (sync_call d) (updateCR old (Some new)).
Proof.
  intros (Hn & Hm & Hd). destruct old as [old|]; [|by rewrite updateCR_nil].
  rewrite updateCR_eq. destruct (_ && _); [|done]. destruct (decide _); [done|].
  simpl. intros x. by split.
Qed.

Lemma CreateUpdate_sync_call d sd data :
  SD_Domain sd = Some data -> DD_Name data = d ->
  safe (sync_call d) (CreateUpdateAthenzDomain d (Some sd)).
Proof.
  intros Hd Hn. assert (Hcr : cr_for d (desired d sd)).
  { unfold cr_for, desired, AD_Domain. simpl. by rewrite Hd, <- Hn. }
  unfold CreateUpdateAthenzDomain. cbv zeta. apply safe_bind; [apply GetCRByName_sync_call|].
  intros [[obj ex] err]. destruct err; [done|]. destruct ex; cbn [negb].
  - by apply updateCR_sync_call.
  - prog_simpl. simpl. intros [cr' err']. split; [done|]. destruct err' as [err'|]; [|done].
    destruct (negb _); [done|]. by apply updateCR_sync_call.
Qed.

Lemma sync_role_sync_call u d role : safe (sync_call d) (sync_role u d role).
Proof.
  unfold sync_role. destruct role as [role|]; [|done].
  destruct (String.eqb_spec (Role_Trust role) ""); [done|].
  destruct (String.eqb_spec (Role_Trust role) d); [done|]. cbn [negb andb].
  prog_struct. eauto.
Qed.

Lemma zmsGet_safe u d : safe (sync_call d) (zmsGetSignedDomains u d).
Proof.
  unfold zmsGetSignedDomains, filter_domain. prog_simpl. simpl. intros [[sds tag] err].
  split; [done|]. destruct err; [done|]. destruct sds as [sds|]; [|done]. prog_simpl.
  destruct (_ =? _)%nat; [done|]. apply safe_bind; [|done].
  apply safe_map_each. intros [sd|]; [|done]. prog_simpl.
  apply safe_bind; [|done]. unfold FilterMSDRules. destruct (negb _); [done|].
  rewrite filterMSDRules_eq. by destruct (SD_Domain sd) as [dd|]; [destruct (well_formed dd)|].
Qed.

Lemma sync_domain_sync_call u d sd : safe (sync_call d) (sync_domain u d sd).
Proof.
  unfold sync_domain. destruct sd as [sd|]; [|done]. prog_simpl.
  destruct (SD_Domain sd) as [data|] eqn:Hd; [|done]. prog_simpl.
  destruct (String.eqb_spec (DD_Name data) d) as [Hn|]; [|done].
  apply safe_bind; [by eapply CreateUpdate_sync_call|]. intros [cr err].
  destruct err; [done|]. apply safe_bind; [|done].
  apply safe_for_each. intros role _. apply sync_role_sync_call.
Qed.

Lemma sync_sync_call u d : safe (sync_call d) (sync u d).
Proof.
  unfold sync. apply safe_bind; [apply ValidateDomain_sync_call|]. intros [].
  2:{ apply RemoveAthenzDomain_sync_call. }
  cbn [negb]. apply safe_bind; [apply zmsGet_safe|]. intros [[result ex] err].
  destruct err as [[Code m|r m|m|m|f c]|]; try done.
  - destruct (Code =? 404)%Z; [apply RemoveAthenzDomain_sync_call|].
    apply safe_bind; [apply GetCRByName_sync_call|]. intros [[obj ex'] err'].
    destruct err'; [done|]. apply safe_bind; [|done].
    by destruct ex'.
  - destruct (negb ex); [apply RemoveAthenzDomain_sync_call|].
    destruct result as [sds|]; [|done]. prog_simpl. apply safe_for_each_ret.
    intros sd _. apply sync_domain_sync_call.
Qed.

(** C7. Whatever ZMS, the caches and the API server answer, synchronising a
    domain touches no other domain: every CR it writes is named after the
    domain, carries that domain's data and has no error message, it deletes
    no other CR, and it queues only trust domains, none of them empty or the
    domain itself. *)
Theorem sync_safe u d t o :
  exec (sync u d) t o ->
  (forall e cr, e ∈ t -> written e = Some cr -> cr_for d cr) /\
  (forall e n, e ∈ t -> deleted e = Some n -> n = d) /\
  (forall i, i ∈ queued_items t -> exists trust, i = ItemString trust /\ trust <> "" /\ trust <> d).
Proof.
  intros He. pose proof (safe_exec _ _ _ _ (sync_sync_call u d) He) as Hs.
  rewrite Forall_forall in Hs. split_and!.
  - intros e cr Hin%Hs Hw. by destruct e as [X [] x]; simpl in *; simplify_eq.
  - intros e n Hin%Hs Hw. by destruct e as [X [] x]; simpl in *; simplify_eq.
  - intros i (e & Hin%Hs & Hq)%list_elem_of_omap.
    by destruct e as [X [] x]; simpl in *; simplify_eq.
Qed.
End safety.

(** ** What [sync] does while the caches are [C] *)

Section contract.
Context `{DeepCopyOk} `{ErrorText}.
Variables (C : Caches) (u : Util) (d : string).

(** The domain is removed: its CR is deleted if there is one. *)
Definition removed (t : list (ev K8sE)) (o : outcome (option error)) : Prop :=
  queued_items t = [] /\
  match cached_crs C !! d with
  | Some _ => exists r, writes t = [Ev (AdDelete d) r] /\ o = Done r
  | None => writes t = [] /\ o = Done None
  end.

(** No call changes anything and [sync] ends with [o']. *)
Definition untouched (o' : outcome (option error)) (t : list (ev K8sE))
    (o : outcome (option error)) : Prop :=
  writes t = [] /\ queued_items t = [] /\ o = o'.

(** The trust domains [sync] queues for the roles of the stored data: those
    that have no CR yet, if [d] belongs to a namespace or is the admin domain. *)
Definition new_trusts (data : DomainData) : list string :=
  if bool_decide (DomainToNamespace u d ∈ cached_ns C) || IsAdminDomain u d
  then filter (fun t => t <> d /\ cached_crs C !! t = None)
         (trusts (omap id (elems (DD_Roles data))))
  else [].

(** The end of a [sync] whose write, if any, answered [err]. *)
Definition concluded (data : DomainData) (err : option error) (t : list (ev K8sE))
    (o : outcome (option error)) : Prop :=
  match err with
  | None => o = Done None /\ queued_items t = ItemString <$> new_trusts data
  | Some err =>
      (exists e, o = Done (Some e)) /\ queued_items t = []
  end.

(** The data [sync] stores for the data ZMS sent. *)
Definition kept (data : DomainData) : DomainData :=
  if excludeMSDRules u then filtered data else data.

(** The signed domain [sd], whose data is [data], is brought to the cluster. *)
Definition stored (sd : SignedDomain) (data : DomainData) (t : list (ev K8sE))
    (o : outcome (option error)) : Prop :=
  let new := desired d sd in
  match cached_crs C !! d with
  | None => exists cr err, writes t = [Ev (AdCreate new) (cr, err)] /\ concluded data err t o
  | Some old =>
      if has_policies (AD_Spec old) && has_policies (AD_Spec new) then
        if decide (content_eq (AD_Spec old) (AD_Spec new) /\ Status_Message (AD_Status old) = "")
        then writes t = [] /\ concluded data None t o
        else exists cr err,
          writes t = [Ev (AdUpdate (set_ResourceVersion (Meta_ResourceVersion (AD_Meta old)) new))
                         (cr, err)] /\ concluded data err t o
      else untouched (Panicked nil_deref) t o
  end.

Lemma removed_quiet t1 t o : Forall quiet t1 -> removed t o -> removed (t1 ++ t) o.
Proof.
  unfold removed. intros [Hw Hq]%quiet_trace. by rewrite writes_app, queued_items_app, Hw, Hq.
Qed.

Lemma concluded_queued t1 data err t o :
  queued_items t1 = [] -> concluded data err t o -> concluded data err (t1 ++ t) o.
Proof. unfold concluded. intros Hq. by rewrite queued_items_app, Hq. Qed.

Lemma untouched_quiet t1 o' t o : Forall quiet t1 -> untouched o' t o -> untouched o' (t1 ++ t) o.
Proof.
  unfold untouched. intros [Hw Hq]%quiet_trace. by rewrite writes_app, queued_items_app, Hw, Hq.
Qed.

Lemma stored_quiet t1 sd data t o : Forall quiet t1 -> stored sd data t o -> stored sd data (t1 ++ t) o.
Proof.
  intros Hqt. pose proof (quiet_trace t1 Hqt) as [Hw Hq]. unfold stored. cbv zeta.
  destruct (cached_crs C !! d) as [old|].
  - destruct (_ && _); [|by apply untouched_quiet]. destruct (decide _).
    + rewrite writes_app, Hw. intros [? ?]. split; [done|]. by apply concluded_queued.
    + intros (cr & err & Hwr & Hc). exists cr, err. rewrite writes_app, Hw.
      split; [done|]. by apply concluded_queued.
  - intros (cr & err & Hwr & Hc). exists cr, err. rewrite writes_app, Hw.
    split; [done|]. by apply concluded_queued.
Qed.

Lemma Remove_removed t o :
  exec (RemoveAthenzDomain d) t o -> Forall (agrees C) t -> removed t o.
Proof.
  rewrite RemoveAthenzDomain_exec. unfold removed.
  intros (obj & ex & e0 & [(Hc & r & -> & ->)|(Hc & -> & ->)]) Ha; agree_simpl;
    destruct (cached_crs C !! d); simplify_eq; simpl in *; eauto.
Qed.

(** The item one role makes [sync] queue. *)
Definition role_items (role : ptr Role) : list Item :=
  match role with
  | Some r =>
      if negb (String.eqb (Role_Trust r) "") && negb (String.eqb (Role_Trust r) d) &&
         negb (bool_decide (is_Some (cached_crs C !! Role_Trust r))) &&
         (bool_decide (DomainToNamespace u d ∈ cached_ns C) || IsAdminDomain u d)
      then [ItemString (Role_Trust r)] else []
  | None => []
  end.

Lemma sync_role_queued role t o :
  exec (sync_role u d role) t o -> Forall (agrees C) t ->
  o = Done tt /\ queued_items t = role_items role.
Proof.
  unfold sync_role, role_items, AddRateLimited. intros He Ha.
  destruct role as [r|]; [|by destruct He as [-> ->]].
  destruct (String.eqb (Role_Trust r) ""), (String.eqb (Role_Trust r) d); cbn [negb andb] in *;
    try by destruct He as [-> ->].
  exec_call He as [[obj ex] err] t1. agree_simpl.
  destruct (cached_crs C !! Role_Trust r) as [cr|] eqn:Hcr; simplify_eq.
  { exec_end He. by rewrite bool_decide_eq_true_2 by eauto. }
  rewrite bool_decide_eq_false_2 by (by intros [? ?]). cbn [negb andb] in *.
  exec_call He as [[obj' ex'] err'] t2. agree_simpl. subst ex' err'.
  destruct (_ || _); [exec_last He as [] | exec_end He]; done.
Qed.

Lemma role_items_trusts roles :
  roles ≫= role_items = ItemString <$>
    (if bool_decide (DomainToNamespace u d ∈ cached_ns C) || IsAdminDomain u d
     then filter (fun t => t <> d /\ cached_crs C !! t = None) (trusts (omap id roles)) else []).
Proof.
  destruct (bool_decide _ || _) eqn:Hns.
  2:{ induction roles as [|[r|] roles IH]; csimpl; [done| |done]. rewrite IH, Hns.
      by rewrite andb_false_r. }
  induction roles as [|[r|] roles IH]; csimpl; [done| |done]. rewrite IH, Hns, andb_true_r.
  unfold trusts. simpl. destruct (String.eqb_spec (Role_Trust r) ""); [done|].
  cbn [negb andb]. rewrite filter_cons. 
  destruct (String.eqb_spec (Role_Trust r) d); [by rewrite decide_False by tauto|]. cbn [negb andb].
  destruct (cached_crs C !! Role_Trust r) as [cr|] eqn:Hcr.
  - rewrite bool_decide_eq_true_2 by eauto. by rewrite decide_False by naive_solver.
  - rewrite bool_decide_eq_false_2 by (by intros [? ?]). by rewrite decide_True.
Qed.

Lemma sync_role_unwritten role : safe (fun e => is_write e = false) (sync_role u d role).
Proof. unfold sync_role, AddRateLimited. prog_struct; done. Qed.

(** The loop over the roles queues the new trust domains. *)
Lemma sync_roles_queued roles t o :
  exec (for_each (sync_role u d) roles) t o -> Forall (agrees C) t ->
  o = Done tt /\ writes t = [] /\ queued_items t = roles ≫= role_items.
Proof.
  intros He Ha.
  assert (Hw : writes t = []).
  { apply unwritten_trace. eapply safe_exec; [|exact He]. apply safe_for_each.
    intros role _. apply sync_role_unwritten. }
  apply (for_each_queued C _ role_items) in He as [-> ->]; [done| |done].
  intros role ta oa _. apply sync_role_queued.
Qed.

(** One call of [CreateUpdateAthenzDomain]. *)
Definition upserted (sd : SignedDomain) (t : list (ev K8sE))
    (o : outcome (ptr AthenzDomain * option error)) : Prop :=
  let new := desired d sd in
  match cached_crs C !! d with
  | None => exists cr err cr' err',
      writes t = [Ev (AdCreate new) (cr, err)] /\ o = Done (cr', err') /\
      match err with None => err' = None | Some _ => err' <> None end
  | Some old =>
      if has_policies (AD_Spec old) && has_policies (AD_Spec new) then
        if decide (content_eq (AD_Spec old) (AD_Spec new) /\ Status_Message (AD_Status old) = "")
        then writes t = [] /\ o = Done (None, None)
        else exists r,
          writes t = [Ev (AdUpdate (set_ResourceVersion (Meta_ResourceVersion (AD_Meta old)) new)) r]
          /\ o = Done r
      else writes t = [] /\ o = Panicked nil_deref
  end.

Lemma CreateUpdate_upserted sd t o :
  exec (CreateUpdateAthenzDomain d (Some sd)) t o -> Forall (agrees C) t ->
  queued_items t = [] /\ upserted sd t o.
Proof.
  intros Hu%CreateUpdate_upsert Ha. unfold upserted. cbv zeta. cbn [desired AD_Spec].
  destruct Hu as [obj e0 Ho|e0|obj e0 cr|obj e0 cr err He|obj e0 cr err He
                 |old e0 Hp Hc Hm|old e0 r Hp Hp' Hn|old e0 Hp];
    agree_simpl; destruct (cached_crs C !! d) as [old'|]; simplify_eq; (split; [done|]).
  - by destruct (Ho (Some old')).
  - exists cr, None, cr, None. done.
  - eexists cr, (Some err), _, _. done.
  - eexists cr, (Some err), _, _. done.
  - rewrite <- (has_policies_proper _ _ Hc), Hp. cbn [andb]. by rewrite decide_True.
  - rewrite Hp, Hp'. cbn [andb]. rewrite decide_False by done. eauto.
  - by rewrite Hp.
Qed.

(** The loop body on the entry for [d]. *)
Lemma sync_domain_stored sd data t o :
  SD_Domain sd = Some data -> DD_Name data = d ->
  exec (sync_domain u d (Some sd)) t o -> Forall (agrees C) t -> stored sd data t o.
Proof.
  intros Hd Hn He Ha. unfold sync_domain in He. prog_simpl_in He. rewrite Hd in He.
  prog_simpl_in He. rewrite Hn, String.eqb_refl in He.
  assert (Hroles : forall t2, Forall (agrees C) t2 ->
    exec (for_each (sync_role u d) (elems (DD_Roles data));; mret None) t2 o ->
    writes t2 = [] /\ concluded data None t2 o).
  { intros t2 Ha2 H2'. apply exec_bind in H2' as [(t3 & t4 & [] & -> & Hr & [-> ->])|(w & Hr & ->)].
    - rewrite app_nil_r in *. apply sync_roles_queued in Hr as (_ & Hw & Hq); [|done].
      unfold concluded. by rewrite Hq, role_items_trusts.
    - by apply sync_roles_queued in Hr as (? & _). }
  apply exec_bind in He as [(t1 & t2 & [cr err] & -> & Hu & He)|(w & Hu & ->)]; agree_simpl;
    apply CreateUpdate_upserted in Hu as [Hq Hu]; try done.
  - assert (Hend : forall answered,
      match answered with None => err = None | Some _ => err <> None end ->
      writes t2 = [] /\ concluded data answered (t1 ++ t2) o).
    { intros answered Hans. destruct err as [err|].
      - exec_end He. destruct answered; [|done]. split; [done|].
        apply concluded_queued; [done|]. split; [eauto|done].
      - destruct answered; [done|]. destruct (Hroles t2) as [Hw2 Hc]; [done..|].
        split; [done|]. by apply concluded_queued. }
    unfold upserted, stored in *; cbv zeta in *; destruct (cached_crs C !! d) as [old|];
      [destruct (_ && _); [destruct (decide _)|]|].
    + destruct Hu as [Hw [= -> ->]]. rewrite writes_app, Hw. by apply (Hend None).
    + destruct Hu as ([cr' err'] & Hw & [= <- <-]). exists cr, err.
      destruct (Hend err) as [Hw2 Hc]; [by destruct err|].
      by rewrite writes_app, Hw, Hw2.
    + by destruct Hu.
    + destruct Hu as (cr1 & err1 & cr' & err' & Hw & [= <- <-] & Herr). exists cr1, err1.
      destruct (Hend err1 Herr) as [Hw2 Hc]. by rewrite writes_app, Hw, Hw2.
  - unfold upserted, stored in *; cbv zeta in *; destruct (cached_crs C !! d) as [old|];
      [destruct (_ && _); [destruct (decide _)|]|]; destruct_hyps; by simplify_eq.
Qed.

(** What filtering makes of an entry of the answer; [None] for a panic. *)
Definition kept_entry (p : ptr SignedDomain) : option (ptr SignedDomain) :=
  sd ← p;
  if excludeMSDRules u then
    data ← SD_Domain sd;
    if well_formed data then Some (Some (set_SD_Domain (Some (filtered data)) sd)) else None
  else Some p.

Lemma filter_domain_eq p :
  filter_domain u p =
  match kept_entry p with Some p' => PRet p' | None => PPanic nil_deref end.
Proof.
  unfold filter_domain, kept_entry, FilterMSDRules. destruct p as [sd|]; [|done]. prog_simpl.
  destruct (excludeMSDRules u); cbn [negb]; prog_simpl.
  - rewrite filterMSDRules_eq. simpl. destruct (SD_Domain sd) as [data|]; [|done]. simpl.
    by destruct (well_formed data).
  - simpl. by destruct sd.
Qed.

Lemma map_each_filter l :
  map_each (filter_domain u) l =
  match mapM kept_entry l with Some l' => PRet l' | None => PPanic nil_deref end.
Proof.
  induction l as [|p l IH]; [done|]. cbn [map_each mapM]. rewrite filter_domain_eq, IH.
  destruct (kept_entry p); [|done]. simpl. by destruct (mapM kept_entry l).
Qed.

(** What [zmsGetSignedDomains] makes of an answer of ZMS. *)
Definition received (answer : ptr SignedDomains * string * option error)
  : outcome (ptr SignedDomains * bool * option error) :=
  let '(result, _, err) := answer in
  match err with
  | Some e => Done (None, false, Some e)
  | None =>
      match result with
      | None => Panicked nil_deref
      | Some sds =>
          match elems (SDs_Domains sds) with
          | [] => Done (None, false, None)
          | l => match mapM kept_entry l with
                 | Some l' => Done (Some (mkSignedDomains (Some l')), true, None)
                 | None => Panicked nil_deref
                 end
          end
      end
  end.

Lemma zmsGetSignedDomains_exec t o :
  exec (zmsGetSignedDomains u d) t o ->
  exists answer, t = [Ev (ZmsGetSignedDomains d "" "" false false "") answer] /\
    o = received answer.
Proof.
  unfold zmsGetSignedDomains. intros He. exec_call He as [[sds tag] err] t1.
  exists (sds, tag, err). destruct err as [e|]; [by exec_end He|].
  destruct sds as [sds|]; [|by exec_end He]. prog_simpl_in He. cbn [received].
  destruct (elems (SDs_Domains sds)) as [|p l] eqn:Hl; cbn [length Nat.eqb] in He; [by exec_end He|].
  rewrite map_each_filter in He. destruct (mapM kept_entry (p :: l)); prog_simpl_in He; by exec_end He.
Qed.

(** What [sync] does about the one entry of an answer. *)
Definition entry_reacted (p : ptr SignedDomain) (t : list (ev K8sE))
    (o : outcome (option error)) : Prop :=
  match p with
  | Some sd =>
      match SD_Domain sd with
      | Some data =>
          if decide (DD_Name data = d) then stored sd data t o
          else untouched (Done None) t o
      | None => untouched (Panicked nil_deref) t o
      end
  | None => untouched (Panicked nil_deref) t o
  end.

(** What [sync] does about the entries of an answer, one after the other: the
    first that fails or panics ends it. *)
Fixpoint entries_reacted (l : list (ptr SignedDomain)) (t : list (ev K8sE))
    (o : outcome (option error)) : Prop :=
  match l with
  | [] => untouched (Done None) t o
  | [p] => entry_reacted p t o
  | p :: l' =>
      exists t1 o1, entry_reacted p t1 o1 /\
      match o1 with
      | Done None => exists t2, t = (t1 ++ t2)%list /\ entries_reacted l' t2 o
      | _ => t = t1 /\ o = o1
      end
  end.

(** What [sync] does about an answer of ZMS.  The answer may have any number
    of entries; the filter runs over all of them first. *)
Definition reacted (answer : ptr SignedDomains * string * option error)
    (t : list (ev K8sE)) (o : outcome (option error)) : Prop :=
  let '(result, _, err) := answer in
  match err with
  | Some (ResourceError Code _) =>
      if (Code =? 404)%Z then removed t o
      else match cached_crs C !! d with
           | Some _ => untouched (Panicked nil_deref) t o
           | None => untouched (Done None) t o
           end
  | Some _ =>
      untouched (Done (Some (errors_New "Error occurred when converting error types"))) t o
  | None =>
      match result with
      | None => untouched (Panicked nil_deref) t o
      | Some sds =>
          match elems (SDs_Domains sds) with
          | [] => removed t o
          | l =>
              match mapM kept_entry l with
              | Some l' => entries_reacted l' t o
              | None => untouched (Panicked nil_deref) t o
              end
          end
      end
  end.

(** One turn of the loop over the entries. *)
Lemma sync_entry_reacted p' t o :
  exec (sync_domain u d p') t o -> Forall (agrees C) t -> entry_reacted p' t o.
Proof.
  unfold entry_reacted. intros He Ha.
  destruct p' as [sd|]; [|by destruct He as [-> ->]].
  destruct (SD_Domain sd) as [data|] eqn:Hd.
  - destruct (decide _) as [Hn|Hn]; [by eapply sync_domain_stored|].
    unfold sync_domain in He. prog_simpl_in He. rewrite Hd in He. prog_simpl_in He.
    apply String.eqb_neq in Hn as Hn'. rewrite Hn' in He. by destruct He as [-> ->].
  - unfold sync_domain in He. prog_simpl_in He. rewrite Hd in He. by destruct He as [-> ->].
Qed.

Lemma sync_entries_reacted l t o :
  exec (for_each_ret (sync_domain u d) l) t o -> Forall (agrees C) t -> entries_reacted l t o.
Proof.
  revert t. induction l as [|p l IH]; intros t He Ha; [by destruct He as [-> ->]|].
  cbn [for_each_ret] in He.
  apply exec_pbind in He as [(t1 & t2 & r & -> & Hr & He)|(w & Hr & ->)].
  - apply Forall_app in Ha as [Ha1 Ha2]. apply sync_entry_reacted in Hr; [|done].
    destruct l as [|p' l].
    + assert (t2 = [] /\ o = Done r) as [-> ->] by by destruct r; destruct He.
      by rewrite app_nil_r.
    + exists t1, (Done r). split; [done|]. destruct r as [e|].
      * destruct He as [-> ->]. by rewrite app_nil_r.
      * exists t2. auto.
  - apply sync_entry_reacted in Hr; [|done].
    destruct l as [|p' l]; [done|]. exists t, (Panicked w). auto.
Qed.

Lemma entry_reacted_quiet t1 p t o :
  Forall quiet t1 -> entry_reacted p t o -> entry_reacted p (t1 ++ t) o.
Proof. intros Hq. unfold entry_reacted. repeat case_match; eauto using untouched_quiet, stored_quiet. Qed.

Lemma entries_reacted_quiet t1 l t o :
  Forall quiet t1 -> entries_reacted l t o -> entries_reacted l (t1 ++ t) o.
Proof.
  intros Hq. destruct l as [|p [|p' l]]; simpl.
  - by apply untouched_quiet.
  - by apply entry_reacted_quiet.
  - intros (t2 & o1 & Hp & Hrest). exists (t1 ++ t2)%list, o1.
    split; [by apply entry_reacted_quiet|]. destruct o1 as [[e|]|w].
    + destruct Hrest as [-> ->]. done.
    + destruct Hrest as (t3 & -> & Hl). exists t3. by rewrite <- app_assoc.
    + destruct Hrest as [-> ->]. done.
Qed.

Lemma GetCRByName_cached n t o :
  exec (GetCRByName n) t o -> Forall (agrees C) t ->
  Forall quiet t /\
  o = match cached_crs C !! n with
      | Some cr => Done (Some cr, true, None)
      | None => Done (None, false, None)
      end.
Proof.
  unfold GetCRByName. intros He Ha. exec_call He as [[obj ex] e] t1. agree_simpl.
  destruct (cached_crs C !! n); simplify_eq; prog_simpl_in He; exec_end He;
    (split; [by repeat constructor | done]).
Qed.

Lemma reacted_quiet t1 answer t o :
  Forall quiet t1 -> reacted answer t o -> reacted answer (t1 ++ t) o.
Proof.
  intros Hq. destruct answer as [[result tag] err]. unfold reacted.
  repeat case_match; eauto using removed_quiet, untouched_quiet, entries_reacted_quiet.
Qed.

(** The rest of [sync], once the answer of ZMS was received. *)
Definition after (r : ptr SignedDomains * bool * option error) : kprog (option error) :=
  let '(result, exist_, err) := r in
  match err with
  | Some err =>
      match err with
      | ResourceError Code _ =>
          if (Code =? 404)%Z then RemoveAthenzDomain d
          else
            '(obj, exists_, err) ← GetCRByName d;
            match err with
            | Some _ => mret err
            | None =>
                (if (exists_ : bool) then
                   message ← error_Error err;
                   obj ← deref obj;
                   UpdateErrorStatus (Some (set_Message message obj))
                 else mret tt);;
                mret err
            end
      | _ => mret (Some (errors_New "Error occurred when converting error types"))
      end
  | None =>
      if negb exist_ then RemoveAthenzDomain d
      else sds ← deref result; for_each_ret (sync_domain u d) (elems (SDs_Domains sds))
  end.

Lemma untouched_nil o : untouched o [] o.
Proof. done. Qed.

Lemma after_answer answer r t o :
  Done r = received answer -> exec (after r) t o -> Forall (agrees C) t -> reacted answer t o.
Proof.
  destruct answer as [[result tag] err]. unfold received, reacted, after. intros Hr He Ha.
  destruct err as [e|].
  - injection Hr as ->. destruct e as [Code m|rs m|m|m|f c]; try by destruct He as [-> ->].
    destruct (Code =? 404)%Z; [by apply Remove_removed|].
    apply exec_bind in He as [(t1 & t2 & [[obj ex] err] & -> & Hg & He)|(w & Hg & ->)]; agree_simpl;
      apply GetCRByName_cached in Hg as [Hq Ho]; try done; [|by destruct (cached_crs C !! d)].
    destruct (cached_crs C !! d) as [cr|]; injection Ho as -> -> ->;
      apply untouched_quiet; try done; by destruct He as [-> ->].
  - destruct result as [sds|]; [|done].
    destruct (elems (SDs_Domains sds)) as [|p l] eqn:Hl.
    { injection Hr as ->. by apply Remove_removed. }
    destruct (mapM kept_entry (p :: l)) as [l'|]; [|done]. injection Hr as ->. prog_simpl_in He.
    by apply sync_entries_reacted.
Qed.

Lemma sync_reacted t o :
  exec (sync u d) t o -> Forall (agrees C) t ->
  if valid C u d
  then exists answer, Ev (ZmsGetSignedDomains d "" "" false false "") answer ∈ t /\ reacted answer t o
  else removed t o.
Proof.
  unfold sync. intros He Ha.
  apply exec_bind in He as [(t1 & t2 & v & -> & Hv & He)|(w & Hv & ->)]; agree_simpl;
    apply (ValidateDomain_valid C) in Hv as [Ho Hq]; try done.
  injection Ho as ->. destruct (valid C u d); cbn [negb] in He.
  2:{ apply removed_quiet; [done|]. by apply Remove_removed. }
  apply exec_bind in He as [(t3 & t4 & r & -> & Hz & He)|(w & Hz & ->)];
    apply zmsGetSignedDomains_exec in Hz as ([[result tag] err] & -> & Hr);
    exists (result, tag, err); (split; [rewrite !elem_of_app, ?list_elem_of_singleton; auto|]).
  - apply reacted_quiet; [done|]. apply (reacted_quiet [_]); [by repeat constructor|].
    agree_simpl. by apply (after_answer (result, tag, err) r).
  - apply reacted_quiet; [done|]. unfold received, reacted in *.
    destruct err as [[]|]; try done. destruct result as [sds|].
    + destruct (elems (SDs_Domains sds)) as [|p l]; [done|].
      destruct (mapM kept_entry (p :: l)); [done|]. by injection Hr as ->.
    + by injection Hr as ->.
Qed.
End contract.

Section controller_facts.
Context `{DeepCopyOk} `{ErrorText}.

(** C1. Synchronising a domain implements its abstract specification. While
    the caches are [C]: a domain that is not valid is [removed]; for a valid
    one ZMS is asked once, and [sync] then has [reacted] to the answer, entry
    by entry and in order: it removes the domain when ZMS answers 404 or
    nothing, creates or updates the CR with the data ZMS sent (filtered if so
    configured) unless the cached CR has that content already, queues the
    trust domains that have no CR yet once the write succeeded, and returns an
    error exactly when the write failed or ZMS failed with something else than
    a resource error. On a resource error other than 404 it panics if the CR
    is cached, and otherwise returns no error (so the domain is not retried). *)
Theorem sync_spec C u d t o :
  exec (sync u d) t o -> Forall (agrees C) t ->
  if valid C u d
  then exists answer,
    Ev (ZmsGetSignedDomains d "" "" false false "") answer ∈ t /\ reacted C u d answer t o
  else removed C d t o.
Proof. apply sync_reacted. Qed.

(** The calls of one round of the worker, after [Get] answered [key]. *)
Inductive Processed (u : Util) : Item -> list (ev K8sE) -> outcome bool -> Prop :=
| ProcessedOther n : Processed u (ItemOther n) [] (Done true)
| ProcessedOk d t :
    exec (sync u d) t (Done None) -> Processed u (ItemString d) t (Done true)
| ProcessedPanic d t w :
    exec (sync u d) t (Panicked w) -> Processed u (ItemString d) t (Panicked w)
| ProcessedRetry d t e n :
    exec (sync u d) t (Done (Some e)) -> n < workerQueueRetry ->
    Processed u (ItemString d)
      (t ++ [Ev (QNumRequeues (ItemString d)) n; Ev (QAddRateLimited (ItemString d)) tt])%list (Done true)
| ProcessedGiveUp d t e n :
    exec (sync u d) t (Done (Some e)) -> workerQueueRetry <= n ->
    Processed u (ItemString d)
      (t ++ [Ev (QNumRequeues (ItemString d)) n; Ev (QForget (ItemString d)) tt])%list (Done true).

Lemma processNextItem_processed u t o :
  exec (processNextItem u) t o ->
  exists key quit t', t = Ev QGet (key, quit) :: t' /\
    if (quit : bool) then t' = [] /\ o = Done false
    else exists tb, t' = (tb ++ [Ev (QDone key) tt])%list /\ Processed u key tb o.
Proof.
  unfold processNextItem. intros He. exec_call He as [key quit] t'.
  exists key, quit, t'. split; [done|]. destruct quit; [by exec_end He|].
  apply exec_deferred in He as (t1 & t2 & o1 & -> & He & Hd).
  assert (Hdone : t2 = [Ev (QDone key) tt] /\ o = o1).
  { destruct Hd as [[Hd ->]|(w & Hd & _)].
    - apply exec_trigger in Hd as ([] & -> & _). done.
    - by apply exec_trigger in Hd as (? & _ & ?). }
  destruct Hdone as [-> ->]. exists t1. split; [done|].
  destruct key as [d|n]; [|by destruct He as [-> ->]; constructor].
  apply exec_bind in He as [(t3 & t4 & err & -> & Hs & He)|(w & Hs & ->)]; [|by constructor].
  destruct err as [e|].
  - apply exec_bind in He as [(t5 & t6 & [] & -> & Hr & [-> ->])|(w & Hr & ->)].
    + exec_call Hr as n t7. rewrite app_nil_r. unfold AddRateLimited in Hr.
      destruct (Z.ltb_spec n workerQueueRetry); apply exec_trigger in Hr as ([] & -> & _);
        by econstructor.
    + exec_call Hr as n t7. unfold AddRateLimited in Hr.
      by destruct (n <? workerQueueRetry)%Z; apply exec_trigger in Hr as (? & _ & ?).
  - apply exec_bind in He as [(t5 & t6 & [] & -> & [-> _] & [-> ->])|(w & [_ [=]] & _)].
    rewrite app_nil_r. by constructor.
Qed.

(** The answer a [Get] gives. *)
Definition get_answer (e : ev K8sE) : option (Item * bool) :=
  match e with Ev QGet x => Some x | _ => None end.

(** The rest of a round that got [key]. *)
Lemma get_processed u key t o :
  exec (processNextItem u) (Ev QGet (key, false) :: t) o ->
  exists tb, t = (tb ++ [Ev (QDone key) tt])%list /\ Processed u key tb o.
Proof.
  intros (key' & quit & t' & Heq & Hc)%processNextItem_processed.
  assert (Hk : Some (key, false) = Some (key', quit)).
  { apply (f_equal (fun l => head l ≫= get_answer)) in Heq. exact Heq. }
  injection Hk as <- <-. apply (f_equal (@tail _)) in Heq. cbn [tail] in Heq. by subst t'.
Qed.

(** C12. One round of the worker: it stops exactly when [Get] reports a
    shutdown; otherwise it synchronises the domain it got, marks the item
    done as the last call in every case (a panic included), re-adds the item
    when [sync] failed and the queue counts fewer than three requeues, and
    forgets it when [sync] failed and there are more.  A successful
    synchronisation does not forget the item. *)
Theorem processNextItem_spec u t o :
  exec (processNextItem u) t o ->
  exists key quit t', t = Ev QGet (key, quit) :: t' /\
    if (quit : bool) then t' = [] /\ o = Done false
    else exists tb, t' = (tb ++ [Ev (QDone key) tt])%list /\ Processed u key tb o.
Proof. apply processNextItem_processed. Qed.

(** ** Handlers and start *)

(** client-go's documentation of the key functions on the cluster-scoped
    objects: the name, and for a deletion the tombstone's key. *)
Class KeyFuncsOk `{!KeyFuncs} : Prop := {
  key_namespace n : MetaNamespaceKeyFunc (ObjNamespace (Some n)) = (n, None);
  key_cr cr : MetaNamespaceKeyFunc (ObjAthenzDomain (Some cr)) = (AD_Name cr, None);
  key_deleted o : DeletionHandlingMetaNamespaceKeyFunc o =
    match o with ObjTombstone k _ => (k, None) | _ => MetaNamespaceKeyFunc o end
}.

(** The name a notification is about, when it is of the kind [kind] reads. *)
Definition notified (kind : Obj -> option string) (n : Notification) : option string :=
  match n with
  | OnAdd o | OnUpdate _ o => kind o
  | OnDelete (ObjTombstone k _) => Some k
  | OnDelete o => kind o
  end.
Definition namespace_name (o : Obj) : option string :=
  match o with ObjNamespace p => p | _ => None end.
Definition cr_name (o : Obj) : option string :=
  match o with ObjAthenzDomain p => AD_Name <$> p | _ => None end.

(** Every notification about a namespace that is not excluded queues the
    namespace's domain, once, and one about an excluded namespace nothing;
    additions, updates and deletions (also ones learnt from a tombstone) are
    treated alike. *)
Theorem addNSInformerHandlers_spec `{!KeyFuncs} `{!KeyFuncsOk} u n name t o :
  notified namespace_name n = Some name ->
  (exec (addNSInformerHandlers u n) t o <->
   o = Done tt /\
   t = if IsNamespaceExcluded u name then []
       else [Ev (QAddRateLimited (ItemString (NamespaceToDomain u name))) tt]).
Proof.
  intros Hn.
  assert (Hh : forall fn obj, fn obj = (name, None) ->
    (exec (_ ← nsinformerhandler u fn obj; mret tt) t o <->
     o = Done tt /\
     t = if IsNamespaceExcluded u name then []
         else [Ev (QAddRateLimited (ItemString (NamespaceToDomain u name))) tt])).
  { intros fn obj Hk. unfold nsinformerhandler, AddRateLimited. rewrite Hk.
    destruct (IsNamespaceExcluded u name); prog_simpl.
    - rewrite exec_mret. tauto.
    - rewrite exec_vis. split.
      + intros ([] & t' & -> & [-> ->]). done.
      + intros [-> ->]. eexists _, _. split; [done|]. by split. }
  destruct n as [obj|old obj|obj]; apply Hh; simpl in Hn.
  1,2: by destruct obj as [| |p| |]; simpl in Hn; simplify_eq; apply key_namespace.
  rewrite key_deleted. destruct obj as [| |p|k obj|]; simpl in Hn; simplify_eq; [apply key_namespace|done].
Qed.

(** Every notification about an AthenzDomain queues its name, once: a CR
    changed or deleted by somebody else is synchronised again. *)
Lemma crInformerHandlers_spec `{!KeyFuncs} `{!KeyFuncsOk} n name t o :
  notified cr_name n = Some name ->
  (exec (crInformerHandlers n) t o <->
   o = Done tt /\ t = [Ev (QAddRateLimited (ItemString name)) tt]).
Proof.
  intros Hn.
  assert (Hh : forall fn obj, fn obj = (name, None) ->
    (exec (_ ← crinformerhandler fn obj; mret tt) t o <->
     o = Done tt /\ t = [Ev (QAddRateLimited (ItemString name)) tt])).
  { intros fn obj Hk. unfold crinformerhandler, AddRateLimited. rewrite Hk. prog_simpl.
    rewrite exec_vis. split.
    - intros ([] & t' & -> & [-> ->]). done.
    - intros [-> ->]. eexists _, _. split; [done|]. by split. }
  destruct n as [obj|old obj|obj]; apply Hh; simpl in Hn.
  1,2: by destruct obj as [|[cr|]| | |]; simpl in Hn; simplify_eq; apply key_cr.
  rewrite key_deleted. destruct obj as [|[cr|]| |k obj|]; simpl in Hn; simplify_eq; [apply key_cr|done].
Qed.
End controller_facts.

(** ** Witnesses *)
Module CtlExample.
#[local] Existing Instance plain_data.
#[local] Existing Instance plain_copy.
#[local] Existing Instance plain_copy_ok.
#[export] Instance texts : ErrorText := fun _ => "error".
#[export] Instance keys : KeyFuncs := {|
  MetaNamespaceKeyFunc o :=
    match o with
    | ObjNamespace (Some n) => (n, None)
    | ObjAthenzDomain (Some cr) => (AD_Name cr, None)
    | _ => ("", Some (OtherError "object has no meta"))
    end;
  DeletionHandlingMetaNamespaceKeyFunc o :=
    match o with
    | ObjTombstone k _ => (k, None)
    | ObjNamespace (Some n) => (n, None)
    | ObjAthenzDomain (Some cr) => (AD_Name cr, None)
    | _ => ("", Some (OtherError "object has no meta"))
    end
|}.
Lemma keys_ok : KeyFuncsOk.
Proof. split; [reflexivity..|]. by intros []. Defined.

Definition u : Util := NewUtil "k8s.cluster" ["kube-system"] ["acceptance-test"] false.
Definition answer : ptr SignedDomains * string * option error :=
  (Some (mkSignedDomains (Some [Some (CrExample.data "sig")])), "tag", None).
Definition ns : Obj * bool * option error := (ObjNamespace (Some "home-domain"), true, None).

(** The caches before the first synchronisation of home.domain, the calls it
    makes, and the caches after it. *)
Definition before : Caches := mkCaches {["home-domain"]} ∅.
Definition stored : AthenzDomain := desired "home.domain" (CrExample.data "sig").
Definition created : list (ev K8sE) :=
  [Ev (NsGetByKey "home-domain") ns;
   Ev (ZmsGetSignedDomains "home.domain" "" "" false false "") answer;
   Ev (CrGetByKey "home.domain") (ObjNil, false, None);
   Ev (AdCreate stored) (Some stored, None);
   Ev (CrGetByKey "parent.domain") (ObjNil, false, None);
   Ev (NsGetByKey "home-domain") ns;
   Ev (QAddRateLimited (ItemString "parent.domain")) tt].
Definition after_sync : Caches := mkCaches {["home-domain"]} {["home.domain" := stored]}.
(** The second synchronisation. *)
Definition again : list (ev K8sE) :=
  [Ev (NsGetByKey "home-domain") ns;
   Ev (ZmsGetSignedDomains "home.domain" "" "" false false "") answer;
   Ev (CrGetByKey "home.domain") (ObjAthenzDomain (Some stored), true, None);
   Ev (CrGetByKey "parent.domain") (ObjNil, false, None);
   Ev (NsGetByKey "home-domain") ns;
   Ev (QAddRateLimited (ItemString "parent.domain")) tt].

Lemma created_exec : exec (sync u "home.domain") created (Done None).
Proof. repeat (eexists; eexists; split; [reflexivity|]). split; reflexivity. Defined.
Lemma again_exec : exec (sync u "home.domain") again (Done None).
Proof. repeat (eexists; eexists; split; [reflexivity|]). split; reflexivity. Defined.
Lemma created_agrees : Forall (agrees before) created.
Proof. repeat apply Forall_cons_2; try exact I; try reflexivity; try (by split); apply Forall_nil_2. Qed.
Lemma again_agrees : Forall (agrees after_sync) again.
Proof. repeat apply Forall_cons_2; try exact I; try reflexivity; try (by split); apply Forall_nil_2. Qed.

(** A round in which the API server refuses the creation. *)
Definition refused : list (ev K8sE) :=
  [Ev (NsGetByKey "home-domain") ns;
   Ev (ZmsGetSignedDomains "home.domain" "" "" false false "") answer;
   Ev (CrGetByKey "home.domain") (ObjNil, false, None);
   Ev (AdCreate stored) (None, Some (StatusError ReasonOther "forbidden"))].
Definition refused_round (n : Z) (e : ev K8sE) : list (ev K8sE) :=
  refused ++ [Ev (QNumRequeues (ItemString "home.domain")) n; e;
              Ev (QDone (ItemString "home.domain")) tt].
Definition get : ev K8sE := Ev QGet (ItemString "home.domain", false).
Lemma retry_exec :
  exec (processNextItem u)
    (get :: refused_round 2 (Ev (QAddRateLimited (ItemString "home.domain")) tt)) (Done true).
Proof. repeat (eexists; eexists; split; [reflexivity|]). split; reflexivity. Defined.
Lemma give_up_exec :
  exec (processNextItem u)
    (get :: refused_round 3 (Ev (QForget (ItemString "home.domain")) tt)) (Done true).
Proof. repeat (eexists; eexists; split; [reflexivity|]). split; reflexivity. Defined.
End CtlExample.

Example sync_spec_witness :
  writes CtlExample.created = [Ev (@AdCreate plain_data CtlExample.stored) (Some CtlExample.stored, None)] /\
  exists answer,
    Ev (@ZmsGetSignedDomains plain_data "home.domain" "" "" false false "") answer ∈ CtlExample.created.
Proof.
  pose proof (@sync_spec plain_data plain_copy plain_copy_ok CtlExample.texts
    CtlExample.before CtlExample.u "home.domain" _ _ CtlExample.created_exec
    CtlExample.created_agrees) as Hs.
  split; [reflexivity|].
  change (valid CtlExample.before CtlExample.u "home.domain") with true in Hs.
  destruct Hs as (answer & Hin & _). exists answer. exact Hin.
Defined.

Example sync_safe_witness :
  @cr_for plain_data "home.domain" CtlExample.stored.
Proof.
  apply (proj1 (@sync_safe plain_data plain_copy plain_copy_ok CtlExample.texts
    CtlExample.u "home.domain" _ _ CtlExample.created_exec)
    (Ev (@AdCreate plain_data CtlExample.stored) (Some CtlExample.stored, None))); [|reflexivity].
  do 3 right. left.
Defined.

Example processNextItem_spec_witness :
  exists key quit t',
    CtlExample.get ::
      CtlExample.refused_round 3 (Ev (@QForget plain_data (ItemString "home.domain")) tt) =
    Ev (@QGet plain_data) (key, quit) :: t'.
Proof.
  destruct (@processNextItem_spec plain_data plain_copy CtlExample.texts
    CtlExample.u _ _ CtlExample.give_up_exec) as (key & quit & t' & Ht & _).
  exists key, quit, t'. exact Ht.
Defined.

Example addNSInformerHandlers_spec_witness :
  exec (@addNSInformerHandlers plain_data CtlExample.keys CtlExample.u
          (OnDelete (ObjTombstone "home-domain" ObjNil)))
    [Ev (QAddRateLimited (ItemString "home.domain")) tt] (Done tt).
Proof.
  apply (@addNSInformerHandlers_spec plain_data CtlExample.keys CtlExample.keys_ok CtlExample.u
    (OnDelete (ObjTombstone "home-domain" ObjNil)) "home-domain" _ _ eq_refl).
  split; reflexivity.
Defined.

