(* ===== verification/Cluster.v ===== *)
(** * The AthenzDomains of the cluster

    What the syncer's calls do to the AthenzDomains the API server stores, and
    what a synchronisation achieves there.  The API server is not code of the
    repository: [cluster_step] only says what Kubernetes documents, namely
    that a call that reports an error changes nothing, and that a successful
    one stores the object it was given (up to the metadata the server
    manages) or removes the one it names. *)
From stdpp Require Import base list strings gmap.
From S2P Require Import Prelude Prog GoStrings Zms Util Effects Cr Caches Cron Controller.
#[local] Open Scope string_scope.

Section cluster.
Context `{ZmsData}.

Abbreviation cluster := (gmap string AthenzDomain).

(** Equal but for the metadata managed by the server. *)
Definition same_object (a b : AthenzDomain) : Prop :=
  AD_Name a = AD_Name b /\ AD_Spec a = AD_Spec b /\ AD_Status a = AD_Status b.

Definition cluster_step (crs : cluster) (e : ev K8sE) (crs' : cluster) : Prop :=
  match e with
  | Ev e x =>
      match e in K8sE X return X -> Prop with
      | AdCreate cr => fun x =>
          match x.2 with
          | Some _ => crs' = crs
          | None => crs !! AD_Name cr = None /\
              exists stored, same_object stored cr /\ crs' = <[AD_Name cr := stored]> crs
          end
      | AdUpdate cr => fun x =>
          match x.2 with
          | Some _ => crs' = crs
          | None => is_Some (crs !! AD_Name cr) /\
              exists stored, same_object stored cr /\ crs' = <[AD_Name cr := stored]> crs
          end
      | AdDelete n => fun err =>
          match err with
          | Some _ => crs' = crs
          | None => crs' = delete n crs
          end
      | _ => fun _ => crs' = crs
      end x
  end.

(** The effect of an execution. *)
Fixpoint cluster_run (crs : cluster) (t : list (ev K8sE)) (crs' : cluster) : Prop :=
  match t with
  | [] => crs' = crs
  | e :: t' => exists crs1, cluster_step crs e crs1 /\ cluster_run crs1 t' crs'
  end.

Lemma cluster_step_quiet crs e crs' :
  is_write e = false -> cluster_step crs e crs' -> crs' = crs.
Proof. destruct e as [X e x]. by destruct e. Qed.

(** Only the writes matter. *)
Lemma cluster_run_writes crs t crs' :
  cluster_run crs t crs' -> cluster_run crs (writes t) crs'.
Proof.
  unfold writes. revert crs. induction t as [|e t IH]; intros crs; [done|].
  intros (crs1 & Hs & Ht). simpl. destruct (is_write e) eqn:Hw.
  - exists crs1. auto.
  - apply cluster_step_quiet in Hs as ->; [|done]. auto.
Qed.

Lemma cluster_run_app crs t1 t2 crs' :
  cluster_run crs (t1 ++ t2) crs' <->
  exists crs1, cluster_run crs t1 crs1 /\ cluster_run crs1 t2 crs'.
Proof.
  revert crs. induction t1 as [|e t1 IH]; simpl; intros crs.
  - split; [eauto | by intros (? & -> & ?)].
  - setoid_rewrite IH. split.
    + intros (c1 & Hs & c2 & H1 & H2). eauto.
    + intros (c2 & (c1 & Hs & H1) & H2). eauto.
Qed.

(** Every CR is one for the domain it is filed under. *)
Definition well_kept (crs : cluster) : Prop := forall d cr, crs !! d = Some cr -> cr_for d cr.

Lemma cr_for_same d a b : same_object a b -> cr_for d b -> cr_for d a.
Proof.
  intros (Hn & Hs & Ht). unfold cr_for, AD_Domain. by rewrite Hn, Hs, Ht.
Qed.

(** The call writes nothing but CRs for [d] and deletes nothing but [d]. *)
Definition writes_for (d : string) (e : ev K8sE) : Prop :=
  match e with
  | Ev (AdCreate cr) _ | Ev (AdUpdate cr) _ => cr_for d cr
  | Ev (AdDelete n) _ => n = d
  | _ => True
  end.

Lemma sync_call_writes_for d e : sync_call d e -> writes_for d e.
Proof. destruct e as [X e x]. by destruct e. Qed.

Lemma quiet_writes_for d e : is_write e = false -> writes_for d e.
Proof. destruct e as [X e x]. by destruct e. Qed.

(** Such a call keeps the cluster well kept and does not touch the CRs of
    other domains. *)
Lemma writes_for_step d crs e crs' :
  writes_for d e -> cluster_step crs e crs' ->
  (well_kept crs -> well_kept crs') /\ (forall k, k <> d -> crs' !! k = crs !! k).
Proof.
  intros Hc Hs. destruct e as [X e x].
  assert (Hput : forall cr stored, cr_for d cr -> same_object stored cr ->
    crs' = <[AD_Name cr := stored]> crs ->
    (well_kept crs -> well_kept crs') /\ (forall k, k <> d -> crs' !! k = crs !! k)).
  { intros cr stored Hcr Hsame ->. assert (Hn : AD_Name cr = d) by apply Hcr. rewrite Hn. split.
    - intros Hw k cr'. rewrite lookup_insert_Some.
      intros [[<- <-]|[_ Hk]]; [by apply (cr_for_same d _ cr) | by apply Hw].
    - intros k Hk. by apply lookup_insert_ne. }
  destruct e; simpl in Hc, Hs; try (subst crs'; done).
  - destruct x.2; [by subst crs'|]. destruct Hs as (_ & stored & ? & ?). eauto.
  - destruct x.2; [by subst crs'|]. destruct Hs as (_ & stored & ? & ?). eauto.
  - destruct x; subst; [done|]. split.
    + intros Hw k cr. rewrite lookup_delete_Some. intros [_ Hk]. by apply Hw.
    + intros k Hk. by apply lookup_delete_ne.
Qed.

Lemma writes_for_run d crs t crs' :
  Forall (writes_for d) t -> cluster_run crs t crs' ->
  forall k, k <> d -> crs' !! k = crs !! k.
Proof.
  intros Ht. revert crs. induction Ht as [|e t He _ IH]; simpl; intros crs.
  { by intros ->. }
  intros (crs1 & Hs & Hr) k Hk. destruct (writes_for_step _ _ _ _ He Hs) as [_ Hk1].
  by rewrite (IH _ Hr k Hk), Hk1.
Qed.

(** Every answer of ZMS about [d] in [t] is [answer]. *)
Definition zms_says (d : string) (answer : ptr SignedDomains * string * option error)
    (t : list (ev K8sE)) : Prop :=
  forall x, Ev (ZmsGetSignedDomains d "" "" false false "") x ∈ t -> x = answer.

Definition zms_answer (e : ev K8sE) : option (ptr SignedDomains * string * option error) :=
  match e with Ev (ZmsGetSignedDomains _ _ _ _ _ _) x => Some x | _ => None end.

Lemma zms_says_answers d answer t :
  (forall x, x ∈ omap zms_answer t -> x = answer) -> zms_says d answer t.
Proof.
  intros Ht x Hin. apply Ht. apply list_elem_of_omap. eexists. split; [exact Hin|reflexivity].
Qed.

(** ZMS knows nothing of the domain: 404 or an empty list. *)
Definition zms_gone (answer : ptr SignedDomains * string * option error) : bool :=
  match answer.2 with
  | Some (ResourceError Code _) => (Code =? 404)%Z
  | Some _ => false
  | None => match answer.1.1 with
            | Some sds => match elems (SDs_Domains sds) with [] => true | _ => false end
            | None => false
            end
  end.

(** What ZMS says about [d] is the one signed domain [sd], as it is to be
    stored. *)
Definition zms_entry (u : Util) (d : string) (answer : ptr SignedDomains * string * option error)
    (sd : SignedDomain) : Prop :=
  exists sds p data, answer.1.1 = Some sds /\ answer.2 = None /\ elems (SDs_Domains sds) = [p] /\
    kept_entry u p = Some (Some sd) /\ SD_Domain sd = Some data /\ DD_Name data = d.
End cluster.

Section convergence.
Context `{DeepCopyOk} `{ErrorText}.

Lemma removed_run C d t crs' :
  removed C d t (Done None) -> cluster_run (cached_crs C) t crs' -> crs' !! d = None.
Proof.
  intros [_ Hr] Ht%cluster_run_writes. destruct (cached_crs C !! d) as [cr|] eqn:Hd.
  - destruct Hr as (r & Hw & [= <-]). rewrite Hw in Ht. destruct Ht as (crs1 & Hs & ->).
    simpl in Hs. subst crs1. apply lookup_delete_eq.
  - destruct Hr as [Hw _]. rewrite Hw in Ht. by rewrite Ht.
Qed.

Lemma stored_run C u d sd data t crs' :
  stored C u d sd data t (Done None) -> cluster_run (cached_crs C) t crs' ->
  exists cr, crs' !! d = Some cr /\ content_eq (AD_Spec cr) (mkSpec sd) /\
    Status_Message (AD_Status cr) = "".
Proof.
  intros Hst Ht%cluster_run_writes. unfold stored, concluded in Hst. cbv zeta in Hst.
  cbn [desired AD_Spec] in Hst.
  destruct (cached_crs C !! d) as [old|] eqn:Hd.
  - destruct (has_policies (AD_Spec old)), (has_policies (mkSpec sd)); cbn [andb] in Hst;
      try by destruct Hst as (_ & _ & [=]).
    destruct (decide _) as [[Hc Hm]|_].
    + destruct Hst as [Hw _]. rewrite Hw in Ht. simpl in Ht. subst crs'. exists old. by split_and!.
    + destruct Hst as (cr & err & Hw & Hend). rewrite Hw in Ht.
      destruct Ht as (crs1 & Hs & ->). simpl in Hs.
      destruct err; [by destruct Hend as [[? [=]] _]|].
      destruct Hs as (_ & st & (_ & Hs & Hm) & ->). exists st.
      rewrite Hs, Hm. rewrite lookup_insert_eq. by split_and!.
  - destruct Hst as (cr & err & Hw & Hend). rewrite Hw in Ht.
    destruct Ht as (crs1 & Hs & ->). simpl in Hs.
    destruct err; [by destruct Hend as [[? [=]] _]|].
    destruct Hs as (_ & st & (_ & Hs & Hm) & ->). exists st.
    rewrite Hs, Hm. rewrite lookup_insert_eq. by split_and!.
Qed.

(** Whatever the outcome, a synchronisation leaves the other domains alone. *)
Lemma sync_others u d t o crs crs' k :
  exec (sync u d) t o -> cluster_run crs t crs' -> k <> d -> crs' !! k = crs !! k.
Proof.
  intros He Hr. apply (writes_for_run d _ t); [|done]. eapply safe_exec; [|exact He].
  eapply safe_impl; [apply sync_call_writes_for | apply sync_sync_call].
Qed.

Lemma sync_invalid C u d t crs' :
  exec (sync u d) t (Done None) -> Forall (agrees C) t -> cluster_run (cached_crs C) t crs' ->
  valid C u d = false -> crs' !! d = None.
Proof.
  intros He Ha Hr Hv. pose proof (sync_reacted C u d t _ He Ha) as Hs. rewrite Hv in Hs.
  by eapply removed_run.
Qed.

(** What [sync] did for a valid domain about which ZMS has one entry. *)
Lemma sync_entry C u d t answer sd :
  exec (sync u d) t (Done None) -> Forall (agrees C) t -> zms_says d answer t ->
  valid C u d = true -> zms_entry u d answer sd ->
  exists data, SD_Domain sd = Some data /\ stored C u d sd data t (Done None).
Proof.
  intros He Ha Hz Hv (sds & p & data & Hres & Herr & Hl & Hk & Hd & Hn).
  pose proof (sync_reacted C u d t _ He Ha) as Hs. rewrite Hv in Hs.
  destruct Hs as (x & ->%Hz & Hre). destruct answer as [[result tag] err]. cbn [fst snd] in *.
  subst result err. unfold reacted in Hre. rewrite Hl in Hre. cbn [mapM] in Hre.
  rewrite Hk in Hre. simpl in Hre. rewrite Hd, decide_True in Hre by done. eauto.
Qed.

(** A valid domain that ZMS does not know is removed. *)
Lemma sync_removed C u d t answer :
  exec (sync u d) t (Done None) -> Forall (agrees C) t -> zms_says d answer t ->
  valid C u d = true -> zms_gone answer = true -> removed C d t (Done None).
Proof.
  intros He Ha Hz Hv Hg. pose proof (sync_reacted C u d t _ He Ha) as Hs. rewrite Hv in Hs.
  destruct Hs as (x & ->%Hz & Hre). destruct answer as [[result tag] err].
  unfold zms_gone, reacted in *. cbn [fst snd] in Hg.
  destruct err as [[Code m|r m|m|m|f c]|]; try done; [by destruct (Code =? 404)%Z|].
  destruct result as [sds|]; [|done]. by destruct (elems (SDs_Domains sds)).
Qed.

(** The CR of a domain is as ZMS's answer wants it. *)
Definition zms_settled (u : Util) (d : string) (answer : ptr SignedDomains * string * option error)
    (cr : option AthenzDomain) : Prop :=
  (zms_gone answer = true -> cr = None) /\
  (forall sd, zms_entry u d answer sd ->
     exists c, cr = Some c /\ content_eq (AD_Spec c) (mkSpec sd) /\
       Status_Message (AD_Status c) = "").

Lemma sync_settles C u d t crs' answer :
  exec (sync u d) t (Done None) -> Forall (agrees C) t ->
  cluster_run (cached_crs C) t crs' -> zms_says d answer t -> valid C u d = true ->
  zms_settled u d answer (crs' !! d).
Proof.
  intros He Ha Hr Hz Hv. split.
  - intros Hg. eapply removed_run; [|exact Hr]. by eapply sync_removed.
  - intros sd Hent. destruct (sync_entry C u d t answer sd) as (data & _ & Hst); try done.
    destruct (stored_run _ _ _ _ _ _ _ Hst Hr) as (cr & ? & ? & ?). eauto.
Qed.

(** C2. A synchronisation that returns no error, started with an up-to-date
    cache, leaves the cluster as ZMS has it: the CR of a domain that is not
    ours or that ZMS does not know is gone; the CR of a valid domain ZMS
    knows exists, with ZMS's content (filtered if so configured, signatures
    apart) and no error message; and no other CR has changed. *)
Theorem sync_converges C u d t crs' answer :
  exec (sync u d) t (Done None) -> Forall (agrees C) t ->
  cluster_run (cached_crs C) t crs' -> zms_says d answer t ->
  (forall k, k <> d -> crs' !! k = cached_crs C !! k) /\
  (valid C u d = false \/ zms_gone answer = true -> crs' !! d = None) /\
  (forall sd, valid C u d = true -> zms_entry u d answer sd ->
     exists cr, crs' !! d = Some cr /\ content_eq (AD_Spec cr) (mkSpec sd) /\
       Status_Message (AD_Status cr) = "").
Proof.
  intros He Ha Hr Hz. split; [by intros k; apply (sync_others u d t (Done None))|].
  pose proof (sync_invalid C u d t crs' He Ha Hr) as Hinv.
  pose proof (sync_settles C u d t crs' answer He Ha Hr Hz) as Hset.
  destruct (valid C u d) eqn:Hv; split.
  - intros [?|Hg]; [done|]. by apply Hset.
  - intros sd _. by apply Hset.
  - auto.
  - done.
Qed.

(** C3. Synchronising is idempotent: after a synchronisation without error, a
    second one that sees the resulting cluster, the same namespaces and the
    same answer of ZMS writes nothing. *)
Theorem sync_idempotent C C' u d t t' crs' answer sd :
  exec (sync u d) t (Done None) -> Forall (agrees C) t ->
  cluster_run (cached_crs C) t crs' -> zms_says d answer t ->
  exec (sync u d) t' (Done None) -> Forall (agrees C') t' -> zms_says d answer t' ->
  cached_crs C' = crs' -> valid C' u d = valid C u d ->
  zms_gone answer = true \/ zms_entry u d answer sd ->
  writes t' = [].
Proof.
  intros He Ha Hr Hz He' Ha' Hz' Hcr Hv Hans.
  assert (Hgone : removed C d t (Done None) -> removed C' d t' (Done None) -> writes t' = []).
  { intros Hr1 [_ Hr2]. rewrite Hcr, (removed_run _ _ _ _ Hr1 Hr) in Hr2. apply Hr2. }
  destruct (valid C u d) eqn:Hvd.
  - destruct Hans as [Hg|Hent].
    + apply Hgone; by eapply sync_removed.
    + destruct (sync_entry C u d t answer sd) as (data & Hd & Hst); try done.
      destruct (sync_entry C' u d t' answer sd) as (data' & _ & Hst'); try done.
      destruct (stored_run _ _ _ _ _ _ _ Hst Hr) as (cr & Hin & Hc & Hm).
      unfold stored in Hst'. cbv zeta in Hst'. rewrite Hcr, Hin in Hst'. cbn [desired AD_Spec] in Hst'.
      destruct (_ && _); [|by destruct Hst' as (_ & _ & [=])].
      rewrite decide_True in Hst' by done. apply Hst'.
  - pose proof (sync_reacted C u d t _ He Ha) as Hs. rewrite Hvd in Hs.
    pose proof (sync_reacted C' u d t' _ He' Ha') as Hs'. rewrite Hv in Hs'. by apply Hgone.
Qed.
End convergence.

(** ** Witnesses *)
Module ClusterExample.
#[local] Existing Instance plain_data.
#[local] Existing Instance plain_copy.
#[local] Existing Instance plain_copy_ok.

Lemma created_run :
  cluster_run (cached_crs CtlExample.before) CtlExample.created (cached_crs CtlExample.after_sync).
Proof.
  repeat (eexists; split; [reflexivity|]).
  eexists; split; [split; [reflexivity|]; exists CtlExample.stored; split; [by split|reflexivity]|].
  repeat (eexists; split; [reflexivity|]). reflexivity.
Qed.
Lemma created_says : zms_says "home.domain" CtlExample.answer CtlExample.created.
Proof. apply zms_says_answers. by intros x ->%list_elem_of_singleton. Qed.
Lemma again_says : zms_says "home.domain" CtlExample.answer CtlExample.again.
Proof. apply zms_says_answers. by intros x ->%list_elem_of_singleton. Qed.
Lemma entry : zms_entry CtlExample.u "home.domain" CtlExample.answer (CrExample.data "sig").
Proof. by eexists _, _, _. Qed.
End ClusterExample.

Example sync_converges_witness :
  exists cr, cached_crs CtlExample.after_sync !! "home.domain" = Some cr /\
    Status_Message (AD_Status cr) = "".
Proof.
  destruct (@sync_converges plain_data plain_copy plain_copy_ok CtlExample.texts
    _ _ _ _ _ _ CtlExample.created_exec CtlExample.created_agrees
    ClusterExample.created_run ClusterExample.created_says) as (_ & _ & Hs).
  destruct (Hs _ eq_refl ClusterExample.entry) as (cr & Hcr & _ & Hm).
  exists cr. split; [exact Hcr | exact Hm].
Defined.

Example sync_idempotent_witness : writes CtlExample.again = [].
Proof.
  exact (@sync_idempotent plain_data plain_copy plain_copy_ok CtlExample.texts
    CtlExample.before CtlExample.after_sync CtlExample.u "home.domain" _ _ _ CtlExample.answer
    (CrExample.data "sig")
    CtlExample.created_exec CtlExample.created_agrees
    ClusterExample.created_run ClusterExample.created_says
    CtlExample.again_exec CtlExample.again_agrees ClusterExample.again_says
    eq_refl eq_refl (or_intror ClusterExample.entry)).
Defined.
