(* ===== verification/Convergence.v ===== *)
(** * From one resync to a cluster that agrees with ZMS

    The components together: a resync ([Cron]) fills the queue from the
    caches, the worker ([Controller]) takes the names off it in any order,
    retries what fails or gives it up and queues the trust domains it finds,
    and each synchronisation acts on the cluster ([Cluster]).  When the queue
    is empty, the CRs of the namespaces and of the domains they delegate to
    are what ZMS says, those given up apart, provided the namespaces and ZMS
    did not change meanwhile and the cache of the CRs was up to date. *)
From Stdlib Require Import Lia.
From stdpp Require Import base list strings gmap.
From S2P Require Import Prelude Prog GoStrings Zms Util Effects Cr Caches Cron Controller Cluster.
#[local] Open Scope string_scope.

Section convergence.
Context `{DeepCopyOk} `{ErrorText}.
Variables (u : Util) (ns : gset string).

Abbreviation answer := (ptr SignedDomains * string * option error)%type.
(** ZMS: its answer for each domain. *)
Variable (zms : string -> answer).

Abbreviation cluster := (gmap string AthenzDomain).

(** The queue holds an item once: of equal items some copies may be gone. *)
Definition merged (q q1 : list Item) : Prop := q1 ⊆+ q /\ q ⊆ q1.

Lemma merged_refl q : merged q q.
Proof. by split. Qed.

#[global] Instance merged_proper : Proper ((≡ₚ) ==> (≡ₚ) ==> iff) merged.
Proof. intros a b Hab c d Hcd. unfold merged. by rewrite Hab, Hcd. Qed.

Lemma merged_in q q1 i : merged q q1 -> i ∈ q -> i ∈ q1.
Proof. intros [_ Hq]. apply Hq. Qed.

(** A request that does not reach ZMS, or fails without an answer of ZMS's
    own: the error is no [ResourceError]. *)
Definition unreachable (x : answer) : bool :=
  match x.2 with Some (ResourceError _ _) | None => false | Some _ => true end.

(** [handled crs d crs1 more r]: the worker synchronises [d] from an up-to-date
    cache of [crs]; the cluster is then [crs1], [more] are the items the
    synchronisation queued and [r] is the error it returned.  ZMS gives its
    answer, unless this is a failure for which it may be unreachable. *)
Definition handled (crs : cluster) (d : string) (crs1 : cluster) (more : list Item)
    (r : option error) : Prop :=
  exists t x, exec (sync u d) t (Done r) /\ Forall (agrees (mkCaches ns crs)) t /\
    cluster_run crs t crs1 /\ zms_says d x t /\
    (x = zms d \/ (r <> None /\ unreachable x = true)) /\ more = queued_items t.

Lemma handled_None crs d crs1 more :
  handled crs d crs1 more None ->
  exists t, exec (sync u d) t (Done None) /\ Forall (agrees (mkCaches ns crs)) t /\
    cluster_run crs t crs1 /\ zms_says d (zms d) t /\ more = queued_items t.
Proof. intros (t & x & He & Ha & Hr & Hz & [->|[? _]] & ->); [|done]. by exists t. Qed.

(** A configuration: how many disturbances (synchronisations that fail and
    additions by handlers and crons) are still to come, the domains that were
    given up and not synchronised since, the cluster and the queued items. *)
Record config := mkConfig {
  cf_left : nat;
  cf_given_up : gset string;
  cf_crs : cluster;
  cf_queue : list Item
}.

(** The rounds of the worker, and the additions in between.  Which items of
    those that fail are retried, and which are given up, is left open:
    [processNextItem] asks the rate limiter. *)
Inductive round : config -> config -> Prop :=
(** an item is synchronised without error *)
| round_sync n G crs q d q0 crs1 more q1 :
    q ≡ₚ ItemString d :: q0 -> handled crs d crs1 more None ->
    merged (q0 ++ more) q1 -> round (mkConfig n G crs q) (mkConfig n (G ∖ {[d]}) crs1 q1)
(** an item fails and is retried *)
| round_retry n G crs q d q0 crs1 more e q1 :
    q ≡ₚ ItemString d :: q0 -> handled crs d crs1 more (Some e) ->
    merged (ItemString d :: q0 ++ more) q1 ->
    round (mkConfig (S n) G crs q) (mkConfig n G crs1 q1)
(** an item fails and is given up *)
| round_give_up n G crs q d q0 crs1 more e q1 :
    q ≡ₚ ItemString d :: q0 -> handled crs d crs1 more (Some e) ->
    merged (q0 ++ more) q1 -> round (mkConfig (S n) G crs q) (mkConfig n ({[d]} ∪ G) crs1 q1)
(** handlers and crons add items *)
| round_more n G crs q (more : list string) q1 :
    merged ((ItemString <$> more) ++ q) q1 ->
    round (mkConfig (S n) G crs q) (mkConfig n G crs q1).

(** A domain that is valid whatever the CRs are. *)
Definition held (d : string) : Prop := DomainToNamespace u d ∈ ns \/ d = adminDomain u.

Definition settled (crs : cluster) (d : string) : Prop := zms_settled u d (zms d) (crs !! d).

Lemma held_valid crs d : held d -> valid (mkCaches ns crs) u d = true.
Proof. intros Hh. apply valid_spec. destruct Hh; auto. Qed.

Lemma handled_others crs d crs1 more r k :
  handled crs d crs1 more r -> k <> d -> crs1 !! k = crs !! k.
Proof. intros (t & x & He & _ & Hr & _) Hk. by eapply sync_others. Qed.

Lemma settled_others crs crs1 d more r k :
  handled crs d crs1 more r -> k <> d -> settled crs k -> settled crs1 k.
Proof. intros Hd Hk. unfold settled. by rewrite (handled_others _ _ _ _ _ _ Hd Hk). Qed.

Lemma handled_settles crs d crs1 more :
  handled crs d crs1 more None -> valid (mkCaches ns crs) u d = true -> settled crs1 d.
Proof. intros (t & He & Ha & Hr & Hz & _)%handled_None Hv. by apply (sync_settles (mkCaches ns crs) u d t). Qed.

Lemma handled_invalid crs d crs1 more :
  handled crs d crs1 more None -> valid (mkCaches ns crs) u d = false -> crs1 !! d = None.
Proof. intros (t & He & Ha & Hr & _)%handled_None Hv. by apply (sync_invalid (mkCaches ns crs) u d t). Qed.

Lemma in_queue (q q0 : list Item) d k :
  q ≡ₚ ItemString d :: q0 -> ItemString k ∈ q -> k = d \/ ItemString k ∈ q0.
Proof. intros ->. rewrite elem_of_cons. intros [[=]|]; auto. Qed.

(** What was queued is queued still, or was the item of the round. *)
Lemma still_queued q d q0 (more rest q1 : list Item) k :
  q ≡ₚ ItemString d :: q0 -> merged (rest ++ more) q1 -> q0 ⊆ rest -> k <> d ->
  ItemString k ∈ q -> ItemString k ∈ q1.
Proof.
  intros Hq Hm Hr Hne [?|Hk]%(in_queue _ _ _ _ Hq); [done|].
  eapply merged_in; [exact Hm|]. apply elem_of_app. auto.
Qed.

(** The domain is queued or given up: it waits for this resync or another. *)
Definition waits (c : config) (p : string) : Prop :=
  ItemString p ∈ cf_queue c \/ p ∈ cf_given_up c.

(** A round that is not [p]'s leaves its CR alone and lets it wait. *)
Lemma round_other c c1 :
  round c c1 ->
  (exists d,
     (forall p, p <> d -> cf_crs c1 !! p = cf_crs c !! p /\ (waits c p -> waits c1 p)) /\
     (waits c1 d \/
      exists more, handled (cf_crs c) d (cf_crs c1) more None /\ more ⊆ cf_queue c1)) \/
  (cf_crs c1 = cf_crs c /\ forall p, waits c p -> waits c1 p).
Proof.
  unfold waits.
  destruct 1 as [n G crs q d q0 crs1 more q1 Hq Hd Hm|n G crs q d q0 crs1 more e q1 Hq Hd Hm
    |n G crs q d q0 crs1 more e q1 Hq Hd Hm|n G crs q more q1 Hm]; cbn [cf_crs cf_queue cf_given_up].
  - left. exists d. split.
    + intros p Hne. split; [by eapply handled_others|].
      intros [?|?]; [left; by eapply still_queued|right; set_solver].
    + right. exists more. split; [done|]. intros i Hi. eapply merged_in; [exact Hm|].
      apply elem_of_app. auto.
  - left. exists d. split.
    + intros p Hne. split; [by eapply handled_others|].
      intros [?|?]; [left|by right]. eapply (still_queued q d q0 more (ItemString d :: q0)); try done.
      set_solver.
    + left. left. eapply merged_in; [exact Hm|]. by left.
  - left. exists d. split; [|set_solver].
    intros p Hne. split; [by eapply handled_others|].
    intros [?|?]; [left; by eapply still_queued|right; set_solver].
  - right. split; [done|]. intros p [Hp|?]; [left|by right]. eapply merged_in; [exact Hm|].
    apply elem_of_app. auto.
Qed.

(** The CR of a domain after its last synchronisation: as ZMS has it, or gone
    if the domain is not one of a namespace or the admin domain. *)
Definition repaired (crs : cluster) (p : string) : Prop :=
  settled crs p \/ (~ held p /\ crs !! p = None).

Lemma repaired_held crs p : repaired crs p -> held p -> settled crs p.
Proof. by intros [?|[? _]]. Qed.

Lemma handled_repairs crs d crs1 more : handled crs d crs1 more None -> repaired crs1 d.
Proof.
  intros Hd. destruct (valid (mkCaches ns crs) u d) eqn:Hv; [left; by eapply handled_settles|].
  right. split; [|by eapply handled_invalid]. intros Hh. by rewrite held_valid in Hv.
Qed.

Lemma repaired_same crs crs1 p : crs1 !! p = crs !! p -> repaired crs p -> repaired crs1 p.
Proof. unfold repaired, settled. by intros ->. Qed.

(** A domain that waits is repaired by its next synchronisation. *)
Lemma round_repairs c c1 p :
  round c c1 -> repaired (cf_crs c) p \/ waits c p -> repaired (cf_crs c1) p \/ waits c1 p.
Proof.
  intros [(d & Ho & Hd)|[-> Hw]]%round_other; [|by intros [?|?]; auto].
  destruct (decide (p = d)) as [->|Hne].
  - intros _. destruct Hd as [?|(more & Hd & _)]; [by right|]. left. by eapply handled_repairs.
  - destruct (Ho p Hne) as [Heq Hw]. intros [?|?]; [left; by eapply repaired_same|auto].
Qed.

Lemma rounds_repair c c1 p :
  rtc round c c1 -> repaired (cf_crs c) p \/ waits c p -> repaired (cf_crs c1) p \/ waits c1 p.
Proof. induction 1; eauto using round_repairs. Qed.

(** *** Trust domains *)

(** [p] delegates a role to [t] in the data ZMS has. *)
Definition delegates (p t : string) : Prop :=
  exists sd data, zms_entry u p (zms p) sd /\ SD_Domain sd = Some data /\
    t ∈ trusts (omap id (elems (DD_Roles data))).

Lemma index_keys_content cr sd data :
  content_eq (AD_Spec cr) (mkSpec sd) -> SD_Domain sd = Some data ->
  index_keys cr = trusts (omap id (elems (DD_Roles data))).
Proof.
  unfold content_eq, unsigned, index_keys, AD_Domain.
  destruct (AD_Spec cr) as [[d g k]]. destruct sd as [d' g' k']. simpl. intros Hc ->. simpl in Hc.
  destruct d as [dd|]; [|done]. injection Hc as _ _ Hr _ _ _. by rewrite Hr.
Qed.

(** Once [p] is settled, the domains it delegates to are trusted, and so
    valid. *)
Lemma settled_trusted crs p t :
  settled crs p -> delegates p t -> exists k cr, crs !! k = Some cr /\ t ∈ index_keys cr.
Proof.
  intros [_ Hs] (sd & data & Hent & Hd & Hin).
  destruct (Hs sd Hent) as (cr & Hcr & Hc & _). exists p, cr.
  by rewrite (index_keys_content cr sd data).
Qed.

Lemma settled_valid crs p t :
  settled crs p -> delegates p t -> valid (mkCaches ns crs) u t = true.
Proof. intros Hs Hdel. apply valid_spec. right. right. by eapply settled_trusted. Qed.

(** Settling [p] queues those that have no CR. *)
Lemma sync_queues crs p t crs1 more :
  handled crs p crs1 more None ->
  held p -> delegates p t -> t <> p -> crs !! t = None -> ItemString t ∈ more.
Proof.
  intros (tr & He & Ha & Hr & Hz & ->)%handled_None Hh (sd & data & Hent & Hd & Hin) Hne Hcr.
  destruct (sync_entry (mkCaches ns crs) u p tr (zms p) sd) as (data' & Hd' & Hst); try done.
  { by apply held_valid. }
  rewrite Hd in Hd'. injection Hd' as <-.
  assert (concluded (mkCaches ns crs) u p data None tr (Done None)) as [_ ->].
  { unfold stored in Hst. cbv zeta in Hst. cbn [cached_crs] in *.
    destruct (crs !! p) as [old|].
    - destruct (_ && _); [|by destruct Hst as (_ & _ & [=])].
      destruct (decide _); [apply Hst|]. destruct Hst as (cr & err & _ & Hc).
      destruct err; [|done]. by destruct Hc as [[? [=]] _].
    - destruct Hst as (cr & err & _ & Hc). destruct err; [|done]. by destruct Hc as [[? [=]] _]. }
  apply list_elem_of_fmap_2. unfold new_trusts. cbn [cached_ns cached_crs].
  assert (bool_decide (DomainToNamespace u p ∈ ns) || IsAdminDomain u p = true) as ->.
  { apply orb_true_iff. rewrite bool_decide_eq_true, IsAdminDomain_spec. exact Hh. }
  by apply list_elem_of_filter.
Qed.

(** Where a domain [t] that [p] delegates to can be: settled, waiting, or
    without a CR while [p] is still waiting. *)
Definition on_its_way (c : config) (p t : string) : Prop :=
  settled (cf_crs c) t \/ waits c t \/ (waits c p /\ cf_crs c !! t = None).

Lemma round_on_its_way c c1 p t :
  held p -> delegates p t -> t <> p -> round c c1 ->
  repaired (cf_crs c) p \/ waits c p -> on_its_way c p t -> on_its_way c1 p t.
Proof.
  intros Hh Hdel Hne [(d & Ho & Hd)|[Heq Hw]]%round_other Hp.
  2:{ unfold on_its_way. rewrite Heq. intros [?|[?|[? ?]]]; auto. }
  unfold on_its_way. destruct (decide (t = d)) as [->|Htd].
  - intros _. destruct Hd as [?|(more & Hd & _)]; [auto|].
    destruct (valid (mkCaches ns (cf_crs c)) u d) eqn:Hv; [left; by eapply handled_settles|].
    right. right. split; [|by eapply handled_invalid].
    destruct Hp as [Hp%repaired_held|Hp]; [|done|by apply Ho].
    by rewrite (settled_valid _ _ _ Hp Hdel) in Hv.
  - destruct (Ho t Htd) as [Heq Hw]. intros [Ht|[Ht|[Hpw Hcr]]].
    + left. unfold settled. by rewrite Heq.
    + auto.
    + destruct (decide (p = d)) as [->|Hpd].
      2:{ right. right. rewrite Heq. split; [by apply Ho|done]. }
      destruct Hd as [Hd|(more & Hd & Hsub)]; [right; right; by rewrite Heq|].
      right. left. left. apply Hsub. by eapply sync_queues.
Qed.

Lemma rounds_on_its_way c c1 p t :
  held p -> delegates p t -> t <> p -> rtc round c c1 ->
  repaired (cf_crs c) p \/ waits c p -> on_its_way c p t -> on_its_way c1 p t.
Proof. intros ???. induction 1; eauto using round_repairs, round_on_its_way. Qed.

(** What was not given up is repaired once the queue is empty. *)
Lemma worked_off_repaired c c1 p :
  rtc round c c1 -> cf_queue c1 = [] -> waits c p -> p ∉ cf_given_up c1 -> repaired (cf_crs c1) p.
Proof.
  intros Hr Hq Hp Hg. destruct (rounds_repair _ _ p Hr (or_intror Hp)) as [?|[Hin|?]]; [done| |done].
  rewrite Hq in Hin. by apply not_elem_of_nil in Hin.
Qed.

Lemma worked_off_delegates c c1 p t :
  rtc round c c1 -> cf_queue c1 = [] -> held p -> delegates p t -> t <> p -> waits c p ->
  on_its_way c p t -> p ∉ cf_given_up c1 -> t ∉ cf_given_up c1 -> settled (cf_crs c1) t.
Proof.
  intros Hr Hq Hh Hdel Hne Hp Ht Hgp Hgt.
  assert (forall k, k ∉ cf_given_up c1 -> ~ waits c1 k) as Hno.
  { intros k Hk [Hin|?]; [|done]. rewrite Hq in Hin. by apply not_elem_of_nil in Hin. }
  destruct (rounds_on_its_way _ _ p t Hh Hdel Hne Hr (or_intror Hp) Ht) as [?|[Hw|[Hw _]]];
    [done|by apply Hno in Hw..].
Qed.

(** Each domain that was given up was a disturbance. *)
Lemma rounds_given_up c c1 :
  rtc round c c1 -> (size (cf_given_up c1) + cf_left c1 <= size (cf_given_up c) + cf_left c)%nat.
Proof.
  induction 1 as [c|c c1 c2 Hs _ IH]; [done|]. etransitivity; [exact IH|]. clear IH.
  assert (forall (G : gset string) d, size (G ∖ {[d]}) <= size G)%nat as Hle.
  { intros G d. apply subseteq_size, subseteq_difference_l. done. }
  destruct Hs as [n G crs q d q0 crs1 more q1|n G crs q d q0 crs1 more e q1
    |n G crs q d q0 crs1 more e q1|n G crs q more q1]; cbn [cf_given_up cf_left].
  - specialize (Hle G d). lia.
  - lia.
  - rewrite size_union_alt, size_singleton. specialize (Hle G d). lia.
  - lia.
Qed.
End convergence.

Section resync.
Context `{DeepCopyOk} `{ErrorText}.

(** The domains that are ours whatever the CRs are: those of the namespaces
    that are not excluded, the admin domain and the system domains. *)
Definition ours (u : Util) (ns : gset string) (p : string) : Prop :=
  (exists n, n ∈ ns /\ IsNamespaceExcluded u n = false /\ p = NamespaceToDomain u n) \/
  (p <> "" /\ (p = adminDomain u \/ p ∈ GetSystemNSDomains u)).

(** Those a resync queues: also the trust domains that have a CR. *)
Definition resynced (u : Util) (ns : gset string) (crs : gmap string AthenzDomain) (p : string) : Prop :=
  ours u ns p \/ (trusted (mkCaches ns crs) p = true /\ is_Some (crs !! p)).

Lemma resync_queues u ns crs t o p :
  exec (FullResync_tick u) t o -> Forall (agrees (mkCaches ns crs)) t ->
  resynced u ns crs p -> ItemString p ∈ queued_items t.
Proof.
  intros He Ha Hp.
  destruct (FullResync_tick_queued _ u t o He Ha) as (names & l & _ & _ & Hset & _ & Htr & ->).
  apply list_elem_of_fmap_2. rewrite !elem_of_app. cbn [cached_ns cached_crs] in *.
  destruct Hp as [[(n & Hn & Hx & ->)|[Hne Hp]]|[Ht Hs]].
  - left. apply list_elem_of_fmap_2, list_elem_of_filter. split; [done|].
    rewrite <- Hset in Hn. by apply elem_of_list_to_set in Hn.
  - right. left. apply list_elem_of_filter. split; [done|]. by apply elem_of_cons.
  - right. right. apply list_elem_of_filter. auto.
Qed.

(** The names a resync queues are strings. *)
Lemma resync_names u ns crs t o :
  exec (FullResync_tick u) t o -> Forall (agrees (mkCaches ns crs)) t ->
  Forall (fun i => exists d, i = ItemString d) (queued_items t).
Proof.
  intros He Ha. destruct (FullResync_tick_queued _ u t o He Ha) as (names & l & _ & _ & _ & _ & _ & ->).
  apply Forall_fmap, Forall_forall. intros d _. by exists d.
Qed.

(** A resync worked off: the queue it fills, with whatever is added
    meanwhile, in any order and with any failures, down to the empty queue.
    [G] are the domains given up last. *)
Definition resync_run u ns zms crs (G : gset string) crs1 : Prop :=
  exists t o n n', exec (FullResync_tick u) t o /\ Forall (agrees (mkCaches ns crs)) t /\
    rtc (round u ns zms) (mkConfig n ∅ crs (queued_items t)) (mkConfig n' G crs1 []).

Lemma resync_waits u ns crs t o n p :
  exec (FullResync_tick u) t o -> Forall (agrees (mkCaches ns crs)) t ->
  resynced u ns crs p -> waits (mkConfig n ∅ crs (queued_items t)) p.
Proof. intros He Ha Hp. left. by eapply resync_queues. Qed.

(** What the rounds after a resync have achieved when the queue is empty. *)
Lemma resync_settles u ns zms crs t o n c p :
  exec (FullResync_tick u) t o -> Forall (agrees (mkCaches ns crs)) t ->
  rtc (round u ns zms) (mkConfig n ∅ crs (queued_items t)) c -> cf_queue c = [] ->
  resynced u ns crs p -> p ∉ cf_given_up c ->
  repaired u ns zms (cf_crs c) p /\
  (held u ns p -> forall d, delegates u zms p d -> d <> p -> d ∉ cf_given_up c ->
     crs !! d = None \/ resynced u ns crs d -> settled u zms (cf_crs c) d).
Proof.
  intros He Ha Hr Hq Hp Hg. pose proof (resync_waits u ns crs t o n p He Ha Hp) as Hw.
  split; [by eapply worked_off_repaired|]. intros Hh d Hdel Hne Hgd Hcr.
  eapply worked_off_delegates; try done. destruct Hcr as [Hcr|Hcr].
  - right. right. by split.
  - right. left. by eapply resync_waits.
Qed.

(** C5. Two resyncs repair the cluster.  From any CRs, let two resyncs be
    worked off one after the other (each in any order, with retries and
    give-ups and with whatever is added meanwhile), while the namespaces and
    what ZMS has stay the same.  Then the CR of every domain that is ours (the domain
    of a namespace that is not excluded, the admin domain, a system domain)
    is what ZMS says: gone, or with ZMS's content and no error message; only
    a domain that is not held (its namespace is not there and it is not the
    admin domain, see C21 for when that happens to a namespace's domain) may
    have no CR instead; the exceptions are the domains the second run gave
    up.  And so is the CR of every domain to which a held one of them
    delegates a role in ZMS, whatever CR it had at the start, unless the
    delegating domain was given up in either run or the other in the second.
    What ZMS says is that it does not know the domain, or its one entry;
    nothing is said about a domain for which it answers otherwise. *)
Theorem resync_converges u ns zms crs G1 crs1 G2 crs2 p :
  resync_run u ns zms crs G1 crs1 -> resync_run u ns zms crs1 G2 crs2 ->
  ours u ns p -> p ∉ G2 ->
  (settled u zms crs2 p \/ (~ held u ns p /\ crs2 !! p = None)) /\
  (held u ns p -> p ∉ G1 ->
     forall d, delegates u zms p d -> d <> p -> d ∉ G2 -> settled u zms crs2 d).
Proof.
  intros (t1 & o1 & n1 & n1' & He1 & Ha1 & Hr1) (t2 & o2 & n2 & n2' & He2 & Ha2 & Hr2) Hp Hg2.
  destruct (resync_settles _ _ _ _ _ _ _ _ p He2 Ha2 Hr2 eq_refl (or_introl Hp) Hg2) as [Hrep Hdels].
  split; [exact Hrep|]. intros Hh Hg1 d Hdel Hne Hgd. apply Hdels; try done.
  destruct (resync_settles _ _ _ _ _ _ _ _ p He1 Ha1 Hr1 eq_refl (or_introl Hp) Hg1) as [Hrep1 _].
  destruct (crs1 !! d) as [cr|] eqn:Hcr; [right; right|by left].
  split; [|by exists cr].
  destruct (settled_trusted u zms crs1 p d) as (k & cr' & ?); [by eapply repaired_held|done|].
  apply trusted_spec. eauto.
Qed.
End resync.

(** ** Witness

    One namespace, home-domain; ZMS knows its domain, which delegates a role
    to parent.domain, of which ZMS knows nothing. *)
Module ConvergenceExample.
#[local] Existing Instance plain_data.
#[local] Existing Instance plain_copy.
#[local] Existing Instance CtlExample.texts.

Definition u : Util := NewUtil "" [] [] false.
Definition ns : gset string := {["home-domain"]}.
Definition gone : ptr SignedDomains * string * option error :=
  (None, "", Some (ResourceError 404 "domain not found")).
Definition zms (d : string) : ptr SignedDomains * string * option error :=
  if String.eqb d "home.domain" then CtlExample.answer else gone.

Definition resync : list (ev K8sE) :=
  [Ev NsList [ObjNamespace (Some "home-domain")];
   Ev (QAddRateLimited (ItemString "home.domain")) tt;
   Ev (CrListIndexFuncValues trustDomainIndexKey) []].
Lemma round_exec : exec (FullResync_tick u) resync (Done tt).
Proof. repeat (eexists; eexists; split; [reflexivity|]). split; reflexivity. Qed.
Lemma round_agrees : Forall (agrees (mkCaches ns ∅)) resync.
Proof.
  repeat apply Forall_cons_2; [|exact I| |apply Forall_nil_2].
  - exists ["home-domain"]. split; [reflexivity|]. split; [apply NoDup_singleton|].
    apply (bool_decide_unpack _). vm_compute. exact I.
  - intros _. split; [apply NoDup_nil_2|]. intros d Hd. by destruct Hd.
Qed.

Definition crs : gmap string AthenzDomain := cached_crs CtlExample.after_sync.
(** The second one: parent.domain is trusted, but has no CR. *)
Definition resync_again : list (ev K8sE) :=
  [Ev NsList [ObjNamespace (Some "home-domain")];
   Ev (QAddRateLimited (ItemString "home.domain")) tt;
   Ev (CrListIndexFuncValues trustDomainIndexKey) ["parent.domain"];
   Ev (CrGetByKey "parent.domain") (ObjNil, false, None)].
Lemma round_again_exec : exec (FullResync_tick u) resync_again (Done tt).
Proof. repeat (eexists; eexists; split; [reflexivity|]). split; reflexivity. Qed.
Lemma trusted_crs d : trusted (mkCaches ns crs) d = true -> d = "parent.domain".
Proof.
  intros (k & cr & Hcr & Hin)%trusted_spec. unfold crs in Hcr. cbn [cached_crs CtlExample.after_sync] in Hcr.
  apply lookup_singleton_Some in Hcr as [_ <-]. by apply list_elem_of_singleton in Hin.
Qed.
Lemma round_again_agrees : Forall (agrees (mkCaches ns crs)) resync_again.
Proof.
  repeat apply Forall_cons_2; [|exact I| |reflexivity|apply Forall_nil_2].
  - exists ["home-domain"]. split; [reflexivity|]. split; [apply NoDup_singleton|].
    apply (bool_decide_unpack _). vm_compute. exact I.
  - intros _. split; [apply NoDup_singleton|]. intros d Hd.
    assert (trusted (mkCaches ns crs) d = true) as ->%trusted_crs; [|by left].
    unfold trusted. by destruct (trusting _ d).
Qed.

(** The synchronisation of parent.domain, now trusted. *)
Definition parent : list (ev K8sE) :=
  [Ev (NsGetByKey "parent-domain") (ObjNil, false, None);
   Ev (CrByIndex trustDomainIndexKey "parent.domain") ([ObjAthenzDomain (Some CtlExample.stored)], None);
   Ev (ZmsGetSignedDomains "parent.domain" "" "" false false "") gone;
   Ev (CrGetByKey "parent.domain") (ObjNil, false, None)].
Lemma home_exec : exec (sync u "home.domain") CtlExample.created (Done None).
Proof. repeat (eexists; eexists; split; [reflexivity|]). split; reflexivity. Qed.
Lemma parent_exec : exec (sync u "parent.domain") parent (Done None).
Proof. repeat (eexists; eexists; split; [reflexivity|]). split; reflexivity. Qed.
Lemma parent_agrees : Forall (agrees (mkCaches ns crs)) parent.
Proof.
  repeat apply Forall_cons_2; [by split| |exact I|reflexivity|apply Forall_nil_2].
  intros _. split; [reflexivity|]. vm_compute. reflexivity.
Qed.

Lemma home_handled :
  handled u ns zms ∅ "home.domain" crs [ItemString "parent.domain"] None.
Proof.
  exists CtlExample.created, CtlExample.answer. split; [exact home_exec|]. split; [exact CtlExample.created_agrees|].
  split; [exact ClusterExample.created_run|]. split; [exact ClusterExample.created_says|]. split; [by left|reflexivity].
Qed.
Lemma parent_handled : handled u ns zms crs "parent.domain" crs [] None.
Proof.
  exists parent, gone. split; [exact parent_exec|]. split; [exact parent_agrees|].
  split; [repeat (eexists; split; [reflexivity|]); reflexivity|].
  split; [|by split; [left|]]. apply zms_says_answers. by intros x ->%list_elem_of_singleton.
Qed.
Lemma home_again :
  handled u ns zms crs "home.domain" crs [ItemString "parent.domain"] None.
Proof.
  exists CtlExample.again, CtlExample.answer. split; [exact CtlExample.again_exec|].
  split; [exact CtlExample.again_agrees|].
  split; [repeat (eexists; split; [reflexivity|]); reflexivity|].
  split; [exact ClusterExample.again_says|]. split; [by left|reflexivity].
Qed.

(** Both runs: home.domain, then parent.domain. *)
Definition none_given_up : gset string := (∅ ∖ {["home.domain"]}) ∖ {["parent.domain"]}.
Lemma drained crs0 :
  handled u ns zms crs0 "home.domain" crs [ItemString "parent.domain"] None ->
  rtc (round u ns zms) (mkConfig 0 ∅ crs0 [ItemString "home.domain"])
    (mkConfig 0 none_given_up crs []).
Proof.
  intros Hd. eapply rtc_l.
  { apply (round_sync u ns zms _ _ _ _ _ [] _ _ [ItemString "parent.domain"] (Permutation_refl _) Hd),
      merged_refl. }
  eapply rtc_l; [|apply rtc_refl].
  apply (round_sync u ns zms _ _ _ _ _ [] _ [] [] (Permutation_refl _) parent_handled), merged_refl.
Qed.
Lemma first_run : resync_run u ns zms ∅ none_given_up crs.
Proof.
  exists resync, (Done tt), 0%nat, 0%nat. split; [exact round_exec|]. split; [exact round_agrees|].
  apply drained, home_handled.
Qed.
Lemma second_run : resync_run u ns zms crs none_given_up crs.
Proof.
  exists resync_again, (Done tt), 0%nat, 0%nat. split; [exact round_again_exec|].
  split; [exact round_again_agrees|]. apply drained, home_again.
Qed.
Lemma not_given_up d : d ∉ none_given_up.
Proof. unfold none_given_up. rewrite !elem_of_difference. by intros [[[]%elem_of_empty _] _]. Qed.
Lemma home : ours u ns "home.domain".
Proof. left. exists "home-domain". split; [by apply elem_of_singleton|]. by split_and!. Qed.
Lemma home_held : held u ns "home.domain".
Proof. left. by apply elem_of_singleton. Qed.
Lemma parent_delegated : delegates u zms "home.domain" "parent.domain".
Proof.
  eexists _, _. split; [exact ClusterExample.entry|]. split; [reflexivity|].
  vm_compute. by left.
Qed.
End ConvergenceExample.

Example resync_converges_witness :
  (exists cr, ConvergenceExample.crs !! "home.domain" = Some cr) /\
  ConvergenceExample.crs !! "parent.domain" = None.
Proof.
  destruct (@resync_converges plain_data plain_copy plain_copy_ok CtlExample.texts
    _ _ _ _ _ _ _ _ _ ConvergenceExample.first_run ConvergenceExample.second_run
    ConvergenceExample.home (ConvergenceExample.not_given_up _)) as [Hp Ht].
  split.
  - destruct Hp as [[_ Hs]|[Hn _]]; [|by destruct (Hn ConvergenceExample.home_held)].
    destruct (Hs _ ClusterExample.entry) as (cr & Hcr & _). by exists cr.
  - destruct (Ht ConvergenceExample.home_held (ConvergenceExample.not_given_up _) "parent.domain"
      ConvergenceExample.parent_delegated) as [Hg _]; [discriminate| |by apply Hg].
    apply ConvergenceExample.not_given_up.
Defined.
