(* ===== verification/Termination.v ===== *)
(** * The queue is worked off

    [Convergence] says what the cluster is like once the queue is empty.
    Here: the queue does become empty.  A synchronisation can queue further
    domains, which can queue further ones; but only a domain of a namespace
    (or the admin domain) queues anything, there are finitely many of those,
    and each of them queues at most once before it has a CR that stays. *)
From Stdlib Require Import Lia Wellfounded Relation_Operators.
From stdpp Require Import base list strings gmap.
From S2P Require Import Prelude Prog GoStrings Zms Util Effects Cr.
From S2P Require Import Caches Cron Controller Cluster Convergence.
#[local] Open Scope nat_scope.
#[local] Open Scope string_scope.

(** ** The domains of the namespaces are finitely many *)

Lemma all_bytes : exists l : list Ascii.ascii, forall c, c ∈ l.
Proof.
  exists (Ascii.ascii_of_nat <$> seq 0 256). intros c. apply list_elem_of_fmap.
  exists (Ascii.nat_of_ascii c). split; [by rewrite Ascii.ascii_nat_embedding|].
  apply elem_of_seq. pose proof (Ascii.nat_ascii_bounded c). lia.
Qed.

Lemma short_strings n : exists l : list string, forall s, String.length s <= n -> s ∈ l.
Proof.
  destruct all_bytes as [bytes Hb]. induction n as [|n [l IH]].
  - exists [""]. intros [|c s]; simpl; [intros _; by left|lia].
  - exists ("" :: (s ← l; (fun c => String c s) <$> bytes)). intros [|c s] Hs; [by left|].
    right. apply list_elem_of_bind. exists s. split.
    + apply list_elem_of_fmap. eauto.
    + apply IH. simpl in Hs. lia.
Qed.

Lemma string_app_length (a b : string) :
  String.length (a +:+ b) = String.length a + String.length b.
Proof. induction a as [|c a IH]; str_simpl; [done|by rewrite IH]. Qed.

Lemma subst_bytes_longer f s :
  (forall c, 1 <= String.length (f c)) -> String.length s <= String.length (subst_bytes f s).
Proof.
  intros Hf. induction s as [|c s IH]; simpl; [done|]. rewrite string_app_length.
  specialize (Hf c). lia.
Qed.

(** A domain is hardly longer than its namespace. *)
Lemma DomainToNamespace_length u d :
  String.length d <= String.length (adminDomain u) + 1 + String.length (DomainToNamespace u d).
Proof.
  destruct (admin_prefixed u d) eqn:Ha.
  - unfold DomainToNamespace. unfold admin_prefixed in Ha. rewrite Ha.
    destruct (HasPrefix d (adminDomain u +:+ ".")) eqn:Hp.
    + apply HasPrefix_spec in Hp as [s ->]. rewrite TrimPrefix_app, !string_app_length. simpl. lia.
    + rewrite TrimPrefix_no by done. lia.
  - rewrite DomainToNamespace_user by done.
    assert (String.length d <= String.length (subst_bytes dash_code d)); [|lia].
    apply subst_bytes_longer. intros c. unfold dash_code. by repeat case_match; simpl; lia.
Qed.

Lemma held_finite u ns : exists U : gset string, forall d, held u ns d -> d ∈ U.
Proof.
  set (n := String.length (adminDomain u) + 1 + max_list (String.length <$> elements ns)).
  destruct (short_strings n) as [l Hl]. exists (list_to_set l). intros d Hd.
  apply elem_of_list_to_set, Hl. destruct Hd as [Hd| ->]; [|unfold n; lia].
  pose proof (DomainToNamespace_length u d) as Hlen.
  assert (String.length (DomainToNamespace u d) <= max_list (String.length <$> elements ns)); [|lia].
  apply max_list_elem_of_le, list_elem_of_fmap_2. by apply elem_of_elements.
Qed.

(** ** What one synchronisation queues *)

Section entries.
Context `{DeepCopyOk} `{ErrorText}.
Variables (C : Caches) (u : Util) (d : string).

Abbreviation answer := (ptr SignedDomains * string * option error)%type.

(** The entry [p] of an answer is one for [d], and carries [data]. *)
Definition entry_data (p : ptr SignedDomain) : option DomainData :=
  sd ← p; data ← SD_Domain sd; if decide (DD_Name data = d) then Some data else None.

(** The data about [d] in an answer, as [sync] gets it. *)
Definition answer_data (x : answer) : list DomainData :=
  match x with
  | (Some sds, _, None) => omap entry_data (default [] (mapM (kept_entry u) (elems (SDs_Domains sds))))
  | _ => []
  end.

(** The trust domains in them. *)
Definition offered (x : answer) : list string :=
  answer_data x ≫= fun data => trusts (omap id (elems (DD_Roles data))).

(** [d] may queue trust domains. *)
Definition queues : bool := bool_decide (DomainToNamespace u d ∈ cached_ns C) || IsAdminDomain u d.

(** The items of a synchronisation of [d]: trust domains without a CR. *)
Definition fresh (i : Item) : Prop := exists t, i = ItemString t /\ t <> d /\ cached_crs C !! t = None.

Definition modest (l : list string) (t : list (ev K8sE)) : Prop :=
  Forall fresh (queued_items t) /\ length (queued_items t) <= length l /\
  (queues = false -> queued_items t = []).

Lemma modest_nil l t : queued_items t = [] -> modest l t.
Proof. unfold modest. intros ->. split; [constructor|]. simpl. split; [lia|done]. Qed.

Lemma modest_app l1 l2 t1 t2 : modest l1 t1 -> modest l2 t2 -> modest (l1 ++ l2)%list (t1 ++ t2)%list.
Proof.
  unfold modest. rewrite queued_items_app, !length_app.
  intros (Hf1 & Hl1 & Hq1) (Hf2 & Hl2 & Hq2). split; [by apply Forall_app|].
  split; [lia|]. intros Hq. by rewrite Hq1, Hq2.
Qed.

Lemma modest_concluded data err t o :
  concluded C u d data err t o -> modest (trusts (omap id (elems (DD_Roles data)))) t.
Proof.
  destruct err as [e|]; [intros [_ Hq]; by apply modest_nil|]. intros [_ Hq].
  unfold new_trusts in Hq. fold queues in Hq.
  destruct queues eqn:Hqs; [|by apply modest_nil]. unfold modest. rewrite Hq, Hqs.
  split; [|split; [|done]].
  - apply Forall_fmap, Forall_forall. intros t' [[? ?] ?]%list_elem_of_filter. by exists t'.
  - rewrite length_fmap. apply length_filter.
Qed.

Lemma stored_modest sd data t o :
  stored C u d sd data t o -> modest (trusts (omap id (elems (DD_Roles data)))) t.
Proof.
  unfold stored. cbv zeta. destruct (cached_crs C !! d) as [old|].
  - destruct (_ && _); [|intros (_ & Hq & _); by apply modest_nil]. destruct (decide _).
    + intros [_ Hc]. by eapply modest_concluded.
    + intros (cr & err & _ & Hc). by eapply modest_concluded.
  - intros (cr & err & _ & Hc). by eapply modest_concluded.
Qed.

Lemma entry_modest p t o :
  entry_reacted C u d p t o ->
  modest (from_option (fun data => trusts (omap id (elems (DD_Roles data)))) [] (entry_data p)) t.
Proof.
  unfold entry_reacted, entry_data. destruct p as [sd|]; [|intros (_ & Hq & _); by apply modest_nil].
  simpl. destruct (SD_Domain sd) as [data|]; [|intros (_ & Hq & _); by apply modest_nil]. simpl.
  destruct (decide _); [|intros (_ & Hq & _); by apply modest_nil]. apply stored_modest.
Qed.

Lemma entries_modest l t o :
  entries_reacted C u d l t o ->
  modest (omap entry_data l ≫= fun data => trusts (omap id (elems (DD_Roles data)))) t.
Proof.
  revert t. induction l as [|p l IH]; intros t; [intros (_ & Hq & _); by apply modest_nil|].
  assert (Hhead : forall t1 o1, entry_reacted C u d p t1 o1 ->
    forall t2, modest (omap entry_data l ≫= fun data => trusts (omap id (elems (DD_Roles data)))) t2 ->
    modest (omap entry_data (p :: l) ≫= fun data => trusts (omap id (elems (DD_Roles data)))) (t1 ++ t2)%list).
  { intros t1 o1 Hp%entry_modest t2 Ht2. csimpl.
    destruct (entry_data p) as [data|]; csimpl in *; [by apply modest_app|].
    by apply (modest_app []). }
  destruct l as [|p' l]; cbn [entries_reacted].
  - intros Hp. rewrite <- (app_nil_r t). eapply Hhead; [done|]. by apply modest_nil.
  - intros (t1 & o1 & Hp & Hrest). destruct o1 as [[e|]|w].
    + destruct Hrest as [-> _]. rewrite <- (app_nil_r t1). eapply Hhead; [done|]. by apply modest_nil.
    + destruct Hrest as (t2 & -> & Hl). eapply Hhead; eauto.
    + destruct Hrest as [-> _]. rewrite <- (app_nil_r t1). eapply Hhead; [done|]. by apply modest_nil.
Qed.
(** *** The CR stays *)

(** The CR of [d] is there if it was cached. *)
Definition not_lost (crs : gmap string AthenzDomain) : Prop :=
  is_Some (cached_crs C !! d) -> is_Some (crs !! d).

Lemma stored_kept crs sd data t crs1 :
  stored C u d sd data t (Done None) -> cluster_run crs t crs1 -> not_lost crs -> is_Some (crs1 !! d).
Proof.
  intros Hst Hr%cluster_run_writes Hl. unfold stored in Hst. cbv zeta in Hst.
  assert (Hput : forall cr x, AD_Name cr = d ->
    (writes t = [Ev (AdCreate cr) x] \/ writes t = [Ev (AdUpdate cr) x]) ->
    x.2 = None -> is_Some (crs1 !! d)).
  { intros cr [y e] Hn Hw He. simpl in He. subst e.
    destruct Hw as [Hw|Hw]; rewrite Hw in Hr; destruct Hr as (crs2 & Hs & ->);
      destruct Hs as (_ & st & _ & ->); rewrite Hn, lookup_insert_eq; eauto. }
  destruct (cached_crs C !! d) as [old|] eqn:Hold.
  - destruct (_ && _); [|by destruct Hst as (_ & _ & [=])]. destruct (decide _).
    + destruct Hst as [Hw _]. rewrite Hw in Hr. simpl in Hr. subst crs1. apply Hl. by rewrite Hold.
    + destruct Hst as (cr & err & Hw & Hc). destruct err; [by destruct Hc as [[? [=]] _]|].
      eapply Hput; [|right; exact Hw|]; done.
  - destruct Hst as (cr & err & Hw & Hc). destruct err; [by destruct Hc as [[? [=]] _]|].
    eapply Hput; [|left; exact Hw|]; done.
Qed.

Lemma untouched_run o' t o crs crs1 : untouched o' t o -> cluster_run crs t crs1 -> crs1 = crs.
Proof. intros (Hw & _ & _) Hr%cluster_run_writes. by rewrite Hw in Hr. Qed.

Lemma entry_kept crs p t crs1 :
  entry_reacted C u d p t (Done None) -> cluster_run crs t crs1 -> not_lost crs ->
  (entry_data p <> None \/ is_Some (crs !! d) -> is_Some (crs1 !! d)) /\ not_lost crs1.
Proof.
  unfold entry_reacted, entry_data. destruct p as [sd|]; [|by intros (_ & _ & [=])]. simpl.
  destruct (SD_Domain sd) as [data|]; [|by intros (_ & _ & [=])]. simpl.
  destruct (decide _).
  - intros Hst Hr Hl. pose proof (stored_kept _ _ _ _ _ Hst Hr Hl). by unfold not_lost.
  - intros Hu Hr Hl. rewrite (untouched_run _ _ _ _ _ Hu Hr). split; [|done]. by intros [?|?].
Qed.

Lemma entries_kept l t crs crs1 :
  entries_reacted C u d l t (Done None) -> cluster_run crs t crs1 -> not_lost crs ->
  omap entry_data l <> [] \/ is_Some (crs !! d) -> is_Some (crs1 !! d).
Proof.
  revert t crs. induction l as [|p l IH]; intros t crs Hl Hr Hn.
  { rewrite (untouched_run _ _ _ _ _ Hl Hr). by intros [?|?]. }
  assert (Hnext : forall crs2 : gmap string AthenzDomain, (entry_data p <> None \/ is_Some (crs !! d) -> is_Some (crs2 !! d)) ->
    omap entry_data (p :: l) <> [] \/ is_Some (crs !! d) ->
    omap entry_data l <> [] \/ is_Some (crs2 !! d)).
  { intros crs2 Hk [Hne|Hs]; [|right; apply Hk; by right]. csimpl in Hne.
    destruct (entry_data p); [right; apply Hk; by left|by left]. }
  destruct l as [|p' l]; cbn [entries_reacted] in Hl.
  - destruct (entry_kept _ _ _ _ Hl Hr Hn) as [Hk _].
    intros Hp. by destruct (Hnext _ Hk Hp).
  - destruct Hl as (t1 & o1 & Hp & Hrest). destruct o1 as [[e|]|w].
    + by destruct Hrest as (_ & [=]).
    + destruct Hrest as (t2 & -> & Hl).
      apply cluster_run_app in Hr as (crs2 & Hr1 & Hr2).
      destruct (entry_kept _ _ _ _ Hp Hr1 Hn) as [Hk Hn2]. intros Hd.
      eapply IH; eauto.
    + by destruct Hrest as (_ & [=]).
Qed.

Lemma removed_modest l t o : removed C d t o -> modest l t.
Proof. intros [Hq _]. by apply modest_nil. Qed.

Lemma untouched_modest l o' t o : untouched o' t o -> modest l t.
Proof. intros (_ & Hq & _). by apply modest_nil. Qed.

(** Whatever ZMS answered and however it ended, [sync] queued at most the
    trust domains of the answer. *)
Lemma reacted_modest x t o : reacted C u d x t o -> modest (offered x) t.
Proof.
  destruct x as [[result tag] err]. unfold reacted, offered, answer_data. intros Hre.
  destruct err as [e|].
  - destruct result; destruct e as [Code m|r m|m|m|f c]; try by eapply untouched_modest.
    all: destruct (Code =? 404)%Z; [by eapply removed_modest|].
    all: destruct (cached_crs C !! d); by eapply untouched_modest.
  - destruct result as [sds|]; [|by eapply untouched_modest].
    destruct (elems (SDs_Domains sds)) as [|p l]; [by eapply removed_modest|].
    destruct (mapM (kept_entry u) (p :: l)) as [l'|]; [|by eapply untouched_modest].
    by eapply entries_modest.
Qed.

(** An unreachable ZMS: nothing is done. *)
Lemma unreachable_untouched x t o :
  unreachable x = true -> reacted C u d x t o -> exists o', untouched o' t o.
Proof.
  destruct x as [[result tag] err]. unfold unreachable, reacted. cbn [fst snd].
  destruct err as [[]|]; try done; eauto.
Qed.

(** Once it ended without error, the CR is there if ZMS sent data for it. *)
Lemma reacted_kept x t crs1 :
  reacted C u d x t (Done None) -> cluster_run (cached_crs C) t crs1 ->
  answer_data x <> [] -> is_Some (crs1 !! d).
Proof.
  destruct x as [[result tag] err]. unfold reacted, answer_data. intros Hre Hr Hx.
  destruct err; [by destruct result|]. destruct result as [sds|]; [|done].
  destruct (elems (SDs_Domains sds)) as [|p l]; [done|].
  destruct (mapM (kept_entry u) (p :: l)) as [l'|]; [|done].
  eapply entries_kept; [exact Hre|exact Hr|exact (fun x => x)|by left].
Qed.
End entries.

(** ** The rounds of the worker *)

Section termination.
Context `{DeepCopyOk} `{ErrorText}.
Variables (u : Util) (ns : gset string).
Variable (zms : string -> ptr SignedDomains * string * option error).

Abbreviation cluster := (gmap string AthenzDomain).

(** ZMS has data for [d]. *)
Definition sends (d : string) : bool :=
  match answer_data u d (zms d) with [] => false | _ => true end.

#[local] Instance held_dec d : Decision (held u ns d).
Proof. unfold held. apply _. Defined.

Lemma held_queues crs d : held u ns d <-> queues (mkCaches ns crs) u d = true.
Proof. unfold held, queues. by rewrite orb_true_iff, bool_decide_eq_true, IsAdminDomain_spec. Qed.

Lemma sends_spec d : sends d = true <-> answer_data u d (zms d) <> [].
Proof. unfold sends. by destruct (answer_data _ _ _). Qed.

(** One synchronisation, as far as the measure sees it. *)
Lemma handled_modest crs d crs1 more r :
  handled u ns zms crs d crs1 more r ->
  Forall (fresh (mkCaches ns crs) d) more /\
  length more <= length (offered u d (zms d)) /\ (~ held u ns d -> more = []).
Proof.
  intros (t & x & He & Ha & Hr & Hz & Hx & ->). pose proof (sync_reacted _ u d t _ He Ha) as Hs.
  assert (modest (mkCaches ns crs) u d (offered u d (zms d)) t) as (Hf & Hl & Hq).
  { destruct (valid _ u d); [|by eapply removed_modest].
    destruct Hs as (x' & ->%Hz & Hre). destruct Hx as [->|[_ Hx]]; [by eapply reacted_modest|].
    apply unreachable_untouched in Hre as [o' Hre]; [|done]. by eapply untouched_modest. }
  split_and!; [done..|]. intros Hh. apply Hq.
  destruct (queues _ u d) eqn:Hqs; [|done]. by apply held_queues in Hqs.
Qed.

Lemma handled_kept crs d crs1 more :
  handled u ns zms crs d crs1 more None -> held u ns d -> sends d = true -> is_Some (crs1 !! d).
Proof.
  intros (t & He & Ha & Hr & Hz & ->)%handled_None Hh Hsd%sends_spec.
  pose proof (sync_reacted _ u d t _ He Ha) as Hs. rewrite held_valid in Hs by done.
  destruct Hs as (x & ->%Hz & Hre). by eapply reacted_kept.
Qed.

(** *** The measure *)

Variable (U : gset string).
Hypothesis (U_held : forall d, held u ns d -> d ∈ U).

(** The held domains that ZMS has data for and that have no CR. *)
Definition missing (crs : cluster) : gset string :=
  filter (fun d => held u ns d /\ sends d = true /\ crs !! d = None) U.

(** How many rounds a queued domain stands for while nothing is missing any
    more: itself and what it may queue. *)
Definition weight (crs : cluster) (i : Item) : nat :=
  match i with
  | ItemString d =>
      if decide (held u ns d /\ sends d = true /\ crs !! d <> None)
      then 1 + length (offered u d (zms d)) else 1
  | ItemOther _ => 1
  end.

Definition load (crs : cluster) (q : list Item) : nat := sum_list_with (weight crs) q.

Lemma weight_pos crs i : 1 <= weight crs i.
Proof. destruct i; simpl; [case_decide|]; lia. Qed.

Lemma load_merged crs q q1 : merged q q1 -> load crs q1 <= load crs q.
Proof.
  intros [[rest Hq]%submseteq_Permutation _]. unfold load. rewrite Hq, sum_list_with_app. lia.
Qed.

Lemma load_fresh crs crs1 d more :
  Forall (fresh (mkCaches ns crs) d) more -> (forall k, k <> d -> crs1 !! k = crs !! k) ->
  load crs1 more = length more.
Proof.
  intros Hf Ho. unfold load. induction Hf as [|i more (t & -> & Hne & Hcr) _ IH]; [done|].
  simpl. rewrite IH, decide_False; [done|]. intros (_ & _ & Hs). by rewrite Ho in Hs.
Qed.

(** Nothing that counts changes when [d] does not count or keeps its CR. *)
Lemma measure_same crs crs1 d :
  (forall k, k <> d -> crs1 !! k = crs !! k) ->
  (held u ns d -> sends d = true -> crs1 !! d = None <-> crs !! d = None) ->
  missing crs1 = missing crs /\ forall q, load crs1 q = load crs q.
Proof.
  intros Ho Hd.
  assert (Hk : forall k, held u ns k -> sends k = true -> crs1 !! k = None <-> crs !! k = None).
  { intros k. destruct (decide (k = d)) as [->|Hne]; [done|]. by rewrite Ho. }
  split.
  - apply set_eq. intros k. unfold missing. rewrite !elem_of_filter. specialize (Hk k). tauto.
  - intros q. unfold load. induction q as [|i q IH]; [done|]. cbn [sum_list_with]. rewrite IH. f_equal.
    destruct i as [k|k]; [|done]. simpl. specialize (Hk k). repeat case_decide; tauto || done.
Qed.

Lemma missing_less crs crs1 d :
  (forall k, k <> d -> crs1 !! k = crs !! k) -> held u ns d -> sends d = true ->
  crs !! d = None -> is_Some (crs1 !! d) -> size (missing crs1) < size (missing crs).
Proof.
  intros Ho Hh Hsd Hcr [cr Hcr1]. apply subset_size. unfold missing. split.
  - intros k. rewrite !elem_of_filter. intros [(H1' & H2' & Hk) HU]. split; [|done]. split_and!; try done.
    destruct (decide (k = d)) as [->|Hne]; [done|]. by rewrite <- Ho.
  - intros Hsub. assert (d ∈ missing crs1) as Hin.
    { apply Hsub, elem_of_filter. auto. }
    apply elem_of_filter in Hin as [(_ & _ & Hn) _]. by rewrite Hcr1 in Hn.
Qed.

Lemma sync_decreases crs q d q0 crs1 more q1 :
  q ≡ₚ ItemString d :: q0 -> handled u ns zms crs d crs1 more None -> merged (q0 ++ more) q1 ->
  size (missing crs1) < size (missing crs) \/
  (size (missing crs1) = size (missing crs) /\ load crs1 q1 < load crs q).
Proof.
  intros Hq Hd Hm. pose proof (handled_others u ns zms crs d crs1 more None) as Ho.
  assert (Ho' : forall k, k <> d -> crs1 !! k = crs !! k) by (intros k; by apply Ho). clear Ho.
  destruct (handled_modest _ _ _ _ _ Hd) as (Hf & Hl & Hno).
  pose proof (load_merged crs1 _ _ Hm) as Hle. unfold load in Hle. rewrite sum_list_with_app in Hle.
  fold (load crs1 q1) (load crs1 q0) (load crs1 more) in Hle.
  rewrite (load_fresh _ _ _ _ Hf Ho') in Hle.
  assert (Hlq : load crs q = weight crs (ItemString d) + load crs q0).
  { unfold load. by rewrite Hq. }
  pose proof (weight_pos crs (ItemString d)) as Hpos.
  destruct (decide (held u ns d /\ sends d = true)) as [[Hh Hsd]|Hn].
  - pose proof (handled_kept _ _ _ _ Hd Hh Hsd) as Hs.
    destruct (crs !! d) eqn:Hcr; [right|left; by eapply missing_less].
    destruct (measure_same crs crs1 d Ho') as [-> Hload].
    { intros _ _. rewrite Hcr. by destruct Hs as [? ->]. }
    split; [done|]. rewrite (Hload q0) in Hle. rewrite Hlq. cbn [weight].
    rewrite decide_True by (rewrite Hcr; by split_and!). lia.
  - right. destruct (measure_same crs crs1 d Ho') as [-> Hload]; [tauto|]. split; [done|].
    rewrite (Hload q0) in Hle. rewrite Hlq.
    assert (length more = 0); [|lia].
    destruct (decide (held u ns d)) as [Hh|Hh]; [|by rewrite Hno].
    assert (sends d <> true) as Hns%not_true_is_false by tauto.
    unfold sends in Hns. unfold offered in Hl. destruct (answer_data u d (zms d)); [|done].
    simpl in Hl. lia.
Qed.

Definition measure (c : config) : (nat * nat) * nat :=
  ((cf_left c, size (missing (cf_crs c))), load (cf_crs c) (cf_queue c)).

Lemma round_decreases c c1 :
  round u ns zms c c1 -> slexprod _ _ (slexprod _ _ lt lt) lt (measure c1) (measure c).
Proof.
  unfold measure.
  destruct 1 as [n G crs q d q0 crs1 more q1 Hq Hd Hm|n G crs q d q0 crs1 more e q1 _ _ _
    |n G crs q d q0 crs1 more e q1 _ _ _|n G crs q more q1 _]; cbn [cf_left cf_crs cf_queue].
  - destruct (sync_decreases _ _ _ _ _ _ _ Hq Hd Hm) as [?|[Heq ?]].
    + apply left_slex. by apply right_slex.
    + rewrite Heq. by apply right_slex.
  - apply left_slex, left_slex. lia.
  - apply left_slex, left_slex. lia.
  - apply left_slex, left_slex. lia.
Qed.
End termination.

Section wellfounded.
Context `{DeepCopyOk} `{ErrorText}.

Lemma rounds_wf u ns zms : well_founded (flip (round u ns zms)).
Proof.
  destruct (held_finite u ns) as [U HU].
  apply (wf_projected (slexprod _ _ (slexprod _ _ lt lt) lt) (measure u ns zms U)).
  - intros c c1. by apply round_decreases.
  - apply wf_slexprod; [apply wf_slexprod|]; apply lt_wf.
Qed.

(** What the worker does with an item, from an up-to-date cache, is such a
    round. *)
Lemma worker_round u ns zms n G crs q d q0 t crs1 :
  q ≡ₚ ItemString d :: q0 ->
  exec (processNextItem u) (Ev QGet (ItemString d, false) :: t) (Done true) ->
  Forall (agrees (mkCaches ns crs)) t -> cluster_run crs t crs1 -> zms_says d (zms d) t ->
  let q1 := (q0 ++ queued_items t)%list in
  exists n1 G1, round u ns zms (mkConfig (S n) G crs q) (mkConfig n1 G1 crs1 q1).
Proof.
  intros Hq He Ha Hr Hz. cbv zeta. apply get_processed in He as (tb & -> & Hp).
  assert (Hpart : forall t0 rest r, exec (sync u d) t0 (Done r) ->
    Forall (fun e => is_write e = false) rest -> (tb ++ [Ev (QDone (ItemString d)) tt] = t0 ++ rest)%list ->
    handled u ns zms crs d crs1 (queued_items t0) r).
  { intros t0 rest r Hx Hw Heq. rewrite Heq in Ha, Hr, Hz. exists t0, (zms d). split; [done|].
    apply Forall_app in Ha as [Ha _]. split; [done|]. split.
    - apply cluster_run_app in Hr as (crs2 & Hr & Hrest%cluster_run_writes).
      rewrite unwritten_trace in Hrest by done. by rewrite Hrest.
    - split; [|by split; [left|]]. intros x Hx'. apply Hz, elem_of_app. by left. }
  inversion Hp as [|d' t0 Hx|d' t0 w Hx|d' t0 e m Hx Hm|d' t0 e m Hx Hm]; subst; do 2 eexists.
  - rewrite queued_items_app, app_nil_r.
    eapply round_sync; [done|by eapply Hpart; [exact Hx| |done]; repeat constructor|apply merged_refl].
  - rewrite !queued_items_app. simpl. rewrite app_nil_r.
    eapply round_retry; [done| |].
    + eapply Hpart; [exact Hx| |by rewrite <- app_assoc]. by repeat constructor.
    + rewrite app_assoc, <- Permutation_cons_append. apply merged_refl.
  - rewrite !queued_items_app. simpl. rewrite !app_nil_r.
    eapply round_give_up; [done| |apply merged_refl].
    eapply Hpart; [exact Hx| |by rewrite <- app_assoc]. by repeat constructor.
Qed.

(** C8. The worker works the queue off, whatever ZMS, the namespaces and the
    cluster are: in no configuration is there an infinite sequence of
    rounds, although each synchronisation may queue further domains, as long
    as only finitely many synchronisations fail (to be retried or given up)
    and only finitely often handlers or crons add items. *)
Theorem draining_terminates u ns zms : well_founded (flip (round u ns zms)).
Proof. apply rounds_wf. Qed.
End wellfounded.

(** ** The worker is not stuck *)

Section progress.
Context `{DeepCopyOk} `{ErrorText}.

Abbreviation cluster := (gmap string AthenzDomain).

(** An API server that is willing: it answers without error where it can. *)
Definition willing (crs : cluster) (e : ev K8sE) : Prop :=
  match e with
  | Ev (AdCreate cr) x => crs !! AD_Name cr = None -> x.2 = None
  | Ev (AdUpdate cr) x => is_Some (crs !! AD_Name cr) -> x.2 = None
  | Ev (AdDelete n) x => x = None
  | _ => True
  end.

Fixpoint willing_run (crs : cluster) (t : list (ev K8sE)) (crs' : cluster) : Prop :=
  match t with
  | [] => crs' = crs
  | e :: t' => exists crs1, cluster_step crs e crs1 /\ willing crs e /\ willing_run crs1 t' crs'
  end.

Lemma willing_writes crs t crs' : willing_run crs t crs' -> willing_run crs (writes t) crs'.
Proof.
  unfold writes. revert crs. induction t as [|e t IH]; intros crs; [done|].
  intros (crs1 & Hs & Hw & Ht). simpl. destruct (is_write e) eqn:He; [exists crs1; auto|].
  apply cluster_step_quiet in Hs as ->; [|done]. auto.
Qed.

Lemma willing_cluster_run crs t crs' : willing_run crs t crs' -> cluster_run crs t crs'.
Proof.
  revert crs. induction t as [|e t IH]; intros crs; [done|].
  intros (crs1 & Hs & _ & Ht). exists crs1. auto.
Qed.

(** Such an environment: caches that stay [C], the ZMS [zms] and a willing
    API server over the cluster. *)
Definition environment (C : Caches) (zms : string -> ptr SignedDomains * string * option error)
    (X : Set) (e : K8sE X) (crs : cluster) : X * cluster :=
  match e in K8sE X return X * cluster with
  | ZmsGetSignedDomains d _ _ _ _ _ => (zms d, crs)
  | CrGetByKey k =>
      (match cached_crs C !! k with
       | Some cr => (ObjAthenzDomain (Some cr), true, None)
       | None => (ObjNil, false, None)
       end, crs)
  | CrByIndex _ d => ((map (fun cr => ObjAthenzDomain (Some cr)) (trusting C d), None), crs)
  | CrListIndexFuncValues _ => (remove_dups ((map_to_list (cached_crs C)).*2 ≫= index_keys), crs)
  | CrList => (map (fun cr => ObjAthenzDomain (Some cr)) (map_to_list (cached_crs C)).*2, crs)
  | NsGetByKey k => ((ObjNamespace (Some k), bool_decide (k ∈ cached_ns C), None), crs)
  | NsList => (map (fun n => ObjNamespace (Some n)) (elements (cached_ns C)), crs)
  | AdCreate cr =>
      if decide (crs !! AD_Name cr = None) then ((Some cr, None), <[AD_Name cr := cr]> crs)
      else ((None, Some (StatusError ReasonAlreadyExists "")), crs)
  | AdUpdate cr =>
      if decide (crs !! AD_Name cr = None) then ((None, Some (StatusError ReasonNotFound "")), crs)
      else ((Some cr, None), <[AD_Name cr := cr]> crs)
  | AdDelete n => (None, delete n crs)
  | WaitForCacheSync => (true, crs)
  | QAddRateLimited _ | QForget _ | QDone _ => (tt, crs)
  | QNumRequeues _ => (0%Z, crs)
  | QGet => ((ItemOther 0, true), crs)
  | CmGet _ _ | CmCreate _ _ | CmUpdate _ _ => ((None, None), crs)
  end.

Lemma environment_agrees C zms X (e : K8sE X) crs :
  agrees C (Ev e (environment C zms X e crs).1).
Proof.
  destruct e; try done.
  - simpl. by destruct (cached_crs C !! key).
  - intros _. split; [apply NoDup_remove_dups|]. intros d Hd. apply elem_of_remove_dups.
    assert (trusted C d = true) as (k & cr & Hk & Hin)%trusted_spec.
    { unfold trusted. by destruct (trusting C d). }
    apply list_elem_of_bind. exists cr. split; [done|].
    apply list_elem_of_fmap. exists (k, cr). by rewrite elem_of_map_to_list.
  - exact (Permutation_refl _).
  - exists (elements (cached_ns C)). split; [done|]. split; [apply NoDup_elements|].
    by rewrite list_to_set_elements_L.
Qed.

Lemma environment_step C zms X (e : K8sE X) crs :
  cluster_step crs (Ev e (environment C zms X e crs).1) (environment C zms X e crs).2 /\
  willing crs (Ev e (environment C zms X e crs).1).
Proof.
  destruct e; try done; simpl.
  - case_decide as Hcr; [|done]. split; [|done]. split; [done|]. by exists cr.
  - case_decide as Hcr.
    + split; [done|]. rewrite Hcr. by intros [? ?].
    + split; [|done]. split; [by apply not_eq_None_Some|]. by exists cr.
Qed.

(** The domain and the answer of a call to ZMS. *)
Definition zms_call (e : ev K8sE)
  : option (string * (ptr SignedDomains * string * option error)) :=
  match e with Ev (ZmsGetSignedDomains d _ _ _ _ _) x => Some (d, x) | _ => None end.

(** Every program has an execution there. *)
Lemma environment_runs {A} C zms (p : kprog A) crs :
  exists o t crs1, exec p t o /\ Forall (agrees C) t /\ willing_run crs t crs1 /\
    forall d, zms_says d (zms d) t.
Proof.
  revert crs. induction p as [a|w|X e k IH]; intros crs.
  - exists (Done a), [], crs. repeat split; [constructor|]. by intros d x []%not_elem_of_nil.
  - exists (Panicked w), [], crs. repeat split; [constructor|]. by intros d x []%not_elem_of_nil.
  - destruct (environment C zms X e crs) as [x crs1] eqn:Henv.
    destruct (IH x crs1) as (o & t & crs2 & He & Ha & Hw & Hz).
    destruct (environment_step C zms X e crs) as [Hs Hwl].
    pose proof (environment_agrees C zms X e crs) as Hag. rewrite Henv in Hs, Hwl, Hag.
    exists o, (Ev e x :: t), crs2. split; [by exists x, t|]. split; [by constructor|].
    split; [by exists crs1|]. intros d y [Hy|Hy]%elem_of_cons; [|by apply (Hz d)].
    apply (f_equal zms_call) in Hy. destruct e; simplify_eq/=. done.
Qed.
(** An answer ZMS documents: it does not know the domain, or it sends the one
    signed domain asked for, with its policies. *)
Definition regular (u : Util) (d : string) (x : ptr SignedDomains * string * option error) : Prop :=
  zms_gone x = true \/ exists sd, zms_entry u d x sd /\ has_policies (mkSpec sd) = true.

Definition with_policies (crs : cluster) : Prop :=
  forall d cr, crs !! d = Some cr -> has_policies (AD_Spec cr) = true.

Lemma regular_reacted C u d x t o :
  regular u d x -> reacted C u d x t o ->
  removed C d t o \/
  exists sd data, has_policies (mkSpec sd) = true /\ stored C u d sd data t o.
Proof.
  destruct x as [[result tag] err]. unfold regular, reacted. intros [Hg|(sd & Hent & Hp)] Hre.
  - left. unfold zms_gone in Hg. cbn [fst snd] in Hg.
    destruct err as [[Code m|r m|m|m|f c]|]; try done; [by destruct (Code =? 404)%Z|].
    destruct result as [sds|]; [|done]. by destruct (elems (SDs_Domains sds)).
  - right. destruct Hent as (sds & p & data & Hres & Herr & Hl & Hk & Hd & Hn).
    cbn [fst snd] in *. subst result err. rewrite Hl in Hre. cbn [mapM] in Hre. rewrite Hk in Hre.
    simpl in Hre. rewrite Hd, decide_True in Hre by done. eauto.
Qed.

(** The CRs written have policies. *)
Definition policies_call (e : ev K8sE) : Prop :=
  match written e with Some cr => has_policies (AD_Spec cr) = true | None => True end.

Lemma policies_step crs e crs1 :
  policies_call e -> cluster_step crs e crs1 -> with_policies crs -> with_policies crs1.
Proof.
  unfold policies_call, with_policies. intros Hp Hs Hcrs.
  assert (Hput : forall cr st, has_policies (AD_Spec cr) = true -> same_object st cr ->
    crs1 = <[AD_Name cr := st]> crs ->
    forall d cr, crs1 !! d = Some cr -> has_policies (AD_Spec cr) = true).
  { intros cr st Hcr (_ & Hsp & _) -> k cr'. rewrite lookup_insert_Some.
    intros [[_ <-]|[_ Hk]]; [by rewrite Hsp | by eapply Hcrs]. }
  destruct e as [X e x]. destruct e; simpl in Hp, Hs; try (subst crs1; done).
  - destruct x.2; [by subst|]. destruct Hs as (_ & st & ? & ?). eauto.
  - destruct x.2; [by subst|]. destruct Hs as (_ & st & ? & ?). eauto.
  - destruct x; subst; [done|]. intros k cr. rewrite lookup_delete_Some. intros [_ ?]. eauto.
Qed.

Lemma policies_run crs t crs1 :
  Forall policies_call t -> cluster_run crs t crs1 -> with_policies crs -> with_policies crs1.
Proof.
  intros Ht. revert crs. induction Ht as [|e t He _ IH]; simpl; intros crs; [by intros ->|].
  intros (crs2 & Hs & Hr) Hcrs. eauto using policies_step.
Qed.

Section settling.
Variables (u : Util) (ns : gset string).
Variable (zms : string -> ptr SignedDomains * string * option error).
Hypothesis (zms_regular : forall d, regular u d (zms d)).

(** What a synchronisation from an up-to-date cache does. *)
Lemma sync_regular crs d t o :
  exec (sync u d) t o -> Forall (agrees (mkCaches ns crs)) t -> zms_says d (zms d) t ->
  removed (mkCaches ns crs) d t o \/
  exists sd data, has_policies (mkSpec sd) = true /\ stored (mkCaches ns crs) u d sd data t o.
Proof.
  intros He Ha Hz. pose proof (sync_reacted _ u d t _ He Ha) as Hs.
  destruct (valid _ u d); [|by left]. destruct Hs as (x & ->%Hz & Hre). by eapply regular_reacted.
Qed.

Lemma removed_policies C d t o : removed C d t o -> Forall policies_call (writes t).
Proof.
  intros [_ Hrm]. destruct (cached_crs C !! d); [|destruct Hrm as [-> _]; constructor].
  destruct Hrm as (x & -> & _). by repeat constructor.
Qed.

Lemma stored_policies C d sd data t o :
  has_policies (mkSpec sd) = true -> stored C u d sd data t o -> Forall policies_call (writes t).
Proof.
  unfold stored. cbv zeta. intros Hp Hst. destruct (cached_crs C !! d) as [old|].
  - destruct (_ && _); [|destruct Hst as [-> _]; constructor]. destruct (decide _).
    + destruct Hst as [-> _]. constructor.
    + destruct Hst as (cr & err & -> & _). by repeat constructor.
  - destruct Hst as (cr & err & -> & _). by repeat constructor.
Qed.

Lemma handled_policies crs d crs1 more r :
  handled u ns zms crs d crs1 more r -> with_policies crs -> with_policies crs1.
Proof.
  intros (t & x & He & Ha & Hr%cluster_run_writes & Hz & Hx & _).
  apply (policies_run crs (writes t)); [|done]. destruct Hx as [->|[_ Hx]].
  - destruct (sync_regular crs d t _ He Ha Hz) as [Hrm|(sd & data & Hp & Hst)];
      eauto using removed_policies, stored_policies.
  - pose proof (sync_reacted _ u d t _ He Ha) as Hs.
    destruct (valid _ u d); [|by eapply removed_policies].
    destruct Hs as (x' & ->%Hz & Hre). apply unreachable_untouched in Hre as [o' [-> _]]; [|done].
    constructor.
Qed.

(** With a willing API server it succeeds. *)
Lemma willing_succeeds crs d t o crs1 :
  exec (sync u d) t o -> Forall (agrees (mkCaches ns crs)) t -> zms_says d (zms d) t ->
  willing_run crs t crs1 -> with_policies crs -> o = Done None.
Proof.
  intros He Ha Hz Hw%willing_writes Hcrs.
  destruct (sync_regular crs d t _ He Ha Hz) as [[_ Hrm]|(sd & data & Hp & Hst)].
  - cbn [cached_crs] in Hrm. destruct (crs !! d) as [old|]; [|by destruct Hrm].
    destruct Hrm as (x & Heq & ->). rewrite Heq in Hw. by destruct Hw as (_ & _ & -> & _).
  - unfold stored in Hst. cbv zeta in Hst. cbn [cached_crs] in Hst.
    destruct (crs !! d) as [old|] eqn:Hd.
    + cbn [desired AD_Spec] in Hst. rewrite (Hcrs _ _ Hd), Hp in Hst. cbn [andb] in Hst.
      destruct (decide _); [by destruct Hst as [_ [-> _]]|].
      destruct Hst as (cr & err & Heq & Hc). rewrite Heq in Hw.
      destruct Hw as (_ & _ & Hwl & _). assert (err = None) as -> by exact (Hwl (mk_is_Some _ _ Hd)).
      by destruct Hc.
    + destruct Hst as (cr & err & Heq & Hc). rewrite Heq in Hw.
      destruct Hw as (_ & _ & Hwl & _). assert (err = None) as -> by exact (Hwl Hd). by destruct Hc.
Qed.

Lemma handled_exists crs d :
  with_policies crs -> exists crs1 more, handled u ns zms crs d crs1 more None.
Proof.
  intros Hcrs. destruct (environment_runs (mkCaches ns crs) zms (sync u d) crs)
    as (o & t & crs1 & He & Ha & Hw & Hz).
  assert (o = Done None) as -> by by eapply willing_succeeds.
  exists crs1, (queued_items t), t, (zms d). split_and!; eauto using willing_cluster_run.
Qed.

(** On every run from [c], however the worker picks its items and whatever
    fails, [P] comes to hold: it holds, or there is a next round and it does
    so after each. *)
Inductive inevitable (P : config -> Prop) : config -> Prop :=
| inevitable_now c : P c -> inevitable P c
| inevitable_later c :
    (exists c1, round u ns zms c c1) ->
    (forall c1, round u ns zms c c1 -> inevitable P c1) -> inevitable P c.

Definition names_only (q : list Item) : Prop := Forall (fun i => exists d, i = ItemString d) q.

Lemma names_merged q q1 : merged q q1 -> names_only q -> names_only q1.
Proof.
  unfold names_only. rewrite !Forall_forall. intros [Hsub _] Hq i Hi.
  eapply Hq, elem_of_submseteq; eauto.
Qed.

Lemma sync_queues_names d t o : exec (sync u d) t o -> names_only (queued_items t).
Proof.
  intros He. pose proof (safe_exec _ _ _ _ (sync_sync_call u d) He) as Hs.
  unfold names_only. apply Forall_forall. intros i (e & Hin & Hq)%list_elem_of_omap.
  rewrite Forall_forall in Hs. specialize (Hs e Hin).
  destruct e as [X [] x]; simpl in *; simplify_eq. destruct Hs as (trust & -> & _). by exists trust.
Qed.

Lemma handled_names crs d crs1 more r : handled u ns zms crs d crs1 more r -> names_only more.
Proof. intros (t & x & He & _ & _ & _ & _ & ->). by eapply sync_queues_names. Qed.

Definition fit (c : config) : Prop := with_policies (cf_crs c) /\ names_only (cf_queue c).

(** The queue after a synchronisation, and the rest of the one before. *)
Lemma names_handled crs q d q0 crs1 more r :
  q ≡ₚ ItemString d :: q0 -> handled u ns zms crs d crs1 more r -> names_only q ->
  names_only (ItemString d :: q0 ++ more).
Proof.
  unfold names_only. intros Hq Hd Hn. rewrite Hq in Hn. apply Forall_cons in Hn as [Hi Hn].
  apply Forall_cons_2; [exact Hi|]. apply Forall_app_2; [exact Hn|by eapply handled_names].
Qed.

Lemma round_fit c c1 : round u ns zms c c1 -> fit c -> fit c1.
Proof.
  unfold fit.
  destruct 1 as [n G crs q d q0 crs1 more q1 Hq Hd Hm|n G crs q d q0 crs1 more e q1 Hq Hd Hm
    |n G crs q d q0 crs1 more e q1 Hq Hd Hm|n G crs q more q1 Hm];
    intros [Hp Hn]; cbn [cf_crs cf_queue] in *.
  4: { split; [done|]. eapply names_merged; [done|]. apply Forall_app_2; [|exact Hn].
       apply Forall_fmap, Forall_forall. intros d _. by exists d. }
  all: pose proof (names_handled _ _ _ _ _ _ _ Hq Hd Hn) as Hn1.
  all: split; [by eapply handled_policies|]; eapply names_merged; [exact Hm|].
  - by apply Forall_cons in Hn1 as [_ Hn1].
  - done.
  - by apply Forall_cons in Hn1 as [_ Hn1].
Qed.

Lemma round_next c : fit c -> cf_queue c <> [] -> exists c1, round u ns zms c c1.
Proof.
  destruct c as [n G crs q]. cbn [fit cf_crs cf_queue]. intros [Hp Hn] Hq. cbn [cf_crs cf_queue] in *.
  destruct q as [|i q]; [done|]. apply Forall_cons in Hn as [[d ->] _].
  destruct (handled_exists crs d Hp) as (crs1 & more & Hd).
  eexists. eapply round_sync; [reflexivity|exact Hd|apply merged_refl].
Qed.

(** The queue becomes empty. *)
Lemma empties c0 c :
  fit c -> rtc (round u ns zms) c0 c ->
  inevitable (fun c1 => cf_queue c1 = [] /\ rtc (round u ns zms) c0 c1) c.
Proof.
  induction (rounds_wf u ns zms c) as [c _ IH]. intros Hf Hr.
  destruct (decide (cf_queue c = [])) as [Hq|Hq]; [by apply inevitable_now|].
  apply inevitable_later; [by apply round_next|]. intros c1 Hc1.
  apply IH; [done|by eapply round_fit|by eapply rtc_r].
Qed.
End settling.

Lemma inevitable_impl u ns zms (P Q : config -> Prop) c :
  (forall c, P c -> Q c) -> inevitable u ns zms P c -> inevitable u ns zms Q c.
Proof. intros HPQ. induction 1; [apply inevitable_now|apply inevitable_later]; auto. Qed.

(** C4. A resync always ends with a cluster that agrees with ZMS on what was
    not given up.  While the namespaces and what ZMS has stay the same, ZMS
    answers as documented (it does not know the domain, or sends its one
    signed domain with policies) and the CRs there are have policies, whatever
    order the worker takes its items in and whatever [n] failures (a write
    that is refused, a ZMS that cannot be reached; each retried or given up)
    and additions disturb it: the worker is never stuck, empties
    the queue after finitely many rounds, and has then given up at most [n]
    domains.  For every other domain the resync queued (those of the
    namespaces that are not excluded, the admin and the system domains, the
    trust domains with a CR), the CR is what ZMS says; only a domain that is
    not held (its namespace is not there and it is not the admin domain) may
    have no CR instead.  And so is the CR of every domain that was not given
    up and to which a held one of these delegates a role, if at the start it
    had no CR or the resync queued it; [Convergence.resync_converges] says
    that a second resync settles the others. *)
Theorem resync_inevitably_settles u ns zms crs t o n :
  exec (FullResync_tick u) t o -> Forall (agrees (mkCaches ns crs)) t ->
  (forall d, regular u d (zms d)) -> with_policies crs ->
  inevitable u ns zms (fun c =>
    cf_queue c = [] /\ (size (cf_given_up c) <= n)%nat /\
    forall p, resynced u ns crs p -> p ∉ cf_given_up c ->
      (settled u zms (cf_crs c) p \/ (~ held u ns p /\ cf_crs c !! p = None)) /\
      (held u ns p -> forall d, delegates u zms p d -> d <> p -> d ∉ cf_given_up c ->
         crs !! d = None \/ resynced u ns crs d -> settled u zms (cf_crs c) d))
    (mkConfig n ∅ crs (queued_items t)).
Proof.
  intros He Ha Hz Hp.
  eapply inevitable_impl, (empties u ns zms Hz (mkConfig n ∅ crs (queued_items t))).
  - intros c [Hq Hr]. split; [done|]. split.
    + pose proof (rounds_given_up _ _ _ _ _ Hr) as Hg. cbn [cf_given_up cf_left] in Hg.
      rewrite size_empty in Hg. lia.
    + intros p Hres Hg. by eapply resync_settles.
  - split; [done|]. eapply resync_names; eauto.
  - done.
Qed.
End progress.

(** ** Witnesses *)
Module TerminationExample.
#[local] Existing Instance plain_data.
#[local] Existing Instance plain_copy.
#[local] Existing Instance CtlExample.texts.

Lemma zms_regular d : regular ConvergenceExample.u d (ConvergenceExample.zms d).
Proof.
  unfold ConvergenceExample.zms. destruct (String.eqb_spec d "home.domain") as [->|_].
  - right. exists (CrExample.data "sig"). split; [exact ClusterExample.entry|reflexivity].
  - left. reflexivity.
Qed.
Lemma no_crs : with_policies ∅.
Proof. intros d cr Hcr. by rewrite lookup_empty in Hcr. Qed.
(** home.domain has been synchronised, parent.domain is still queued. *)
Definition between : config :=
  mkConfig 0 (∅ ∖ {["home.domain"]}) ConvergenceExample.crs [ItemString "parent.domain"].
Lemma first_round :
  round ConvergenceExample.u ConvergenceExample.ns ConvergenceExample.zms
    (mkConfig 0 ∅ ∅ [ItemString "home.domain"]) between.
Proof.
  apply (round_sync _ _ _ _ _ _ _ _ [] _ _ [ItemString "parent.domain"] (Permutation_refl _)
    ConvergenceExample.home_handled), merged_refl.
Qed.
End TerminationExample.

Example draining_terminates_witness :
  Acc (flip (@round plain_data plain_copy CtlExample.texts
         ConvergenceExample.u ConvergenceExample.ns ConvergenceExample.zms))
    TerminationExample.between.
Proof.
  apply (Acc_inv (@draining_terminates plain_data plain_copy plain_copy_ok CtlExample.texts
    ConvergenceExample.u ConvergenceExample.ns ConvergenceExample.zms _)
    TerminationExample.first_round).
Defined.

Example resync_inevitably_settles_witness :
  @inevitable plain_data plain_copy CtlExample.texts
    ConvergenceExample.u ConvergenceExample.ns ConvergenceExample.zms
    (fun c => cf_queue c = [] /\ (size (cf_given_up c) <= 5)%nat /\
       ("home.domain" ∉ cf_given_up c -> is_Some (cf_crs c !! "home.domain")))
    (mkConfig 5 ∅ ∅ [ItemString "home.domain"]).
Proof.
  eapply inevitable_impl; [|exact (@resync_inevitably_settles plain_data plain_copy plain_copy_ok
    CtlExample.texts _ _ ConvergenceExample.zms _ _ _ 5
    ConvergenceExample.round_exec ConvergenceExample.round_agrees
    TerminationExample.zms_regular TerminationExample.no_crs)].
  intros c (Hq & Hn & Hs). split; [exact Hq|]. split; [exact Hn|]. intros Hg.
  destruct (Hs _ (or_introl ConvergenceExample.home) Hg) as [[[_ Hset]|[Hh _]] _].
  - destruct (Hset _ ClusterExample.entry) as (cr & Hcr & _). exists cr. exact Hcr.
  - destruct (Hh ConvergenceExample.home_held).
Defined.
