(* ===== verification/Shutdown.v ===== *)
(** * The end of the controller

    [Controller.Run] as a whole: its start, the worker loop under
    [wait.Until], and the deferred [queue.ShutDown].  The stop channel and
    the queue meet here: [wait.Until] looks at the channel between two runs
    of the worker, but the worker only comes back once the queue is shut
    down, which happens after [wait.Until]. *)
From stdpp Require Import base list strings gmap.
From S2P Require Import Prelude Prog GoStrings RateLimiter Zms Util Effects Cr Caches Cron Controller.
#[local] Open Scope string_scope.

Section shutdown.
Context `{DeepCopyLib} `{ErrorText}.

(** What [Run] does: a call of the worker or of the start, a look of
    [wait.Until] at the stop channel, with what it saw, and the shutdown of
    the queue. *)
Inductive RunE :=
| Call (e : ev K8sE)
| StopClosed (closed : bool)
| QueueShutDown.

(** A function run by [wait.Until]: what it may do and how it ends. *)
Abbreviation behaviour := (list RunE -> outcome unit -> Prop).

Definition calls (R : list (ev K8sE) -> outcome unit -> Prop) : behaviour :=
  fun t o => exists t0, t = map Call t0 /\ R t0 o.

(** [wait.Until f period stop] is documented to run [f], again and again,
    until the stop channel is closed.  A panic of [f] gets through. *)
Inductive until_documented (f : behaviour) : behaviour :=
| until_stopped : until_documented f [StopClosed true] (Done tt)
| until_panics t w : f t (Panicked w) -> until_documented f (StopClosed false :: t) (Panicked w)
| until_again t t' o :
    f t (Done tt) -> until_documented f t' o ->
    until_documented f (StopClosed false :: t ++ t')%list o.

Variable (Until : behaviour -> Z -> behaviour).

(** [Controller.Run].  The deferred [queue.ShutDown] runs however the body
    ends; [HandleCrash], deferred before it, runs after it, and panics again
    after logging. *)
Inductive Run_whole (c : Controller) : behaviour :=
| Run_not_synced t :
    exec (Run c) t (Done None) -> Run_whole c (map Call t ++ [QueueShutDown])%list (Done tt)
| Run_start_panics t w :
    exec (Run c) t (Panicked w) -> Run_whole c (map Call t ++ [QueueShutDown])%list (Panicked w)
| Run_works t c' t' o :
    exec (Run c) t (Done (Some c')) ->
    Until (calls (runWorker (Ctl_util c'))) Second t' o ->
    Run_whole c (map Call t ++ t' ++ [QueueShutDown])%list o.

(** The work queue's documented [Get]: it reports a shutdown only after
    [ShutDown] was called, which nobody but [Run] does. *)
Definition quits (e : RunE) : bool :=
  match e with Call (Ev QGet x) => x.2 | _ => false end.
Definition queue_documented (t : list RunE) : Prop :=
  forall t1 e t2, t = (t1 ++ e :: t2)%list -> quits e = true -> QueueShutDown ∈ t1.

(** [Run] asked the queue for an item. *)
Definition asked (e : RunE) : bool :=
  match e with Call (Ev QGet _) => true | _ => false end.

Lemma processNextItem_false u t :
  exec (processNextItem u) t (Done false) -> exists key, t = [Ev QGet (key, true)].
Proof.
  intros (key & quit & t' & -> & Hq)%processNextItem_processed.
  destruct quit; [destruct Hq as [-> _]; eauto|]. destruct Hq as (tb & _ & Hp).
  inversion Hp.
Qed.

(** The worker comes back only when [Get] reports a shutdown. *)
Lemma runWorker_quits u t :
  runWorker u t (Done tt) -> exists t0 key, t = (t0 ++ [Ev QGet (key, true)])%list.
Proof.
  intros Hr. remember (Done tt) as o eqn:Ho. induction Hr as [t Ht|t w _|t t' o _ _ IH]; [|done|].
  - apply processNextItem_false in Ht as [key ->]. by exists [], key.
  - destruct (IH Ho) as (t0 & key & ->). exists (t ++ t0)%list, key. by rewrite <- app_assoc.
Qed.

Lemma no_shutdown_in_calls t : QueueShutDown ∉ map Call t.
Proof. intros (e & [=] & _)%list_elem_of_fmap. Qed.

(** While the queue is not shut down, a worker under [wait.Until] can only
    panic; without it, it was not run at all. *)
Lemma until_worker u t o before rest :
  until_documented (calls (runWorker u)) t o -> QueueShutDown ∉ before ->
  queue_documented (before ++ t ++ rest) ->
  t = [StopClosed true] \/ exists w, o = Panicked w.
Proof.
  intros Hu Hb Hq. destruct Hu as [|t w _|t t' o (t0 & -> & Hr) _]; [by left|right; eauto|].
  exfalso. apply runWorker_quits in Hr as (t1 & key & ->).
  assert (QueueShutDown ∈ (before ++ StopClosed false :: map Call t1)%list) as Hin.
  { eapply (Hq _ (Call (Ev QGet (key, true)))); [|reflexivity].
    rewrite map_app, <- !app_assoc. simpl. by rewrite <- !app_assoc. }
  apply elem_of_app in Hin as [?|[[=]|?]%elem_of_cons]; [done|]. by eapply no_shutdown_in_calls.
Qed.

(** The start of [Run] asks for no item. *)
Lemma Run_start_asks c t o : exec (Run c) t o -> Forall (fun e => asked e = false) (map Call t).
Proof.
  intros He. apply Forall_fmap.
  eapply (safe_exec (fun e => asked (Call e) = false)); [|exact He].
  unfold Run, GetLatestTimestamp, AddAdminSystemDomains, AddRateLimited. prog_struct; try done.
  match goal with |- safe _ (latest_loop ?l _) => destruct (latest_loop_silent l 0) as [[r ->]| ->] end;
    done.
Qed.

Hypothesis (Until_doc : forall f period t o, Until f period t o -> until_documented f t o).

(** C13. The controller does not shut down.  Given what [wait.Until] and the
    queue document, a [Run] that has asked the queue for an item never
    returns, whenever the stop channel is closed: it can only panic.  (The
    worker waits in [queue.Get] until the queue is shut down; the queue is
    shut down when [wait.Until] returns; [wait.Until] waits for the
    worker.) *)
Theorem Run_never_returns c t o :
  Run_whole c t o -> queue_documented t -> (exists e, e ∈ t /\ asked e = true) ->
  exists w, o = Panicked w.
Proof.
  intros Hr Hq (e & Hin & He).
  assert (Hnot : forall t0 o0, exec (Run c) t0 o0 -> e ∈ map Call t0 -> False).
  { intros t0 o0 Hx%Run_start_asks Hin0. rewrite Forall_forall in Hx.
    specialize (Hx e Hin0). congruence. }
  destruct Hr as [t Hx|t w Hx|t c' t' o Hx Hu]; [exfalso|by eauto|].
  - apply elem_of_app in Hin as [Hin|Hin]; [by eapply Hnot|].
    apply list_elem_of_singleton in Hin as ->. done.
  - apply Until_doc in Hu.
    destruct (until_worker _ _ _ _ _ Hu (no_shutdown_in_calls t) Hq) as [->|?]; [|done].
    exfalso. rewrite !elem_of_app, !list_elem_of_singleton in Hin.
    destruct Hin as [Hin|[->| ->]]; [by eapply Hnot|done|done].
Qed.
End shutdown.

(** ** Witness

    The first item the worker gets makes it panic: ZMS refuses the domain
    with 429, and its CR is cached. *)
Module ShutdownExample.
#[local] Existing Instance plain_data.
#[local] Existing Instance plain_copy.
#[local] Existing Instance CtlExample.texts.

Definition c : Controller := mkController CronExample.cron CtlExample.u.
Definition start : list (ev K8sE) :=
  [Ev WaitForCacheSync true; Ev CrList [];
   Ev (QAddRateLimited (ItemString "k8s.cluster")) tt;
   Ev (QAddRateLimited (ItemString "k8s.cluster.kube-system")) tt].
Definition started : Controller := mkController (SetEtag "" CronExample.cron) CtlExample.u.
Definition refusal : ptr SignedDomains * string * option error :=
  (None, "", Some (ResourceError 429 "too many requests")).
Definition work : list (ev K8sE) :=
  [CtlExample.get; Ev (NsGetByKey "home-domain") CtlExample.ns;
   Ev (ZmsGetSignedDomains "home.domain" "" "" false false "") refusal;
   Ev (CrGetByKey "home.domain") (ObjAthenzDomain (Some CtlExample.stored), true, None);
   Ev (QDone (ItemString "home.domain")) tt].
Definition whole : list RunE :=
  (map Call start ++ (StopClosed false :: map Call work) ++ [QueueShutDown])%list.

Lemma start_exec : exec (Run c) start (Done (Some started)).
Proof. repeat (eexists; eexists; split; [reflexivity|]). split; reflexivity. Qed.
Lemma work_exec : exec (processNextItem CtlExample.u) work (Panicked nil_deref).
Proof. repeat (eexists; eexists; split; [reflexivity|]). split; reflexivity. Qed.
Lemma whole_run :
  Run_whole (fun f _ => until_documented f) c whole (Panicked nil_deref).
Proof.
  apply (Run_works _ _ _ started); [exact start_exec|]. apply until_panics.
  exists work. split; [reflexivity|]. by apply runWorker_panic, work_exec.
Qed.
Lemma whole_documented : queue_documented whole.
Proof.
  intros t1 e t2 Heq Hq. exfalso.
  assert (Forall (fun e => quits e = false) whole) as Hall by by repeat constructor.
  rewrite Heq, Forall_app, Forall_cons in Hall. destruct Hall as (_ & Hf & _). congruence.
Qed.
End ShutdownExample.

Example Run_never_returns_witness : exists w, @Panicked unit nil_deref = Panicked w.
Proof.
  apply (@Run_never_returns plain_data plain_copy CtlExample.texts
    (fun f _ => until_documented f) (fun _ _ _ _ H => H) _ _ _
    ShutdownExample.whole_run ShutdownExample.whole_documented).
  exists (Call CtlExample.get). split; [|reflexivity].
  apply elem_of_app. right. apply elem_of_app. left. right. left.
Defined.
