(* ===== verification/System.v ===== *)
(** * The goroutines together

    The worker, the update cron, the resync cron and the informers' handlers
    run at the same time and meet in the cluster.  A goroutine is the rest of
    its program; a step of the system is one call of one goroutine, so all
    interleavings at the granularity of the calls are covered.  What a call
    answers is constrained only where it changes the cluster. *)
From stdpp Require Import base list strings gmap.
From S2P Require Import Prelude Prog GoStrings Zms Util Effects Cr Caches Cron Controller Cluster.
#[local] Open Scope string_scope.

Section system.
Context `{DeepCopyOk} `{ErrorText} `{!KeyFuncs}.
Variable (u : Util).

(** A goroutine with a result, waiting for its next call or done. *)
Inductive Worker :=
| WorkerIdle
| WorkerBusy (key : Item) (rest : kprog bool)
| WorkerStopped.

Inductive UpdateThread :=
| UpdateSleeping (c : Cron)
| UpdateCalling (c : Cron) (rest : kprog (option error * Cron))
| UpdateStopped.

Record State := mkState {
  st_cluster : gmap string AthenzDomain;
  st_worker : Worker;
  st_update : UpdateThread;
  (** the resync, the controller's start and the handlers in progress *)
  st_others : list (kprog unit)
}.

Definition set_cluster (crs : gmap string AthenzDomain) (s : State) : State :=
  mkState crs (st_worker s) (st_update s) (st_others s).
Definition set_worker (w : Worker) (s : State) : State :=
  mkState (st_cluster s) w (st_update s) (st_others s).
Definition set_update (t : UpdateThread) (s : State) : State :=
  mkState (st_cluster s) (st_worker s) t (st_others s).
Definition set_others (l : list (kprog unit)) (s : State) : State :=
  mkState (st_cluster s) (st_worker s) (st_update s) l.

(** What the goroutines other than the worker and the update cron run. *)
Inductive spawned : kprog unit -> Prop :=
| spawned_ns n : spawned (addNSInformerHandlers u n)
| spawned_cr n : spawned (crInformerHandlers n)
| spawned_resync : spawned (FullResync_tick u)
| spawned_start : spawned (AddAdminSystemDomains u).

(** The worker's round after [Get] answered. *)
Definition after_get (key : Item) (quit : bool) : kprog bool :=
  if quit then mret false
  else
    deferred (trigger (QDone key))
      (match key with
       | ItemString d =>
           err ← sync u d;
           (match err with
            | Some _ =>
                n ← trigger (QNumRequeues (ItemString d));
                if (n <? workerQueueRetry)%Z then AddRateLimited d else trigger (QForget key)
            | None => mret tt
            end);;
           mret true
       | ItemOther _ => mret true
       end).

Lemma processNextItem_get :
  processNextItem u = PVis QGet (fun '(key, quit) => after_get key quit).
Proof. reflexivity. Qed.

(** [Run] has started: nobody is in the middle of a call. *)
Definition initial (crs : gmap string AthenzDomain) (c : Cron) : State :=
  mkState crs WorkerIdle (UpdateSleeping c) [].

Inductive step : State -> option (ev K8sE) -> State -> Prop :=
(** the worker *)
| step_get s key :
    st_worker s = WorkerIdle ->
    step s (Some (Ev QGet (key, false))) (set_worker (WorkerBusy key (after_get key false)) s)
| step_work s key p e p' crs :
    st_worker s = WorkerBusy key p -> call p e p' -> cluster_step (st_cluster s) e crs ->
    step s (Some e) (set_cluster crs (set_worker (WorkerBusy key p') s))
| step_processed s key :
    st_worker s = WorkerBusy key (PRet true) -> step s None (set_worker WorkerIdle s)
| step_quit s key :
    st_worker s = WorkerIdle ->
    step s (Some (Ev QGet (key, true))) (set_worker WorkerStopped s)
(** the update cron *)
| step_timer s c :
    st_update s = UpdateSleeping c -> step s None (set_update (UpdateCalling c (requestCall c)) s)
| step_update s c p e p' crs :
    st_update s = UpdateCalling c p -> call p e p' -> cluster_step (st_cluster s) e crs ->
    step s (Some e) (set_cluster crs (set_update (UpdateCalling c p') s))
| step_polled s c r c' :
    st_update s = UpdateCalling c (PRet (r, c')) ->
    step s None (set_update (UpdateSleeping c') s)
| step_retry s c e c' :
    st_update s = UpdateCalling c (PRet (Some e, c')) ->
    step s None (set_update (UpdateCalling c' (requestCall c')) s)
(** the other goroutines *)
| step_spawn s p :
    spawned p -> step s None (set_others (p :: st_others s) s)
| step_other s l1 p l2 e p' crs :
    st_others s = (l1 ++ p :: l2)%list -> call p e p' -> cluster_step (st_cluster s) e crs ->
    step s (Some e) (set_cluster crs (set_others (l1 ++ p' :: l2)%list s))
(** somebody else deletes a CR *)
| step_foreign_delete s d :
    step s None (set_cluster (delete d (st_cluster s)) s)
(** the process dies, of a panic or for any other reason, in the middle of
    whatever its goroutines do, and is started again *)
| step_restart s c : step s None (initial (st_cluster s) c).

Inductive reachable (s0 : State) : list (ev K8sE) -> State -> Prop :=
| reachable_start : reachable s0 [] s0
| reachable_step t s e s' :
    reachable s0 t s -> step s e s' -> reachable s0 (t ++ option_list e)%list s'.

(** ** Invariants *)

(** The item a [Get] answers. *)
Definition got (e : ev K8sE) : option Item :=
  match e with Ev QGet x => Some x.1 | _ => None end.

(** A call of a goroutine other than the worker. *)
Definition unwriting (e : ev K8sE) : Prop := is_write e = false /\ got e = None.

(** What the worker may call while it has the item [key]. *)
Definition worker_call (key : Item) (e : ev K8sE) : Prop :=
  got e = None /\
  match key with
  | ItemString d => writes_for d e
  | ItemOther _ => unwriting e
  end.

Lemma sync_call_worker d e : sync_call d e -> worker_call (ItemString d) e.
Proof. unfold worker_call. destruct e as [X e x]. by destruct e. Qed.

Lemma after_get_worker_call key : safe (worker_call key) (after_get key false).
Proof.
  unfold after_get. apply safe_deferred; [by destruct key|].
  destruct key as [d|n]; [|done]. apply safe_bind.
  - eapply safe_impl; [apply sync_call_worker | apply sync_sync_call].
  - intros [e|]; [|done]. apply safe_bind; [|done]. prog_simpl. simpl. intros n.
    split; [done|]. by destruct (n <? workerQueueRetry)%Z.
Qed.

Lemma ValidateDomain_unwriting d : safe unwriting (ValidateDomain u d).
Proof. unfold ValidateDomain, IsTrustDomain. prog_struct; done. Qed.

Lemma AddAdminSystemDomains_unwriting : safe unwriting (AddAdminSystemDomains u).
Proof.
  unfold AddAdminSystemDomains, AddRateLimited. apply safe_bind.
  - by destruct (negb _).
  - intros _. apply safe_for_each. intros d _. by destruct (negb _).
Qed.

Lemma requestCall_unwriting c : safe unwriting (requestCall c).
Proof.
  unfold requestCall. prog_simpl. simpl. intros [[domains newEtag] err]. split; [done|].
  destruct err; [done|]. apply safe_bind.
  - destruct domains; [|done]. destruct (_ <? _)%nat; [|done]. apply safe_for_each.
    intros [sd|] _; [|done]. unfold announce_domain. prog_simpl.
    destruct (SD_Domain sd) as [data|]; [|done]. prog_simpl.
    unfold ValidateDomain, IsTrustDomain, AddRateLimited. prog_struct; done.
  - intros _. destruct (negb _); [|done]. apply safe_bind; [|done].
    unfold UpdateAthenzContactTime. destruct (contactTimeCm _); prog_struct; done.
Qed.

Lemma spawned_unwriting p : spawned p -> safe unwriting p.
Proof.
  destruct 1 as [n|n| |]; [..|apply AddAdminSystemDomains_unwriting].
  - destruct n; simpl; unfold nsinformerhandler, AddRateLimited; prog_struct; done.
  - destruct n; simpl; unfold crinformerhandler, AddRateLimited; prog_struct; done.
  - unfold FullResync_tick. prog_simpl. simpl. intros l. split; [done|].
    apply safe_bind; [|intros _; apply safe_bind; [apply AddAdminSystemDomains_unwriting|]].
    + apply safe_for_each. intros ns _. unfold resync_namespace, AddRateLimited.
      destruct ns as [| |[n|]| |]; try done. prog_simpl. by destruct (IsNamespaceExcluded u n).
    + intros _. prog_simpl. simpl. intros l'. split; [done|]. apply safe_for_each.
      intros d _. unfold resync_trust, AddRateLimited. prog_struct; done.
Qed.

(** The item the worker got last. *)
Definition last_got (t : list (ev K8sE)) : option Item := last (omap got t).

Definition invariant (t : list (ev K8sE)) (s : State) : Prop :=
  well_kept (st_cluster s) /\
  match st_worker s with
  | WorkerBusy key p => safe (worker_call key) p /\ last_got t = Some key
  | _ => True
  end /\
  match st_update s with UpdateCalling _ p => safe unwriting p | _ => True end /\
  Forall (safe unwriting) (st_others s).

(** Every write is for the item the worker had got last. *)
Definition attributed (t : list (ev K8sE)) : Prop :=
  forall t1 e t2, t = (t1 ++ e :: t2)%list -> is_write e = true ->
  exists d, last_got t1 = Some (ItemString d) /\ writes_for d e.

Lemma last_got_snoc t e :
  last_got (t ++ [e]) = match got e with Some i => Some i | None => last_got t end.
Proof.
  unfold last_got. rewrite omap_app. csimpl. destruct (got e).
  - by rewrite last_snoc.
  - by rewrite app_nil_r.
Qed.

Lemma attributed_snoc t e :
  attributed t ->
  (is_write e = true -> exists d, last_got t = Some (ItemString d) /\ writes_for d e) ->
  attributed (t ++ [e]).
Proof.
  intros Ht He t1 e' t2 Heq Hw. destruct (decide (t2 = [])) as [->|Hne].
  - apply app_inj_tail in Heq as [-> ->]. auto.
  - destruct (exists_last Hne) as (t3 & e3 & ->).
    rewrite app_comm_cons, app_assoc in Heq. apply app_inj_tail in Heq as [-> _]. eauto.
Qed.

Lemma well_kept_delete d crs : well_kept crs -> well_kept (delete d crs).
Proof. intros Hw k cr. rewrite lookup_delete_Some. intros [_ Hk]. by apply Hw. Qed.

Lemma unwriting_step crs e crs' : unwriting e -> cluster_step crs e crs' -> crs' = crs.
Proof. intros [Hw _]. by apply cluster_step_quiet. Qed.

Lemma worker_call_step key crs e crs' :
  worker_call key e -> cluster_step crs e crs' -> well_kept crs ->
  well_kept crs' /\ (is_write e = true -> exists d, key = ItemString d /\ writes_for d e).
Proof.
  intros [_ Hk] Hs Hw. destruct key as [d|n].
  - destruct (writes_for_step _ _ _ _ Hk Hs) as [Hk' _]. eauto.
  - rewrite (unwriting_step _ _ _ Hk Hs). split; [done|]. destruct Hk. congruence.
Qed.

Lemma invariant_step t s e s' :
  step s e s' -> invariant t s -> attributed t ->
  invariant (t ++ option_list e) s' /\ attributed (t ++ option_list e).
Proof.
  intros Hstep (Hw & Hwk & Hup & Hot) Hat.
  destruct Hstep as [s key Hs|s key p e p' crs Hs Hc Hcl|s key Hs|s key Hs|s c Hs
    |s c p e p' crs Hs Hc Hcl|s c r c' Hs|s c e c' Hs|s p Hp|s l1 p l2 e p' crs Hs Hc Hcl|s d|s c];
    simpl option_list; rewrite ?app_nil_r; unfold invariant;
    cbn [st_cluster st_worker st_update st_others set_cluster set_worker set_update set_others];
    rewrite ?last_got_snoc; try rewrite Hs in *.
  - split; [|by apply attributed_snoc]. split_and!; try done. apply after_get_worker_call.
  - destruct Hwk as [Hp Hl]. destruct (call_safe _ _ _ _ Hc Hp) as [He Hp'].
    destruct (worker_call_step _ _ _ _ He Hcl Hw) as [Hw' Hd]. split.
    + split_and!; try done. by rewrite (proj1 He).
    + apply attributed_snoc; [done|]. intros (d & -> & ?)%Hd. eauto.
  - by split_and!.
  - split; [|by apply attributed_snoc]. by split_and!.
  - split; [|done]. split_and!; try done. apply requestCall_unwriting.
  - destruct (call_safe _ _ _ _ Hc Hup) as [He Hp']. rewrite (unwriting_step _ _ _ He Hcl).
    rewrite (proj2 He). split; [by split_and!|]. apply attributed_snoc; [done|].
    intros Hwr. by rewrite (proj1 He) in Hwr.
  - by split_and!.
  - split; [|done]. split_and!; try done. apply requestCall_unwriting.
  - split; [|done]. split_and!; try done. constructor; [by apply spawned_unwriting | done].
  - apply Forall_app in Hot as [Hl1 [Hp Hl2]%Forall_cons].
    destruct (call_safe _ _ _ _ Hc Hp) as [He Hp']. rewrite (unwriting_step _ _ _ He Hcl).
    rewrite (proj2 He). split.
    + split_and!; try done. apply Forall_app. split; [done|]. by constructor.
    + apply attributed_snoc; [done|]. intros Hwr. by rewrite (proj1 He) in Hwr.
  - split; [|done]. split_and!; try done. by apply well_kept_delete.
  - split; [|done]. by split_and!.
Qed.

(** C6. In every interleaving of the worker with the crons, the handlers, the
    start, others deleting CRs and the process dying and starting again at any
    point, whatever the calls answer: every CR in
    the cluster stays one for the domain it is named after, without an error
    message, if that was so at the start; and every call that changes the
    cluster is made for the domain the worker got from the queue last. *)
Theorem system_invariant crs c t s :
  well_kept crs -> reachable (initial crs c) t s ->
  well_kept (st_cluster s) /\
  forall t1 e t2, t = (t1 ++ e :: t2)%list -> is_write e = true ->
    exists d, last_got t1 = Some (ItemString d) /\ writes_for d e.
Proof.
  intros Hw Hr. assert (Hinv : invariant t s /\ attributed t).
  { induction Hr as [|t s e s' _ [IH Hat] Hstep]; [|by apply (invariant_step _ s)].
    split; [by split_and!|]. by intros [|? ?] ? ? [=]. }
  destruct Hinv as [(Hk & _) Hat]. by split.
Qed.
End system.

(** ** Witness *)
Module SystemExample.
#[local] Existing Instance plain_data.
#[local] Existing Instance plain_copy.
#[local] Existing Instance CtlExample.texts.
#[local] Existing Instance CtlExample.keys.
(** The worker has got home.domain. *)
Definition s : State :=
  set_worker (WorkerBusy (ItemString "home.domain")
                (after_get CtlExample.u (ItemString "home.domain") false))
    (initial (cached_crs CtlExample.after_sync) CronExample.cron).
Lemma s_reachable :
  reachable CtlExample.u (initial (cached_crs CtlExample.after_sync) CronExample.cron)
    [CtlExample.get] s.
Proof.
  refine (reachable_step _ _ [] _ (Some CtlExample.get) _ (reachable_start _ _) _).
  apply (step_get _ _ (ItemString "home.domain")). reflexivity.
Qed.
Lemma start_well_kept : well_kept (cached_crs CtlExample.after_sync).
Proof. intros d cr Hd. unfold CtlExample.after_sync in Hd. cbn [cached_crs] in Hd.
  apply lookup_singleton_Some in Hd as [<- <-]. by split. Qed.
End SystemExample.

Example system_invariant_witness : well_kept (@st_cluster plain_data SystemExample.s).
Proof.
  exact (proj1 (@system_invariant plain_data plain_copy plain_copy_ok CtlExample.texts
    CtlExample.keys CtlExample.u _ _ _ _ SystemExample.start_well_kept SystemExample.s_reachable)).
Defined.
