(* ===== verification/Queue.v ===== *)
(** * Retries: the worker against the rate limiter of its queue

    The work queue asks its rate limiter how often an item was requeued, and
    tells it of additions and forgotten items.  [RetryLimiter] is what the
    worker relies on; pkg/ratelimiter implements it.  The theorems about
    retries are proved against the interface. *)
From stdpp Require Import base list strings gmap.
From S2P Require Import Prelude Prog GoStrings RateLimiter Zms Util Effects Cr Caches Cron Controller.
#[local] Open Scope string_scope.

#[global] Instance Item_dec : EqDecision Item.
Proof. solve_decision. Defined.
#[global] Instance Item_countable : Countable Item.
Proof.
  apply (inj_countable' (fun i => match i with ItemString s => inl s | ItemOther n => inr n end)
           (fun x => match x with inl s => ItemString s | inr n => ItemOther n end)).
  by intros [].
Defined.

(** ** The interface *)

Class RetryLimiter (L : Type) := {
  l_add : Z -> Item -> L -> L;
  l_num : Item -> L -> Z;
  l_forget : Item -> L -> L
}.

(** An addition, at any time, counts for its item as long as the counter does
    not overflow; forgetting resets the count of its item. *)
Class RetryLimiterLaws (L : Type) `{RetryLimiter L} : Prop := {
  l_num_add now i q : 0 <= l_num i q < max_int64 -> l_num i (l_add now i q) = l_num i q + 1;
  l_num_add_ne now i j q : i <> j -> l_num i (l_add now j q) = l_num i q;
  l_num_forget i q : l_num i (l_forget i q) = 0
}.

#[global] Instance ratelimiter_limiter : RetryLimiter (RateLimiter Item) := {
  l_add now i r := (When now i r).2;
  l_num := NumRequeues;
  l_forget := Forget
}.

#[global] Instance ratelimiter_laws : RetryLimiterLaws (RateLimiter Item).
Proof.
  split.
  - intros now i q Hq. simpl in *. unfold NumRequeues, failures_of in *.
    rewrite When_failures, lookup_insert_eq. simpl. unfold failures_of.
    rewrite wrap64_id; [done|]. unfold in_int64, min_int64, max_int64 in *. lia.
  - intros now i j q Hij. simpl. unfold NumRequeues, failures_of.
    by rewrite When_failures, lookup_insert_ne by done.
  - intros i q. simpl. unfold NumRequeues, failures_of. simpl. by rewrite lookup_delete_eq.
Qed.

(** ** Rounds of the worker *)

Section retries.
Context `{DeepCopyOk} `{ErrorText} `{RetryLimiterLaws L}.
Variable (u : Util).

(** A call's part in the limiter: what it is told and what it answers. *)
Definition limiter_step (q : L) (e : ev K8sE) (q' : L) : Prop :=
  match e with
  | Ev e x =>
      match e in K8sE X return X -> Prop with
      | QAddRateLimited i => fun _ => exists now, q' = l_add now i q
      | QNumRequeues i => fun n => n = l_num i q /\ q' = q
      | QForget i => fun _ => q' = l_forget i q
      | _ => fun _ => q' = q
      end x
  end.

Fixpoint limiter_run (q : L) (t : list (ev K8sE)) (q' : L) : Prop :=
  match t with
  | [] => q' = q
  | e :: t' => exists q1, limiter_step q e q1 /\ limiter_run q1 t' q'
  end.

Lemma limiter_run_app q t1 t2 q' :
  limiter_run q (t1 ++ t2) q' <-> exists q1, limiter_run q t1 q1 /\ limiter_run q1 t2 q'.
Proof.
  revert q. induction t1 as [|e t1 IH]; simpl; intros q.
  - split; [eauto | by intros (? & -> & ?)].
  - setoid_rewrite IH. split.
    + intros (c1 & Hs & c2 & Hr1 & Hr2). eauto.
    + intros (c2 & (c1 & Hs & Hr1) & Hr2). eauto.
Qed.

(** How a round for the domain [d] ended, as far as retries are concerned:
    after a failure the worker asks for the count, and adds again or not. *)
Inductive result := Succeeded | Retried | GaveUp.
#[global] Instance result_dec : EqDecision result.
Proof. solve_decision. Defined.

Definition asks (e : ev K8sE) : bool :=
  match e with Ev (QNumRequeues _) _ => true | _ => false end.
Definition readds (d : string) (e : ev K8sE) : bool :=
  match e with Ev (QAddRateLimited i) _ => bool_decide (i = ItemString d) | _ => false end.
Definition result_of (d : string) (t : list (ev K8sE)) : result :=
  if existsb asks t then if existsb (readds d) t then Retried else GaveUp else Succeeded.

(** A round of the worker for [d] that did not panic, between the limiter
    states [q] and [q']. *)
Definition round (d : string) (q : L) (r : result) (q' : L) : Prop :=
  exists t, exec (processNextItem u) (Ev QGet (ItemString d, false) :: t) (Done true) /\
    limiter_run q t q' /\ r = result_of d t.

(** What [sync d] does to the limiter does not concern [d]. *)
Lemma sync_calls_limiter d t q q' :
  Forall (sync_call d) t -> limiter_run q t q' ->
  l_num (ItemString d) q' = l_num (ItemString d) q /\
  existsb asks t = false /\ existsb (readds d) t = false.
Proof.
  intros Ht. revert q. induction Ht as [|e t He _ IH]; intros q; [by intros ->|].
  intros (q1 & Hs & Hr). destruct (IH _ Hr) as (-> & Ha & Hd). cbn [existsb]. rewrite Ha, Hd.
  destruct e as [X e x]. destruct e; cbn in He, Hs |- *; try done; try (by subst q1).
  destruct He as (trust & -> & _ & Hne), Hs as [now ->].
  rewrite l_num_add_ne by congruence. rewrite bool_decide_eq_false_2 by congruence. done.
Qed.

(** The three ways a round can go. *)
Lemma round_cases d q r q' :
  round d q r q' -> 0 <= l_num (ItemString d) q < max_int64 ->
  let n := l_num (ItemString d) q in
  let n' := l_num (ItemString d) q' in
  match r with
  | Succeeded => n' = n
  | Retried => n < workerQueueRetry /\ n' = n + 1
  | GaveUp => workerQueueRetry <= n /\ n' = 0
  end.
Proof.
  intros (t & He & Hr & ->) Hb. cbv zeta.
  apply get_processed in He as (tb & -> & Hp).
  apply limiter_run_app in Hr as (q1 & Hr & (q2 & -> & ->)).
  assert (Hsafe : forall ts os, exec (sync u d) ts os -> Forall (sync_call d) ts).
  { intros ts os. apply safe_exec, sync_sync_call. }
  unfold result_of. rewrite !existsb_app. cbn [existsb asks readds]. rewrite !orb_false_r.
  inversion Hp as [|d' ts Hs| |d' ts e n Hs Hn|d' ts e n Hs Hn]; subst.
  - destruct (sync_calls_limiter d tb q q1 (Hsafe _ _ Hs) Hr) as (-> & -> & _). done.
  - apply limiter_run_app in Hr as (q2 & Hr & (q3 & [-> ->] & q4 & [now ->] & ->)).
    destruct (sync_calls_limiter d ts q q2 (Hsafe _ _ Hs) Hr) as (Hq & Ha & Hd).
    rewrite !existsb_app, Ha, Hd. cbn. rewrite bool_decide_eq_true_2 by done. cbn.
    rewrite l_num_add; lia.
  - apply limiter_run_app in Hr as (q2 & Hr & (q3 & [-> ->] & q4 & -> & ->)).
    destruct (sync_calls_limiter d ts q q2 (Hsafe _ _ Hs) Hr) as (Hq & Ha & Hd).
    rewrite !existsb_app, Ha, Hd. cbn. rewrite l_num_forget. lia.
Qed.

(** A history of [d]: rounds of the worker and additions by anybody, of any
    item. *)
Inductive history (d : string) : L -> list result -> L -> Prop :=
| history_start q : history d q [] q
| history_round q rs q1 r q' :
    history d q rs q1 -> round d q1 r q' -> history d q (rs ++ [r]) q'
| history_added q rs q1 now i :
    history d q rs q1 -> l_num (ItemString d) q1 + 1 < max_int64 ->
    history d q rs (l_add now i q1).

Definition retries (rs : list result) : Z :=
  Z.of_nat (length (filter (fun r => r = Retried) rs)).

Lemma retries_snoc rs r :
  retries (rs ++ [r]) = retries rs + if decide (r = Retried) then 1 else 0.
Proof.
  unfold retries. rewrite filter_app, length_app, filter_cons, filter_nil.
  destruct (decide _); simpl; lia.
Qed.

Lemma retries_none rs : Retried ∉ rs -> retries rs = 0.
Proof.
  induction rs as [|r rs IH] using rev_ind; [done|].
  rewrite not_elem_of_app, list_elem_of_singleton, retries_snoc. intros [Hrs Hr].
  rewrite IH, decide_False by done. done.
Qed.

(** The count along a history without a give-up. *)
Lemma history_count d q rs q' :
  history d q rs q' -> GaveUp ∉ rs -> 0 <= l_num (ItemString d) q < max_int64 - 1 ->
  l_num (ItemString d) q + retries rs <= l_num (ItemString d) q' < max_int64 /\
  (Retried ∈ rs -> l_num (ItemString d) q + retries rs <= workerQueueRetry).
Proof.
  intros Hh Hg Hb.
  induction Hh as [q|q rs q1 r q' Hh IH Hr|q rs q1 now i Hh IH Hmax].
  - split; [unfold retries; simpl; lia | by intros ?%not_elem_of_nil].
  - rewrite not_elem_of_app, not_elem_of_cons in Hg. destruct Hg as [Hg [Hne _]].
    destruct (IH Hg Hb) as [Hn Hle]. rewrite retries_snoc, elem_of_app, list_elem_of_singleton.
    assert (Hpos : 0 <= retries rs) by (unfold retries; lia).
    pose proof (round_cases _ _ _ _ Hr ltac:(lia)) as Hc. cbv zeta in Hc.
    destruct r; [|destruct Hc as [Hlt Hc]|done].
    + rewrite decide_False by done. split; [lia|]. intros [?|?]; [|done]. rewrite Z.add_0_r. auto.
    + rewrite decide_True by done. unfold workerQueueRetry, max_int64 in *. lia.
  - destruct (IH Hg Hb) as [Hn Hle].
    assert (Hpos : 0 <= retries rs) by (unfold retries; lia).
    split; [|done]. destruct (decide (i = ItemString d)) as [->|Hi].
    + rewrite l_num_add; lia.
    + rewrite l_num_add_ne by congruence. lia.
Qed.

(** C10. However additions by other goroutines and successful rounds are mixed
    in, the worker retries a domain at most three times between two
    give-ups, less the additions already counted for the domain when the
    history starts: a domain that keeps failing is given up, and the queue
    does not spin on it. *)
Theorem retries_bounded d q rs q' :
  history d q rs q' -> GaveUp ∉ rs -> 0 <= l_num (ItemString d) q < max_int64 - 1 ->
  retries rs <= Z.max 0 (workerQueueRetry - l_num (ItemString d) q).
Proof.
  intros Hh Hg Hb. destruct (history_count _ _ _ _ Hh Hg Hb) as [_ Hle].
  destruct (decide (Retried ∈ rs)) as [Hin|Hnin]; [specialize (Hle Hin); lia|].
  rewrite (retries_none rs Hnin). lia.
Qed.

(** C11. Successes do not give a domain its retries back: once it was added
    three times since it was last given up, by whomever and however many
    successful rounds came between, the next failing round gives it up
    without a retry. *)
Theorem successes_use_up_retries d q rs q1 r q2 :
  history d q rs q1 -> GaveUp ∉ rs -> workerQueueRetry <= l_num (ItemString d) q < max_int64 - 1 ->
  round d q1 r q2 -> r = Succeeded \/ r = GaveUp.
Proof.
  intros Hh Hg Hb Hr. unfold workerQueueRetry in *.
  destruct (history_count _ _ _ _ Hh Hg ltac:(lia)) as [Hn _].
  assert (Hpos : 0 <= retries rs) by (unfold retries; lia).
  pose proof (round_cases _ _ _ _ Hr ltac:(lia)) as Hc. cbv zeta in Hc.
  destruct r; [by left| |by right]. unfold workerQueueRetry in *. lia.
Qed.
End retries.

(** ** Witnesses *)
Module QueueExample.
#[local] Existing Instance plain_data.
#[local] Existing Instance plain_copy.
#[local] Existing Instance CtlExample.texts.
#[local] Existing Instance CtlExample.keys.
#[local] Existing Instance plain_copy_ok.
Definition d : string := "home.domain".
Definition i : Item := ItemString d.
(** A limiter with 250 ms between additions, after the domain was added twice
    or three times. *)
Definition limiter : RateLimiter Item := NewRateLimiter 0 250000000.
Definition twice : RateLimiter Item := l_add 0 i (l_add 0 i limiter).
Definition thrice : RateLimiter Item := l_add 0 i twice.
Lemma retry_round : round CtlExample.u d twice Retried thrice.
Proof.
  exists (CtlExample.refused_round 2 (Ev (QAddRateLimited i) tt)).
  split; [exact CtlExample.retry_exec|]. split; [|reflexivity].
  repeat (eexists; split; [reflexivity|]). eexists; split; [split; reflexivity|].
  eexists; split; [exists 0; reflexivity|]. eexists; split; reflexivity.
Qed.
Lemma give_up_round : round CtlExample.u d thrice GaveUp (l_forget i thrice).
Proof.
  exists (CtlExample.refused_round 3 (Ev (QForget i) tt)).
  split; [exact CtlExample.give_up_exec|]. split; [|reflexivity].
  repeat (eexists; split; [reflexivity|]). eexists; split; [split; reflexivity|].
  eexists; split; [reflexivity|]. eexists; split; reflexivity.
Qed.
End QueueExample.

Example retries_bounded_witness : retries [Retried] <= Z.max 0 (workerQueueRetry - 2).
Proof.
  exact (@retries_bounded plain_data plain_copy plain_copy_ok CtlExample.texts
    (RateLimiter Item) ratelimiter_limiter ratelimiter_laws CtlExample.u QueueExample.d
    QueueExample.twice [Retried] QueueExample.thrice
    (history_round CtlExample.u QueueExample.d QueueExample.twice [] QueueExample.twice Retried _
       (history_start _ _ _) QueueExample.retry_round)
    ltac:(by intros [?|?%elem_of_nil]%elem_of_cons) ltac:(by split)).
Defined.

Example successes_use_up_retries_witness : GaveUp = Succeeded \/ GaveUp = GaveUp.
Proof.
  exact (@successes_use_up_retries plain_data plain_copy plain_copy_ok CtlExample.texts
    (RateLimiter Item) ratelimiter_limiter ratelimiter_laws CtlExample.u QueueExample.d
    QueueExample.thrice [] QueueExample.thrice GaveUp _
    (history_start _ _ _) ltac:(apply not_elem_of_nil) ltac:(by split)
    QueueExample.give_up_round).
Defined.
