(* ===== verification/GoPath.v ===== *)
(** * Go's [strings.Split], [strings.TrimSpace] and [path/filepath] on Unix

    Paths are byte strings with "/" as separator, as on the platforms the
    syncer runs on. *)
From Stdlib Require Import Ascii.
From stdpp Require Import base list strings.
From S2P Require Import Prelude GoStrings.
#[local] Open Scope string_scope.

Abbreviation slash := ("/"%char).

(** [strings.Split(s, sep)] for a separator of one byte. *)
Fixpoint Split (sep : Ascii.ascii) (s : string) : list string :=
  match s with
  | EmptyString => [""]
  | String c s' =>
      if Ascii.eqb c sep then "" :: Split sep s'
      else match Split sep s' with
           | h :: l => String c h :: l
           | [] => [String c ""]
           end
  end.

(** [strings.Join(l, sep)] for a separator of one byte. *)
Fixpoint Join1 (sep : Ascii.ascii) (l : list string) : string :=
  match l with
  | [] => ""
  | [s] => s
  | s :: l' => s +:+ String sep (Join1 sep l')
  end.

(** [unicode.IsSpace] on the bytes of ASCII. *)
Definition is_space (c : Ascii.ascii) : bool :=
  let n := Ascii.nat_of_ascii c in
  ((9 <=? n) && (n <=? 13) || (n =? 32))%nat.

Fixpoint trim_left (s : string) : string :=
  match s with
  | EmptyString => EmptyString
  | String c s' => if is_space c then trim_left s' else s
  end.

Fixpoint trim_right (s : string) : string :=
  match s with
  | EmptyString => EmptyString
  | String c s' =>
      match trim_right s' with
      | EmptyString => if is_space c then EmptyString else String c EmptyString
      | t => String c t
      end
  end.

(** [strings.TrimSpace] on ASCII strings. *)
Definition TrimSpace (s : string) : string := trim_right (trim_left s).

(** ** [filepath] *)

(** One element of a path, read from the left, on the stack of the elements
    kept so far (the last one first). *)
Definition clean_step (rooted : bool) (st : list string) (c : string) : list string :=
  if String.eqb c "" || String.eqb c "." then st
  else if String.eqb c ".." then
    match st with
    | t :: st' => if String.eqb t ".." then c :: st else st'
    | [] => if rooted then [] else [c]
    end
  else c :: st.

Definition clean_elems (rooted : bool) (cs : list string) : list string :=
  rev (fold_left (clean_step rooted) cs []).

(** The path of clean elements. *)
Definition clean_path (rooted : bool) (cs : list string) : string :=
  if rooted then String slash (Join1 slash cs)
  else match cs with [] => "." | _ => Join1 slash cs end.

Definition Clean (path : string) : string :=
  let rooted := HasPrefix path "/" in
  clean_path rooted (clean_elems rooted (Split slash path)).

(** [path[:i+1]] for the index [i] of the last separator. *)
Definition up_to_last (path : string) : string :=
  Join1 slash (removelast (Split slash path) ++ [""]).

Definition Dir (path : string) : string := Clean (up_to_last path).

Fixpoint drop_trailing (l : list string) : list string :=
  match l with "" :: l' => drop_trailing l' | _ => l end.

(** The last element, after trailing separators are dropped. *)
Definition Base (path : string) : string :=
  if String.eqb path "" then "."
  else match drop_trailing (rev (Split slash path)) with
       | s :: _ => s
       | [] => "/"
       end.

(** [filepath.Join(dir, name)]: empty elements are ignored. *)
Definition Join (dir name : string) : string :=
  match List.filter (fun s => negb (String.eqb s "")) [dir; name] with
  | [] => ""
  | l => Clean (Join1 slash l)
  end.

Example Clean_examples :
  map Clean [""; "/"; "a//b/./c/"; "/../a/../../b"; "a/../.."; "/tmp/a.txt"] =
  ["."; "/"; "a/b/c"; "/b"; ".."; "/tmp/a.txt"].
Proof. reflexivity. Qed.
Example Dir_Base_examples :
  map Dir ["/tmp/a.txt"; "a.txt"; "//x"; "/a/b/"] = ["/tmp"; "."; "/"; "/a/b"] /\
  map Base ["/tmp/a.txt"; "a.txt"; "//"; "/a/b/"; ""] = ["a.txt"; "a.txt"; "/"; "b"; "."].
Proof. split; reflexivity. Qed.

(** ** Splitting and joining *)

Lemma Split_not_nil sep s : Split sep s <> [].
Proof. destruct s as [|c s]; [done|]. simpl. destruct (Ascii.eqb c sep); [done|]. by destruct (Split sep s). Qed.

Lemma Join1_cons sep s l : l <> [] -> Join1 sep (s :: l) = s +:+ String sep (Join1 sep l).
Proof. by destruct l. Qed.

Lemma Join1_Split sep s : Join1 sep (Split sep s) = s.
Proof.
  induction s as [|c s IH]; [done|]. simpl. destruct (Ascii.eqb_spec c sep) as [->|Hc].
  - rewrite Join1_cons by apply Split_not_nil. by rewrite IH.
  - pose proof (Split_not_nil sep s) as Hn. destruct (Split sep s) as [|h l]; [done|].
    destruct l as [|h' l].
    + simpl in *. by rewrite IH.
    + rewrite (Join1_cons sep (String c h)) by done. rewrite Join1_cons in IH by done.
      by rewrite string_app_cons, IH.
Qed.

Lemma Split_no_sep sep s : has_byte sep s = false -> Split sep s = [s].
Proof.
  induction s as [|c s IH]; [done|]. simpl. intros [Hc Hs]%orb_false_iff.
  rewrite Ascii.eqb_sym, Hc, IH by done. done.
Qed.

Lemma Split_app sep a b :
  has_byte sep a = false -> Split sep (a +:+ String sep b) = a :: Split sep b.
Proof.
  induction a as [|c a IH]; str_simpl; [by rewrite Ascii.eqb_refl|].
  intros [Hc Ha]%orb_false_iff.
  rewrite Ascii.eqb_sym, Hc, IH by done. done.
Qed.

Lemma Split_Join1 sep l :
  l <> [] -> Forall (fun s => has_byte sep s = false) l -> Split sep (Join1 sep l) = l.
Proof.
  intros Hn Hl. induction Hl as [|s l Hs Hl IH]; [done|]. destruct l as [|s' l].
  - by apply Split_no_sep.
  - rewrite Join1_cons, Split_app, IH by done. done.
Qed.

Lemma Split_Forall sep s : Forall (fun x => has_byte sep x = false) (Split sep s).
Proof.
  induction s as [|c s IH]; [by constructor|]. simpl. destruct (Ascii.eqb c sep) eqn:Hc.
  - by constructor.
  - destruct (Split sep s) as [|h l]; [by repeat constructor; simpl; rewrite Ascii.eqb_sym, Hc|].
    apply Forall_cons in IH as [Hh Hl]. constructor; [|done]. simpl.
    by rewrite Ascii.eqb_sym, Hc.
Qed.

(** ** Clean paths *)
#[local] Open Scope list_scope.

(** An element [Clean] keeps as it is: a name. *)
Definition is_name (s : string) : Prop := s <> "" /\ s <> "." /\ s <> ".." /\ has_byte slash s = false.

(** The elements of a clean path: names, after ".."s in a relative path. *)
Definition clean_list (rooted : bool) (cs : list string) : Prop :=
  exists k names, cs = replicate k ".." ++ names /\ Forall is_name names /\
    (rooted = true -> k = 0%nat).

Lemma is_name_step rooted st c : is_name c -> clean_step rooted st c = c :: st.
Proof.
  intros (H1 & H2 & H3 & _). unfold clean_step.
  by rewrite (proj2 (String.eqb_neq c "")), (proj2 (String.eqb_neq c ".")),
    (proj2 (String.eqb_neq c "..")).
Qed.

Lemma clean_names rooted st cs :
  Forall is_name cs -> fold_left (clean_step rooted) cs st = rev cs ++ st.
Proof.
  intros Hcs. revert st. induction Hcs as [|c cs Hc _ IH]; intros st; [done|].
  simpl. rewrite is_name_step, IH by done. by rewrite <- app_assoc.
Qed.

Lemma clean_dots k st :
  Forall (fun c => c = "..") st -> fold_left (clean_step false) (replicate k "..") st = replicate k ".." ++ st.
Proof.
  revert st. induction k as [|k IH]; intros st Hst; [done|]. simpl.
  assert (Hs : clean_step false st ".." = ".." :: st).
  { unfold clean_step. simpl. destruct Hst as [|t st Ht Hst]; [done|]. by subst t. }
  rewrite Hs, IH by (by constructor). by rewrite app_comm_cons, replicate_cons_app, <- app_assoc.
Qed.

Lemma rev_replicate {A} k (x : A) : rev (replicate k x) = replicate k x.
Proof. induction k as [|k IH]; [done|]. simpl. rewrite IH. symmetry. apply replicate_cons_app. Qed.

(** A clean list is not changed by cleaning. *)
Lemma clean_list_fixed rooted cs : clean_list rooted cs -> clean_elems rooted cs = cs.
Proof.
  intros (k & names & -> & Hn & Hk). unfold clean_elems. rewrite fold_left_app.
  assert (Hd : fold_left (clean_step rooted) (replicate k "..") [] = replicate k "..").
  { destruct rooted; [by rewrite Hk|]. rewrite clean_dots by constructor. apply app_nil_r. }
  rewrite Hd, clean_names, rev_app_distr, rev_involutive by done. by rewrite rev_replicate.
Qed.

Lemma nil_or_snoc {A} (l : list A) : l = [] \/ exists l' x, l = l' ++ [x].
Proof. induction l using rev_ind; eauto. Qed.

(** Reading elements keeps the stack a clean list, in reverse. *)
Lemma clean_step_list rooted st c :
  clean_list rooted (rev st) -> has_byte slash c = false ->
  clean_list rooted (rev (clean_step rooted st c)).
Proof.
  intros Hst Hc. unfold clean_step.
  destruct (String.eqb_spec c ""); [done|]. destruct (String.eqb_spec c "."); [done|].
  cbn [orb]. destruct (String.eqb_spec c "..") as [->|Hd].
  - destruct Hst as (k & names & Hst & Hn & Hk).
    destruct (nil_or_snoc names) as [->|(names' & x & ->)].
    + rewrite app_nil_r in Hst. destruct k as [|k].
      * apply (f_equal (@rev _)) in Hst. rewrite rev_involutive in Hst. subst st.
        destruct rooted; simpl; [by exists 0%nat, []|]. by exists 1%nat, [].
      * assert (Hst' : st = replicate (S k) "..").
        { apply (f_equal (@rev _)) in Hst. rewrite rev_involutive in Hst. rewrite Hst.
          apply rev_replicate. }
        subst st. simpl. exists (S (S k)), []. rewrite app_nil_r. split_and!; [|done|].
        -- exact (rev_replicate (S (S k)) "..").
        -- intros Hr. specialize (Hk Hr). done.
    + apply Forall_app in Hn as [Hn Hx]. apply Forall_cons in Hx as [Hx _].
      rewrite app_assoc in Hst. apply (f_equal (@rev _)) in Hst.
      rewrite rev_involutive, rev_app_distr in Hst. simpl in Hst. subst st.
      destruct Hx as (_ & _ & Hx & _). rewrite (proj2 (String.eqb_neq x "..")) by done.
      rewrite rev_involutive. by exists k, names'.
  - simpl. destruct Hst as (k & names & -> & Hn & Hk). exists k, (names ++ [c]).
    rewrite app_assoc. split_and!; [done| |done]. apply Forall_app. split; [done|].
    by repeat constructor.
Qed.

Lemma clean_elems_list rooted cs :
  Forall (fun c => has_byte slash c = false) cs -> clean_list rooted (clean_elems rooted cs).
Proof.
  intros Hcs. unfold clean_elems.
  assert (Hgen : forall st, clean_list rooted (rev st) ->
    clean_list rooted (rev (fold_left (clean_step rooted) cs st))).
  { induction Hcs as [|c cs Hc _ IH]; intros st Hst; [done|]. apply IH. by apply clean_step_list. }
  apply Hgen. by exists 0%nat, [].
Qed.

(** ** Laws *)

Lemma Split_clean_path rooted cs :
  clean_list rooted cs -> cs <> [] ->
  Split slash (clean_path rooted cs) = if rooted then "" :: cs else cs.
Proof.
  intros Hc Hn.
  assert (Hs : Forall (fun s => has_byte slash s = false) cs).
  { destruct Hc as (k & names & -> & Hnames & _). apply Forall_app. split.
    - apply Forall_replicate. done.
    - eapply Forall_impl; [exact Hnames|]. by intros s (_ & _ & _ & ?). }
  unfold clean_path. destruct rooted.
  - simpl. by rewrite Split_Join1.
  - destruct cs; [done|]. by apply Split_Join1.
Qed.

Lemma rooted_Join1 cs : Forall (fun s => s <> "" /\ has_byte slash s = false) cs ->
  HasPrefix (Join1 slash cs) "/" = false.
Proof.
  intros Hcs. destruct Hcs as [|s cs [Hs Hb] _]; [done|].
  destruct s as [|c s]; [done|]. cbn [has_byte] in Hb. apply orb_false_iff in Hb as [Hb _].
  assert (Hp : forall b, HasPrefix (String c b) "/" = false).
  { intros b. unfold HasPrefix. cbn [String.prefix]. destruct (Ascii.ascii_dec slash c) as [<-|]; [|done].
    by rewrite Ascii.eqb_refl in Hb. }
  destruct cs; [apply Hp|]. rewrite Join1_cons, string_app_cons by done. apply Hp.
Qed.

Lemma clean_list_elems rooted cs :
  clean_list rooted cs -> Forall (fun s => s <> "" /\ has_byte slash s = false) cs.
Proof.
  intros (k & names & -> & Hn & _). apply Forall_app. split; [by apply Forall_replicate|].
  eapply Forall_impl; [exact Hn|]. by intros s (? & _ & _ & ?).
Qed.

(** The clean path of a clean list is clean. *)
Lemma Clean_clean_path rooted cs :
  clean_list rooted cs -> Clean (clean_path rooted cs) = clean_path rooted cs.
Proof.
  intros Hc. destruct (decide (cs = [])) as [->|Hn]; [by destruct rooted|].
  unfold Clean. rewrite Split_clean_path by done.
  assert (Hr : HasPrefix (clean_path rooted cs) "/" = rooted).
  { unfold clean_path. destruct rooted; [by destruct (Join1 slash cs)|].
    destruct cs; [done|]. by apply rooted_Join1, (clean_list_elems false). }
  rewrite Hr. destruct rooted; [|by rewrite clean_list_fixed].
  change (clean_elems true ("" :: cs)) with (clean_elems true cs). by rewrite clean_list_fixed.
Qed.

Lemma Clean_idemp p : Clean (Clean p) = Clean p.
Proof. unfold Clean at 2 3. apply Clean_clean_path, clean_elems_list, Split_Forall. Qed.

Lemma Clean_Dir p : Clean (Dir p) = Dir p.
Proof. apply Clean_idemp. Qed.

Lemma Split_entry d n :
  has_byte slash n = false -> Split slash (d +:+ String slash n) = Split slash d ++ [n].
Proof.
  intros Hn. induction d as [|c d IH]; str_simpl; [by rewrite Split_no_sep|].
  destruct (Ascii.eqb c slash); [by rewrite IH|]. rewrite IH.
  pose proof (Split_not_nil slash d). by destruct (Split slash d).
Qed.

(** The directory and the name of a file of a directory, as the operating
    system's events name it. *)
Lemma Dir_entry d n : has_byte slash n = false -> Dir (d +:+ String slash n) = Clean (d +:+ "/").
Proof.
  intros Hn. unfold Dir, up_to_last. f_equal.
  rewrite Split_entry, removelast_last by done.
  transitivity (Join1 slash (Split slash d) +:+ "/"); [|by rewrite Join1_Split].
  pose proof (Split_not_nil slash d) as Hne. induction (Split slash d) as [|s l IH]; [done|].
  destruct l as [|s' l]; [done|]. change ((s :: s' :: l) ++ [""]) with (s :: ((s' :: l) ++ [""])).
  rewrite (Join1_cons _ s ((s' :: l) ++ [""])), IH, (Join1_cons _ s (s' :: l)) by done.
  clear. induction s as [|c s IHs]; [done|]. rewrite !string_app_cons. f_equal. exact IHs.
Qed.

Lemma Base_entry d n : n <> "" -> has_byte slash n = false -> Base (d +:+ String slash n) = n.
Proof.
  intros Hne Hn. unfold Base.
  rewrite Split_entry, rev_app_distr by done. simpl.
  destruct (String.eqb_spec (d +:+ String slash n) "") as [He|_]; [by destruct d|].
  by destruct n.
Qed.

(** A trailing separator does not matter. *)
Lemma Clean_slash d : d <> "" -> Clean (d +:+ "/") = Clean d.
Proof.
  intros Hd. unfold Clean.
  assert (Hr : HasPrefix (d +:+ "/") "/" = HasPrefix d "/").
  { destruct d as [|c d]; [done|]. rewrite string_app_cons. unfold HasPrefix. cbn [String.prefix].
    destruct (Ascii.ascii_dec slash c); [|done]. by destruct d. }
  rewrite Hr, (Split_entry d "") by done. f_equal. unfold clean_elems.
  by rewrite fold_left_app.
Qed.

Lemma Clean_not_empty p : Clean p <> "".
Proof.
  unfold Clean, clean_path. destruct (HasPrefix p "/"); [done|].
  pose proof (clean_list_elems _ _ (clean_elems_list false _ (Split_Forall slash p))) as Hc.
  destruct Hc as [|s cs [Hs _] _]; [done|]. destruct cs; [done|].
  rewrite Join1_cons by done. by destruct s.
Qed.

(** The entry [n] of a directory [Dir p]. *)
Lemma Dir_of_entry p n : has_byte slash n = false -> Dir (Dir p +:+ String slash n) = Dir p.
Proof.
  intros Hn. rewrite Dir_entry by done. rewrite Clean_slash by apply Clean_not_empty.
  apply Clean_Dir.
Qed.
