(* ===== verification/GoFloat.v ===== *)
(** * Go's float64, as far as the code computes with it

    A nonnegative float64 is a fraction with a positive denominator.
    [float64 n d] is the float64 nearest to [n / d], ties to even, for
    fractions in the range of normal numbers. *)
From stdpp Require Import base numbers.
From S2P Require Import Prelude.
#[local] Open Scope Z_scope.

Definition float_exponent (n d : Z) : Z :=
  let k := Z.log2 n - Z.log2 d - 52 in
  if n * 2 ^ Z.max 0 (- k) <? 2 ^ 52 * (d * 2 ^ Z.max 0 k) then k - 1 else k.

Definition round_half_even (n d : Z) : Z :=
  let q := n `div` d in
  let r := n `mod` d in
  if 2 * r <? d then q else if d <? 2 * r then q + 1 else if Z.even q then q else q + 1.

Definition float64 (n d : Z) : Z * Z :=
  if n =? 0 then (0, 1)
  else
    let k := float_exponent n d in
    let m := round_half_even (n * 2 ^ Z.max 0 (- k)) (d * 2 ^ Z.max 0 k) in
    (m * 2 ^ Z.max 0 k, 2 ^ Z.max 0 (- k)).

Lemma round_half_even_bounds n d :
  0 < d -> n `div` d <= round_half_even n d <= - ((- n) `div` d).
Proof.
  intros Hd. unfold round_half_even. pose proof (Z.mod_pos_bound n d Hd) as Hr.
  pose proof (Z.div_mod n d ltac:(lia)) as Hq.
  assert (Hc : n `mod` d = 0 /\ (- n) `div` d = - (n `div` d) \/
               0 < n `mod` d /\ (- n) `div` d = - (n `div` d) - 1).
  { destruct (Z.eq_dec (n `mod` d) 0) as [H0|H0]; [left|right]; (split; [lia|]).
    - by apply Z.div_opp_l_z; [lia|].
    - apply Z.div_opp_l_nz; lia. }
  destruct (Z.ltb_spec (2 * (n `mod` d)) d); [lia|].
  destruct (Z.ltb_spec d (2 * (n `mod` d))); [lia|]. destruct (Z.even _); lia.
Qed.

(** Rounding does not cross an integer. *)
Lemma float64_between n d lo hi :
  0 <= n -> 0 < d -> 0 <= lo -> lo * d <= n <= hi * d -> hi < 2 ^ 52 ->
  let '(n', d') := float64 n d in 0 < d' /\ lo * d' <= n' <= hi * d'.
Proof.
  intros Hn Hd Hlo Hb Hhi. unfold float64.
  destruct (Z.eqb_spec n 0) as [->|Hn0]; [nia|].
  assert (Hlog : Z.log2 n <= Z.log2 d + 52).
  { destruct (Z.log2_spec d ltac:(lia)) as [_ Hd2]. apply Z.lt_succ_r.
    apply Z.log2_lt_pow2; [lia|].
    replace (Z.succ (Z.log2 d + 52)) with (52 + Z.succ (Z.log2 d)) by lia.
    rewrite Z.pow_add_r by (pose proof (Z.log2_nonneg d); lia). nia. }
  assert (Hk : float_exponent n d <= 0).
  { unfold float_exponent. destruct (_ <? _); lia. }
  rewrite (Z.max_l 0 (float_exponent n d)) by lia. rewrite Z.max_r by lia.
  change (2 ^ 0) with 1. rewrite !Z.mul_1_r.
  set (p := 2 ^ (- float_exponent n d)).
  assert (Hp : 0 < p) by (apply Z.pow_pos_nonneg; lia). split; [done|].
  pose proof (round_half_even_bounds (n * p) d Hd) as [Hl Hu].
  assert (Hql : lo * p <= (n * p) `div` d) by (apply Z.div_le_lower_bound; nia).
  assert (Hqu : - (hi * p) <= (- (n * p)) `div` d) by (apply Z.div_le_lower_bound; nia).
  lia.
Qed.
