(* ===== verification/GoDuration.v ===== *)
(** * Go's [time.ParseDuration]

    As in Go 1.22, over unsigned 64-bit integers, with the fractions in
    float64.  The texts of the errors are left out beyond their kind. *)
From Stdlib Require Import Ascii.
From stdpp Require Import base numbers list strings.
From S2P Require Import Prelude GoStrings GoTime GoFloat.
#[local] Open Scope string_scope.
#[local] Open Scope Z_scope.

(** Arithmetic on [uint64]. *)
Definition wrapu64 (z : Z) : Z := z `mod` 2 ^ 64.

Lemma wrapu64_id z : 0 <= z < 2 ^ 64 -> wrapu64 z = z.
Proof. apply Z.mod_small. Qed.

Definition is_digit (c : ascii) : bool :=
  let n := Z.of_nat (nat_of_ascii c) in (48 <=? n) && (n <=? 57).
Definition digit_value (c : ascii) : Z := Z.of_nat (nat_of_ascii c) - 48.

(** [leadingInt] from the value [x] read so far; [None] is its error. *)
Fixpoint leadingInt (x : Z) (s : string) : option (Z * string) :=
  match s with
  | String c s' =>
      if is_digit c then
        if 2 ^ 63 / 10 <? x then None
        else
          let x := wrapu64 (x * 10 + digit_value c) in
          if 2 ^ 63 <? x then None else leadingInt x s'
      else Some (x, s)
  | EmptyString => Some (x, s)
  end.

(** [leadingFraction]: the digits, their scale (a power of ten below [10^22],
    which float64 has exactly), and the rest; digits that no longer fit are
    skipped. *)
Fixpoint leadingFraction (x scale : Z) (overflow : bool) (s : string) : Z * Z * string :=
  match s with
  | String c s' =>
      if is_digit c then
        if overflow then leadingFraction x scale overflow s'
        else if (2 ^ 63 - 1) / 10 <? x then leadingFraction x scale true s'
        else
          let y := wrapu64 (x * 10 + digit_value c) in
          if 2 ^ 63 <? y then leadingFraction x scale true s'
          else leadingFraction y (scale * 10) overflow s'
      else (x, scale, s)
  | EmptyString => (x, scale, s)
  end.

(** The unit: everything up to a period or a digit. *)
Fixpoint span_unit (s : string) : string * string :=
  match s with
  | String c s' =>
      if Ascii.eqb c "." || is_digit c then ("", s)
      else let '(u, r) := span_unit s' in (String c u, r)
  | EmptyString => ("", "")
  end.

(** The letter of the microsecond comes in two encodings, U+00B5 and U+03BC. *)
Definition unitMap (u : string) : option Z :=
  if String.eqb u "ns" then Some 1
  else if String.eqb u "us" || String.eqb u (String "194" (String "181" "s"))
          || String.eqb u (String "206" (String "188" "s")) then Some 1000
  else if String.eqb u "ms" then Some 1000000
  else if String.eqb u "s" then Some 1000000000
  else if String.eqb u "m" then Some (60 * 1000000000)
  else if String.eqb u "h" then Some (3600 * 1000000000)
  else None.

Inductive DurationError := InvalidDuration | MissingUnit | UnknownUnit.

(** [uint64(float64(f) * (float64(unit) / scale))] *)
Definition fraction (f unit scale : Z) : Z :=
  let '(a, b) := float64 f 1 in
  let '(c, d) := float64 unit scale in
  let '(n, m) := float64 (a * c) (b * d) in
  n `div` m.

(** The unit after a number, and the value with it. *)
Definition parse_unit (v f scale : Z) (s : string) : Z * string + DurationError :=
  let '(u, s) := span_unit s in
  if String.eqb u "" then inr MissingUnit
  else
    match unitMap u with
    | None => inr UnknownUnit
    | Some unit =>
        if 2 ^ 63 / unit <? v then inr InvalidDuration
        else
          let v := wrapu64 (v * unit) in
          if 0 <? f then
            let v := wrapu64 (v + fraction f unit scale) in
            if 2 ^ 63 <? v then inr InvalidDuration else inl (v, s)
          else inl (v, s)
    end.

(** One round of the loop: a number and its unit. *)
Definition parse_term (s : string) : Z * string + DurationError :=
  match s with
  | String c _ =>
      if negb (Ascii.eqb c "." || is_digit c) then inr InvalidDuration
      else
        match leadingInt 0 s with
        | None => inr InvalidDuration
        | Some (v, s1) =>
            let pre := negb (String.length s1 =? String.length s)%nat in
            let '(f, scale, s2, post) :=
              match s1 with
              | String c s' =>
                  if Ascii.eqb c "." then
                    let '(f, scale, s2) := leadingFraction 0 1 false s' in
                    (f, scale, s2, negb (String.length s' =? String.length s2)%nat)
                  else (0, 1, s1, false)
              | EmptyString => (0, 1, s1, false)
              end in
            if negb pre && negb post then inr InvalidDuration
            else parse_unit v f scale s2
        end
  | EmptyString => inr InvalidDuration
  end.

(** The loop; [None] when the fuel runs out. *)
Fixpoint parse_terms (fuel : nat) (d : Z) (s : string) : option (Z + DurationError) :=
  match s, fuel with
  | EmptyString, _ => Some (inl d)
  | _, O => None
  | _, S fuel =>
      match parse_term s with
      | inr e => Some (inr e)
      | inl (v, s') =>
          let d := wrapu64 (d + v) in
          if 2 ^ 63 <? d then Some (inr InvalidDuration) else parse_terms fuel d s'
      end
  end.

Definition ParseDuration (s : string) : Z + DurationError :=
  let '(neg, s) :=
    match s with
    | String c s' =>
        if Ascii.eqb c "-" || Ascii.eqb c "+" then (Ascii.eqb c "-", s') else (false, s)
    | EmptyString => (false, s)
    end in
  if String.eqb s "0" then inl 0
  else if String.eqb s "" then inr InvalidDuration
  else
    match parse_terms (String.length s) 0 s with
    | Some (inl d) =>
        if (neg : bool) then inl (wrap64 (- wrap64 d))
        else if 2 ^ 63 - 1 <? d then inr InvalidDuration else inl d
    | Some (inr e) => inr e
    | None => inr InvalidDuration
    end.

Example ParseDuration_examples :
  map ParseDuration ["1m0s"; "1h0m0s"; "250ms"; "1.5h"; "-1.5s"; ".5us"; "0"; "-0"; "+5ns"]
  = [inl 60000000000; inl 3600000000000; inl 250000000; inl 5400000000000; inl (-1500000000);
     inl 500; inl 0; inl 0; inl 5] /\
  map ParseDuration [""; "3"; "s"; ".s"; "1x"; "9223372036854775808ns"; "1 s"; "--1s"]
  = [inr InvalidDuration; inr MissingUnit; inr InvalidDuration; inr InvalidDuration;
     inr UnknownUnit; inr InvalidDuration; inr UnknownUnit; inr InvalidDuration] /\
  ParseDuration "-9223372036854775808ns" = inl min_int64.
Proof. vm_compute. auto. Qed.

(** The one sum the overflow check does not notice: twice [2^63]. *)
Example ParseDuration_wraps :
  ParseDuration "9223372036854775808ns9223372036854775808ns" = inl 0.
Proof. vm_compute. reflexivity. Qed.

(** ** Numbers written with [pad] *)

Lemma is_digit_digit n : 0 <= n < 10 -> is_digit (digit n) = true /\ digit_value (digit n) = n.
Proof.
  intros Hn. unfold is_digit, digit_value, digit. rewrite nat_ascii_embedding by lia.
  rewrite Nat2Z.inj_add, Z2Nat.id by lia. change (Z.of_nat 48) with 48.
  split; [apply andb_true_iff|]; lia.
Qed.

(** A text a number can end before. *)
Definition digitless (s : string) : bool :=
  match s with String c _ => negb (is_digit c) | EmptyString => true end.

Lemma leadingInt_stop x s : digitless s = true -> leadingInt x s = Some (x, s).
Proof. destruct s as [|c s]; [done|]. simpl. by intros ->%negb_true_iff. Qed.

Lemma leadingInt_pad x w n s :
  0 <= x <= 2 ^ 63 -> 0 <= n < 10 ^ Z.of_nat w ->
  leadingInt x (pad w n +:+ s) =
  if x * 10 ^ Z.of_nat w + n <=? 2 ^ 63 then leadingInt (x * 10 ^ Z.of_nat w + n) s else None.
Proof.
  revert x n s. induction w as [|w IH]; intros x n s Hx Hn.
  { simpl in Hn. change (10 ^ Z.of_nat 0) with 1. replace (x * 1 + n) with x by lia.
    rewrite (proj2 (Z.leb_le x (2 ^ 63))) by lia. reflexivity. }
  rewrite Nat2Z.inj_succ, Z.pow_succ_r in * by lia. cbn [pad]. rewrite string_app_assoc.
  pose proof (Z.div_mod n 10 ltac:(lia)) as Hq. pose proof (Z.mod_pos_bound n 10 ltac:(lia)) as Hr.
  rewrite IH; [|done|split; [apply Z.div_pos|apply Z.div_lt_upper_bound]; lia].
  set (y := x * 10 ^ Z.of_nat w + n `div` 10).
  replace (x * (10 * 10 ^ Z.of_nat w) + n) with (y * 10 + n `mod` 10) by (subst y; lia).
  assert (0 <= y) as Hy by (subst y; pose proof (Z.pow_pos_nonneg 10 (Z.of_nat w) ltac:(lia) ltac:(lia));
    pose proof (Z.div_pos n 10 ltac:(lia) ltac:(lia)); nia).
  destruct (is_digit_digit (n `mod` 10) Hr) as [Hd Hv].
  change (String (digit (n `mod` 10)) "" +:+ s) with (String (digit (n `mod` 10)) s).
  cbn [leadingInt]. rewrite Hd, Hv.
  destruct (Z.leb_spec y (2 ^ 63)), (Z.leb_spec (y * 10 + n `mod` 10) (2 ^ 63)); try lia; [| |done].
  - rewrite (proj2 (Z.ltb_ge _ _)) by (apply Z.div_le_lower_bound; lia).
    rewrite wrapu64_id by lia. by rewrite (proj2 (Z.ltb_ge _ _)) by lia.
  - destruct (Z.ltb_spec (2 ^ 63 / 10) y) as [|Hle]; [done|].
    assert (y * 10 <= 2 ^ 63).
    { pose proof (Z.mul_div_le (2 ^ 63) 10 ltac:(lia)). lia. }
    rewrite wrapu64_id by lia. by rewrite (proj2 (Z.ltb_lt _ _)) by lia.
Qed.

Lemma pad_head w n s :
  (0 < w)%nat -> 0 <= n -> exists c r, pad w n +:+ s = String c r /\ is_digit c = true.
Proof.
  revert n s. induction w as [|w IH]; intros n s Hw Hn; [lia|]. cbn [pad]. rewrite string_app_assoc.
  destruct w as [|w].
  - exists (digit (n `mod` 10)), s. split; [done|]. apply is_digit_digit, Z.mod_pos_bound. lia.
  - apply IH; [lia|]. apply Z.div_pos; lia.
Qed.

(** ** Texts without fractions *)

Inductive Unit := UNs | UUs | UMs | US | UM | UH.
Definition unit_text (u : Unit) : string :=
  match u with UNs => "ns" | UUs => "us" | UMs => "ms" | US => "s" | UM => "m" | UH => "h" end.
Definition nanos (u : Unit) : Z :=
  match u with
  | UNs => 1 | UUs => 1000 | UMs => 1000000 | US => 1000000000
  | UM => 60 * 1000000000 | UH => 3600 * 1000000000
  end.

(** A number, written with some count of digits, and a unit. *)
Record Term := mkTerm { t_width : nat; t_number : Z; t_unit : Unit }.
Definition term_ok (t : Term) : Prop :=
  (0 < t_width t)%nat /\ 0 <= t_number t < 10 ^ Z.of_nat (t_width t).
Definition term_value (t : Term) : Z := t_number t * nanos (t_unit t).
Definition term_text (t : Term) : string := pad (t_width t) (t_number t) +:+ unit_text (t_unit t).

Fixpoint render (l : list Term) : string :=
  match l with [] => "" | t :: l' => term_text t +:+ render l' end.
Fixpoint total (l : list Term) : Z :=
  match l with [] => 0 | t :: l' => term_value t + total l' end.

Lemma unitMap_text u : unitMap (unit_text u) = Some (nanos u).
Proof. by destruct u. Qed.

(** The rest of a text starts with a digit, if it is not over. *)
Definition starts_number (s : string) : Prop :=
  match s with String c _ => is_digit c = true | EmptyString => True end.

Lemma span_unit_text u s : starts_number s -> span_unit (unit_text u +:+ s) = (unit_text u, s).
Proof.
  intros Hs. assert (span_unit s = ("", s)) as He.
  { destruct s as [|c s]; [done|]. simpl in *. by rewrite Hs, orb_true_r. }
  destruct u; cbn [unit_text]; str_simpl; by rewrite He.
Qed.

Lemma render_starts l : Forall term_ok l -> starts_number (render l).
Proof.
  destruct 1 as [|[w n u] l [Hw [Hn _]] _]; [done|]. cbn [render]. unfold term_text.
  rewrite string_app_assoc. cbn [t_width t_number t_unit] in *.
  destruct (pad_head w n (unit_text u +:+ render l) Hw Hn) as (c & r & -> & Hc). exact Hc.
Qed.

Lemma unit_first u s : exists c r, unit_text u +:+ s = String c r /\ is_digit c = false /\ c <> "."%char.
Proof. destruct u; cbn [unit_text]; str_simpl; eexists _, _; (split; [reflexivity|]); by split. Qed.

Lemma parse_term_text t s :
  term_ok t -> starts_number s ->
  parse_term (term_text t +:+ s) =
  if term_value t <=? 2 ^ 63 then inl (term_value t, s) else inr InvalidDuration.
Proof.
  destruct t as [w n u]. intros [Hw Hn] Hs. cbn [t_width t_number] in *.
  unfold term_text, term_value. cbn [t_width t_number t_unit]. rewrite string_app_assoc.
  assert (0 < nanos u) as Hu by by destruct u.
  destruct (pad_head w n (unit_text u +:+ s) Hw ltac:(lia)) as (c & r & Heq & Hc).
  destruct (unit_first u s) as (c' & r' & Hr' & Hc' & Hdot).
  pose proof (leadingInt_pad 0 w n (unit_text u +:+ s) ltac:(lia) Hn) as Hli.
  rewrite (leadingInt_stop _ (unit_text u +:+ s)) in Hli by (rewrite Hr'; simpl; by rewrite Hc').
  change (0 * 10 ^ Z.of_nat w + n) with n in Hli.
  assert (Hlen : (String.length (unit_text u +:+ s) < String.length (String c r))%nat).
  { rewrite <- Heq, (string_length_app (pad w n)), pad_length. lia. }
  rewrite Heq in Hli |- *. unfold parse_term. rewrite Hc, orb_true_r. cbn [negb]. rewrite Hli.
  destruct (Z.leb_spec n (2 ^ 63)).
  2:{ rewrite (proj2 (Z.leb_gt _ _)) by nia. done. }
  rewrite (proj2 (Nat.eqb_neq _ _)) by lia. cbn [negb andb].
  assert (Ascii.eqb c' "." = false) as Hne by by apply Ascii.eqb_neq.
  rewrite Hr', Hne, <- Hr'. unfold parse_unit. rewrite (span_unit_text u s Hs), unitMap_text.
  assert (String.eqb (unit_text u) "" = false) as -> by by destruct u.
  destruct (Z.leb_spec (n * nanos u) (2 ^ 63)).
  - rewrite (proj2 (Z.ltb_ge _ _)) by (apply Z.div_le_lower_bound; lia).
    change (0 <? 0) with false. cbv iota.
    by rewrite wrapu64_id by (split; [apply Z.mul_nonneg_nonneg|]; lia).
  - by rewrite (proj2 (Z.ltb_lt _ _)) by (apply Z.div_lt_upper_bound; lia).
Qed.

(** ** The whole text *)

Lemma total_nonneg l : Forall term_ok l -> 0 <= total l.
Proof.
  induction 1 as [|t l [_ [? _]] _ IH]; simpl; [done|].
  unfold term_value. destruct (t_unit t); simpl; lia.
Qed.

Lemma parse_terms_render fuel d l :
  0 <= d <= 2 ^ 63 -> Forall term_ok l -> Forall (fun t => term_value t <> 2 ^ 63) l ->
  (String.length (render l) <= fuel)%nat ->
  parse_terms fuel d (render l) =
  Some (if d + total l <=? 2 ^ 63 then inl (d + total l) else inr InvalidDuration).
Proof.
  intros Hd Hok Hne. revert fuel d Hd. induction l as [|t l IH]; intros fuel d Hd Hf.
  { cbn [render total]. rewrite Z.add_0_r, (proj2 (Z.leb_le _ _)) by lia. by destruct fuel. }
  apply Forall_cons in Hok as [Ht Hok], Hne as [Hn Hne]. cbn [render total].
  destruct (pad_head (t_width t) (t_number t) (unit_text (t_unit t) +:+ render l)
    (proj1 Ht) (proj1 (proj2 Ht))) as (c & r & Heq & _).
  assert (term_text t +:+ render l = String c r) as Hs by by unfold term_text; rewrite string_app_assoc.
  assert (0 <= term_value t) by (destruct Ht as [_ [? _]]; unfold term_value; destruct (t_unit t); simpl; lia).
  pose proof (total_nonneg l Hok) as Htot.
  destruct fuel as [|fuel]; [cbn [render] in Hf; rewrite Hs in Hf; simpl in Hf; lia|].
  assert (Hlen : (String.length (render l) <= fuel)%nat).
  { cbn [render] in Hf. unfold term_text in Hf. rewrite !string_length_app, pad_length in Hf.
    destruct Ht as [Hw _]. lia. }
  pose proof (parse_term_text t (render l) Ht (render_starts l Hok)) as Hp.
  rewrite Hs in Hp |- *. cbn [parse_terms]. rewrite Hp.
  destruct (Z.leb_spec (term_value t) (2 ^ 63)).
  2:{ by rewrite (proj2 (Z.leb_gt _ _)) by lia. }
  rewrite wrapu64_id by lia. destruct (Z.ltb_spec (2 ^ 63) (d + term_value t)).
  - by rewrite (proj2 (Z.leb_gt _ _)) by lia.
  - rewrite IH by (done || lia). by rewrite Z.add_assoc.
Qed.

(** A sum of numbers with units is parsed exactly when it fits, negated with a
    sign before it. *)
Lemma ParseDuration_terms l :
  l <> [] -> Forall term_ok l -> Forall (fun t => term_value t <> 2 ^ 63) l ->
  ParseDuration (render l) =
    (if total l <=? max_int64 then inl (total l) else inr InvalidDuration) /\
  ParseDuration ("-" +:+ render l) =
    (if total l <=? 2 ^ 63 then inl (- total l) else inr InvalidDuration).
Proof.
  intros Hl Hok Hne. pose proof (parse_terms_render (String.length (render l)) 0 l
    ltac:(lia) Hok Hne ltac:(lia)) as Hp. rewrite Z.add_0_l in Hp.
  assert (exists c r, render l = String c r /\ is_digit c = true /\ (1 <= String.length r)%nat)
    as (c & r & Hs & Hc & Hr).
  { destruct Hok as [|t l [Hw [Hn _]] _]; [done|]. cbn [render].
    unfold term_text. rewrite string_app_assoc.
    destruct (pad_head (t_width t) (t_number t) (unit_text (t_unit t) +:+ render l) Hw Hn)
      as (c & r & Heq & Hc).
    exists c, r. split_and!; [done..|]. apply (f_equal String.length) in Heq. simpl in Heq.
    rewrite !string_length_app, pad_length in Heq.
    assert (1 <= String.length (unit_text (t_unit t)))%nat by (destruct (t_unit t); simpl; lia). lia. }
  assert (Ascii.eqb c "-" = false /\ Ascii.eqb c "+" = false) as [Hm Hplus].
  { split; apply Ascii.eqb_neq; intros ->; discriminate Hc. }
  assert (String.eqb (String c r) "0" = false) as H0.
  { apply String.eqb_neq. intros [= _ ->]. simpl in Hr. lia. }
  unfold ParseDuration. rewrite string_app_cons, string_app_empty. rewrite Hs in Hp |- *.
  rewrite Hm, Hplus. cbn [orb]. change (Ascii.eqb "-" "-") with true. cbn [orb].
  rewrite H0, Hp. change (String.eqb (String c r) "") with false. cbv iota.
  pose proof (total_nonneg l Hok).
  unfold max_int64. split.
  - destruct (Z.leb_spec (total l) (2 ^ 63)), (Z.leb_spec (total l) (2 ^ 63 - 1)); try lia;
      destruct (Z.ltb_spec (2 ^ 63 - 1) (total l)); (done || lia).
  - destruct (Z.leb_spec (total l) (2 ^ 63)); [|done]. f_equal.
    unfold wrap64. Z.div_mod_to_equations. lia.
Qed.

(** Whatever is accepted is an [int64]. *)
Lemma parse_terms_range fuel d s d' :
  0 <= d <= 2 ^ 63 -> parse_terms fuel d s = Some (inl d') -> 0 <= d' <= 2 ^ 63.
Proof.
  revert d s. induction fuel as [|fuel IH]; intros d [|c s] Hd; cbn [parse_terms]; try by intros [= <-].
  destruct (parse_term (String c s)) as [[v s']|e]; [|done].
  destruct (Z.ltb_spec (2 ^ 63) (wrapu64 (d + v))); [done|]. apply IH.
  split; [|done]. apply Z.mod_pos_bound. lia.
Qed.

Lemma ParseDuration_range s d : ParseDuration s = inl d -> in_int64 d.
Proof.
  unfold ParseDuration. destruct (match s with String _ _ => _ | _ => _ end) as [neg s'].
  assert (in_int64 0) by by split.
  destruct (String.eqb s' "0"); [by intros [= <-]|]. destruct (String.eqb s' ""); [done|].
  destruct (parse_terms _ 0 s') as [[d'|e]|] eqn:Hp; [|done..].
  apply parse_terms_range in Hp; [|lia]. destruct neg.
  - intros [= <-]. apply wrap64_range.
  - destruct (Z.ltb_spec (2 ^ 63 - 1) d'); [done|]. intros [= <-].
    unfold in_int64, min_int64, max_int64. lia.
Qed.

(** The fuel is enough: every round reads at least one byte. *)
Lemma leadingInt_length x s v s' :
  leadingInt x s = Some (v, s') -> (String.length s' <= String.length s)%nat.
Proof.
  revert x. induction s as [|c s IH]; intros x; simpl; [by intros [= _ <-]|].
  destruct (is_digit c); [|by intros [= _ <-]].
  destruct (_ <? x); [done|]. destruct (_ <? wrapu64 _); [done|]. intros ?%IH. lia.
Qed.

Lemma leadingFraction_length x sc o s :
  (String.length (leadingFraction x sc o s).2 <= String.length s)%nat.
Proof.
  revert x sc o. induction s as [|c s IH]; intros x sc o; simpl; [done|].
  destruct (is_digit c); [|done].
  destruct o; [by apply Nat.le_le_succ_r|].
  repeat case_match; by apply Nat.le_le_succ_r.
Qed.

Lemma span_unit_length s :
  (String.length (span_unit s).1 + String.length (span_unit s).2 = String.length s)%nat.
Proof.
  induction s as [|c s IH]; simpl; [done|]. destruct (_ || _); [done|].
  destruct (span_unit s). simpl in *. lia.
Qed.

Lemma parse_unit_length v f scale s v' s' :
  parse_unit v f scale s = inl (v', s') -> (String.length s' < String.length s)%nat.
Proof.
  unfold parse_unit. pose proof (span_unit_length s) as Hs. destruct (span_unit s) as [u s3]. simpl in Hs.
  destruct u as [|cu u]; [done|]. simpl in Hs. change (String.eqb (String cu u) "") with false.
  destruct (unitMap _); [|done]. destruct (_ <? v); [done|]. cbv zeta.
  assert (String.length s3 < String.length s)%nat by lia.
  destruct (0 <? f); [destruct (_ <? wrapu64 _); [done|]|]; by intros [= _ <-].
Qed.

Lemma parse_term_length s v s' :
  parse_term s = inl (v, s') -> (String.length s' < String.length s)%nat.
Proof.
  unfold parse_term. destruct s as [|c s]; [done|]. destruct (negb _); [done|].
  destruct (leadingInt 0 (String c s)) as [[v1 s1]|] eqn:Hl; [|done].
  apply leadingInt_length in Hl. generalize dependent (String c s). intros s0 Hl.
  assert (Hm : forall f scale s2 post, (String.length s2 <= String.length s0)%nat ->
    (if negb (negb (String.length s1 =? String.length s0)%nat) && negb post
     then inr InvalidDuration else parse_unit v1 f scale s2) = inl (v, s') ->
    (String.length s' < String.length s0)%nat).
  { intros f scale s2 post H2. destruct (_ && _); [done|]. intros ?%parse_unit_length. lia. }
  destruct s1 as [|c1 s1']; [apply (Hm 0 1 "" false); simpl; lia|].
  destruct (Ascii.eqb c1 "."); [|by apply (Hm 0 1 _ false)].
  pose proof (leadingFraction_length 0 1 false s1') as Hf.
  destruct (leadingFraction 0 1 false s1') as [[f scale] s2]. simpl in Hf.
  apply Hm. simpl in Hl. lia.
Qed.

Lemma parse_terms_fuel fuel d s :
  (String.length s <= fuel)%nat -> parse_terms fuel d s <> None.
Proof.
  revert d s. induction fuel as [|fuel IH]; intros d [|c s] Hf; cbn [parse_terms]; try done;
    [simpl in Hf; lia|].
  destruct (parse_term (String c s)) as [[v s']|e] eqn:Hp; [|done].
  apply parse_term_length in Hp. destruct (_ <? wrapu64 _); [done|]. apply IH. simpl in *. lia.
Qed.
