(* ===== verification/GoFlag.v ===== *)
(** * Go's flag package

    [FlagSet.Parse] and what it is used with here, as in Go 1.22: string and
    bool flags, and flags other packages define, of which only whether they
    take a text is known.  The usage text is left out. *)
From Stdlib Require Import Ascii.
From stdpp Require Import base list strings gmap.
From S2P Require Import Prelude GoStrings.
#[local] Open Scope string_scope.

(** The value of a flag; of one defined elsewhere, the texts it was set to. *)
Inductive Value :=
| VString (s : string)
| VBool (b : bool)
| VOther (isBool : bool) (texts : list string).
#[global] Instance Value_dec : EqDecision Value.
Proof. solve_decision. Defined.

Abbreviation FlagSet := (gmap string Value).

(** [strconv.ParseBool] *)
Definition ParseBool (s : string) : option bool :=
  if bool_decide (s ∈ ["1"; "t"; "T"; "TRUE"; "true"; "True"]) then Some true
  else if bool_decide (s ∈ ["0"; "f"; "F"; "FALSE"; "false"; "False"]) then Some false
  else None.

Definition IsBoolFlag (v : Value) : bool :=
  match v with VString _ => false | VBool _ => true | VOther b _ => b end.

(** [name[:i]] and [name[i+1:]] at the first "=". *)
Fixpoint cut_eq (s : string) : string * option string :=
  match s with
  | EmptyString => ("", None)
  | String c s' =>
      if Ascii.eqb c "=" then ("", Some s')
      else let '(n, v) := cut_eq s' in (String c n, v)
  end.

Inductive ParseError :=
| ErrHelp
| BadSyntax (arg : string)
| NotDefined (name : string)
| InvalidBool (value name : string)
| InvalidBoolFlag (name : string)
| NeedsArgument (name : string)
| InvalidValue (value name : string).

(** What [parseOne] does: it has seen a flag, is at the end of the flags, or
    fails. *)
Inductive One :=
| Seen (f : FlagSet) (args : list string)
| Stop
| Failed (e : ParseError).

(** [FlagSet.Var]; [None] is its panic. *)
Definition Var (f : FlagSet) (nv : string * Value) : option FlagSet :=
  if HasPrefix nv.1 "-" then None
  else if has_byte "=" nv.1 then None
  else match f !! nv.1 with
       | Some _ => None
       | None => Some (<[nv.1 := nv.2]> f)
       end.
Fixpoint Vars (l : list (string * Value)) (f : FlagSet) : option FlagSet :=
  match l with
  | [] => Some f
  | nv :: l' => f ← Var f nv; Vars l' f
  end.

Lemma Var_lookup f nv g :
  Var f nv = Some g -> f !! nv.1 = None /\ g = <[nv.1 := nv.2]> f.
Proof.
  unfold Var. destruct (HasPrefix _ _); [done|]. destruct (has_byte _ _); [done|].
  destruct (f !! nv.1); [done|]. by intros [= <-].
Qed.

Lemma Vars_lookup l f g :
  Vars l f = Some g ->
  (forall n v, (n, v) ∈ l -> g !! n = Some v) /\ (forall n v, f !! n = Some v -> g !! n = Some v).
Proof.
  revert f. induction l as [|nv l IH]; intros f; simpl.
  { intros [= <-]. split; [|done]. by intros n v ?%elem_of_nil. }
  destruct (Var f nv) as [f'|] eqn:Hv; [|done]. simpl. intros (Hl & Hf)%IH.
  apply Var_lookup in Hv as [Hn ->]. split.
  - intros n v [<-|Hin]%elem_of_cons; [|by apply Hl]. apply Hf, lookup_insert_eq.
  - intros n v Hv. apply Hf. rewrite lookup_insert_ne; [done|congruence].
Qed.

Lemma Vars_other l f g n : Vars l f = Some g -> n ∉ l.*1 -> g !! n = f !! n.
Proof.
  revert f. induction l as [|nv l IH]; intros f; csimpl; [by intros [= <-]|].
  destruct (Var f nv) as [f'|] eqn:Hv; [|done]. simpl. intros Hl Hn.
  apply not_elem_of_cons in Hn as [Hne Hn]. rewrite (IH _ Hl Hn).
  apply Var_lookup in Hv as [_ ->]. by rewrite lookup_insert_ne.
Qed.

(** Assigning a list of values to flags. *)
Definition assign (l : list (string * Value)) (f : FlagSet) : FlagSet :=
  fold_left (fun f nv => <[nv.1 := nv.2]> f) l f.

(** Distinct new names in the form the package asks for can be defined. *)
Definition definable (n : string) : Prop := HasPrefix n "-" = false /\ has_byte "=" n = false.

Lemma Vars_defined l f :
  NoDup l.*1 -> Forall (fun nv => definable nv.1 /\ f !! nv.1 = None) l ->
  Vars l f = Some (assign l f).
Proof.
  revert f. induction l as [|nv l IH]; intros f; csimpl; [done|].
  intros [Hn Hnd]%NoDup_cons [[[Hp He] Hf] Hl]%Forall_cons. unfold Var. rewrite Hp, He, Hf. simpl.
  apply IH; [done|]. rewrite Forall_forall in Hl |- *. intros nv' Hin. destruct (Hl _ Hin) as [? Hf'].
  split; [done|]. rewrite lookup_insert_ne; [done|]. intros Heq. apply Hn. rewrite Heq.
  by apply list_elem_of_fmap_2.
Qed.

Lemma assign_other l f n : n ∉ l.*1 -> assign l f !! n = f !! n.
Proof.
  unfold assign. revert f. induction l as [|nv l IH]; intros f; csimpl; [done|].
  rewrite not_elem_of_cons. intros [Hn Hl]. rewrite IH by done. by rewrite lookup_insert_ne.
Qed.

Lemma assign_same l f g n : f !! n = g !! n -> assign l f !! n = assign l g !! n.
Proof.
  unfold assign. revert f g. induction l as [|nv l IH]; intros f g Hfg; [done|]. simpl. apply IH.
  rewrite !lookup_insert. by case_decide.
Qed.

Lemma assign_lookup l f n v : NoDup l.*1 -> (n, v) ∈ l -> assign l f !! n = Some v.
Proof.
  unfold assign. revert f. induction l as [|nv l IH]; intros f; csimpl; [by intros _ ?%elem_of_nil|].
  intros [Hn Hnd]%NoDup_cons [<-|Hin]%elem_of_cons; [|by apply IH].
  rewrite (assign_other l (<[n := v]> f)) by done. apply lookup_insert_eq.
Qed.

Section flag.
(** [accepts name text]: the flag [name], defined elsewhere, can be set to
    [text]. *)
Variable accepts : string -> string -> bool.

(** [flag.Value.Set]; [None] is its error. *)
Definition Value_Set (name : string) (v : Value) (text : string) : option Value :=
  match v with
  | VString _ => Some (VString text)
  | VBool _ => VBool <$> ParseBool text
  | VOther b l => if accepts name text then Some (VOther b (l ++ [text])%list) else None
  end.

(** [flag.Set] with its error dropped. *)
Definition FlagSet_Set (name text : string) (f : FlagSet) : FlagSet :=
  match f !! name with
  | Some v => match Value_Set name v text with Some w => <[name := w]> f | None => f end
  | None => f
  end.

(** The second half of [parseOne], for the flag [name] and what follows it. *)
Definition set_flag (f : FlagSet) (name : string) (v : Value) (value : option string)
    (args : list string) : One :=
  if IsBoolFlag v then
    match value with
    | Some value =>
        match Value_Set name v value with
        | Some w => Seen (<[name := w]> f) args
        | None => Failed (InvalidBool value name)
        end
    | None =>
        match Value_Set name v "true" with
        | Some w => Seen (<[name := w]> f) args
        | None => Failed (InvalidBoolFlag name)
        end
    end
  else
    let '(value, args) :=
      match value, args with
      | None, next :: args' => (Some next, args')
      | _, _ => (value, args)
      end in
    match value with
    | None => Failed (NeedsArgument name)
    | Some value =>
        match Value_Set name v value with
        | Some w => Seen (<[name := w]> f) args
        | None => Failed (InvalidValue value name)
        end
    end.

(** The flag an argument names, and its value after "=", if it is one. *)
Inductive Arg := NoFlag | BadFlag | Flag (name : string) (value : option string).
Definition read_arg (s : string) : Arg :=
  match s with
  | String c0 (String c1 s') =>
      if negb (Ascii.eqb c0 "-") then NoFlag
      else if Ascii.eqb c1 "-" && String.eqb s' "" then NoFlag
      else
        match (if Ascii.eqb c1 "-" then s' else String c1 s') with
        | EmptyString => BadFlag
        | String c name =>
            if Ascii.eqb c "-" || Ascii.eqb c "=" then BadFlag
            else let '(name, value) := cut_eq name in Flag (String c name) value
        end
  | _ => NoFlag
  end.

Definition parseOne (f : FlagSet) (args : list string) : One :=
  match args with
  | [] => Stop
  | s :: args =>
      match read_arg s with
      | NoFlag => Stop
      | BadFlag => Failed (BadSyntax s)
      | Flag name value =>
          match f !! name with
          | None =>
              if String.eqb name "help" || String.eqb name "h" then Failed ErrHelp
              else Failed (NotDefined name)
          | Some v => set_flag f name v value args
          end
      end
  end.

(** The loop of [Parse]; [None] when the fuel runs out. *)
Fixpoint parse_loop (fuel : nat) (f : FlagSet) (args : list string)
  : option (FlagSet + ParseError) :=
  match fuel with
  | O => None
  | S fuel =>
      match parseOne f args with
      | Seen f args => parse_loop fuel f args
      | Stop => Some (inl f)
      | Failed e => Some (inr e)
      end
  end.
Definition Parse (f : FlagSet) (args : list string) : FlagSet + ParseError :=
  default (inl f) (parse_loop (S (length args)) f args).

(** ** The loop ends *)

Lemma set_flag_seen f name v value args f' args' :
  set_flag f name v value args = Seen f' args' ->
  exists text w, Value_Set name v text = Some w /\ f' = <[name := w]> f /\
    (length args' <= length args)%nat.
Proof.
  unfold set_flag. destruct (IsBoolFlag v).
  - destruct value as [x|]; destruct (Value_Set _ _ _) eqn:?; intros [= <- <-]; eauto.
  - destruct value as [x|], args as [|y args]; try done;
      (destruct (Value_Set _ _ _) eqn:?; [|done]); intros [= <- <-]; eexists _, _;
      split_and!; try done; simpl; lia.
Qed.

Lemma set_flag_not_stop f name v value args : set_flag f name v value args <> Stop.
Proof. unfold set_flag. repeat case_match; congruence. Qed.

Lemma parseOne_length f args f' args' :
  parseOne f args = Seen f' args' -> (length args' < length args)%nat.
Proof.
  destruct args as [|s args]; [done|]. simpl. destruct (read_arg s) as [| |name value]; try done.
  destruct (f !! name); [|by destruct (_ || _)].
  intros (text & w & _ & _ & Hl)%set_flag_seen. lia.
Qed.

Lemma parse_loop_fuel n f args :
  (length args < n)%nat -> exists r, parse_loop n f args = Some r /\ Parse f args = r.
Proof.
  assert (forall n m f args, (length args < n)%nat -> (length args < m)%nat ->
    exists r, parse_loop n f args = Some r /\ parse_loop m f args = Some r) as H.
  { clear. induction n as [|n IH]; intros [|m] f args Hn Hm; try lia. simpl.
    destruct (parseOne f args) as [f' args'| |e] eqn:Ho; [|eauto..].
    apply parseOne_length in Ho. apply IH; lia. }
  intros Hn. destruct (H n (S (length args)) f args Hn ltac:(lia)) as (r & Hr & Hp).
  exists r. unfold Parse. by rewrite Hp.
Qed.

Lemma Parse_eq f args :
  Parse f args = match parseOne f args with
                 | Seen f' args' => Parse f' args'
                 | Stop => inl f
                 | Failed e => inr e
                 end.
Proof.
  unfold Parse at 1. cbn [parse_loop]. destruct (parseOne f args) as [f' args'| |e] eqn:Ho; try done.
  apply parseOne_length in Ho. by destruct (parse_loop_fuel (length args) f' args' Ho) as (r & -> & ->).
Qed.

(** Induction along the flags that are read. *)
Lemma Parse_ind (P : FlagSet -> list string -> Prop) :
  (forall f args, (forall f' args', parseOne f args = Seen f' args' -> P f' args') -> P f args) ->
  forall f args, P f args.
Proof.
  intros Hstep. assert (forall n f args, (length args < n)%nat -> P f args) as H; [|eauto].
  induction n as [|n IH]; intros f args Hn; [lia|]. apply Hstep. intros f' args' Ho.
  apply IH. apply parseOne_length in Ho. lia.
Qed.

(** ** Parsing the same arguments again

    Flags may have been added and set in between. *)

Definition same_kind (v w : Value) : Prop :=
  match v, w with
  | VString _, VString _ | VBool _, VBool _ => True
  | VOther b _, VOther b' _ => b = b'
  | _, _ => False
  end.

(** Equal, or a flag defined elsewhere. *)
Definition agree (v w : Value) : Prop :=
  match v, w with VOther b _, VOther b' _ => b = b' | _, _ => v = w end.

Definition covers (f g : FlagSet) : Prop :=
  forall n v, f !! n = Some v -> exists w, g !! n = Some w /\ same_kind v w.

Lemma Value_Set_same n v w text v' :
  same_kind v w -> Value_Set n v text = Some v' ->
  exists w', Value_Set n w text = Some w' /\ agree v' w' /\ same_kind v v' /\ same_kind v' w'.
Proof.
  destruct v, w; simpl; try done.
  - intros _ [= <-]. by eexists.
  - intros _. destruct (ParseBool text); [|done]. intros [= <-]. by eexists.
  - intros ->. destruct (accepts n text); [|done]. intros [= <-]. by eexists.
Qed.

Lemma same_kind_bool v w : same_kind v w -> IsBoolFlag v = IsBoolFlag w.
Proof. destruct v, w; simpl; by intros. Qed.

Lemma set_flag_same f g n v w value args f' args' :
  same_kind v w -> set_flag f n v value args = Seen f' args' ->
  exists v' w', f' = <[n := v']> f /\ set_flag g n w value args = Seen (<[n := w']> g) args' /\
    agree v' w' /\ same_kind v v' /\ same_kind v' w'.
Proof.
  intros Hk. unfold set_flag. rewrite <- (same_kind_bool _ _ Hk). destruct (IsBoolFlag v).
  - destruct value as [x|]; destruct (Value_Set n v _) as [v'|] eqn:Hs; intros [= <- <-];
      destruct (Value_Set_same _ _ _ _ _ Hk Hs) as (w' & -> & ?); eauto.
  - destruct value as [x|], args as [|y args]; try done;
      (destruct (Value_Set n v _) as [v'|] eqn:Hs; [|done]); intros [= <- <-];
      destruct (Value_Set_same _ _ _ _ _ Hk Hs) as (w' & -> & ?); eauto.
Qed.

Lemma covers_insert f g n v w : covers f g -> same_kind v w -> covers (<[n := v]> f) (<[n := w]> g).
Proof.
  intros Hc Hk m x. rewrite lookup_insert. case_decide as Hd.
  - intros [= <-]. exists w. subst m. by rewrite lookup_insert_eq.
  - intros (y & Hy & ?)%Hc. exists y. by rewrite lookup_insert_ne.
Qed.

(** What the arguments set is set again, to the same; the rest is left. *)
Lemma reparse f args f1 g :
  Parse f args = inl f1 -> covers f g ->
  exists g1 (S : gset string), Parse g args = inl g1 /\ (forall n, n ∈ S -> is_Some (f !! n)) /\
    forall n, if decide (n ∈ S)
              then exists v w, f1 !! n = Some v /\ g1 !! n = Some w /\ agree v w
              else f1 !! n = f !! n /\ g1 !! n = g !! n.
Proof.
  revert f args f1 g. refine (Parse_ind _ _). intros f args IH f1 g. rewrite !(Parse_eq _ args).
  destruct args as [|s args]; simpl in *.
  { intros [= <-] _. exists g, ∅. split_and!; [done|set_solver|].
    intros n. rewrite decide_False by set_solver. done. }
  destruct (read_arg s) as [| |name value]; [|done|].
  { intros [= <-] _. exists g, ∅. split_and!; [done|set_solver|].
    intros n. rewrite decide_False by set_solver. done. }
  destruct (f !! name) as [v|] eqn:Hn; [|by destruct (_ || _)].
  intros Hp Hc. destruct (Hc _ _ Hn) as (w & Hw & Hk). rewrite Hw.
  destruct (set_flag f name v value args) as [f' args'| |e] eqn:Hset;
    [|by apply set_flag_not_stop in Hset|done].
  destruct (set_flag_same _ g _ _ _ _ _ _ _ Hk Hset) as (v' & w' & -> & -> & Ha & Hv & Hw').
  destruct (IH _ _ eq_refl f1 (<[name := w']> g) Hp) as (g1 & S & -> & HS & Hall).
  { by apply covers_insert. }
  exists g1, ({[name]} ∪ S). split_and!; [done| |].
  - intros n [->%elem_of_singleton|Hin]%elem_of_union; [by eexists|]. specialize (HS n Hin).
    rewrite lookup_insert in HS. case_decide as Hd; [subst n; by eexists|done].
  - intros n. specialize (Hall n). destruct (decide (n ∈ S)) as [Hin|Hin].
    { by rewrite decide_True by (apply elem_of_union; by right). }
    rewrite !lookup_insert in Hall. destruct (decide (name = n)) as [->|Hne].
    + rewrite decide_True by (apply elem_of_union; left; by apply elem_of_singleton).
      destruct (decide (n = n)); [|done]. destruct Hall as [-> ->]. eauto.
    + destruct (decide (name = n)); [done|]. rewrite decide_False; [done|].
      by intros [?%elem_of_singleton|?]%elem_of_union.
Qed.

Lemma covers_refl f : covers f f.
Proof. intros n v Hv. exists v. split; [done|]. by destruct v. Qed.

Lemma covers_trans f g h : covers f g -> covers g h -> covers f h.
Proof.
  intros Hfg Hgh n v (w & Hw & Hk)%Hfg. destruct (Hgh n w Hw) as (x & Hx & Hk'). exists x.
  split; [done|]. destruct v, w, x; simpl in *; congruence || done.
Qed.

Lemma covers_set f n v w : f !! n = Some v -> same_kind v w -> covers f (<[n := w]> f).
Proof.
  intros Hn Hk m x Hx. rewrite lookup_insert. case_decide as Hd; [|by apply covers_refl].
  exists w. split; [done|]. congruence.
Qed.

Lemma FlagSet_Set_covers n text f : covers f (FlagSet_Set n text f).
Proof.
  unfold FlagSet_Set. destruct (f !! n) as [v|] eqn:Hn; [|apply covers_refl].
  destruct (Value_Set n v text) as [w|] eqn:Hs; [|apply covers_refl].
  assert (same_kind v v) as Hv by by destruct v.
  destruct (Value_Set_same _ _ _ _ _ Hv Hs) as (_ & _ & _ & Hk & _). by apply (covers_set _ _ v).
Qed.

Lemma FlagSet_Set_other n text f m : f !! m = None -> FlagSet_Set n text f !! m = None.
Proof.
  unfold FlagSet_Set. intros Hm. destruct (f !! n) as [v|] eqn:Hn; [|done].
  destruct (Value_Set n v text); [|done]. rewrite lookup_insert_ne; [done|congruence].
Qed.

Lemma Parse_covers f args f1 : Parse f args = inl f1 -> covers f f1.
Proof.
  revert f args f1. refine (Parse_ind _ _). intros f args IH f1. rewrite Parse_eq.
  destruct (parseOne f args) as [f' args'| |e] eqn:Ho; [|intros [= <-]; apply covers_refl|done].
  intros Hp. eapply covers_trans; [|by eapply IH]. clear IH Hp f1.
  destruct args as [|s args]; [done|]. simpl in Ho. destruct (read_arg s) as [| |name value]; try done.
  destruct (f !! name) as [v|] eqn:Hn; [|by destruct (_ || _)].
  assert (same_kind v v) as Hv by by destruct v.
  destruct (set_flag_same _ f _ _ _ _ _ _ _ Hv Ho) as (v' & w' & -> & _ & _ & Hk & _).
  by apply (covers_set _ _ v).
Qed.

(** A flag that is added between two times the arguments are parsed keeps its
    default, and the others come out the same. *)
Lemma reparse_fresh f args f1 g n v :
  Parse f args = inl f1 -> covers f g -> f1 !! n = None -> g !! n = Some v ->
  exists g1, Parse g args = inl g1 /\ g1 !! n = Some v.
Proof.
  intros Hp Hc Hn Hg. destruct (reparse _ _ _ _ Hp Hc) as (g1 & S & Hg1 & HS & Hall).
  exists g1. split; [done|]. specialize (Hall n). destruct (decide (n ∈ S)).
  - destruct Hall as (? & ? & ? & _). congruence.
  - destruct Hall as [_ ->]. done.
Qed.

Lemma reparse_own f args f1 g g1 n v :
  Parse f args = inl f1 -> covers f g -> Parse g args = inl g1 ->
  f !! n = Some v -> match v with VOther _ _ => False | _ => True end ->
  g !! n = f1 !! n -> g1 !! n = f1 !! n.
Proof.
  intros Hp Hc Hp' Hn Hown Hg. destruct (reparse _ _ _ _ Hp Hc) as (g2 & S & Hg2 & HS & Hall).
  rewrite Hp' in Hg2. injection Hg2 as <-. specialize (Hall n). destruct (decide (n ∈ S)).
  - destruct Hall as (x & y & Hx & Hy & Ha). rewrite Hx, Hy. f_equal.
    destruct (Parse_covers _ _ _ Hp n v Hn) as (x' & Hx' & Hk). rewrite Hx in Hx'. injection Hx' as <-.
    by destruct v, x, y.
  - destruct Hall as [_ ->]. done.
Qed.

(** ** Arguments that are not flags of the set *)

(** [-name], [--name] and both with a value. *)
Definition flag_args (name : string) (value : option string) : list string :=
  let v := match value with Some x => "=" +:+ x | None => "" end in
  ["-" +:+ name +:+ v; "--" +:+ name +:+ v].

Definition name_ok (name : string) : Prop :=
  name <> "" /\ HasPrefix name "-" = false /\ has_byte "=" name = false.

Lemma cut_eq_name n value :
  has_byte "=" n = false ->
  cut_eq (n +:+ match value with Some x => "=" +:+ x | None => "" end) = (n, value).
Proof.
  induction n as [|c n IH]; [by destruct value|].
  rewrite string_app_cons. cbn [has_byte cut_eq]. rewrite (Ascii.eqb_sym c).
  destruct (Ascii.eqb "=" c); [done|]. by intros ->%IH.
Qed.

Lemma read_flag_args name value s :
  name_ok name -> s ∈ flag_args name value -> read_arg s = Flag name value.
Proof.
  intros (Hne & Hp & Heq) Hs. destruct name as [|c n]; [done|].
  cbn [has_byte] in Heq. apply orb_false_iff in Heq as [Hc Heq].
  rewrite Ascii.eqb_sym in Hc. unfold HasPrefix in Hp. rewrite prefix1, Ascii.eqb_sym in Hp.
  unfold flag_args in Hs. rewrite string_app_cons in Hs.
  pose proof (cut_eq_name n value Heq) as Hcut.
  apply elem_of_cons in Hs as [Hs|Hs%list_elem_of_singleton]; subst s;
    rewrite !string_app_cons, !string_app_empty; unfold read_arg; cbn [negb andb];
    change (Ascii.eqb "-" "-") with true; cbn [negb andb];
    try change (String.eqb (String c _) "") with false; rewrite ?Hp; cbn [andb];
    by rewrite ?Hp, Hc, Hcut.
Qed.

(** An argument naming a flag that is not defined ends the parsing, where it
    is reached. *)
Lemma Parse_undefined f name value s args :
  name_ok name -> name <> "help" -> name <> "h" -> s ∈ flag_args name value ->
  f !! name = None -> Parse f (s :: args) = inr (NotDefined name).
Proof.
  intros Hok ?%String.eqb_neq Hh%String.eqb_neq Hs Hn. rewrite Parse_eq. cbn [parseOne].
  rewrite (read_flag_args _ _ _ Hok Hs), Hn, Hh. by destruct (String.eqb name "help").
Qed.

(** ** Writing a command line *)

Definition value_text (v : Value) : string :=
  match v with
  | VString s => s
  | VBool b => if b then "true" else "false"
  | VOther _ _ => ""
  end.
Definition command_line (l : list (string * Value)) : list string :=
  map (fun nv => "-" +:+ nv.1 +:+ "=" +:+ value_text nv.2) l.

Lemma FlagSet_Set_ne n text f m : m <> n -> FlagSet_Set n text f !! m = f !! m.
Proof.
  unfold FlagSet_Set. intros Hm. destruct (f !! n); [|done].
  destruct (Value_Set n _ text); [|done]. by rewrite lookup_insert_ne.
Qed.

(** Values of the flags of [f] to be given on the command line. *)
Definition givable (f : FlagSet) (nv : string * Value) : Prop :=
  name_ok nv.1 /\ match nv.2 with VOther _ _ => False | _ => True end /\
  exists v, f !! nv.1 = Some v /\ same_kind v nv.2.

Lemma Parse_command_line l f :
  Forall (givable f) l ->
  Parse f (command_line l) = inl (assign l f).
Proof.
  revert f. induction l as [|[n w] l IH]; intros f Hl; [done|].
  apply Forall_cons in Hl as [(Hok & Hown & v & Hv & Hk) Hl]. cbn [fst snd] in *.
  rewrite Parse_eq. cbn [command_line map parseOne].
  rewrite (read_flag_args n (Some (value_text w))) by (done || by left). cbn [fst]. rewrite Hv.
  assert (set_flag f n v (Some (value_text w)) (command_line l) = Seen (<[n := w]> f) (command_line l)) as Hs.
  { unfold set_flag. destruct v, w; try done; simpl; by destruct b0. }
  fold (command_line l). rewrite Hs. unfold assign. cbn [fold_left fst snd]. apply IH. eapply Forall_impl; [exact Hl|].
  intros [m x] (Hok' & Hown' & y & Hy & Hk'). split_and!; try done. cbn [fst snd] in *.
  rewrite lookup_insert. case_decide as Hd; [|eauto]. subst m. exists w. split; [done|].
  rewrite Hv in Hy. injection Hy as <-. by destruct v, w, x.
Qed.
End flag.
