(* ===== verification/FileWatcher.v ===== *)
(** * pkg/filewatcher: from file-system events to [FileUpdate] *)
From stdpp Require Import base list strings gmap.
From S2P Require Import Prelude Prog GoStrings GoPath Zms Effects.
#[local] Open Scope string_scope.

(** What the goroutine's [select] receives. *)
Inductive Incoming :=
| IncomingEvent (name : string)
| IncomingError (e : error)
| IncomingStop.

(** fsnotify, and the [WatchNotifier] interface. *)
Inductive WatchE : Set -> Type :=
| FsNewWatcher : WatchE (option error)
| FsAdd (dir : string) : WatchE (option error)
| FsReceive : WatchE Incoming
| FsClose : WatchE unit
| FileUpdate : WatchE unit
| WatchError (e : error) : WatchE unit.

Record watcher := mkWatcher {
  workers : gmap string (list string);
  files : list string
}.

Definition NewWatcher (files : list string) : watcher := mkWatcher ∅ files.

Definition addWorker (file : string) (w : watcher) : string * watcher :=
  let newfile := Clean file in
  let dir := Dir newfile in
  let newfile := Base newfile in
  match workers w !! dir with
  | Some ws => (dir, mkWatcher (<[dir := (ws ++ [newfile])%list]> (workers w)) (files w))
  | None => (dir, mkWatcher (<[dir := [newfile]]> (workers w)) (files w))
  end.

(** [name] is the event's path. *)
Definition processWork (w : watcher) (name : string) : prog WatchE unit :=
  let dir := Dir name in
  for_each (fun file => if String.eqb file (Base name) then trigger FileUpdate else mret tt)
    (default [] (workers w !! dir)).

(** The loop of [Run] that registers the files: an error ends it. *)
Fixpoint add_files (l : list string) (w : watcher) : prog WatchE (watcher * option error) :=
  match l with
  | [] => mret (w, None)
  | file :: l' =>
      let '(dir, w) := addWorker file w in
      err ← trigger (FsAdd dir);
      match err with
      | Some err => mret (w, Some err)
      | None => add_files l' w
      end
  end.

(** [Run] up to the start of its goroutine. *)
Definition Run (w : watcher) : prog WatchE (watcher * option error) :=
  err ← trigger FsNewWatcher;
  match err with
  | Some err => mret (w, Some err)
  | None => add_files (files w) w
  end.

(** One round of the goroutine's loop; [false] leaves it. *)
Definition watch_round (w : watcher) : prog WatchE bool :=
  r ← trigger FsReceive;
  match r with
  | IncomingEvent name => processWork w name;; mret true
  | IncomingError err => trigger (WatchError err);; mret false
  | IncomingStop => mret false
  end.

(** The goroutine, until it ends. *)
Inductive watching (w : watcher) : list (ev WatchE) -> Prop :=
| watching_last t :
    exec (watch_round w) t (Done false) -> watching w (t ++ [Ev FsClose tt])%list
| watching_more t t' :
    exec (watch_round w) t (Done true) -> watching w t' -> watching w (t ++ t')%list.

(** ** Registration *)

(** Directory and name under which a file is watched. *)
Definition place (file : string) : string * string := (Dir (Clean file), Base (Clean file)).

(** The names watched in [dir], for the files [l]. *)
Definition watched (dir : string) (l : list string) : list string :=
  map (snd ∘ place) (filter (fun f => (place f).1 = dir) l).

Lemma addWorker_watched file w l :
  (forall dir, default [] (workers w !! dir) = watched dir l) ->
  forall dir, default [] (workers (addWorker file w).2 !! dir) = watched dir (l ++ [file]).
Proof.
  intros Hw dir. unfold watched. rewrite filter_app, map_app.
  change (map (snd ∘ place) (filter (fun f => (place f).1 = dir) l)) with (watched dir l).
  rewrite <- Hw, filter_cons, filter_nil. unfold addWorker.
  change (place file).1 with (Dir (Clean file)).
  destruct (workers w !! Dir (Clean file)) as [ws|] eqn:Hd; cbn [snd workers];
    (destruct (decide (Dir (Clean file) = dir)) as [<-|Hn];
      [rewrite lookup_insert_eq, Hd | rewrite lookup_insert_ne, app_nil_r by done]; done).
Qed.

Lemma add_files_watched l0 l w t w' e :
  (forall dir, default [] (workers w !! dir) = watched dir l0) ->
  exec (add_files l w) t (Done (w', e)) ->
  (exists l1 l2, l = (l1 ++ l2)%list /\
    (forall dir, default [] (workers w' !! dir) = watched dir (l0 ++ l1)) /\
    (e = None -> l2 = [] /\ t = map (fun f => Ev (FsAdd (place f).1) None) l1)).
Proof.
  revert l0 w t. induction l as [|f l IH]; intros l0 w t Hw He.
  { destruct He as [-> [= -> ->]]. exists [], []. split_and!; [done| |done].
    intros dir. by rewrite app_nil_r. }
  cbn [add_files] in He. pose proof (addWorker_watched f w l0 Hw) as Hw1.
  assert (Hd : (addWorker f w).1 = (place f).1).
  { unfold addWorker. by destruct (workers w !! _). }
  destruct (addWorker f w) as [dir w1]. cbn [fst snd] in *. subst dir.
  exec_call He as err t1. destruct err as [err|].
  - destruct He as [-> [= -> ->]]. exists [f], l. by split_and!.
  - destruct (IH _ _ _ Hw1 He) as (l1 & l2 & -> & Hws & Hend).
    exists (f :: l1), l2. rewrite <- app_assoc in Hws. split_and!; [done..|].
    intros Hn. destruct (Hend Hn) as [-> ->]. done.
Qed.

Lemma processWork_updates w name t o :
  exec (processWork w name) t o <->
  o = Done tt /\
  t = replicate (length (filter (fun f => f = Base name) (default [] (workers w !! Dir name))))
        (Ev FileUpdate tt).
Proof.
  unfold processWork. cbv zeta. generalize (default [] (workers w !! Dir name)). intros l.
  revert t. induction l as [|f l IH]; intros t; [simpl; split; by intros [-> ->]|].
  cbn [for_each]. rewrite filter_cons.
  destruct (String.eqb_spec f (Base name)) as [Hf|Hf].
  - rewrite decide_True by done. cbn [length replicate]. change (pbind ?k (trigger FileUpdate)) with
      (PVis FileUpdate k). rewrite exec_vis. setoid_rewrite IH. split.
    + intros ([] & t' & -> & -> & ->). done.
    + intros [-> ->]. by exists tt, (replicate (length (filter (fun f => f = Base name) l)) (Ev FileUpdate tt)).
  - rewrite decide_False by done. apply IH.
Qed.

(** C35. Once [Run] succeeded, each file was registered by its directory, in
    order; and a file-system event for the entry [n] of a watched directory
    causes one [FileUpdate] per watched file that has this place (however
    its path was written), and none for the directory's other files. *)
Theorem Run_watches l t w' :
  exec (Run (NewWatcher l)) t (Done (w', None)) ->
  t = Ev FsNewWatcher None :: map (fun f => Ev (FsAdd (place f).1) None) l /\
  forall f n t', n <> "" -> has_byte slash n = false ->
    (exec (processWork w' ((place f).1 +:+ String slash n)) t' (Done tt) <->
     t' = replicate (length (filter (fun g => place g = ((place f).1, n)) l)) (Ev FileUpdate tt)).
Proof.
  unfold Run. intros He. exec_call He as err t1. destruct err as [err|]; [by destruct He|].
  assert (Hempty : forall dir, default [] (workers (NewWatcher l) !! dir) = watched dir []).
  { intros dir. simpl. by rewrite lookup_empty. }
  destruct (add_files_watched [] _ _ _ _ _ Hempty He) as (l1 & l2 & Hl & Hw & Hend).
  destruct (Hend eq_refl) as [-> ->]. rewrite app_nil_r in Hl. simpl in Hl. subst l1.
  split; [done|]. intros f n t' Hn Hb. rewrite processWork_updates.
  rewrite Base_entry by done. change (place f).1 with (Dir (Clean f)) at 1.
  rewrite Dir_of_entry, Hw by done. change (Dir (Clean f)) with (place f).1. cbn [app].
  assert (Hlen : length (filter (fun x => x = n) (watched (place f).1 l)) =
                 length (filter (fun g => place g = ((place f).1, n)) l)).
  { unfold watched. clear. induction l as [|g l IH]; [done|]. rewrite !filter_cons.
    destruct (decide ((place g).1 = (place f).1)) as [Hd|Hd];
      destruct (decide (place g = ((place f).1, n))) as [Hg|Hg]; cbn [map];
      [rewrite filter_cons_True by (unfold compose; by rewrite Hg); cbn [length]; by rewrite IH
      |rewrite filter_cons_False; [done|]|by rewrite Hg in Hd|done].
    intros Hb. apply Hg. rewrite (surjective_pairing (place g)). by f_equal. }
  rewrite <- Hlen. split; [by intros [_ ?] | by intros ?].
Qed.

Module WatchExample.
Definition files : list string := ["/run/a/key.pem"; "/run/a//cert.pem"].
Definition w : watcher :=
  mkWatcher {["/run/a" := ["key.pem"; "cert.pem"]]} files.
Definition started : list (ev WatchE) :=
  [Ev FsNewWatcher None; Ev (FsAdd "/run/a") None; Ev (FsAdd "/run/a") None].
Lemma started_exec : exec (Run (NewWatcher files)) started (Done (w, None)).
Proof. repeat (eexists; eexists; split; [reflexivity|]). split; reflexivity. Defined.
End WatchExample.

Example Run_watches_witness :
  exec (processWork WatchExample.w "/run/a/cert.pem") [Ev FileUpdate tt] (Done tt).
Proof.
  apply (proj2 (Run_watches _ _ _ WatchExample.started_exec) "/run/a/cert.pem" "cert.pem");
    [discriminate | reflexivity..].
Defined.
