(* ===== verification/Crypto.v ===== *)
(** * pkg/crypto: the private key of the service, from versioned files

    The key is read from the file [<secret>.v<n>] with the highest [n] of a
    directory.  The PEM and x509 functions are parameters with their
    documented laws; so is [sort.Slice], which does not say how it orders
    equal elements. *)
From Stdlib Require Import Ascii Decimal DecimalString DecimalZ Sorting.Sorted.
From stdpp Require Import base list strings.
From S2P Require Import Prelude Prog GoStrings GoPath Zms Effects.
#[local] Open Scope string_scope.

(** ** [strconv.Atoi] and [fmt.Sprintf("%d", z)] *)

Definition Atoi (s : string) : option Z :=
  let '(neg, body) :=
    match s with
    | String "-"%char r => (true, r)
    | String "+"%char r => (false, r)
    | _ => (false, s)
    end in
  u ← NilZero.uint_of_string body;
  let z := if (neg : bool) then - Z.of_uint u else Z.of_uint u in
  if ((min_int64 <=? z) && (z <=? max_int64))%Z then Some z else None.

Definition FormatInt (z : Z) : string := NilZero.string_of_int (Z.to_int z).

Example Atoi_examples :
  map Atoi ["10"; "007"; "-3"; "+4"; ""; "-"; "1_0"; "9223372036854775808"] =
  [Some 10; Some 7; Some (-3); Some 4; None; None; None; None].
Proof. reflexivity. Qed.

(** Not a sign. *)
Definition unsigned_head (s : string) : Prop :=
  match s with String c _ => c <> "-"%char /\ c <> "+"%char | EmptyString => True end.

Lemma Atoi_unsigned s : unsigned_head s ->
  Atoi s = (u ← NilZero.uint_of_string s;
            if ((min_int64 <=? Z.of_uint u) && (Z.of_uint u <=? max_int64))%Z
            then Some (Z.of_uint u) else None).
Proof.
  unfold Atoi. destruct s as [|[[] [] [] [] [] [] [] []] s]; try done;
    intros [Hm Hp]; by destruct Hm || by destruct Hp.
Qed.

Lemma string_of_uint_head u : unsigned_head (NilZero.string_of_uint u).
Proof. by destruct u; split. Qed.

Lemma uint_of_string_of_uint u :
  exists u', NilZero.uint_of_string (NilZero.string_of_uint u) = Some u' /\ Z.of_uint u' = Z.of_uint u.
Proof.
  assert (Hd : u = Decimal.Nil \/ u <> Decimal.Nil) by (destruct u; auto; by right).
  destruct Hd as [->|Hn]; [by exists (Decimal.D0 Decimal.Nil)|].
  exists u. split; [by apply NilZero.usu | done].
Qed.

(** Printing and parsing an integer of 64 bits gives it back. *)
Lemma Atoi_FormatInt z : in_int64 z -> Atoi (FormatInt z) = Some z.
Proof.
  intros Hz. unfold FormatInt. pose proof (DecimalZ.of_to z) as Hof.
  assert (Hr : ((min_int64 <=? z) && (z <=? max_int64))%Z = true).
  { unfold in_int64 in Hz. apply andb_true_iff. lia. }
  destruct (Z.to_int z) as [u|u]; simpl in Hof |- *;
    destruct (uint_of_string_of_uint u) as (u' & Hu & Hz').
  - rewrite Atoi_unsigned by apply string_of_uint_head. rewrite Hu. simpl.
    by rewrite Hz', Hof, Hr.
  - unfold Atoi. rewrite Hu. simpl. by rewrite Hz', Hof, Hr.
Qed.

(** ** Libraries *)

Record fv := mkFv { fv_file : string; fv_version : Z; fv_versionStr : string }.

Class SortSlice := sort_Slice : (fv -> fv -> bool) -> list fv -> list fv.
(** [sort.Slice(x, less)]: [x] is permuted so that no element is less than
    the one before it, for a strict weak ordering [less]. *)
Class SortSliceOk `{SortSlice} : Prop :=
  sort_ok : forall (key : fv -> Z) l, let s := sort_Slice (fun a b => key b <? key a)%Z l in
    s ≡ₚ l /\ StronglySorted (fun a b => key b <= key a) s.

Class CryptoLib := {
  RsaKey : Set;
  EcdsaKey : Set;
  (** type and bytes of the first PEM block *)
  pem_Decode : string -> option (string * string);
  pem_EncodeToMemory : string -> string -> string;
  ParseECPrivateKey : string -> EcdsaKey + error;
  ParsePKCS1PrivateKey : string -> RsaKey + error;
  MarshalPKCS1PrivateKey : RsaKey -> string;
  MarshalECPrivateKey : EcdsaKey -> string + error
}.
Class CryptoOk `{CryptoLib} : Prop := {
  decode_encode ty b : has_byte "010"%char ty = false ->
    pem_Decode (pem_EncodeToMemory ty b) = Some (ty, b);
  parse_marshal_rsa k : ParsePKCS1PrivateKey (MarshalPKCS1PrivateKey k) = inl k;
  parse_marshal_ec k b : MarshalECPrivateKey k = inl b -> ParseECPrivateKey b = inl k
}.

(** The file system. *)
Inductive FsE : Set -> Type :=
| ReadDir (dir : string) : FsE (list string * option error)
| ReadFile (file : string) : FsE (string * option error).

(** ** The package *)

Inductive KeyType := KeyZero | RSA | ECDSA.

Record versionedFiles := mkVersionedFiles { vf_dir : string; vf_prefix : string }.

Record PrivateKeySource := mkPrivateKeySource {
  secretName : string;
  pks_files : versionedFiles
}.

Section crypto.
Context `{SortSlice} `{CryptoLib}.

(** [crypto.Signer] values, as far as type assertions tell them apart. *)
Inductive Signer :=
| SignerRSA (k : RsaKey)
| SignerECDSA (k : EcdsaKey)
| SignerOther
| SignerNil.

Record SigningKey := mkSigningKey {
  SK_URI : string;
  SK_Type : KeyType;
  SK_Value : Signer;
  SK_Version : string
}.

Definition NewPrivateKeySource (dir secretName : string) : PrivateKeySource :=
  mkPrivateKeySource secretName (mkVersionedFiles dir secretName).

(** The loop of [list]. *)
Fixpoint list_loop (dir prefix : string) (names : list string) (ret : list fv) : list fv :=
  match names with
  | [] => ret
  | name :: names' =>
      if negb (HasPrefix name prefix) then list_loop dir prefix names' ret
      else
        let v := TrimPrefix name prefix in
        match Atoi v with
        | Some version =>
            list_loop dir prefix names'
              (ret ++ [mkFv (Join dir name) version ("v" +:+ FormatInt version)])%list
        | None => list_loop dir prefix names' ret
        end
  end.

(** The method [list]. *)
Definition list_ (f : versionedFiles) : prog FsE (list fv * option error) :=
  let prefix := vf_prefix f +:+ ".v" in
  '(names, err) ← trigger (ReadDir (vf_dir f));
  match err with
  | None =>
      let ret := list_loop (vf_dir f) prefix names [] in
      if (length ret =? 0)%nat
      then mret ([], Some (errors_New ("no versioned files under " +:+ vf_dir f)))
      else mret (sort_Slice (fun a b => fv_version b <? fv_version a)%Z ret, None)
  | Some err => mret ([], Some (Errorf "list files" err))
  end.

Definition latestVersionContents (f : versionedFiles) : prog FsE (string * string * option error) :=
  '(fvs, err) ← list_ f;
  match err with
  | Some err => mret ("", "", Some err)
  | None =>
      match fvs with
      | [] => PPanic "index out of range [0] with length 0"
      | fv :: _ =>
          '(content, err) ← trigger (ReadFile (fv_file fv));
          match err with
          | Some err => mret ("", "", Some err)
          | None => mret (content, fv_versionStr fv, None)
          end
      end
  end.

Definition secretURI (name version : string) : string :=
  "secret:" +:+ name +:+ "?Version=" +:+ version.

Definition PrivateKeyFromPEMBytes (privatePEMBytes : string) : KeyType * Signer * option error :=
  let handle err := (KeyZero, SignerNil, Some (Errorf "PrivateKeyFromPEMBytes" err)) in
  match pem_Decode privatePEMBytes with
  | None => handle (errors_New ("unable to load private key, invalid PEM block: " +:+ privatePEMBytes))
  | Some (Type_, Bytes) =>
      if String.eqb Type_ "ECDSA PRIVATE KEY" then
        match ParseECPrivateKey Bytes with
        | inr err => handle err
        | inl k => (ECDSA, SignerECDSA k, None)
        end
      else if String.eqb Type_ "RSA PRIVATE KEY" then
        match ParsePKCS1PrivateKey Bytes with
        | inr err => handle err
        | inl k => (RSA, SignerRSA k, None)
        end
      else handle (errors_New ("unsupported private key type: " +:+ Type_))
  end.

(** The method [SigningKey]. *)
Definition SigningKey_ (pks : PrivateKeySource) : prog FsE (ptr SigningKey * option error) :=
  '(contents, version, err) ← latestVersionContents (pks_files pks);
  match err with
  | Some err => mret (None, Some err)
  | None =>
      let '(keyType, key, err) := PrivateKeyFromPEMBytes contents in
      match err with
      | Some err => mret (None, Some err)
      | None =>
          mret (Some (mkSigningKey (secretURI (secretName pks) version) keyType key version), None)
      end
  end.

Definition PEMBytes (s : SigningKey) : string * option error :=
  match SK_Value s with
  | SignerRSA privKey =>
      (pem_EncodeToMemory "RSA PRIVATE KEY" (MarshalPKCS1PrivateKey privKey), None)
  | SignerECDSA ecdsaKey =>
      match MarshalECPrivateKey ecdsaKey with
      | inr err => ("", Some (Errorf "marshal ECDSA key" err))
      | inl b => (pem_EncodeToMemory "ECDSA PRIVATE KEY" b, None)
      end
  | SignerOther | SignerNil => ("", Some (errors_New "unexpected error, key was not of RSA or ECDSA type"))
  end.

(** ** Which file is read *)

(** The version of a directory entry, if it is a versioned file of [f]. *)
Definition version_of (f : versionedFiles) (name : string) : option Z :=
  if HasPrefix name (vf_prefix f +:+ ".v")
  then Atoi (TrimPrefix name (vf_prefix f +:+ ".v")) else None.

Definition to_fv (f : versionedFiles) (name : string) : option fv :=
  (fun v => mkFv (Join (vf_dir f) name) v ("v" +:+ FormatInt v)) <$> version_of f name.

Lemma list_loop_eq f names ret :
  list_loop (vf_dir f) (vf_prefix f +:+ ".v") names ret = (ret ++ omap (to_fv f) names)%list.
Proof.
  revert ret. induction names as [|n names IH]; intros ret; cbn [list_loop].
  - by rewrite app_nil_r.
  - unfold to_fv, version_of at 1. csimpl. unfold to_fv, version_of.
    destruct (HasPrefix n (vf_prefix f +:+ ".v")) eqn:Hp; cbn [negb].
    + destruct (Atoi _) as [v|]; rewrite IH; [by rewrite <- app_assoc|done].
    + by rewrite IH.
Qed.

(** The calls and the result of [list]. *)
Lemma list_exec f t o :
  exec (list_ f) t o ->
  exists names err, t = [Ev (ReadDir (vf_dir f)) (names, err)] /\
    match err with
    | Some _ => exists e, o = Done ([], Some e)
    | None =>
        match omap (to_fv f) names with
        | [] => exists e, o = Done ([], Some e)
        | l => o = Done (sort_Slice (fun a b => fv_version b <? fv_version a)%Z l, None)
        end
    end.
Proof.
  unfold list_. cbv zeta. intros He. exec_call He as [names err] t1. exists names, err.
  destruct err as [err|]; [exec_end He; eauto|].
  rewrite list_loop_eq in He. cbn [app] in He.
  destruct (omap (to_fv f) names) as [|x l]; cbn [length Nat.eqb] in He; exec_end He; eauto.
Qed.
End crypto.

Section crypto_facts.
Context `{SortSliceOk} `{CryptoOk}.

(** C36. The key file read is one of the directory's files [<prefix>.v<n>],
    with [n] an integer, whose version is the highest; the version returned
    is that [n], and the contents are what reading the file gave.  It is an
    error exactly when the directory cannot be read, has no such file or the
    file cannot be read; there is no panic. *)
Theorem latestVersionContents_spec f t o :
  exec (latestVersionContents f) t o ->
  exists names err t', t = Ev (ReadDir (vf_dir f)) (names, err) :: t' /\
    match err with
    | Some _ => t' = [] /\ exists e, o = Done ("", "", Some e)
    | None =>
        (omap (version_of f) names = [] /\ t' = [] /\ exists e, o = Done ("", "", Some e)) \/
        (exists name v content err', name ∈ names /\ version_of f name = Some v /\
           (forall name' v', name' ∈ names -> version_of f name' = Some v' -> v' <= v) /\
           t' = [Ev (ReadFile (Join (vf_dir f) name)) (content, err')] /\
           o = Done (match err' with
                     | Some e => ("", "", Some e)
                     | None => (content, "v" +:+ FormatInt v, None)
                     end))
    end.
Proof.
  unfold latestVersionContents. intros He.
  apply exec_bind in He as [(t1 & t2 & [fvs err] & -> & Hl & He)|(w & Hl & ->)];
    apply list_exec in Hl as (names & err' & -> & Hl).
  2:{ exists names, err', []. split; [done|]. destruct err'; [by destruct Hl as (? & [=])|].
      destruct (omap _ names); [by destruct Hl as (? & [=]) | done]. }
  exists names, err', t2. split; [done|]. destruct err' as [err'|].
  { destruct Hl as (e & [= -> ->]). exec_end He. eauto. }
  assert (Hin : forall x, x ∈ omap (to_fv f) names <->
    exists name v, name ∈ names /\ version_of f name = Some v /\
      x = mkFv (Join (vf_dir f) name) v ("v" +:+ FormatInt v)).
  { intros x. rewrite list_elem_of_omap. unfold to_fv. split.
    - intros (name & Hn & (v & Hv & ->)%fmap_Some). eauto.
    - intros (name & v & Hn & Hv & ->). exists name. by rewrite Hv. }
  destruct (omap (to_fv f) names) as [|x0 l0] eqn:Hom.
  { destruct Hl as (e & [= -> ->]). left. exec_end He. split_and!; [|done|eauto].
    apply elem_of_nil_inv. intros v (name & Hn & Hv)%list_elem_of_omap.
    apply (not_elem_of_nil (mkFv (Join (vf_dir f) name) v ("v" +:+ FormatInt v))), Hin. eauto. }
  injection Hl as -> ->. right.
  destruct (sort_ok fv_version (x0 :: l0)) as [Hp Hs].
  destruct (sort_Slice _ (x0 :: l0)) as [|x l]; [by apply Permutation_nil_cons in Hp|].
  destruct (proj1 (Hin x)) as (name & v & Hn & Hv & ->); [rewrite <- Hp; by left|].
  exec_call He as [content err'] t3. exists name, v, content, err'. split_and!; [done|done| | |].
  - intros name' v' Hn' Hv'.
    assert (Hx : mkFv (Join (vf_dir f) name') v' ("v" +:+ FormatInt v') ∈
                 mkFv (Join (vf_dir f) name) v ("v" +:+ FormatInt v) :: l).
    { rewrite Hp. apply Hin. eauto. }
    apply StronglySorted_inv in Hs as [_ Hs]. apply elem_of_cons in Hx as [[= _ -> _]|Hx]; [lia|].
    rewrite Forall_forall in Hs. exact (Hs _ Hx).
  - by destruct err'; exec_end He.
  - by destruct err'; exec_end He.
Qed.

(** C37. A key written to PEM is read back as the same key with its type:
    [PrivateKeyFromPEMBytes] inverts [PEMBytes], for both kinds of key. *)
Theorem PEMBytes_roundtrip s p :
  PEMBytes s = (p, None) ->
  exists ty, PrivateKeyFromPEMBytes p = (ty, SK_Value s, None) /\
    ty = match SK_Value s with SignerRSA _ => RSA | _ => ECDSA end.
Proof.
  unfold PEMBytes, PrivateKeyFromPEMBytes. destruct (SK_Value s) as [k|k| |]; try done.
  - intros [= <-]. rewrite decode_encode by done. simpl. rewrite parse_marshal_rsa. eauto.
  - destruct (MarshalECPrivateKey k) as [b|e] eqn:Hm; [|done]. intros [= <-].
    rewrite decode_encode by done. simpl. rewrite (parse_marshal_ec _ _ Hm). eauto.
Qed.

Lemma version_of_FormatInt f n :
  in_int64 n -> version_of f (vf_prefix f +:+ (".v" +:+ FormatInt n)) = Some n.
Proof.
  intros Hn. unfold version_of. rewrite <- string_app_assoc.
  rewrite HasPrefix_app, TrimPrefix_app. by apply Atoi_FormatInt.
Qed.

(** Every 64-bit number can be a version: a directory entry named
    [<prefix>.v<n>], with [n] in decimal, is listed as version [n], whatever
    the other entries are, and its version string is [v<n>] again. *)
Theorem list_FormatInt f n names :
  in_int64 n -> (vf_prefix f +:+ (".v" +:+ FormatInt n)) ∈ names ->
  mkFv (Join (vf_dir f) (vf_prefix f +:+ (".v" +:+ FormatInt n))) n ("v" +:+ FormatInt n)
    ∈ list_loop (vf_dir f) (vf_prefix f +:+ ".v") names [].
Proof.
  intros Hn Hin. rewrite list_loop_eq. cbn [app]. apply list_elem_of_omap.
  eexists. split; [exact Hin|]. unfold to_fv. by rewrite version_of_FormatInt.
Qed.
End crypto_facts.

(** ** Witnesses *)
Module CryptoExample.
(** Insertion sort. *)
Fixpoint insert (less : fv -> fv -> bool) (x : fv) (l : list fv) : list fv :=
  match l with
  | [] => [x]
  | y :: l' => if less x y then x :: l else y :: insert less x l'
  end.
#[export] Instance sorter : SortSlice := fun less l => foldr (insert less) [] l.

Lemma insert_perm less x l : insert less x l ≡ₚ x :: l.
Proof.
  induction l as [|y l IH]; [done|]. simpl. destruct (less x y); [done|].
  rewrite IH. apply perm_swap.
Qed.

Lemma insert_sorted (key : fv -> Z) x l :
  StronglySorted (fun a b => key b <= key a) l ->
  StronglySorted (fun a b => key b <= key a) (insert (fun a b => key b <? key a)%Z x l).
Proof.
  induction 1 as [|y l Hs IH Hy]; simpl; [by repeat constructor|].
  destruct (Z.ltb_spec (key y) (key x)).
  - constructor; [by constructor|]. constructor; [lia|].
    eapply Forall_impl; [exact Hy|]. simpl. lia.
  - constructor; [done|]. rewrite insert_perm. by constructor.
Qed.

Lemma sorter_ok : SortSliceOk.
Proof.
  intros key l. cbv zeta. unfold sort_Slice, sorter. split.
  - induction l as [|x l IH]; [done|]. simpl. by rewrite insert_perm, IH.
  - induction l as [|x l IH]; [constructor|]. by apply insert_sorted.
Qed.

(** Keys are their encodings, and a block is its type, a newline and the bytes. *)
#[export] Instance plain : CryptoLib := {|
  RsaKey := string;
  EcdsaKey := string;
  pem_Decode s :=
    match Split "010"%char s with
    | ty :: b => Some (ty, Join1 "010"%char b)
    | [] => None
    end;
  pem_EncodeToMemory ty b := ty +:+ String "010"%char b;
  ParseECPrivateKey := inl;
  ParsePKCS1PrivateKey := inl;
  MarshalPKCS1PrivateKey k := k;
  MarshalECPrivateKey := inl
|}.

Lemma plain_ok : CryptoOk.
Proof.
  split; [|done|by intros k b [= ->]]. intros ty b Hty. simpl.
  by rewrite Split_app, Join1_Split.
Qed.

Definition files : versionedFiles := mkVersionedFiles "/keys" "syncer".
Definition entries : list string := ["syncer.v10"; "syncer.v9"; "syncer.vx"; ".old"].
Definition reading : list (ev FsE) :=
  [Ev (ReadDir "/keys") (entries, None); Ev (ReadFile "/keys/syncer.v10") ("key", None)].
Lemma reading_exec : exec (latestVersionContents files) reading (Done ("key", "v10", None)).
Proof. repeat (eexists; eexists; split; [reflexivity|]). split; reflexivity. Defined.
End CryptoExample.

Example latestVersionContents_spec_witness :
  exists names err t', CryptoExample.reading = Ev (ReadDir "/keys") (names, err) :: t'.
Proof.
  destruct (@latestVersionContents_spec CryptoExample.sorter CryptoExample.sorter_ok
    CryptoExample.files _ _ CryptoExample.reading_exec) as (names & err & t' & Ht & _).
  exists names, err, t'. exact Ht.
Defined.

Example PEMBytes_roundtrip_witness :
  exists ty, @PrivateKeyFromPEMBytes CryptoExample.plain
    ("RSA PRIVATE KEY" +:+ String "010"%char "secret") = (ty, @SignerRSA CryptoExample.plain "secret", None) /\ ty = RSA.
Proof.
  apply (@PEMBytes_roundtrip CryptoExample.plain CryptoExample.plain_ok
    (@mkSigningKey CryptoExample.plain "uri" RSA
       (@SignerRSA CryptoExample.plain "secret") "v10")). reflexivity.
Defined.

Example list_FormatInt_witness :
  mkFv "/keys/syncer.v10" 10 "v10" ∈ list_loop "/keys" "syncer.v" CryptoExample.entries [].
Proof.
  apply (list_FormatInt CryptoExample.files 10 CryptoExample.entries); [by split|]. left.
Defined.
