(* ===== verification/Identity.v ===== *)
(** * pkg/identity: the token the ZMS client authenticates with

    A token is minted when there is none or when the current one is about to
    expire, and a ticker asks for it ten times per lifetime.  Instants and
    durations are nanoseconds.  [Token] holds its lock from the first to the
    last call, so its executions do not interleave with one another. *)
From Stdlib Require Import Sorting.Sorted.
From stdpp Require Import base list strings.
From S2P Require Import Prelude Prog GoFloat Zms Effects Crypto.
#[local] Open Scope string_scope.
#[local] Open Scope Z_scope.

Definition refreshIntervalFactor : Z := 10.

(** ** [time.Duration.Seconds] in float64 *)
Definition second : Z := 1000000000.

(** [float64(sec) + float64(nsec)/1e9] *)
Definition Seconds (d : Z) : Z * Z :=
  let sec := d `div` second in
  let nsec := d `mod` second in
  let '(n, m) := float64 nsec second in
  float64 (sec * m + n) m.

(** [time.Second * time.Duration(d.Seconds() * 0.25)]; the conversion
    truncates, and a negative duration mirrors the positive one. *)
Definition grace (d : Z) : Z :=
  let trunc x := let '(n, m) := Seconds x in n `div` (4 * m) in
  wrap64 (second * (if d <? 0 then - trunc (- d) else trunc d)).

Example grace_examples :
  map grace [3600 * second; 3 * second; 4 * second - 1; 4 * second; - 8 * second] =
  [900 * second; 0; 0; second; - 2 * second].
Proof. vm_compute. reflexivity. Qed.

(** The grace period is the quarter of the lifetime in whole seconds, up to
    the rounding of the last nanoseconds of a second. *)
Lemma grace_bounds d :
  0 <= d <= max_int64 ->
  second * (d `div` (4 * second)) <= grace d <= second * ((d `div` second + 1) `div` 4).
Proof.
  intros Hd. unfold grace. destruct (Z.ltb_spec d 0); [lia|]. unfold Seconds.
  assert (Hs : 0 < second) by done.
  pose proof (Z.mod_pos_bound d second Hs) as Hns.
  assert (Hsec : 0 <= d `div` second <= 2 ^ 34).
  { split; [apply Z.div_pos; lia|]. apply Z.div_le_upper_bound; [done|].
    unfold max_int64, second in *. lia. }
  pose proof (float64_between (d `mod` second) second 0 1 ltac:(lia) Hs ltac:(lia) ltac:(lia) ltac:(lia)) as H1.
  destruct (float64 (d `mod` second) second) as [n m]. destruct H1 as [Hm Hnm].
  pose proof (float64_between (d `div` second * m + n) m (d `div` second) (d `div` second + 1)
    ltac:(nia) Hm ltac:(lia) ltac:(nia) ltac:(lia)) as H2.
  destruct (float64 (d `div` second * m + n) m) as [n' m']. destruct H2 as [Hm' Hn'].
  assert (Hq : d `div` (4 * second) = (d `div` second) `div` 4).
  { rewrite Z.mul_comm. symmetry. apply Z.div_div; lia. }
  assert (Hlow : (d `div` second) `div` 4 <= n' `div` (4 * m')).
  { apply Z.div_le_lower_bound; [lia|].
    pose proof (Z.mul_div_le (d `div` second) 4 ltac:(lia)). nia. }
  assert (Hup : n' `div` (4 * m') <= (d `div` second + 1) `div` 4).
  { rewrite (Z.mul_comm 4), <- Z.div_div by lia. apply Z.div_le_mono; [lia|].
    apply Z.div_le_upper_bound; lia. }
  rewrite Hq. rewrite wrap64_id; [nia|].
  assert (Hsmall : (d `div` second + 1) `div` 4 <= 2 ^ 33) by (apply Z.div_le_upper_bound; lia).
  assert (Hpos : 0 <= (d `div` second) `div` 4) by (apply Z.div_pos; lia).
  unfold in_int64, min_int64, max_int64, second in *. nia.
Qed.

(** ** The provider *)

Section identity.
Context `{CryptoLib}.

(** The provider of private keys, the token library, the clock and the ZMS
    client. *)
Inductive IdE : Set -> Type :=
| PrivateKeyProvider : IdE (ptr SigningKey * option error)
| NewTokenBuilder (domain service pem version : string) : IdE (option error)
(** [SetExpiration] and [Token().Value()] of the builder *)
| TokenValue (expiration : Z) : IdE (string * option error)
| Now : IdE Z
| AddCredentials (header token : string) : IdE unit.

Record Config := mkConfig {
  Header : string;
  Domain : string;
  Service : string;
  TokenExpiry : Z
}.

Record TokenProvider := mkTokenProvider {
  config : Config;
  current : string;
  expire : Z
}.

(** [time.Time{}], the first of January of the year 1. *)
Definition zero_time : Z := -62135596800 * second.

Definition UpdateToken (tp : TokenProvider) : prog IdE (TokenProvider * option error) :=
  '(key, err) ← trigger PrivateKeyProvider;
  match err with
  | Some err => mret (tp, Some err)
  | None =>
      key ← deref key;
      let '(pem, err) := PEMBytes key in
      match err with
      | Some err => mret (tp, Some err)
      | None =>
          err ← trigger (NewTokenBuilder (Domain (config tp)) (Service (config tp)) pem (SK_Version key));
          match err with
          | Some err => mret (tp, Some err)
          | None =>
              '(tok, err) ← trigger (TokenValue (TokenExpiry (config tp)));
              match err with
              | Some err => mret (tp, Some err)
              | None =>
                  now ← trigger Now;
                  let tp := mkTokenProvider (config tp) tok (now + TokenExpiry (config tp)) in
                  trigger (AddCredentials (Header (config tp)) (current tp));;
                  mret (tp, None)
              end
          end
      end
  end.

Definition Token (tp : TokenProvider) : prog IdE (TokenProvider * (string * option error)) :=
  let gracePeriod := grace (TokenExpiry (config tp)) in
  now ← trigger Now;
  let now := now + gracePeriod in
  if expire tp <? now then
    '(tp, err) ← UpdateToken tp;
    match err with
    | Some err => mret (tp, ("", Some err))
    | None => mret (tp, (current tp, None))
    end
  else mret (tp, (current tp, None)).

Definition Hour : Z := 3600 * second.

(** The provider and the interval of the refresh loop it starts. *)
Definition NewTokenProvider (c : Config) : prog IdE (ptr (TokenProvider * Z) * option error) :=
  let c := if TokenExpiry c =? 0 then mkConfig (Header c) (Domain c) (Service c) Hour else c in
  let tp := mkTokenProvider c "" zero_time in
  '(tp, (_, err)) ← Token tp;
  match err with
  | Some err => mret (None, Some (Errorf "mint token" err))
  | None => mret (Some (tp, Z.quot (TokenExpiry c) refreshIntervalFactor), None)
  end.

(** The loop: [Token] at each tick; its errors are logged.  It runs in a
    goroutine of its own, and [time.NewTicker], with which it starts, panics
    on an interval that is not positive. *)
Definition ticker_panic : string := "non-positive interval for NewTicker".
Inductive refreshLoop (interval : Z) : TokenProvider -> list (ev IdE) -> outcome TokenProvider -> Prop :=
| refresh_no_ticker tp : interval <= 0 -> refreshLoop interval tp [] (Panicked ticker_panic)
| refresh_stop tp : 0 < interval -> refreshLoop interval tp [] (Done tp)
| refresh_tick tp t tp1 r t' o :
    0 < interval -> exec (Token tp) t (Done (tp1, r)) -> refreshLoop interval tp1 t' o ->
    refreshLoop interval tp (t ++ t')%list o
| refresh_panic tp t w :
    0 < interval -> exec (Token tp) t (Panicked w) -> refreshLoop interval tp t (Panicked w).

(** *** Minting *)

(** The credentials a call gives the client, and the time a call reads. *)
Definition credential (e : ev IdE) : option (string * string) :=
  match e with Ev (AddCredentials h tok) _ => Some (h, tok) | _ => None end.
Definition clock (e : ev IdE) : option Z :=
  match e with Ev Now now => Some now | _ => None end.

(** A minting that fails changes nothing; one that succeeds holds the token
    the builder made for the configured lifetime, which ends that much after
    the clock's time, and has given it to the client. *)
Definition minted (tp : TokenProvider) (t : list (ev IdE)) (tp' : TokenProvider)
    (err : option error) : Prop :=
  match err with
  | Some _ => tp' = tp /\ omap credential t = [] /\ omap clock t = []
  | None => exists now, tp' = mkTokenProvider (config tp) (current tp') (now + TokenExpiry (config tp)) /\
      omap credential t = [(Header (config tp), current tp')] /\ omap clock t = [now] /\
      Ev (TokenValue (TokenExpiry (config tp))) (current tp', None) ∈ t
  end.

Lemma UpdateToken_minted tp t tp' err :
  exec (UpdateToken tp) t (Done (tp', err)) -> minted tp t tp' err.
Proof.
  unfold UpdateToken. intros He. exec_call He as [key e] t1.
  destruct e as [e|]; [by destruct He as [-> [= -> ->]]|].
  destruct key as [key|]; [|by destruct He]. prog_simpl_in He.
  destruct (PEMBytes key) as [pem [e|]]; [by destruct He as [-> [= -> ->]]|].
  exec_call He as e t2. destruct e as [e|]; [by destruct He as [-> [= -> ->]]|].
  exec_call He as [tok e] t3. destruct e as [e|]; [by destruct He as [-> [= -> ->]]|].
  exec_call He as now t4. cbv zeta in He. exec_call He as [] t5.
  destruct He as [-> [= -> ->]]. exists now. cbn [current config]. split_and!; [done..|].
  do 2 right. left.
Qed.

Lemma Token_exec tp t tp' tok err :
  exec (Token tp) t (Done (tp', (tok, err))) ->
  exists now t', t = Ev Now now :: t' /\
    if expire tp <? now + grace (TokenExpiry (config tp)) then
      minted tp t' tp' err /\ tok = match err with Some _ => "" | None => current tp' end
    else t' = [] /\ tp' = tp /\ tok = current tp /\ err = None.
Proof.
  unfold Token. intros He. exec_call He as now t'. exists now, t'. split; [done|]. cbv zeta in He.
  destruct (expire tp <? now + grace (TokenExpiry (config tp))).
  - apply exec_bind in He as [(t1 & t2 & [tp1 e] & -> & Hu & He)|(w & _ & [=])].
    apply UpdateToken_minted in Hu.
    destruct e; destruct He as [-> [= -> -> ->]]; by rewrite app_nil_r.
  - by destruct He as [-> [= -> -> ->]].
Qed.

(** [Token] keeps the current token as long as it lives for more than
    the grace period (a quarter of the lifetime, in whole seconds) from now,
    and otherwise mints one, once, with the configured lifetime, and gives it
    to the client; a minting that fails is reported and leaves the provider
    unchanged.  The token returned is the one the provider holds. *)
Theorem Token_spec tp t tp' tok err :
  exec (Token tp) t (Done (tp', (tok, err))) ->
  exists now t', t = Ev Now now :: t' /\
    if expire tp <? now + grace (TokenExpiry (config tp)) then
      minted tp t' tp' err /\ tok = match err with Some _ => "" | None => current tp' end
    else t' = [] /\ tp' = tp /\ tok = current tp /\ err = None.
Proof. apply Token_exec. Qed.

(** The clock does not go back during the calls [t]. *)
Definition clock_ok (t : list (ev IdE)) : Prop := StronglySorted Z.le (omap clock t).

(** The tick at the time the calls [t] start with, and whether it minted
    without error or had no need to. *)
Definition tick_at (t : list (ev IdE)) : option Z := head (omap clock t).

Lemma tick_covers tp t tp' tok now :
  4 * second <= TokenExpiry (config tp) <= max_int64 ->
  exec (Token tp) t (Done (tp', (tok, None))) -> clock_ok t -> tick_at t = Some now ->
  config tp' = config tp /\ tok = current tp' /\
  now + Z.quot (TokenExpiry (config tp)) refreshIntervalFactor <= expire tp'.
Proof.
  intros HT He Hc Hn. destruct (Token_exec _ _ _ _ _ He) as (n & t' & -> & Hcase).
  unfold tick_at in Hn. simpl in Hn. injection Hn as ->.
  pose proof (grace_bounds (TokenExpiry (config tp)) ltac:(unfold second in *; lia)) as [Hg _].
  set (T := TokenExpiry (config tp)) in *. unfold refreshIntervalFactor.
  rewrite Z.quot_div_nonneg by (unfold second in *; lia).
  destruct (Z.ltb_spec (expire tp) (now + grace T)) as [Hlt|Hge].
  - destruct Hcase as [(n2 & Htp & _ & Hcl & _) ->]. rewrite Htp. cbn [config expire current].
    split_and!; [done..|]. unfold clock_ok in Hc.
    change (omap clock (Ev Now now :: t')) with (now :: omap clock t') in Hc. rewrite Hcl in Hc.
    apply StronglySorted_inv in Hc as [_ Hc%Forall_inv].
    pose proof (Z.div_le_upper_bound T 10 T ltac:(lia) ltac:(unfold second in *; lia)). lia.
  - destruct Hcase as (_ & -> & -> & _). split_and!; [done..|].
    assert (Hq : T `div` 10 <= second * (T `div` (4 * second))); [|lia].
    assert (Hs : 0 < 4 * second) by done.
    pose proof (Z.div_mod T (4 * second) ltac:(lia)) as Hdm.
    pose proof (Z.mod_pos_bound T (4 * second) Hs) as Hm.
    assert (Hone : 1 <= T `div` (4 * second)) by (apply Z.div_le_lower_bound; lia).
    apply Z.div_le_upper_bound; [lia|]. nia.
Qed.

(** The refresh loop while its ticker is on time and minting succeeds: from
    the provider after a tick at one time to the one after a later tick. *)
Inductive ticking (interval : Z) : TokenProvider -> Z -> TokenProvider -> Z -> Prop :=
| ticking_start tp now : ticking interval tp now tp now
| ticking_next tp now tp1 now1 t tp2 tok now2 :
    ticking interval tp now tp1 now1 ->
    exec (Token tp1) t (Done (tp2, (tok, None))) -> clock_ok t -> tick_at t = Some now2 ->
    now1 <= now2 <= now1 + interval -> ticking interval tp now tp2 now2.

Lemma NewTokenProvider_first c t tp interval :
  exec (NewTokenProvider c) t (Done (Some (tp, interval), None)) ->
  exists c' tok, TokenExpiry c' = (if TokenExpiry c =? 0 then Hour else TokenExpiry c) /\
    exec (Token (mkTokenProvider c' "" zero_time)) t (Done (tp, (tok, None))) /\
    interval = Z.quot (TokenExpiry c') refreshIntervalFactor /\ Header c' = Header c.
Proof.
  unfold NewTokenProvider. cbv zeta. intros He.
  apply exec_bind in He as [(t1 & t2 & [tp1 [tok e]] & -> & Ht & He)|(w & _ & [=])].
  destruct e; destruct He as [-> [=]]; subst. rewrite app_nil_r.
  eexists _, tok. split; [|split; [exact Ht|split; [done|]]]; by destruct (TokenExpiry c =? 0).
Qed.

(** C33. With a lifetime of at least four seconds the client is never left
    with an expired token: once the provider was created, at every tick of
    the refresh loop and until the next one is due, the token it has given
    the client is still alive, provided the ticker is on time, the clock
    does not go back and minting succeeds. *)
Theorem token_never_expires c t tp interval now tp' now' :
  (TokenExpiry c = 0 \/ 4 * second <= TokenExpiry c <= max_int64) ->
  exec (NewTokenProvider c) t (Done (Some (tp, interval), None)) ->
  clock_ok t -> tick_at t = Some now -> ticking interval tp now tp' now' ->
  forall x, x <= now' + interval -> x <= expire tp'.
Proof.
  intros HT He Hc Hn Htick x Hx.
  apply NewTokenProvider_first in He as (c' & tok & HT' & He & Hi & _).
  assert (Hlife : 4 * second <= TokenExpiry c' <= max_int64).
  { rewrite HT'. unfold Hour, max_int64, second in *. destruct (Z.eqb_spec (TokenExpiry c) 0); lia. }
  assert (Hinv : TokenExpiry (config tp') = TokenExpiry c' /\ now' + interval <= expire tp').
  { destruct (tick_covers (mkTokenProvider c' "" zero_time) _ _ _ _ Hlife He Hc Hn)
      as (Hcfg & _ & Hcov). cbn [config] in Hcfg, Hcov. clear He Hc Hn HT' HT Hx.
    induction Htick as [tp now|tp now tp1 now1 t1 tp2 tok2 now2 _ IH He2 Hc2 Hn2 _].
    - rewrite Hcfg, Hi. by split.
    - destruct (IH Hcfg Hcov) as [HT1 _].
      assert (Hlife1 : 4 * second <= TokenExpiry (config tp1) <= max_int64) by lia.
      destruct (tick_covers _ _ _ _ _ Hlife1 He2 Hc2 Hn2) as (Hcfg2 & _ & Hcov2).
      rewrite Hcfg2, Hi, <- HT1. by split. }
  lia.
Qed.

Lemma Token_calls tp t o : exec (Token tp) t o -> t <> [].
Proof. unfold Token. intros He. by exec_call He as now t'. Qed.

(** Without a call the loop can only panic for its interval. *)
Lemma refreshLoop_no_calls interval tp w :
  refreshLoop interval tp [] (Panicked w) -> interval <= 0.
Proof.
  intros Hl. remember [] as t eqn:Ht. remember (Panicked w) as o eqn:Ho.
  destruct Hl as [tp Hle|tp _|tp t tp1 r t' o _ He _|tp t w' _ He]; [done|done|..].
  - apply app_eq_nil in Ht as [-> _]. by apply Token_calls in He.
  - subst t. by apply Token_calls in He.
Qed.

(** Any clock of our era mints the first token: its credential is the only
    one given. *)
Lemma NewTokenProvider_credential c t tp interval :
  exec (NewTokenProvider c) t (Done (Some (tp, interval), None)) ->
  (forall now, now ∈ omap clock t -> 0 <= now) ->
  omap credential t = [(Header c, current tp)].
Proof.
  intros (c' & tok & _ & He & _ & Hh)%NewTokenProvider_first Hc. rewrite <- Hh.
  destruct (Token_exec _ _ _ _ _ He) as (now & t' & -> & Hcase). cbn [config expire current] in Hcase.
  assert (0 <= now) as Hnow by (apply Hc; by left).
  assert (zero_time < now + grace (TokenExpiry c')) as Hz.
  { unfold grace. match goal with |- context [wrap64 ?x] => pose proof (wrap64_range x) as Hw; generalize dependent (wrap64 x) end. intros w Hw.
    unfold in_int64, min_int64, max_int64 in Hw. unfold zero_time, second. lia. }
  apply Z.ltb_lt in Hz. rewrite Hz in Hcase. destruct Hcase as [(n & _ & Hcr & _) _].
  by csimpl.
Qed.

(** The lifetimes whose tenth is no interval for a ticker. *)
Lemma interval_positive c c' :
  TokenExpiry c' = (if TokenExpiry c =? 0 then Hour else TokenExpiry c) ->
  Z.quot (TokenExpiry c') refreshIntervalFactor <= 0 <->
    TokenExpiry c <> 0 /\ TokenExpiry c < refreshIntervalFactor.
Proof.
  intros ->. unfold refreshIntervalFactor.
  destruct (Z.eqb_spec (TokenExpiry c) 0) as [Hz|Hz];
    [rewrite Hz; change (Z.quot Hour 10) with (360 * second); unfold second; lia|].
  destruct (Z.ltb_spec (TokenExpiry c) 0) as [Hn|Hn].
  - assert (Z.quot (- TokenExpiry c) 10 = - Z.quot (TokenExpiry c) 10) as Ho by (apply Z.quot_opp_l; lia).
    pose proof (Z.quot_pos (- TokenExpiry c) 10 ltac:(lia) ltac:(lia)). lia.
  - rewrite Z.quot_div_nonneg by lia. pose proof (Z.div_mod (TokenExpiry c) 10 ltac:(lia)).
    pose proof (Z.mod_pos_bound (TokenExpiry c) 10 ltac:(lia)). lia.
Qed.

(** A call of a minting that went well; for a key, one that has a PEM form. *)
Definition minting_ok (e : ev IdE) : Prop :=
  match e with
  | Ev PrivateKeyProvider x =>
      x.2 = None /\ match x.1 with Some key => (PEMBytes key).2 = None | None => False end
  | Ev (NewTokenBuilder _ _ _ _) err => err = None
  | Ev (TokenValue _) x => x.2 = None
  | Ev Now _ | Ev (AddCredentials _ _) _ => True
  end.

Lemma UpdateToken_succeeds tp t o :
  exec (UpdateToken tp) t o -> Forall minting_ok t -> exists tp', o = Done (tp', None).
Proof.
  unfold UpdateToken. intros He Hok.
  exec_call He as [key e] t1. apply Forall_cons in Hok as [[He0 Hk] Hok]. cbn [fst snd] in *. subst e.
  destruct key as [key|]; [|done]. prog_simpl_in He.
  destruct (PEMBytes key) as [pem e]. cbn [snd] in Hk. subst e.
  exec_call He as e t2. apply Forall_cons in Hok as [He0 Hok]. simpl in He0. subst e.
  exec_call He as [tok e] t3. apply Forall_cons in Hok as [He0 Hok]. simpl in He0. subst e.
  exec_call He as now t4. cbv zeta in He. exec_call He as [] t5. destruct He as [_ ->]. eauto.
Qed.

(** When the calls go well a provider is made, whatever the lifetime. *)
Lemma NewTokenProvider_succeeds c t o :
  exec (NewTokenProvider c) t o -> Forall minting_ok t ->
  exists tp interval, o = Done (Some (tp, interval), None).
Proof.
  assert (Htoken : forall tp t o, exec (Token tp) t o -> Forall minting_ok t ->
    exists tp' tok, o = Done (tp', (tok, None))).
  { clear. unfold Token. intros tp t o He Hok. exec_call He as now t1.
    apply Forall_cons in Hok as [_ Hok]. cbv zeta in He. destruct (_ <? _).
    - apply exec_bind in He as [(t2 & t3 & [tp1 e] & -> & Hu & He)|(w & Hu & ->)].
      + apply Forall_app in Hok as [Hok _].
        destruct (UpdateToken_succeeds _ _ _ Hu Hok) as [tp' [= -> ->]].
        destruct He as [_ ->]. eauto.
      + by destruct (UpdateToken_succeeds _ _ _ Hu Hok) as [tp' [=]].
    - destruct He as [_ ->]. eauto. }
  unfold NewTokenProvider. cbv zeta. intros He Hok.
  apply exec_bind in He as [(t1 & t2 & [tp1 [tok e]] & -> & Ht & He)|(w & Ht & ->)].
  - apply Forall_app in Hok as [Hok _]. destruct (Htoken _ _ _ Ht Hok) as (tp' & tok' & [= -> -> ->]).
    destruct He as [_ ->]. eauto.
  - by destruct (Htoken _ _ _ Ht Hok) as (tp' & tok' & [=]).
Qed.

(** C34. Which lifetimes the provider cannot live with.  Whatever the
    lifetime, a negative one included, a provider is created without error
    when the calls that mint its first token go well; its refresh goroutine
    then panics at once, which ends the process, exactly when the lifetime is
    not zero and below ten nanoseconds. *)
Theorem short_lifetimes_crash c t o :
  exec (NewTokenProvider c) t o ->
  (Forall minting_ok t -> exists tp interval, o = Done (Some (tp, interval), None)) /\
  (forall tp interval, o = Done (Some (tp, interval), None) ->
     (TokenExpiry c <> 0 /\ TokenExpiry c < refreshIntervalFactor <->
      refreshLoop interval tp [] (Panicked ticker_panic)) /\
     (TokenExpiry c <> 0 /\ TokenExpiry c < refreshIntervalFactor ->
      forall t' o', refreshLoop interval tp t' o' -> t' = [] /\ o' = Panicked ticker_panic)).
Proof.
  intros He. split; [by eapply NewTokenProvider_succeeds|]. intros tp interval ->.
  apply NewTokenProvider_first in He as (c' & tok & HT & _ & -> & _).
  pose proof (interval_positive c c' HT) as Hi.
  rewrite <- Hi. split; [split; [by constructor|apply refreshLoop_no_calls]|].
  intros Hle t' o Hl. destruct Hl; [done|lia..].
Qed.
End identity.

(** ** Witnesses *)
Module IdentityExample.
#[local] Existing Instance CryptoExample.plain.
Definition key : SigningKey := mkSigningKey "uri" RSA (@SignerRSA CryptoExample.plain "secret") "v10".
Definition c : Config := mkConfig "Athenz-Principal-Auth" "home.domain" "syncer" 0.
Definition c1 : Config := mkConfig "Athenz-Principal-Auth" "home.domain" "syncer" Hour.
Definition start : Z := 1700000000 * second.
Definition tp : TokenProvider := mkTokenProvider c1 "token" (start + Hour).
Definition minting : list (ev IdE) :=
  [Ev Now start; Ev PrivateKeyProvider (Some key, None);
   Ev (NewTokenBuilder "home.domain" "syncer"
         ("RSA PRIVATE KEY" +:+ String (Ascii.ascii_of_nat 10) "secret") "v10") None;
   Ev (TokenValue Hour) ("token", None); Ev Now start;
   Ev (AddCredentials "Athenz-Principal-Auth" "token") tt].
Lemma minting_exec : exec (Token (mkTokenProvider c1 "" zero_time)) minting (Done (tp, ("token", None))).
Proof.
  unfold Token. cbv zeta. prog_simpl. rewrite exec_vis. eexists _, _. split; [reflexivity|].
  replace (_ <? _) with true by (vm_compute; reflexivity).
  repeat (eexists; eexists; split; [reflexivity|]). split; reflexivity.
Qed.
Lemma new_exec : exec (NewTokenProvider c) minting (Done (Some (tp, 360 * second), None)).
Proof.
  unfold NewTokenProvider. rewrite <- (app_nil_r minting).
  eapply exec_bind_done; [exact minting_exec|]. split; reflexivity.
Qed.
(** A lifetime of minus one hour. *)
Definition minus : Config := mkConfig "Athenz-Principal-Auth" "home.domain" "syncer" (- Hour).
Definition minus_minting : list (ev IdE) :=
  [Ev Now start; Ev PrivateKeyProvider (Some key, None);
   Ev (NewTokenBuilder "home.domain" "syncer"
         ("RSA PRIVATE KEY" +:+ String (Ascii.ascii_of_nat 10) "secret") "v10") None;
   Ev (TokenValue (- Hour)) ("token", None); Ev Now start;
   Ev (AddCredentials "Athenz-Principal-Auth" "token") tt].
Lemma minus_exec :
  exec (NewTokenProvider minus) minus_minting
    (Done (Some (mkTokenProvider minus "token" (start - Hour), - (360 * second)), None)).
Proof.
  unfold NewTokenProvider. rewrite <- (app_nil_r minus_minting).
  eapply (exec_bind_done _ _ _ _ (mkTokenProvider minus "token" (start - Hour), ("token", None)));
    [|split; reflexivity].
  unfold Token. cbv zeta. prog_simpl. rewrite exec_vis. eexists _, _. split; [reflexivity|].
  replace (_ <? _) with true by (vm_compute; reflexivity).
  repeat (eexists; eexists; split; [reflexivity|]). split; reflexivity.
Qed.
Lemma minting_clock : clock_ok minting.
Proof.
  change (StronglySorted Z.le [start; start]).
  constructor; [by repeat constructor|]. constructor; [apply Z.le_refl|constructor].
Qed.
End IdentityExample.

Example Token_spec_witness :
  exists now t', IdentityExample.minting = Ev (@Now CryptoExample.plain) now :: t'.
Proof.
  destruct (@Token_spec CryptoExample.plain _ _ _ _ _ IdentityExample.minting_exec)
    as (now & t' & Ht & _).
  exists now, t'. exact Ht.
Defined.

Example token_never_expires_witness :
  IdentityExample.start + 360 * second <= expire IdentityExample.tp.
Proof.
  apply (@token_never_expires CryptoExample.plain IdentityExample.c _ _ _ _ _ _
    (or_introl eq_refl) IdentityExample.new_exec IdentityExample.minting_clock eq_refl
    (ticking_start _ _ IdentityExample.start)). apply Z.le_refl.
Defined.

Example short_lifetimes_crash_witness :
  Forall (@minting_ok CryptoExample.plain) IdentityExample.minus_minting /\
  exists tp interval, exec (NewTokenProvider IdentityExample.minus) IdentityExample.minus_minting
      (Done (Some (tp, interval), None)) /\
    @refreshLoop CryptoExample.plain interval tp [] (Panicked ticker_panic).
Proof.
  destruct (@short_lifetimes_crash CryptoExample.plain _ _ _ IdentityExample.minus_exec) as [Hnew Hcrash].
  assert (Hok : Forall (@minting_ok CryptoExample.plain) IdentityExample.minus_minting).
  { repeat apply Forall_cons_2; [exact I|by split|reflexivity|reflexivity|exact I|exact I|apply Forall_nil_2]. }
  split; [exact Hok|]. destruct (Hnew Hok) as (tp & interval & Heq). exists tp, interval.
  rewrite <- Heq. split; [exact IdentityExample.minus_exec|].
  apply (Hcrash tp interval Heq). split; [discriminate|reflexivity].
Defined.
