(* ===== verification/Reloader.v ===== *)
(** * pkg/reloader: reloading the certificate when its files change

    The fields of [CertReloader] that change are shared between the
    goroutines [FileUpdate] starts, the caller of [NewCertReloader] and the
    readers; each section under the lock, and each operation of the atomic
    flag, is one call here ([SharedReloader] shows that this is enough). *)
From stdpp Require Import base list strings.
From S2P Require Import Prelude Prog GoStrings Zms Effects.
#[local] Open Scope string_scope.

Section reloader.
(** [tls.Certificate] *)
Context {Certificate : Set}.

Record CertReloader := mkCertReloader { certFile : string; keyFile : string }.
Record ReloadConfig := mkReloadConfig { CertFile : string; KeyFile : string }.

(** The shared fields. *)
Record Shared := mkShared {
  cert : ptr Certificate;
  certPEM : string;
  keyPEM : string;
  mtime : Z;
  cond : bool
}.

Inductive ReloadE : Set -> Type :=
(** [os.Stat]: the modification time *)
| Stat (f : string) : ReloadE (Z + error)
| LoadX509KeyPair (certFile keyFile : string) : ReloadE (Certificate + error)
| ReadFile (f : string) : ReloadE (string + error)
| Sleep (d : Z) : ReloadE unit
(** sections under the lock *)
| RLock_cert : ReloadE (ptr Certificate)
| RLock_PEMs : ReloadE (string * string)
| RLock_mtime : ReloadE Z
| Lock_store (c : ptr Certificate) (certPEM keyPEM : string) (mtime : Z) : ReloadE unit
(** [cond.SetToIf] *)
| SetToIf (old new : bool) : ReloadE bool
(** the file watcher of [NewCertReloader] *)
| WatcherRun (files : list string) : ReloadE (option error).

Definition GetLatestCertificate : prog ReloadE (ptr Certificate) :=
  c ← trigger RLock_cert; mret c.

Definition GetLatestKeyAndCert : prog ReloadE (string * string) :=
  '(k, c) ← trigger RLock_PEMs; mret (k, c).

Definition reloadKeyCert (w : CertReloader) : prog ReloadE (Certificate * string * string + error) :=
  r ← trigger (LoadX509KeyPair (certFile w) (keyFile w));
  match r with
  | inr err => mret (inr (Errorf ("unable to load cert from " +:+ certFile w +:+ "," +:+ keyFile w) err))
  | inl cert =>
      r ← trigger (ReadFile (certFile w));
      match r with
      | inr err => mret (inr (Errorf ("unable to load cert from " +:+ certFile w) err))
      | inl certPEM =>
          r ← trigger (ReadFile (keyFile w));
          match r with
          | inr err => mret (inr (Errorf ("unable to load key from " +:+ keyFile w) err))
          | inl keyPEM => mret (inl (cert, certPEM, keyPEM))
          end
      end
  end.

Definition maybeReload (w : CertReloader) : prog ReloadE (option error) :=
  st ← trigger (Stat (certFile w));
  match st with
  | inr err => mret (Some (Errorf ("unable to stat " +:+ certFile w) err))
  | inl modTime =>
      mtime ← trigger RLock_mtime;
      if negb (mtime <? modTime)%Z then mret None
      else
        r ← reloadKeyCert w;
        match r with
        | inr err => mret (Some err)
        | inl (cert, certPEM, keyPEM) =>
            trigger (Lock_store (Some cert) certPEM keyPEM modTime);;
            mret None
        end
  end.

Definition Second : Z := 1000000000.

Definition fileUpdate (w : CertReloader) : prog ReloadE unit :=
  ok ← trigger (SetToIf false true);
  if (ok : bool) then
    trigger (Sleep (Second * 5));;
    _ ← maybeReload w;
    _ ← trigger (SetToIf true false);
    mret tt
  else mret tt.

Definition NewCertReloader (config : ReloadConfig)
  : prog ReloadE (ptr CertReloader * option error) :=
  let r := mkCertReloader (CertFile config) (KeyFile config) in
  let files := [certFile r; keyFile r] in
  err ← trigger (WatcherRun files);
  match err with
  | Some err => mret (None, Some err)
  | None => err ← maybeReload r; mret (Some r, err)
  end.

(** ** The shared fields and the files *)

(** The files at one instant: the modification time of the certificate's
    file, the key pair the two files make, and the contents by path. *)
Record Files := mkFiles {
  f_modTime : Z;
  f_pair : Certificate + error;
  f_contents : string -> string
}.

(** [answered w f s e s']: with the files [f] and the shared fields [s] the
    call [e] can be answered as it is, and leaves the shared fields [s']. *)
Definition answered (w : CertReloader) (f : Files) (s : Shared) (e : ev ReloadE) (s' : Shared) : Prop :=
  match e with
  | Ev e x =>
      match e in ReloadE X return X -> Prop with
      | Stat n => fun x => s' = s /\ (n = certFile w -> x = inl (f_modTime f) \/ exists err, x = inr err)
      | LoadX509KeyPair _ _ => fun x => s' = s /\ x = f_pair f
      | ReadFile n => fun x => s' = s /\
          (x = inl (f_contents f n) \/ exists err, x = inr err)
      | Sleep _ => fun _ => s' = s
      | RLock_cert => fun x => s' = s /\ x = cert s
      | RLock_PEMs => fun x => s' = s /\ x = (keyPEM s, certPEM s)
      | RLock_mtime => fun x => s' = s /\ x = mtime s
      | Lock_store c cp kp m => fun _ => s' = mkShared c cp kp m (cond s)
      | SetToIf old new => fun x =>
          if Bool.eqb (cond s) old
          then x = true /\ s' = mkShared (cert s) (certPEM s) (keyPEM s) (mtime s) new
          else x = false /\ s' = s
      | WatcherRun _ => fun _ => s' = s
      end x
  end.

Fixpoint run_shared (w : CertReloader) (f : Files) (s : Shared) (t : list (ev ReloadE)) (s' : Shared) : Prop :=
  match t with
  | [] => s' = s
  | e :: t' => exists s1, answered w f s e s1 /\ run_shared w f s1 t' s'
  end.

(** ** One reload *)

Lemma maybeReload_shared w f s t o s' :
  exec (maybeReload w) t o -> run_shared w f s t s' ->
  exists err, o = Done err /\
    match err with
    | Some _ => s' = s
    | None =>
        if (mtime s <? f_modTime f)%Z
        then exists c, f_pair f = inl c /\
          s' = mkShared (Some c) (f_contents f (certFile w)) (f_contents f (keyFile w))
                 (f_modTime f) (cond s)
        else s' = s
    end.
Proof.
  unfold maybeReload, reloadKeyCert. intros He Hr.
  exec_call He as st t1. destruct Hr as (s1 & [-> Hst] & Hr). specialize (Hst eq_refl).
  destruct Hst as [->|(err & ->)]; [|exec_end He; cbn in Hr; subst s'; by eexists].
  exec_call He as m t2. destruct Hr as (s2 & [-> ->] & Hr).
  destruct (mtime s <? f_modTime f)%Z; cbn [negb] in He; [|exec_end He; cbn in Hr; subst s'; by eexists].
  exec_call He as r t3. destruct Hr as (s3 & [-> ->] & Hr).
  destruct (f_pair f) as [c|err]; [|exec_end He; cbn in Hr; subst s'; by eexists].
  exec_call He as r t4. destruct Hr as (s4 & [-> Hcp] & Hr).
  destruct Hcp as [->|(err & ->)]; [|exec_end He; cbn in Hr; subst s'; by eexists].
  exec_call He as r t5. destruct Hr as (s5 & [-> Hkp] & Hr).
  destruct Hkp as [->|(err & ->)]; [|exec_end He; cbn in Hr; subst s'; by eexists].
  exec_call He as u t6. destruct Hr as (s6 & -> & Hr). exec_end He.
  cbn in Hr. subst s'. eexists. split; [done|]. by eexists.
Qed.

(** C29. A reload while the files do not change and no other goroutine runs:
    without an error the reader's certificate, its PEM texts and its
    modification time are those of the files when these are newer than what
    is held, and unchanged otherwise; with an error (files missing, torn or
    no key pair) everything held stays as it was, so readers never see a
    broken or half-loaded pair. *)
Theorem maybeReload_spec w f s t o s' :
  exec (maybeReload w) t o -> run_shared w f s t s' ->
  exists err, o = Done err /\
    match err with
    | Some _ => s' = s
    | None =>
        if (mtime s <? f_modTime f)%Z
        then exists c, f_pair f = inl c /\
          s' = mkShared (Some c) (f_contents f (certFile w)) (f_contents f (keyFile w))
                 (f_modTime f) (cond s)
        else s' = s
    end.
Proof. apply maybeReload_shared. Qed.

(** The creation is a first reload. *)
Lemma NewCertReloader_loads c f s t r s' :
  exec (NewCertReloader c) t (Done (Some r, None)) -> mtime s < f_modTime f ->
  run_shared (mkCertReloader (CertFile c) (KeyFile c)) f s t s' ->
  exists x, f_pair f = inl x /\ cert s' = Some x.
Proof.
  unfold NewCertReloader. cbv zeta. intros He Hm Hr. exec_call He as err t1.
  destruct Hr as (s1 & -> & Hr). destruct err as [err|]; [by destruct He|].
  apply exec_bind in He as [(t2 & t3 & err & -> & He & [-> Ho])|(w & _ & [=])].
  injection Ho as _ <-. rewrite app_nil_r in Hr.
  destruct (maybeReload_shared _ _ _ _ _ _ He Hr) as (err & Ho & Hs). injection Ho as <-.
  apply Z.ltb_lt in Hm. rewrite Hm in Hs. destruct Hs as (x & Hx & ->). by exists x.
Qed.


(** ** The goroutines *)

Record State := mkState {
  st_files : Files;
  st_shared : Shared;
  st_threads : list (prog ReloadE unit)
}.

Inductive step (w : CertReloader) : State -> State -> Prop :=
| step_call f s l1 p l2 e p' s' :
    call p e p' -> answered w f s e s' ->
    step w (mkState f s (l1 ++ p :: l2)) (mkState f s' (l1 ++ p' :: l2))
(** [FileUpdate]: the watcher starts a goroutine *)
| step_FileUpdate f s l : step w (mkState f s l) (mkState f s (fileUpdate w :: l))
(** the files are replaced *)
| step_renewed f s l f' : step w (mkState f s l) (mkState f' s l).

Inductive reachable (w : CertReloader) (s0 : State) : State -> Prop :=
| reachable_start : reachable w s0 s0
| reachable_step s s' : reachable w s0 s -> step w s s' -> reachable w s0 s'.

(** After the watcher was started: the caller of [NewCertReloader] does the
    first load, nothing is held yet. *)
Definition zero_time : Z := -62135596800 * Second.
Definition initial (w : CertReloader) (f : Files) : State :=
  mkState f (mkShared None "" "" zero_time false) [(_ ← maybeReload w; mret tt)].

(** The call sets the flag; it clears it. *)
Definition acquires {X : Set} (e : ReloadE X) : bool :=
  match e with SetToIf false true => true | _ => false end.
Definition releases {X : Set} (e : ReloadE X) : bool :=
  match e with SetToIf true false => true | _ => false end.
Definition flagless {X : Set} (e : ReloadE X) : bool :=
  match e with SetToIf _ _ => false | _ => true end.

(** A goroutine that does not use the flag any more. *)
Fixpoint outside {A} (p : prog ReloadE A) : Prop :=
  match p with
  | PVis e k => flagless e = true /\ forall x, outside (k x)
  | _ => True
  end.

(** A goroutine that has set the flag: it will clear it, and only once. *)
Fixpoint inside {A} (p : prog ReloadE A) : Prop :=
  match p with
  | PVis e k => (flagless e = true /\ forall x, inside (k x)) \/
                (releases e = true /\ forall x, outside (k x))
  | _ => False
  end.

(** Some answer to every call. *)
Definition an_answer {X : Set} (e : ReloadE X) : X :=
  match e with
  | Stat _ => inr (OtherError "")
  | LoadX509KeyPair _ _ => inr (OtherError "")
  | ReadFile _ => inr (OtherError "")
  | RLock_cert => None
  | RLock_PEMs => ("", "")
  | RLock_mtime => 0
  | Sleep _ => tt
  | Lock_store _ _ _ _ => tt
  | SetToIf _ _ => true
  | WatcherRun _ => None
  end.

Lemma inside_not_outside {A} (p : prog ReloadE A) : inside p -> outside p -> False.
Proof.
  induction p as [a|w|X e k IH]; simpl; [done..|].
  intros [[_ Hk]|[Hr _]] [Hf Ho].
  - exact (IH (an_answer e) (Hk _) (Ho _)).
  - by destruct e.
Qed.

Lemma inside_bind {A B} (p : prog ReloadE A) (k : A -> prog ReloadE B) :
  outside p -> no_panic p -> (forall a, inside (k a)) -> inside (p ≫= k).
Proof.
  induction p as [a|w|X e k' IH]; simpl; intros Ho Hn Hk; [done..|].
  left. destruct Ho as [Hf Ho]. split; [done|]. intros x. by apply IH.
Qed.

Lemma outside_bind {A B} (p : prog ReloadE A) (k : A -> prog ReloadE B) :
  outside p -> (forall a, outside (k a)) -> outside (p ≫= k).
Proof.
  induction p as [a|w|X e k' IH]; simpl; intros Ho Hk; [done..|].
  destruct Ho as [Hf Ho]. split; [done|]. intros x. by apply IH.
Qed.

Lemma maybeReload_outside w : outside (maybeReload w) /\ no_panic (maybeReload w).
Proof.
  unfold maybeReload, reloadKeyCert. split.
  - split; [done|]. intros [m|e]; [|done]. split; [done|]. intros m'.
    simpl. destruct (negb _); [done|]. split; [done|]. intros [c|e]; [|done].
    split; [done|]. intros [cp|e]; [|done]. split; [done|]. by intros [kp|e].
  - intros [m|e]; [|done]. intros m'. simpl. destruct (negb _); [done|]. intros [c|e]; [|done].
    intros [cp|e]; [|done]. by intros [kp|e].
Qed.

(** A goroutine about to try to set the flag. *)
Definition starting {A} (p : prog ReloadE A) : Prop :=
  match p with
  | PVis e k =>
      match e in ReloadE X return (X -> prog ReloadE A) -> Prop with
      | SetToIf false true => fun k => inside (k true) /\ outside (k false)
      | _ => fun _ => False
      end k
  | _ => False
  end.

Lemma fileUpdate_starting w : starting (fileUpdate w).
Proof.
  split; [|done]. left. split; [done|]. intros x. destruct (maybeReload_outside w).
  apply inside_bind; [done..|]. intros _. right. by split.
Qed.

(** Where a goroutine is with respect to the flag: inside or not. *)
Definition phase (b : bool) (p : prog ReloadE unit) : Prop :=
  if b then inside p else starting p \/ outside p.

(** The goroutines inside are as many as the flag says. *)
Definition flag_ok (s : State) : Prop :=
  exists tags, Forall2 phase tags (st_threads s) /\
    length (filter (fun b => b = true) tags) = if cond (st_shared s) then 1%nat else 0%nat.

Lemma flagless_cond w f s (X : Set) (e : ReloadE X) x s' :
  flagless e = true -> answered w f s (Ev e x) s' -> cond s' = cond s.
Proof. destruct e; simpl; intros Hf Ha; try done; by (rewrite Ha || rewrite (proj1 Ha)). Qed.

(** One call of a goroutine changes its phase and the flag together. *)
Lemma phase_call w f s b p e p' s' :
  phase b p -> call p e p' -> answered w f s e s' ->
  (phase b p' /\ cond s' = cond s) \/
  (b = false /\ phase true p' /\ cond s = false /\ cond s' = true) \/
  (b = true /\ phase false p' /\ (cond s = true -> cond s' = false)).
Proof.
  intros Hp Hc Ha. destruct Hc as [X e k x]. destruct b.
  - destruct Hp as [[Hf Hk]|[Hr Hk]].
    + left. split; [apply Hk|]. by eapply flagless_cond.
    + right. right. split_and!; [done|by right|]. intros Ht.
      destruct e as [| | | | | | | |old new|]; try done. destruct old, new; try done.
      simpl in Ha. rewrite Ht in Ha. by destruct Ha as [_ ->].
  - destruct Hp as [Hs|[Hf Hk]].
    + destruct e as [| | | | | | | |old new|]; try done. destruct old, new; try done.
      destruct Hs as [Hi Ho]. simpl in Ha. destruct (cond s) eqn:Hcond; destruct Ha as [-> ->].
      * left. split; [by right|done].
      * right. left. by split_and!.
    + left. split; [right; apply Hk|]. by eapply flagless_cond.
Qed.

Lemma flag_ok_step w s s' : step w s s' -> flag_ok s -> flag_ok s'.
Proof.
  intros Hs (tags & Ht & Hn). destruct Hs as [f s l1 p l2 e p' s' Hc Ha|f s l|f s l f']; simpl in *.
  - apply Forall2_app_inv_r in Ht as (tg1 & tg2 & Ht1 & Ht2 & ->).
    inversion Ht2 as [|b q tg3 l3 Hp Ht3]; subst.
    rewrite filter_app, length_app, filter_cons in Hn.
    assert (Hput : forall b', phase b' p' ->
      (length (filter (fun b => b = true) tg1) +
         length (filter (fun b => b = true) (b' :: tg3)) =
       (if cond s' then 1 else 0))%nat -> flag_ok (mkState f s' (l1 ++ p' :: l2))).
    { intros b' Hb' Hlen. exists (tg1 ++ b' :: tg3)%list. split.
      - apply Forall2_app; [done|]. by constructor.
      - by rewrite filter_app, length_app. }
    destruct (phase_call _ _ _ _ _ _ _ _ Hp Hc Ha) as [[Hb Hcd]|[(-> & Hb & Hc1 & Hc2)|(-> & Hb & Hc1)]].
    + apply (Hput b Hb). rewrite filter_cons, Hcd. exact Hn.
    + apply (Hput true Hb). rewrite Hc1 in Hn. rewrite Hc2, filter_cons. simpl in *. lia.
    + apply (Hput false Hb). rewrite filter_cons. simpl in *.
      destruct (cond s); [rewrite (Hc1 eq_refl)|]; lia.
  - exists (false :: tags). split; [constructor; [|done]|done]. left. apply fileUpdate_starting.
  - by exists tags.
Qed.

Lemma inside_not_starting {A} (p : prog ReloadE A) : inside p -> starting p -> False.
Proof.
  destruct p as [a|w|X e k]; [done..|]. intros Hi Hs. simpl in Hs.
  destruct e as [| | | | | | | |old new|]; try done. destruct old, new; try done.
  by destruct Hi as [[? _]|[? _]].
Qed.

(** C30. In every interleaving of goroutines started by file events with the
    initial load and changes of the files, at most one goroutine is between
    setting the flag and clearing it; the flag is set exactly while there is
    one.  So the events of one renewal cause one reload at a time. *)
Theorem reload_exclusive w f s :
  reachable w (initial w f) s ->
  (forall l1 p l2 q l3, st_threads s = (l1 ++ p :: l2 ++ q :: l3)%list -> inside p -> inside q -> False) /\
  (cond (st_shared s) = true <-> exists p, p ∈ st_threads s /\ inside p).
Proof.
  intros Hr. assert (Hok : flag_ok s).
  { induction Hr as [|s s' _ IH Hstep]; [|by eapply flag_ok_step].
    exists [false]. split; [|done]. constructor; [|constructor]. right.
    apply outside_bind; [apply maybeReload_outside | done]. }
  destruct Hok as (tags & Ht & Hn).
  assert (Htag : forall b p, phase b p -> inside p -> b = true).
  { intros [] p; [done|]. intros [Hs|Ho] Hi; exfalso;
      [by eapply inside_not_starting | by eapply inside_not_outside]. }
  split.
  - intros l1 p l2 q l3 Heq Hp Hq. rewrite Heq in Ht.
    apply Forall2_app_inv_r in Ht as (tg1 & tg2 & _ & Ht2 & ->).
    inversion Ht2 as [|b1 ? tg3 ? Hb1 Ht3]; subst.
    apply Forall2_app_inv_r in Ht3 as (tg4 & tg5 & _ & Ht5 & ->).
    inversion Ht5 as [|b2 ? tg6 ? Hb2 _]; subst.
    rewrite (Htag _ _ Hb1 Hp), (Htag _ _ Hb2 Hq) in Hn.
    rewrite filter_app, filter_cons, filter_app, filter_cons in Hn. simpl in Hn.
    rewrite length_app in Hn. simpl in Hn. rewrite length_app in Hn. simpl in Hn.
    destruct (cond (st_shared s)); lia.
  - split.
    + intros Hc. rewrite Hc in Hn.
      assert (Hin : true ∈ tags).
      { destruct (filter (fun b => b = true) tags) as [|b l] eqn:Hf; [done|].
        assert (Hb : b ∈ filter (fun b => b = true) tags) by (rewrite Hf; by left).
        apply list_elem_of_filter in Hb as [-> Hb]. done. }
      apply list_elem_of_lookup in Hin as [i Hi].
      destruct (Forall2_lookup_l _ _ _ _ _ Ht Hi) as (p & Hp & Hph).
      exists p. split; [by eapply list_elem_of_lookup_2 | done].
    + intros (p & [i Hp]%list_elem_of_lookup & Hi).
      destruct (Forall2_lookup_r _ _ _ _ _ Ht Hp) as (b & Hb & Hph).
      rewrite (Htag _ _ Hph Hi) in Hb. destruct (cond (st_shared s)); [done|].
      apply length_zero_iff_nil in Hn. exfalso. apply (not_elem_of_nil true).
      rewrite <- Hn. apply list_elem_of_filter. split; [done|]. by eapply list_elem_of_lookup_2.
Qed.

(** Goroutines running while the files stay and no event arrives. *)
Inductive settles (w : CertReloader) : State -> State -> Prop :=
| settles_refl s : settles w s s
| settles_call f s l1 p l2 e p' s' s2 :
    call p e p' -> answered w f s e s' ->
    settles w (mkState f s' (l1 ++ p' :: l2)) s2 -> settles w (mkState f s (l1 ++ p :: l2)) s2.

Lemma settles_trans w s1 s2 s3 : settles w s1 s2 -> settles w s2 s3 -> settles w s1 s3.
Proof. induction 1; intros; [done|]. eapply settles_call; eauto. Qed.

Lemma reachable_settles w s0 s1 s2 : reachable w s0 s1 -> settles w s1 s2 -> reachable w s0 s2.
Proof.
  intros Hr Hs. induction Hs as [s|f s l1 p l2 e p' s' s2 Hc Ha _ IH]; [done|].
  apply IH. eapply reachable_step; [exact Hr|]. by eapply step_call.
Qed.

(** A goroutine completes the first part of its program. *)
Lemma settles_bind {A} w f s l1 (p : prog ReloadE A) (k : A -> prog ReloadE unit) l2 t a s' :
  exec p t (Done a) -> run_shared w f s t s' ->
  settles w (mkState f s (l1 ++ (p ≫= k) :: l2)) (mkState f s' (l1 ++ k a :: l2)).
Proof.
  revert s t. induction p as [b|w'|X e k' IH]; intros s t He Hr.
  - destruct He as [-> [= ->]]. simpl in Hr. subst s'. constructor.
  - by destruct He as [_ ?].
  - destruct He as (x & t' & -> & He). destruct Hr as (s1 & Ha & Hr).
    eapply settles_call; [apply (call_vis X e (fun x => k' x ≫= k) x)|exact Ha|].
    by eapply IH.
Qed.
End reloader.

(** ** A lost event, and witnesses *)
Module ReloadExample.
Definition w : CertReloader := mkCertReloader "cert.pem" "key.pem".
(** The first key pair, and the renewed one. *)
Definition old_files : Files := mkFiles 1 (inl "cert1") (fun n => n +:+ "1").
Definition new_files : Files := mkFiles 2 (inl "cert2") (fun n => n +:+ "2").
Definition empty : @Shared string := mkShared None "" "" zero_time false.
Definition held (flag : bool) : @Shared string :=
  mkShared (Some "cert1") "cert.pem1" "key.pem1" 1 flag.

Definition loading : list (ev ReloadE) :=
  [Ev (Stat "cert.pem") (inl 1); Ev RLock_mtime zero_time;
   Ev (LoadX509KeyPair "cert.pem" "key.pem") (inl "cert1");
   Ev (ReadFile "cert.pem") (inl "cert.pem1"); Ev (ReadFile "key.pem") (inl "key.pem1");
   Ev (Lock_store (Some "cert1") "cert.pem1" "key.pem1" 1) tt].
Lemma loading_exec : exec (maybeReload w) loading (Done None).
Proof. repeat (eexists; eexists; split; [reflexivity|]). split; reflexivity. Qed.
Lemma loading_run : run_shared w old_files empty loading (held false).
Proof.
  repeat (eexists; split; [first [by split; auto | by (split; [done|]; left)]|]). reflexivity.
Qed.
Definition skipping : list (@ev (@ReloadE string)) := [Ev (Stat "cert.pem") (inl 1); Ev RLock_mtime 1].
Lemma skipping_exec : exec (maybeReload w) skipping (Done None).
Proof. repeat (eexists; eexists; split; [reflexivity|]). split; reflexivity. Qed.
Lemma skipping_run : run_shared w old_files (held true) skipping (held true).
Proof. repeat (eexists; split; [by split; auto|]). reflexivity. Qed.
End ReloadExample.

Section lost.
#[local] Open Scope list_scope.
Import ReloadExample.

(** The first load is done, and a goroutine of an earlier event has looked at
    the old files but not yet cleared the flag. *)
Lemma about_to_clear :
  reachable w (initial w old_files)
    (mkState old_files (held true) ([_ ← trigger (SetToIf true false); mret tt] ++ [PRet tt])).
Proof.
  eapply reachable_settles.
  - eapply reachable_step; [|apply step_FileUpdate].
    eapply reachable_settles; [apply reachable_start|].
    apply (settles_bind w _ _ [] (maybeReload w) (fun _ => mret tt) []
             _ _ _ loading_exec loading_run).
  - eapply (settles_call w _ _ []).
    + apply (call_vis bool (SetToIf false true)
        (fun ok : bool => if ok then trigger (Sleep (Second * 5));; _ ← maybeReload w;
                                     _ ← trigger (SetToIf true false); mret tt
                          else mret tt) true).
    + split; reflexivity.
    + eapply settles_trans.
      * apply (settles_bind w _ _ [] (trigger (Sleep (Second * 5)))
          (fun _ => _ ← maybeReload w; _ ← trigger (SetToIf true false); mret tt) _
          [Ev (Sleep (Second * 5)) tt] tt (held true)).
        -- by apply exec_trigger; exists tt.
        -- by exists (held true).
      * apply (settles_bind w _ _ [] (maybeReload w)
          (fun _ => _ ← trigger (SetToIf true false); mret tt) _
          _ _ _ skipping_exec skipping_run).
Qed.

(** C32. A renewal can be missed: when the files are replaced after a
    goroutine has looked at them but before it clears the flag, the goroutine
    of the new event finds the flag set and gives up.  All goroutines end,
    the flag is clear, and readers keep the old certificate although the
    files are newer, until some later event. *)
Theorem renewal_can_be_missed :
  exists s l s' l',
    reachable w (initial w old_files) (mkState new_files s l) /\
    settles w (mkState new_files s (fileUpdate w :: l)) (mkState new_files s' l') /\
    Forall (fun p => p = PRet tt) l' /\ cond s' = false /\
    cert s' = Some "cert1" /\ mtime s' < f_modTime new_files.
Proof.
  exists (held true), ([_ ← trigger (SetToIf true false); mret tt] ++ [PRet tt]).
  exists (held false), [PRet tt; PRet tt; PRet tt]. split.
  { eapply reachable_step; [exact about_to_clear | apply step_renewed]. }
  split; [|by repeat constructor].
  eapply (settles_call w _ _ []).
  - apply (call_vis bool (SetToIf false true)
      (fun ok : bool => if ok then trigger (Sleep (Second * 5));; _ ← maybeReload w;
                                   _ ← trigger (SetToIf true false); mret tt
                        else mret tt) false).
  - by split.
  - eapply (settles_call w _ _ [PRet tt] _ _ (Ev (SetToIf true false) true) (PRet tt) (held false)).
    + apply (call_vis bool (SetToIf true false) (fun _ => mret tt) true).
    + by split.
    + apply settles_refl.
Qed.
End lost.

Example maybeReload_spec_witness :
  exists err, Done (None : option error) = Done err.
Proof.
  destruct (@maybeReload_spec string _ _ _ _ _ _ ReloadExample.loading_exec
    ReloadExample.loading_run) as (err & He & _).
  exists err. exact He.
Defined.

Example reload_exclusive_witness :
  cond (ReloadExample.held true) = true <->
  exists p, p ∈ [_ ← trigger (SetToIf true false); mret tt; PRet tt] /\ @inside string unit p.
Proof.
  exact (proj2 (@reload_exclusive string _ _ _ about_to_clear)).
Defined.
