(* ===== verification/SharedReloader.v ===== *)
(** * pkg/reloader, access by access

    [Reloader] takes each section of [CertReloader] under its [RWMutex] for
    one call.  Here the sections are the accesses they make to the fields,
    several readers can be inside at once, and the goroutines take turns in
    single accesses; what they do is what they do in [Reloader]. *)
From stdpp Require Import base list strings gmap relations.
From S2P Require Import Prelude Prog Mutex GoStrings Zms Effects Reloader.
#[local] Open Scope string_scope.

Section shared.
Context {Certificate : Set} (w : CertReloader).
Abbreviation ReloadE := (@ReloadE Certificate).
Abbreviation Shared := (@Reloader.Shared Certificate).
Abbreviation Files := (@Files Certificate).

(** The fields under the lock. *)
Record Fields := mkFields {
  fd_cert : ptr Certificate;
  fd_certPEM : string;
  fd_keyPEM : string;
  fd_mtime : Z
}.

Inductive FieldE : Set -> Type :=
| GetCert : FieldE (ptr Certificate)
| GetCertPEM : FieldE string
| GetKeyPEM : FieldE string
| GetMtime : FieldE Z
| SetCert (c : ptr Certificate) : FieldE unit
| SetCertPEM (s : string) : FieldE unit
| SetKeyPEM (s : string) : FieldE unit
| SetMtime (t : Z) : FieldE unit.

Definition access (X : Set) (e : FieldE X) (s : Fields) : X * Fields :=
  match e in FieldE X return X * Fields with
  | GetCert => (fd_cert s, s)
  | GetCertPEM => (fd_certPEM s, s)
  | GetKeyPEM => (fd_keyPEM s, s)
  | GetMtime => (fd_mtime s, s)
  | SetCert c => (tt, mkFields c (fd_certPEM s) (fd_keyPEM s) (fd_mtime s))
  | SetCertPEM p => (tt, mkFields (fd_cert s) p (fd_keyPEM s) (fd_mtime s))
  | SetKeyPEM p => (tt, mkFields (fd_cert s) (fd_certPEM s) p (fd_mtime s))
  | SetMtime t => (tt, mkFields (fd_cert s) (fd_certPEM s) (fd_keyPEM s) t)
  end.
Definition accessed (X : Set) (e : FieldE X) (s : Fields) (x : X) (s' : Fields) : Prop :=
  access X e s = (x, s').

(** [GetLatestCertificate] *)
Definition cert_section : prog FieldE (ptr Certificate) := trigger GetCert.
(** [GetLatestKeyAndCert] *)
Definition PEMs_section : prog FieldE (string * string) :=
  k ← trigger GetKeyPEM; c ← trigger GetCertPEM; mret (k, c).
(** [maybeReload] *)
Definition mtime_section : prog FieldE Z := trigger GetMtime.
Definition store_section (c : ptr Certificate) (certPEM keyPEM : string) (modTime : Z)
  : prog FieldE unit :=
  trigger (SetCert c);; trigger (SetCertPEM certPEM);; trigger (SetKeyPEM keyPEM);;
  trigger (SetMtime modTime).

(** The other calls concern the files, the clock and the atomic flag. *)
Definition section (X : Set) (e : ReloadE X) : Sect FieldE ReloadE X :=
  match e with
  | RLock_cert => Guarded Sharing cert_section
  | RLock_PEMs => Guarded Sharing PEMs_section
  | RLock_mtime => Guarded Sharing mtime_section
  | Lock_store c certPEM keyPEM modTime => Guarded Exclusive (store_section c certPEM keyPEM modTime)
  | e => Unguarded e
  end.

(** The fields and the flag together. *)
Definition with_flag (s : Fields) (b : bool) : Shared :=
  mkShared (fd_cert s) (fd_certPEM s) (fd_keyPEM s) (fd_mtime s) b.
Definition fields_of (s : Shared) : Fields := mkFields (cert s) (certPEM s) (keyPEM s) (mtime s).

Lemma with_flag_of s : with_flag (fields_of s) (cond s) = s.
Proof. by destruct s. Qed.

(** A call outside of the sections; the files may have been replaced before
    it. *)
Definition blank : Fields := mkFields None "" "" 0.
Definition outer (X : Set) (e : ReloadE X) (r : bool * Files) (x : X) (r' : bool * Files) : Prop :=
  match section X e with
  | Unguarded _ => answered w r'.2 (with_flag blank r.1) (Ev e x) (with_flag blank r'.1)
  | Guarded _ _ => r' = r
  end.

Lemma sections_read (X : Set) (e : ReloadE X) body :
  section X e = Guarded Sharing body -> safe (reads accessed) body.
Proof.
  assert (Hget : forall (Y : Set) (e : FieldE Y) y, (forall s, (access Y e s).2 = s) -> reads accessed (Ev e y)).
  { intros Y e' y He s s' Ha. unfold accessed in Ha. by rewrite <- (He s), Ha. }
  destruct e; intros [= <-]; simpl; intros; split; try split; try done; by apply Hget.
Qed.

(** Undisturbed, the sections are the calls of [Reloader]. *)
Lemma cert_does s o s' : does accessed cert_section s o s' -> o = Done (fd_cert s) /\ s' = s.
Proof.
  intros (t & He & Ha). apply exec_trigger in He as (c & -> & ->). destruct Ha as (s1 & [= <- <-] & Ha). by cbn in Ha; subst.
Qed.
Lemma mtime_does s o s' : does accessed mtime_section s o s' -> o = Done (fd_mtime s) /\ s' = s.
Proof.
  intros (t & He & Ha). apply exec_trigger in He as (c & -> & ->). destruct Ha as (s1 & [= <- <-] & Ha). by cbn in Ha; subst.
Qed.
Lemma PEMs_does s o s' :
  does accessed PEMs_section s o s' -> o = Done (fd_keyPEM s, fd_certPEM s) /\ s' = s.
Proof.
  intros (t & He & Ha). unfold PEMs_section in He.
  exec_call He as k t1. destruct Ha as (s1 & [= <- <-] & Ha).
  exec_call He as c t2. destruct Ha as (s2 & [= <- <-] & Ha). exec_end He. by cbn in Ha; subst.
Qed.
Lemma store_does c cp kp m s o s' :
  does accessed (store_section c cp kp m) s o s' -> o = Done tt /\ s' = mkFields c cp kp m.
Proof.
  intros (t & He & Ha). unfold store_section in He.
  exec_call He as [] t1. destruct Ha as (s1 & [= <-] & Ha).
  exec_call He as [] t2. destruct Ha as (s2 & [= <-] & Ha).
  exec_call He as [] t3. destruct Ha as (s3 & [= <-] & Ha).
  exec_last He as []. destruct Ha as (s4 & [= <-] & Ha). by cbn in Ha; subst.
Qed.

(** The other calls do not look at the fields. *)
Lemma outer_answered (X : Set) (e e' : ReloadE X) s b f x b' f' :
  section X e = Unguarded e' -> outer X e' (b, f) x (b', f') ->
  answered w f' (with_flag s b) (Ev e x) (with_flag s b').
Proof.
  unfold outer.
  destruct e as [n| | | | | | | |old new|]; intros [= <-]; cbn [fst snd answered section]; intros Ha;
    try (injection Ha as ->; done); try (destruct Ha as [[= ->] Hx]; by split).
  cbn in Ha |- *. destruct (Bool.eqb b old); destruct Ha as [-> [= ->]]; by split.
Qed.

Lemma performs_answered (X : Set) (e : ReloadE X) s b f o s' b' f' :
  performs accessed outer section e (s, (b, f)) o (s', (b', f')) ->
  exists x, o = Done x /\ answered w f' (with_flag s b) (Ev e x) (with_flag s' b').
Proof.
  unfold performs. destruct (section X e) as [mode body|e'] eqn:Hs; cbn [fst snd].
  - intros [Hd [= -> ->]]. destruct e; try discriminate Hs; injection Hs as <- <-.
    + apply cert_does in Hd as [-> ->]. by eexists.
    + apply PEMs_does in Hd as [-> ->]. by eexists.
    + apply mtime_does in Hd as [-> ->]. by eexists.
    + apply store_does in Hd as [-> ->]. by eexists.
  - intros (x & -> & Ha & ->). exists x. split; [done|]. by eapply outer_answered.
Qed.

(** ** The goroutines of [Reloader] *)

Definition state_of (qs : list (prog ReloadE unit)) (a : Fields * (bool * Files)) : State :=
  mkState a.2.2 (with_flag a.1 a.2.1) qs.

Lemma atomic_steps l q1 q2 :
  atomic accessed outer section q1 l q2 ->
  rtc (Reloader.step w) (state_of q1.1 q1.2) (state_of q2.1 q2.2).
Proof.
  induction 1 as [|l w1 cl w2 _ IH Hs]; [done|]. etrans; [exact IH|].
  destruct Hs as [qs [s [b f]] i X e k o [s' [b' f']] Hq Hp].
  apply performs_answered in Hp as (x & -> & Ha). cbn [fst snd continue].
  eapply rtc_l; [apply (step_renewed w f _ qs f')|]. apply rtc_once. unfold state_of. cbn [fst snd].
  rewrite <- (take_drop_middle qs i _ Hq) at 1. rewrite insert_take_drop by by eapply lookup_lt_Some.
  by eapply (step_call w f' _ _ (PVis e k) _ (Ev e x)).
Qed.

Lemma accessed_total X (e : FieldE X) s : exists x s', accessed X e s x s'.
Proof. exists (access X e s).1, (access X e s).2. apply surjective_pairing. Qed.

Lemma outer_total X (e e' : ReloadE X) r :
  section X e = Unguarded e' -> exists x r', outer X e' r x r'.
Proof.
  destruct r as [b f]. unfold outer.
  destruct e as [n| |n| | | | | |old new|]; intros [= <-]; cbn [fst snd answered section].
  - exists (inr (OtherError "")), (b, f). split; [done|]. intros _. right. by eexists.
  - exists (f_pair f), (b, f). by split.
  - exists (inr (OtherError "")), (b, f). split; [done|]. right. by eexists.
  - by exists tt, (b, f).
  - cbn. destruct (Bool.eqb b old); [exists true, (new, f)|exists false, (b, f)]; by split.
  - by exists None, (b, f).
Qed.

(** C31. Any number of goroutines share one reloader, each running any
    program over its calls ([fileUpdate], the first load, readers), and take
    turns in single accesses to the fields; the files may be replaced at any
    time.  At every moment they have come as far as goroutines of [Reloader]
    can come, whose sections are single calls: the machine is related to such
    a state, and while nobody is in a section the goroutines, the fields and
    the flag are the same, so that no reader has seen a certificate that was
    stored in part.  And as long as one of them is not finished, one of them
    can go on. *)
Theorem sections_refine qs f s c :
  rtc (Mutex.step accessed outer)
    (mkMachine (map (code section) qs) None ∅ (fields_of s) (cond s, f)) c ->
  (exists qs' f' s',
     rtc (Reloader.step w) (mkState f s qs) (mkState f' s' qs') /\
     abstracts accessed section c (qs', (fields_of s', (cond s', f'))) /\
     (writer c = None -> readers c = ∅ ->
        goroutines c = map (code section) qs' /\ object c = fields_of s' /\ others c = (cond s', f'))) /\
  (Forall finished (goroutines c) \/ exists c', Mutex.step accessed outer c c').
Proof.
  intros Hs. apply (locked_atomic accessed outer section sections_read qs (fields_of s, (cond s, f))) in Hs
    as (l & [qs' [s' [b' f']]] & Hl & Ha). split.
  - apply atomic_steps in Hl. unfold state_of in Hl. cbn [fst snd] in Hl. rewrite with_flag_of in Hl.
    exists qs', f', (with_flag s' b').
    assert (fields_of (with_flag s' b') = s') as -> by by destruct s'.
    split_and!; [exact Hl|exact Ha|]. intros Hw Hr.
    destruct (abstracts_free accessed section sections_read _ _ Ha Hw Hr) as [Hg [= Ho Ht]].
    by rewrite Ho, Ht.
  - apply (locked_runs accessed outer section sections_read accessed_total outer_total c _ Ha).
Qed.
End shared.

(** ** Witness: the first load, and a reader of the PEM texts *)
Module SharedReloadExample.
Import ReloadExample.
Definition reader : prog (@ReloadE string) unit :=
  '(k, c) ← GetLatestKeyAndCert;
  if String.eqb k "" then mret tt else if String.eqb c "" then PPanic "half" else mret tt.
Definition programs : list (prog (@ReloadE string) unit) :=
  [(_ ← maybeReload w; mret tt); reader; fileUpdate w].

Definition answer_other (X : Set) (e : @ReloadE string X) (r : bool * @Files string)
  : X * (bool * @Files string) :=
  match e in ReloadE X return X * (bool * @Files string) with
  | Stat _ => (inl (f_modTime r.2), r)
  | LoadX509KeyPair _ _ => (f_pair r.2, r)
  | ReadFile n => (inl (f_contents r.2 n), r)
  | Sleep _ => (tt, r)
  | RLock_cert => (None, r)
  | RLock_PEMs => (("", ""), r)
  | RLock_mtime => (0, r)
  | Lock_store _ _ _ _ => (tt, r)
  | SetToIf old new => if Bool.eqb r.1 old then (true, (new, r.2)) else (false, r)
  | WatcherRun _ => (None, r)
  end.
Lemma answer_outer X (e : @ReloadE string X) r :
  outer w X e r (answer_other X e r).1 (answer_other X e r).2.
Proof.
  unfold outer. destruct r as [b f]. destruct e; simpl; try done; try (split; [done|]; by auto).
  destruct (Bool.eqb b old); by split.
Qed.

Definition start : Machine :=
  mkMachine (map (code section) programs) None ∅ (fields_of empty) (false, old_files).
Definition turns : list nat := concat (repeat [0; 1; 2]%nat 20).
Lemma sections_run :
  let c := schedule access answer_other turns start in
  goroutines c = [PRet tt; PRet tt; PRet tt] /\
  object c = mkFields (Some "cert1") "cert.pem1" "key.pem1" 1 /\ (others c).1 = false.
Proof. vm_compute. by split_and!. Qed.
End SharedReloadExample.

Example sections_refine_witness :
  exists qs' f' s',
    rtc (Reloader.step ReloadExample.w)
      (mkState ReloadExample.old_files ReloadExample.empty SharedReloadExample.programs)
      (mkState f' s' qs').
Proof.
  destruct (sections_refine ReloadExample.w SharedReloadExample.programs ReloadExample.old_files
    ReloadExample.empty _
    (schedule_steps accessed (outer ReloadExample.w) access SharedReloadExample.answer_other
       (fun X e s => surjective_pairing (access X e s)) SharedReloadExample.answer_outer
       SharedReloadExample.turns SharedReloadExample.start))
    as [(qs' & f' & s' & Hs & _) _].
  exists qs', f', s'. exact Hs.
Defined.
