(* ===== verification/Log.v ===== *)
(** * pkg/log: the logger

    One logger for the process, written by [InitLogger] and used by the
    exported functions, and one for HTTP accesses.  logrus, lumberjack and
    the file system are calls; loggers are the values this package builds. *)
From stdpp Require Import base list strings.
From S2P Require Import Prelude Prog GoPath Effects.
#[local] Open Scope string_scope.

(** ** The values *)

Inductive Level := PanicLevel | FatalLevel | ErrorLevel | WarnLevel | InfoLevel | DebugLevel | TraceLevel.

(** [lumberjack.Logger], [os.Stdout] and [io.MultiWriter] *)
#[warnings="-register-all"]
Inductive Writer :=
| Stdout
| Rotating (Filename : string) (MaxSize MaxBackups MaxAge : Z)
| MultiWriter (l : list Writer).

Record TextFormatter := mkFormatter {
  ForceColors : bool;
  DisableSorting : bool;
  FullTimestamp : bool;
  DisableLevelTruncation : bool
}.

Record Logger := mkLogger {
  Out : Writer;
  Formatter : TextFormatter;
  LogLevel : Level;
  NoLock : bool
}.
Definition set_Out (w : Writer) (l : Logger) : Logger :=
  mkLogger w (Formatter l) (LogLevel l) (NoLock l).
Definition SetNoLock (l : Logger) : Logger :=
  mkLogger (Out l) (Formatter l) (LogLevel l) true.

(** The methods of a logrus logger that are called. *)
Inductive Method :=
| MDebugf | MInfof | MPrintf | MWarnf | MWarningf | MErrorf | MFatalf | MPanicf
| MDebug | MInfo | MPrint | MWarn | MWarning | MError | MFatal | MPanic
| MDebugln | MInfoln | MPrintln | MWarnln | MWarningln | MErrorln | MFatalln | MPanicln.

(** What they log, where, and whether they end the process or panic. *)
Inductive Ending := Continues | Exits | Panics.
Definition documented (m : Method) : Level * Ending :=
  match m with
  | MDebugf | MDebug | MDebugln => (DebugLevel, Continues)
  | MInfof | MInfo | MInfoln | MPrintf | MPrint | MPrintln => (InfoLevel, Continues)
  | MWarnf | MWarn | MWarnln | MWarningf | MWarning | MWarningln => (WarnLevel, Continues)
  | MErrorf | MError | MErrorln => (ErrorLevel, Continues)
  | MFatalf | MFatal | MFatalln => (FatalLevel, Exits)
  | MPanicf | MPanic | MPanicln => (PanicLevel, Panics)
  end.

Inductive LogE : Set -> Type :=
| ParseLevel (s : string) : LogE (Level * option error)
| MkdirAll (dir : string) (perm : Z) : LogE (option error)
(** logrus's standard logger *)
| Std (m : Method) (text : string) : LogE unit
(** a method of a logger of this package *)
| LogrusCall (l : Logger) (m : Method) (args : list string) : LogE unit
| NewLoggingHandler (h : nat) (l : Logger) : LogE nat.
Abbreviation lprog := (prog LogE).

(** ** The package *)

Definition newLogger (logFile level : string) : lprog Logger :=
  let logger := Rotating logFile 1 5 28 in
  let fileWriter := MultiWriter [Stdout; logger] in
  '(logLevel, err) ← trigger (ParseLevel level);
  logLevel ← (match err with
              | Some _ =>
                  trigger (Std MWarnln "Could not parse log level, defaulting to info. Error:");;
                  mret InfoLevel
              | None => mret logLevel
              end);
  let formatter := mkFormatter true true true true in
  let l := mkLogger fileWriter formatter logLevel false in
  let l := SetNoLock l in
  let dir := Dir logFile in
  err ← trigger (MkdirAll dir 493);
  match err with
  | Some _ =>
      trigger (Std MErrorln "Could not mkdir for log file, defaulting to stdout logging. Error:");;
      mret (set_Out Stdout l)
  | None => mret l
  end.

(** The package variable [log] after the call. *)
Definition InitLogger (logFile level : string) : lprog (ptr Logger) :=
  l ← newLogger logFile level;
  mret (Some l).

(** [AccessLogger]; the fields of a log record as the texts [Printf] makes
    of them. *)
Record AccessLogger := mkAccessLogger { access : ptr Logger }.
Definition AccessLogger_Log (l : AccessLogger) (record : list string) : lprog unit :=
  access ← deref (access l);
  trigger (LogrusCall access MPrintf ("%s %s %d %v %v" :: record)).
Definition InitAccessLogger (h : nat) (logFile level : string) : lprog nat :=
  l ← newLogger logFile level;
  trigger (NewLoggingHandler h l).

(** The exported functions. *)
Inductive Exported :=
| Debugf | Infof | Printf | Warnf | Warningf | Errorf | Fatalf | Panicf
| Debug | Info | Print | Warn | Warning | Error | Fatal | Panic
| Debugln | Infoln | Println | Warnln | Warningln | Errorln | Fatalln | Panicln.

(** The method each of them calls on [log] with its own arguments. *)
Definition forwards (f : Exported) : Method :=
  match f with
  | Debugf => MDebugf
  | Infof => MInfof
  | Printf => MPrintf
  | Warnf => MWarnf
  | Warningf => MWarningf
  | Errorf => MErrorf
  | Fatalf => MFatalf
  | Panicf => MPanicf
  | Debug => MDebug
  | Info => MInfo
  | Print => MPrint
  | Warn => MWarn
  | Warning => MWarning
  | Error => MError
  | Fatal => MFatal
  | Panic => MPanic
  | Debugln => MDebugln
  | Infoln => MInfoln
  | Println => MPrintln
  | Warnln => MWarnln
  | Warningln => MWarningln
  | Errorln => MErrorln
  | Fatalln => MFatalln
  | Panicln => MPanicln
  end.

(** A call of one of them; a method of the nil logger panics. *)
Definition log_call (log : ptr Logger) (f : Exported) (args : list string) : lprog unit :=
  l ← deref log;
  trigger (LogrusCall l (forwards f) args).

(** ** Theorems *)

(** The logger that is built: the level that was parsed, or Info, with a
    warning; standard output and the file, or standard output alone, with an
    error logged. *)
Inductive built (logFile level : string) : list (ev LogE) -> Logger -> Prop :=
| built_intro lv perr merr :
    built logFile level
      (Ev (ParseLevel level) (lv, perr) ::
       (match perr with
        | Some _ => [Ev (Std MWarnln "Could not parse log level, defaulting to info. Error:") tt]
        | None => []
        end) ++
       Ev (MkdirAll (Dir logFile) 493) merr ::
       (match merr with
        | Some _ => [Ev (Std MErrorln "Could not mkdir for log file, defaulting to stdout logging. Error:") tt]
        | None => []
        end))%list
      (mkLogger (match merr with
                 | Some _ => Stdout
                 | None => MultiWriter [Stdout; Rotating logFile 1 5 28]
                 end)
         (mkFormatter true true true true)
         (match perr with Some _ => InfoLevel | None => lv end) true).

Lemma newLogger_exec logFile level t o :
  exec (newLogger logFile level) t o <-> exists l, built logFile level t l /\ o = Done l.
Proof.
  unfold newLogger. split.
  - intros He. exec_call He as [lv perr] t1.
    destruct perr as [e|]; [exec_call He as [] t2|]; exec_call He as merr t3;
      (destruct merr as [e'|]; [exec_call He as [] t4|]); exec_end He;
      eexists; (split; [|reflexivity]).
    + apply (built_intro logFile level lv (Some e) (Some e')).
    + apply (built_intro logFile level lv (Some e) None).
    + apply (built_intro logFile level lv None (Some e')).
    + apply (built_intro logFile level lv None None).
  - intros (l & [lv perr merr] & ->). destruct perr, merr; exec_build.
Qed.

(** Logging works after the initialisation, whatever happens in it: the
    level text may be wrong and the log's directory impossible to make, a call
    of any exported function after [InitLogger] still reaches the method of
    its name with its arguments, on a logger that writes to standard output
    and, when the directory could be made, to the rotated file, at the level
    that was asked for when it could be parsed and else at Info.  Before it
    every exported function panics. *)
Theorem InitLogger_spec logFile level f args t (o : outcome unit) :
  exec (E := LogE) (log ← InitLogger logFile level; log_call log f args) t o ->
  (exists l tb, t = (tb ++ [Ev (LogrusCall l (forwards f) args) tt])%list /\ o = Done tt /\
     built logFile level tb l /\
     (Out l = Stdout \/ Out l = MultiWriter [Stdout; Rotating logFile 1 5 28])) /\
  exec (log_call None f args) [] (Panicked nil_deref).
Proof.
  intros He. split; [|by split].
  apply exec_bind in He as [(t1 & t2 & p & -> & Hi & Hc)|(w & Hi & ->)];
    (apply exec_bind in Hi as [(t3 & t4 & l & -> & Hl & Hr)|(w' & Hl & ?)];
     apply newLogger_exec in Hl as (l' & Hb & [=])); [subst l'|by destruct Hr].
  destruct Hr as [-> [= ->]]. destruct Hc as ([] & t5 & -> & -> & ->).
  exists l, t3. rewrite app_nil_r. split_and!; try done.
  destruct Hb as [lv perr merr]. simpl. destruct merr; auto.
Qed.

(** Which functions end the process: the Fatal ones exit, the Panic ones
    panic, all others go on, and the levels are those of the names. *)
Lemma forwards_documented f :
  documented (forwards f) =
  match f with
  | Debugf | Debug | Debugln => (DebugLevel, Continues)
  | Infof | Info | Infoln | Printf | Print | Println => (InfoLevel, Continues)
  | Warnf | Warn | Warnln | Warningf | Warning | Warningln => (WarnLevel, Continues)
  | Errorf | Error | Errorln => (ErrorLevel, Continues)
  | Fatalf | Fatal | Fatalln => (FatalLevel, Exits)
  | Panicf | Panic | Panicln => (PanicLevel, Panics)
  end.
Proof. by destruct f. Qed.

(** ** Witness *)
Module LogExample.
Definition logger : Logger :=
  mkLogger (MultiWriter [Stdout; Rotating "/var/log/syncer.log" 1 5 28])
    (mkFormatter true true true true) InfoLevel true.
Definition t : list (ev LogE) :=
  [Ev (ParseLevel "loud") (PanicLevel, Some (OtherError "not a valid logrus Level"));
   Ev (Std MWarnln "Could not parse log level, defaulting to info. Error:") tt;
   Ev (MkdirAll "/var/log" 493) None;
   Ev (LogrusCall logger MInfoln ["started"]) tt].
Lemma t_exec :
  exec (E := LogE) (log ← InitLogger "/var/log/syncer.log" "loud"; log_call log Infoln ["started"]) t (Done tt).
Proof. repeat (eexists _, _; split; [reflexivity|]). split; reflexivity. Qed.
End LogExample.

Example InitLogger_spec_witness :
  exists l tb,
    LogExample.t = (tb ++ [Ev (LogrusCall l MInfoln ["started"]) tt])%list /\
    built "/var/log/syncer.log" "loud" tb l.
Proof.
  destruct (InitLogger_spec _ _ _ _ _ _ LogExample.t_exec) as [(l & tb & Ht & _ & Hb & _) _].
  exists l, tb. split; [exact Ht | exact Hb].
Defined.
