(* ===== verification/Rest.v ===== *)
(** * pkg/client: the typed client of the AthenzDomains

    [typed/athenz/v1/athenzdomain.go]: each method of the client is a chain of
    calls on a request builder of client-go that ends in [Do] or [Watch].  A
    request is that chain here.  What the API server makes of a request is
    documented by Kubernetes ([rest_step]); the calls [AdCreate], [AdUpdate]
    and [AdDelete] of [Effects] are shown to be what the client does with
    them ([Cluster.cluster_step]). *)
From stdpp Require Import base list strings gmap.
From S2P Require Import Prelude Prog Zms Effects Cluster.
#[local] Open Scope string_scope.

Definition Second : Z := 1000000000.

Section rest.
Context `{ZmsData}.

(** ** Requests *)

(** The options structs, as far as they are read; the selectors and the rest
    are one text that is only carried along. *)
Record ListOptions := mkListOptions {
  LO_TimeoutSeconds : ptr Z;
  LO_Watch : bool;
  LO_rest : string
}.
Definition set_Watch (w : bool) (o : ListOptions) : ListOptions :=
  mkListOptions (LO_TimeoutSeconds o) w (LO_rest o).

Inductive Params :=
| ParamsGet (o : string)
| ParamsList (o : ListOptions)
| ParamsCreate (o : string)
| ParamsUpdate (o : string)
| ParamsPatch (o : string).

Inductive Payload :=
| PayloadDomain (cr : ptr AthenzDomain)
| PayloadDelete (o : string)
| PayloadBytes (b : string).

Inductive Verb := GET | POST | PUT | DELETE | PATCH (pt : string).

(** A call on the request builder. *)
Inductive Build :=
| Resource (r : string)
| Name (n : string)
| SubResource (l : list string)
| VersionedParams (p : Params)
| Timeout (d : Z)
| Body (b : Payload).

Record Request := mkRequest {
  req_verb : Verb;
  req_builds : list Build
}.

Record AthenzDomainList := mkADList {
  ADL_Meta : MetaRest;
  ADL_Items : slice AthenzDomain
}.

(** [Do(ctx).Into(result)] answers what [result] holds and the error,
    [Do(ctx).Error()] the error, [Watch(ctx)] the watch, here a handle. *)
Inductive RestE : Set -> Type :=
| DoInto (r : Request) : RestE (AthenzDomain * option error)
| DoIntoList (r : Request) : RestE (AthenzDomainList * option error)
| DoError (r : Request) : RestE (option error)
| DoWatch (r : Request) : RestE (option nat * option error).
End rest.

Abbreviation rprog := (prog RestE).

(** ** The client *)
Module AthenzDomains.
Section client.
Context `{ZmsData}.

(** [timeout = time.Duration( *opts.TimeoutSeconds) * time.Second] *)
Definition timeout (opts : ListOptions) : Z :=
  match LO_TimeoutSeconds opts with
  | Some s => wrap64 (s * Second)
  | None => 0
  end.

Definition Get (name options : string) : rprog (ptr AthenzDomain * option error) :=
  '(result, err) ← trigger (DoInto (mkRequest GET
      [Resource "athenzdomains"; Name name; VersionedParams (ParamsGet options)]));
  mret (Some result, err).

Definition List (opts : ListOptions) : rprog (ptr AthenzDomainList * option error) :=
  let timeout := timeout opts in
  '(result, err) ← trigger (DoIntoList (mkRequest GET
      [Resource "athenzdomains"; VersionedParams (ParamsList opts); Timeout timeout]));
  mret (Some result, err).

Definition Watch (opts : ListOptions) : rprog (option nat * option error) :=
  let timeout := timeout opts in
  let opts := set_Watch true opts in
  trigger (DoWatch (mkRequest GET
      [Resource "athenzdomains"; VersionedParams (ParamsList opts); Timeout timeout])).

Definition Create (athenzDomain : ptr AthenzDomain) (opts : string)
  : rprog (ptr AthenzDomain * option error) :=
  '(result, err) ← trigger (DoInto (mkRequest POST
      [Resource "athenzdomains"; VersionedParams (ParamsCreate opts);
       Body (PayloadDomain athenzDomain)]));
  mret (Some result, err).

Definition Update (athenzDomain : ptr AthenzDomain) (opts : string)
  : rprog (ptr AthenzDomain * option error) :=
  cr ← deref athenzDomain;
  '(result, err) ← trigger (DoInto (mkRequest PUT
      [Resource "athenzdomains"; Name (AD_Name cr); VersionedParams (ParamsUpdate opts);
       Body (PayloadDomain athenzDomain)]));
  mret (Some result, err).

Definition Delete (name opts : string) : rprog (option error) :=
  trigger (DoError (mkRequest DELETE
      [Resource "athenzdomains"; Name name; Body (PayloadDelete opts)])).

Definition DeleteCollection (opts : string) (listOpts : ListOptions) : rprog (option error) :=
  let timeout := timeout listOpts in
  trigger (DoError (mkRequest DELETE
      [Resource "athenzdomains"; VersionedParams (ParamsList listOpts); Timeout timeout;
       Body (PayloadDelete opts)])).

Definition Patch (name pt data opts : string) (subresources : list string)
  : rprog (ptr AthenzDomain * option error) :=
  '(result, err) ← trigger (DoInto (mkRequest (PATCH pt)
      [Resource "athenzdomains"; Name name; SubResource subresources;
       VersionedParams (ParamsPatch opts); Body (PayloadBytes data)]));
  mret (Some result, err).
End client.
End AthenzDomains.

(** ** What a request means to the API server *)

Section server.
Context `{ZmsData}.

(** The last call of a kind wins. *)
Fixpoint last_build {A} (f : Build -> option A) (l : list Build) : option A :=
  match l with
  | [] => None
  | b :: l' => match last_build f l' with Some a => Some a | None => f b end
  end.
Definition req_resource (r : Request) : option string :=
  last_build (fun b => match b with Resource n => Some n | _ => None end) (req_builds r).
Definition req_name (r : Request) : option string :=
  last_build (fun b => match b with Name n => Some n | _ => None end) (req_builds r).
Definition req_timeout (r : Request) : option Z :=
  last_build (fun b => match b with Timeout d => Some d | _ => None end) (req_builds r).
Definition req_body (r : Request) : option Payload :=
  last_build (fun b => match b with Body p => Some p | _ => None end) (req_builds r).

Inductive Operation :=
| OpCreate (cr : AthenzDomain)
| OpReplace (name : string) (cr : AthenzDomain)
| OpDelete (name : string)
| OpOther.

(** The operation on the AthenzDomains. *)
Definition operation (r : Request) : Operation :=
  match req_resource r with
  | Some res =>
      if String.eqb res "athenzdomains" then
        match req_verb r, req_name r, req_body r with
        | POST, None, Some (PayloadDomain (Some cr)) => OpCreate cr
        | PUT, Some n, Some (PayloadDomain (Some cr)) => OpReplace n cr
        | DELETE, Some n, _ => OpDelete n
        | _, _, _ => OpOther
        end
      else OpOther
  | None => OpOther
  end.

(** A request that is answered with an error changes nothing; creating needs
    a free name, replacing an existing object of that name, and the server
    manages the metadata of what it stores. *)
Definition perform (op : Operation) (err : option error)
    (crs crs' : gmap string AthenzDomain) : Prop :=
  match err with
  | Some _ => crs' = crs
  | None =>
      match op with
      | OpCreate cr => crs !! AD_Name cr = None /\
          exists stored, same_object stored cr /\ crs' = <[AD_Name cr := stored]> crs
      | OpReplace n cr => n = AD_Name cr /\ is_Some (crs !! n) /\
          exists stored, same_object stored cr /\ crs' = <[n := stored]> crs
      | OpDelete n => crs' = delete n crs
      | OpOther => True
      end
  end.

Definition rest_step (crs : gmap string AthenzDomain) (e : ev RestE)
    (crs' : gmap string AthenzDomain) : Prop :=
  match e with
  | Ev e x =>
      match e in RestE X return X -> Prop with
      | DoInto r => fun x => perform (operation r) x.2 crs crs'
      | DoError r => fun err => perform (operation r) err crs crs'
      | DoIntoList _ | DoWatch _ => fun _ => crs' = crs
      end x
  end.
End server.

Section theorems.
Context `{ZmsData}.

(** An execution of one request. *)
Definition requested {A} (p : rprog A) (crs : gmap string AthenzDomain) (x : A)
    (crs' : gmap string AthenzDomain) : Prop :=
  exists e, exec p [e] (Done x) /\ rest_step crs e crs'.

Lemma requested_into r crs obj err crs' :
  requested ('(result, err) ← trigger (DoInto r); mret (Some result, err)) crs (Some obj, err) crs' <->
  perform (operation r) err crs crs'.
Proof.
  unfold requested. split.
  - intros (e & He & Hs). simpl in He. destruct He as ([y er] & t' & [= -> <-] & _ & [= -> ->]).
    exact Hs.
  - intros Hs. exists (Ev (DoInto r) (obj, err)). split; [|exact Hs].
    by exists (obj, err), [].
Qed.

Lemma requested_error r crs err crs' :
  requested (trigger (DoError r)) crs err crs' <-> perform (operation r) err crs crs'.
Proof.
  unfold requested. split.
  - intros (e & He & Hs). simpl in He. destruct He as (x & t' & [= -> <-] & _ & [= ->]). exact Hs.
  - intros Hs. exists (Ev (DoError r) err). split; [|exact Hs]. by exists err, [].
Qed.

(** The three writing calls of the controller side are what the typed
    client makes of them: with the API server taking the client's requests
    for what they say, creating, updating and deleting through the client
    have exactly the effects [cluster_step] gives to [AdCreate], [AdUpdate]
    and [AdDelete], with the same error; and updating a nil CR panics
    instead of sending a request. *)
Lemma typed_client_methods crs crs' cr n opts obj err :
  (requested (AthenzDomains.Create (Some cr) opts) crs (Some obj, err) crs' <->
   cluster_step crs (Ev (AdCreate cr) (Some obj, err)) crs') /\
  (requested (AthenzDomains.Update (Some cr) opts) crs (Some obj, err) crs' <->
   cluster_step crs (Ev (AdUpdate cr) (Some obj, err)) crs') /\
  (requested (AthenzDomains.Delete n opts) crs err crs' <->
   cluster_step crs (Ev (AdDelete n) err) crs') /\
  AthenzDomains.Update None opts = PPanic nil_deref.
Proof.
  split_and!; [| | |done].
  - unfold AthenzDomains.Create. rewrite requested_into. simpl. by destruct err.
  - unfold AthenzDomains.Update. prog_simpl. rewrite <- trigger_bind, requested_into. simpl.
    destruct err; [done|]. split; [intros (_ & ? & ?); by split | intros (? & ?); by split_and!].
  - unfold AthenzDomains.Delete. rewrite requested_error. simpl. by destruct err.
Qed.

(** The timeouts of the list, watch and delete-collection requests: the
    seconds of the options become nanoseconds, exactly when they fit into an
    [int64] (about 292 years); beyond, the product wraps around, to a
    different number in any case.  No [TimeoutSeconds] is no timeout. *)
Theorem timeout_bounds opts s :
  LO_TimeoutSeconds opts = Some s -> in_int64 s ->
  in_int64 (AthenzDomains.timeout opts) /\
  (AthenzDomains.timeout opts = s * Second <-> -9223372036 <= s <= 9223372036) /\
  forall t x, exec (AthenzDomains.List opts) t (Done x) ->
    exists r y, t = [Ev (DoIntoList r) y] /\ req_timeout r = Some (AthenzDomains.timeout opts).
Proof.
  unfold AthenzDomains.timeout. intros Hs Hr. rewrite Hs. split_and!.
  - apply wrap64_range.
  - split; intros Hb.
    + pose proof (wrap64_range (s * Second)) as Hw. rewrite Hb in Hw.
      unfold in_int64, Second, min_int64, max_int64 in Hw. lia.
    + apply wrap64_id. unfold in_int64, Second, min_int64, max_int64. lia.
  - unfold AthenzDomains.List, AthenzDomains.timeout. rewrite Hs. intros t x He.
    destruct He as ([l er] & t' & -> & -> & _). eauto.
Qed.
End theorems.

(** ** Witness *)
Example timeout_bounds_witness :
  let opts := mkListOptions (Some 9223372037) false "" in
  in_int64 (AthenzDomains.timeout opts) /\ AthenzDomains.timeout opts <> 9223372037 * Second.
Proof.
  intros opts.
  destruct (@timeout_bounds plain_data opts 9223372037 eq_refl) as (Hi & Hb & _).
  { split; discriminate. }
  split; [exact Hi|]. intros Heq. destruct (proj1 Hb Heq) as [_ Hl]. by apply Hl.
Defined.
