(* ===== verification/Clientset.v ===== *)
(** * pkg/client/clientset: from a configuration to the clients

    [pkg/apis/athenz/v1/register.go], [typed/athenz/v1/athenz_client.go] and
    [clientset.go].  The rate limiter of client-go, its REST and discovery
    clients and the default user agent are calls here. *)
From stdpp Require Import base list strings gmap.
From Stdlib Require Import QArith.
From S2P Require Import Prelude Prog Zms Effects.
#[local] Open Scope Z_scope.
#[local] Open Scope string_scope.

(** ** The group *)

Record GroupVersion := mkGV { GV_Group : string; GV_Version : string }.
Record GroupResource := mkGR { GR_Group : string; GR_Resource : string }.
Record GroupVersionResource := mkGVR { GVR_Group : string; GVR_Version : string; GVR_Resource : string }.

#[global] Instance GroupVersion_dec : EqDecision GroupVersion.
Proof. solve_decision. Defined.
#[global] Instance GroupVersionResource_dec : EqDecision GroupVersionResource.
Proof. solve_decision. Defined.

(** [gv.WithResource(r)] and [gvr.GroupResource()] *)
Definition WithResource (gv : GroupVersion) (r : string) : GroupVersionResource :=
  mkGVR (GV_Group gv) (GV_Version gv) r.
Definition toGroupResource (r : GroupVersionResource) : GroupResource :=
  mkGR (GVR_Group r) (GVR_Resource r).

Definition SchemeGroupVersion : GroupVersion := mkGV "athenz.io" "v1".

(** [v1.Resource] *)
Definition v1_Resource (resource : string) : GroupResource :=
  toGroupResource (WithResource SchemeGroupVersion resource).

(** ** Configurations and clients *)

(** Handles of objects of client-go. *)
Record Limiter := mkLimiter { limiter_id : nat }.
Record RestClient := mkRestClient { rest_id : nat }.
Record DiscoveryClient := mkDiscoveryClient { discovery_id : nat }.

(** [rest.Config], as far as it is read or written.  [QPS] is a float32: any
    rational here. *)
Record Config := mkConfig {
  Cfg_QPS : Q;
  Cfg_Burst : Z;
  Cfg_RateLimiter : ptr Limiter;
  Cfg_GroupVersion : ptr GroupVersion;
  Cfg_APIPath : string;
  (** [scheme.Codecs.WithoutConversion()] or what the caller set *)
  Cfg_WithoutConversion : bool;
  Cfg_UserAgent : string;
  Cfg_rest : string
}.
Definition set_RateLimiter (l : ptr Limiter) (c : Config) : Config :=
  mkConfig (Cfg_QPS c) (Cfg_Burst c) l (Cfg_GroupVersion c) (Cfg_APIPath c)
    (Cfg_WithoutConversion c) (Cfg_UserAgent c) (Cfg_rest c).
Definition set_group (gv : GroupVersion) (c : Config) : Config :=
  mkConfig (Cfg_QPS c) (Cfg_Burst c) (Cfg_RateLimiter c) (Some gv) "/apis" true
    (Cfg_UserAgent c) (Cfg_rest c).
Definition set_UserAgent (ua : string) (c : Config) : Config :=
  mkConfig (Cfg_QPS c) (Cfg_Burst c) (Cfg_RateLimiter c) (Cfg_GroupVersion c) (Cfg_APIPath c)
    (Cfg_WithoutConversion c) ua (Cfg_rest c).

Inductive ConfE : Set -> Type :=
| NewTokenBucketRateLimiter (qps : Q) (burst : Z) : ConfE Limiter
| DefaultKubernetesUserAgent : ConfE string
| RESTClientFor (c : Config) : ConfE (ptr RestClient * option error)
| NewDiscoveryClientForConfig (c : Config) : ConfE (ptr DiscoveryClient * option error)
| NewDiscoveryClient (c : ptr RestClient) : ConfE DiscoveryClient.
Abbreviation cprog := (prog ConfE).

(** ** The client of the group *)
Module AthenzV1.

Record AthenzV1Client := mkAthenzV1Client { restClient : ptr RestClient }.

Definition setConfigDefaults (config : Config) : cprog (Config * option error) :=
  let gv := SchemeGroupVersion in
  let config := set_group gv config in
  config ← (if String.eqb (Cfg_UserAgent config) "" then
              ua ← trigger DefaultKubernetesUserAgent; mret (set_UserAgent ua config)
            else mret config);
  mret (config, None).

Definition NewForConfig (c : ptr Config) : cprog (ptr AthenzV1Client * option error) :=
  config ← deref c;
  '(config, err) ← setConfigDefaults config;
  match err with
  | Some err => mret (None, Some err)
  | None =>
      '(client, err) ← trigger (RESTClientFor config);
      match err with
      | Some err => mret (None, Some err)
      | None => mret (Some (mkAthenzV1Client client), None)
      end
  end.

(** [panic(err)] *)
Definition panic_err : string := "panic(err)".

Definition NewForConfigOrDie (c : ptr Config) : cprog (ptr AthenzV1Client) :=
  '(client, err) ← NewForConfig c;
  match err with
  | Some _ => PPanic panic_err
  | None => mret client
  end.

Definition New (c : ptr RestClient) : AthenzV1Client := mkAthenzV1Client c.

Definition RESTClient (c : ptr AthenzV1Client) : ptr RestClient :=
  match c with
  | None => None
  | Some c => restClient c
  end.

(** The client of the resource; its methods are those of [Rest]. *)
Record athenzDomains := mkAthenzDomains { client : ptr RestClient }.
Definition newAthenzDomains (c : ptr AthenzV1Client) : athenzDomains :=
  mkAthenzDomains (RESTClient c).
Definition AthenzDomains (c : ptr AthenzV1Client) : athenzDomains := newAthenzDomains c.
End AthenzV1.

(** ** The clientset *)

Record Clientset := mkClientset {
  cs_DiscoveryClient : ptr DiscoveryClient;
  cs_athenzV1 : ptr AthenzV1.AthenzV1Client
}.

Definition Discovery (c : ptr Clientset) : ptr DiscoveryClient :=
  match c with
  | None => None
  | Some c => cs_DiscoveryClient c
  end.

Definition Clientset_AthenzV1 {E} (c : ptr Clientset) : prog E (ptr AthenzV1.AthenzV1Client) :=
  c ← deref c; mret (cs_athenzV1 c).

Definition burst_error : error :=
  errors_New "burst is required to be greater than 0 when RateLimiter is not set and QPS is set to greater than 0".

(** The part of [NewForConfig] up to the clients: the copy of the
    configuration with its rate limiter. *)
Definition NewForConfig (c : ptr Config) : cprog (ptr Clientset * option error) :=
  configShallowCopy ← deref c;
  let go (configShallowCopy : Config) : cprog (ptr Clientset * option error) :=
    '(athenzV1, err) ← AthenzV1.NewForConfig (Some configShallowCopy);
    match err with
    | Some err => mret (None, Some err)
    | None =>
        '(discovery, err) ← trigger (NewDiscoveryClientForConfig configShallowCopy);
        match err with
        | Some err => mret (None, Some err)
        | None => mret (Some (mkClientset discovery athenzV1), None)
        end
    end in
  match Cfg_RateLimiter configShallowCopy with
  | None =>
      if negb (Qle_bool (Cfg_QPS configShallowCopy) 0) then
        if (Cfg_Burst configShallowCopy <=? 0)%Z then mret (None, Some burst_error)
        else
          l ← trigger (NewTokenBucketRateLimiter (Cfg_QPS configShallowCopy) (Cfg_Burst configShallowCopy));
          go (set_RateLimiter (Some l) configShallowCopy)
      else go configShallowCopy
  | Some _ => go configShallowCopy
  end.

(** The discovery client's [OrDie] panics on an error as well. *)
Definition NewForConfigOrDie (c : ptr Config) : cprog Clientset :=
  athenzV1 ← AthenzV1.NewForConfigOrDie c;
  config ← deref c;
  '(discovery, err) ← trigger (NewDiscoveryClientForConfig config);
  match err with
  | Some _ => PPanic AthenzV1.panic_err
  | None => mret (mkClientset discovery athenzV1)
  end.

Definition New (c : ptr RestClient) : cprog Clientset :=
  let athenzV1 := AthenzV1.New c in
  discovery ← trigger (NewDiscoveryClient c);
  mret (mkClientset (Some discovery) (Some athenzV1)).

(** ** Theorems *)

(** The configuration the REST client of the group is made for. *)
Definition group_config (ua : string) (c : Config) : Config :=
  set_UserAgent (if String.eqb (Cfg_UserAgent c) "" then ua else Cfg_UserAgent c)
    (set_group SchemeGroupVersion c).

(** The calls that make the client of the group, and what they give. *)
Inductive group_client (c : Config) : list (ev ConfE) -> ptr RestClient * option error -> Prop :=
| group_client_default ua x :
    Cfg_UserAgent c = "" ->
    group_client c [Ev DefaultKubernetesUserAgent ua; Ev (RESTClientFor (group_config ua c)) x] x
| group_client_given x :
    Cfg_UserAgent c <> "" ->
    group_client c [Ev (RESTClientFor (group_config "" c)) x] x.

Lemma AthenzV1_NewForConfig_exec c t o :
  exec (AthenzV1.NewForConfig (Some c)) t o <->
  exists client err, group_client c t (client, err) /\
    o = Done (match err with
              | Some e => (None, Some e)
              | None => (Some (AthenzV1.mkAthenzV1Client client), None)
              end).
Proof.
  unfold AthenzV1.NewForConfig, AthenzV1.setConfigDefaults. prog_simpl.
  cbn [set_group Cfg_UserAgent]. destruct (String.eqb_spec (Cfg_UserAgent c) "") as [Hu|Hu].
  - assert (forall ua, set_UserAgent ua (set_group SchemeGroupVersion c) = group_config ua c) as Hg.
    { intros ua. unfold group_config. by rewrite Hu. }
    split.
    + intros He. exec_call He as ua t1. rewrite Hg in He. exec_call He as [client err] t2.
      exists client, err. destruct err; exec_end He; (split; [by constructor | done]).
    + intros (client & err & Hc & ->). inversion Hc as [ua x Hu' |]; [subst|done].
      exec_build. rewrite Hg. exec_build. destruct err; exec_build.
  - assert (set_group SchemeGroupVersion c = group_config "" c) as ->.
    { unfold group_config. apply String.eqb_neq in Hu as ->. done. }
    split.
    + intros He. exec_call He as [client err] t2.
      exists client, err. destruct err; exec_end He; (split; [by constructor | done]).
    + intros (client & err & Hc & ->). inversion Hc; [done|subst].
      exec_build. destruct err; exec_build.
Qed.

(** The configuration both clients are made for: with a rate limiter made for
    it when it has none and a positive QPS. *)
Inductive limited (c : Config) : list (ev ConfE) -> Config -> Prop :=
| limited_given l : Cfg_RateLimiter c = Some l -> limited c [] c
| limited_not : Cfg_RateLimiter c = None -> (Cfg_QPS c <= 0)%Q -> limited c [] c
| limited_made l :
    Cfg_RateLimiter c = None -> (0 < Cfg_QPS c)%Q -> 0 < Cfg_Burst c ->
    limited c [Ev (NewTokenBucketRateLimiter (Cfg_QPS c) (Cfg_Burst c)) l] (set_RateLimiter (Some l) c).

(** The two clients for one configuration. *)
Inductive clients (c : Config) : list (ev ConfE) -> ptr Clientset * option error -> Prop :=
| clients_no_group t client e :
    group_client c t (client, Some e) -> clients c t (None, Some e)
| clients_no_discovery t client d e :
    group_client c t (client, None) ->
    clients c (t ++ [Ev (NewDiscoveryClientForConfig c) (d, Some e)]) (None, Some e)
| clients_made t client d :
    group_client c t (client, None) ->
    clients c (t ++ [Ev (NewDiscoveryClientForConfig c) (d, None)])
      (Some (mkClientset d (Some (AthenzV1.mkAthenzV1Client client))), None).

Inductive NewClientset (c : Config) : list (ev ConfE) -> outcome (ptr Clientset * option error) -> Prop :=
| NewClientset_burst :
    Cfg_RateLimiter c = None -> (0 < Cfg_QPS c)%Q -> Cfg_Burst c <= 0 ->
    NewClientset c [] (Done (None, Some burst_error))
| NewClientset_clients t1 c1 t2 r :
    limited c t1 c1 -> clients c1 t2 r -> NewClientset c (t1 ++ t2) (Done r).

(** The part of [NewForConfig] that makes the clients. *)
Definition make_clients (c : Config) : cprog (ptr Clientset * option error) :=
  '(athenzV1, err) ← AthenzV1.NewForConfig (Some c);
  match err with
  | Some err => mret (None, Some err)
  | None =>
      '(discovery, err) ← trigger (NewDiscoveryClientForConfig c);
      match err with
      | Some err => mret (None, Some err)
      | None => mret (Some (mkClientset discovery athenzV1), None)
      end
  end.

Lemma make_clients_exec c t o :
  exec (make_clients c) t o <-> exists r, o = Done r /\ clients c t r.
Proof.
  unfold make_clients. rewrite exec_bind. split.
  - intros [(t1 & t2 & [a er] & -> & Hg & He)|(w & Hg & ->)];
      apply AthenzV1_NewForConfig_exec in Hg as (client & err & Hc & Ho); [|done].
    destruct err as [e|]; injection Ho as -> ->.
    + exec_end He. rewrite app_nil_r. eauto using clients_no_group.
    + exec_call He as [d err] t3. destruct err as [e|]; exec_end He;
        eexists; (split; [done|]); [by eapply clients_no_discovery | by eapply clients_made].
  - intros (r & -> & Hc). left. destruct Hc as [t client e Hg|t client d e Hg|t client d Hg].
    + exists t, [], (None, Some e). rewrite app_nil_r. split_and!; [done| |by split].
      apply AthenzV1_NewForConfig_exec. eauto.
    + eexists t, _, (Some (AthenzV1.mkAthenzV1Client client), None). split_and!; [done| |].
      * apply AthenzV1_NewForConfig_exec. eauto.
      * exec_build.
    + eexists t, _, (Some (AthenzV1.mkAthenzV1Client client), None). split_and!; [done| |].
      * apply AthenzV1_NewForConfig_exec. eauto.
      * exec_build.
Qed.

Lemma QPS_positive q : negb (Qle_bool q 0) = true <-> (0 < q)%Q.
Proof.
  rewrite negb_true_iff. split.
  - intros Hq. apply Qnot_le_lt. rewrite <- Qle_bool_iff. congruence.
  - intros Hq. apply not_true_iff_false. rewrite Qle_bool_iff. by apply Qlt_not_le.
Qed.

Lemma NewForConfig_cases c t o :
  exec (NewForConfig (Some c)) t o <-> NewClientset c t o.
Proof.
  assert (Hmake : forall t1 c1, limited c t1 c1 -> forall t2 r,
    clients c1 t2 r -> NewClientset c (t1 ++ t2) (Done r)) by (intros; by eapply NewClientset_clients).
  unfold NewForConfig. prog_simpl. cbv zeta. fold (make_clients c).
  destruct (Cfg_RateLimiter c) as [l|] eqn:Hl.
  - rewrite make_clients_exec. split.
    + intros (r & -> & Hc). by apply (Hmake [] c (limited_given c l Hl)).
    + intros Hn. destruct Hn as [? _ _|t1 c1 t2 r Hlim Hc]; [congruence|].
      destruct Hlim; [eauto|congruence..].
  - destruct (negb (Qle_bool (Cfg_QPS c) 0)) eqn:Hq.
    + apply QPS_positive in Hq. destruct (Z.leb_spec (Cfg_Burst c) 0) as [Hb|Hb].
      * split; [intros He; exec_end He; by apply NewClientset_burst|].
        intros Hn. destruct Hn as [_ _ _|t1 c1 t2 r Hlim Hc]; [by split|].
        destruct Hlim as [l' Hl'|_ Hq'|l' _ _ Hb']; [congruence|by apply Qle_not_lt in Hq'|lia].
      * split.
        -- intros He. exec_call He as l t1. fold (make_clients (set_RateLimiter (Some l) c)) in He.
           apply make_clients_exec in He as (r & -> & Hc).
           by apply (Hmake [_] _ (limited_made c l Hl Hq Hb)).
        -- intros Hn. destruct Hn as [_ _ Hb'|t1 c1 t2 r Hlim Hc]; [lia|].
           destruct Hlim as [l' Hl'|_ Hq'|l' _ _ _]; [congruence|by apply Qle_not_lt in Hq'|].
           prog_simpl. exists l', t2. split; [done|].
           fold (make_clients (set_RateLimiter (Some l') c)). apply make_clients_exec. eauto.
    + assert (~ (0 < Cfg_QPS c)%Q) as Hn0 by (rewrite <- QPS_positive; congruence).
      rewrite make_clients_exec. split.
      * intros (r & -> & Hc).
        by apply (Hmake [] c (limited_not c Hl (Qnot_lt_le _ _ Hn0))).
      * intros Hn. destruct Hn as [_ ? _|t1 c1 t2 r Hlim Hc]; [done|].
        destruct Hlim as [l' Hl'|_ _|l' _ ? _]; [congruence|eauto|done].
Qed.

(** Making a clientset, on every path.  Without a rate limiter and with a
    positive QPS the burst has to be positive, or there is an error and no
    call; otherwise the two clients, of the group and of discovery, are made
    for one configuration with one rate limiter (the caller's, or one made
    from QPS and burst, or none), the group's with the group's version and
    path and a user agent.  The first error is returned without a clientset,
    and a clientset without an error. *)
Theorem NewForConfig_spec c t o :
  exec (NewForConfig (Some c)) t o <-> NewClientset c t o.
Proof. apply NewForConfig_cases. Qed.

(** The resource client of a new clientset talks through the REST client that
    was made for the group. *)
Lemma NewForConfig_AthenzDomains c t cs :
  exec (NewForConfig (Some c)) t (Done (Some cs, None)) ->
  exists v c1 r ua, exec (E := ConfE) (Clientset_AthenzV1 (Some cs)) [] (Done v) /\
    AthenzV1.client (AthenzV1.AthenzDomains v) = r /\ Ev (RESTClientFor (group_config ua c1)) (r, None) ∈ t.
Proof.
  intros Hn%NewForConfig_cases. inversion Hn as [|t1 c1 t2 r Hl Hc]; subst.
  inversion Hc as [| |t0 client d Hg]; subst.
  assert (exists ua, Ev (RESTClientFor (group_config ua c1)) (client, None) ∈ t0) as [ua Hin].
  { inversion Hg; subst; eexists; [right|]; left. }
  exists (Some (AthenzV1.mkAthenzV1Client client)), c1, client, ua.
  split; [by split|]. split; [done|]. apply elem_of_app. right. apply elem_of_app. by left.
Qed.

(** The variants that panic make no rate limiter and return no error. *)
Lemma AthenzV1_OrDie_exec c t o :
  exec (AthenzV1.NewForConfigOrDie (Some c)) t o <->
  exists client err, group_client c t (client, err) /\
    o = match err with
        | Some _ => Panicked AthenzV1.panic_err
        | None => Done (Some (AthenzV1.mkAthenzV1Client client))
        end.
Proof.
  unfold AthenzV1.NewForConfigOrDie. rewrite exec_bind. split.
  - intros [(t1 & t2 & [a er] & -> & Hg & He)|(w & Hg & ->)];
      apply AthenzV1_NewForConfig_exec in Hg as (client & err & Hc & Ho); [|done].
    exists client, err. destruct err; injection Ho as -> ->; exec_end He; by rewrite app_nil_r.
  - intros (client & err & Hc & ->). left.
    exists t, [], (match err with Some e => (None, Some e)
      | None => (Some (AthenzV1.mkAthenzV1Client client), None) end).
    rewrite app_nil_r. split_and!; [done| |by destruct err].
    apply AthenzV1_NewForConfig_exec. eauto.
Qed.

Lemma NewForConfigOrDie_exec c t o :
  exec (NewForConfigOrDie (Some c)) t o <->
  exists r, clients c t r /\
    o = match r with (Some cs, None) => Done cs | _ => Panicked AthenzV1.panic_err end.
Proof.
  unfold NewForConfigOrDie. rewrite exec_bind. split.
  - intros [(t1 & t2 & a & -> & Hg & He)|(w & Hg & ->)];
      apply AthenzV1_OrDie_exec in Hg as (client & err & Hc & Ho).
    + destruct err as [e|]; [done|]. injection Ho as ->. exec_call He as [d err] t3.
      destruct err as [e|]; exec_end He; eexists;
        [split; [by eapply clients_no_discovery|done] | split; [by eapply clients_made|done]].
    + destruct err as [e|]; [|done]. injection Ho as ->.
      eexists. split; [by eapply clients_no_group|done].
  - intros (r & Hc & ->). destruct Hc as [t client e Hg|t client d e Hg|t client d Hg].
    + right. eexists. split; [|done]. apply AthenzV1_OrDie_exec. by eexists _, _.
    + left. eexists t, _, (Some (AthenzV1.mkAthenzV1Client client)). split_and!; [done| |].
      * apply AthenzV1_OrDie_exec. by eexists _, _.
      * exec_build.
    + left. eexists t, _, (Some (AthenzV1.mkAthenzV1Client client)). split_and!; [done| |].
      * apply AthenzV1_OrDie_exec. by eexists _, _.
      * exec_build.
Qed.
