(* ===== verification/Informers.v ===== *)
(** * pkg/client/informers and pkg/client/listers

    The informer factory keeps one informer per type and remembers which it
    has started; its methods hold its lock, so each is one step here.
    Constructing an informer, running it and waiting for its cache belong to
    client-go and are calls, as is the order in which Go ranges over a map.
    The lister reads the indexer of an informer. *)
From stdpp Require Import base list strings gmap.
From S2P Require Import Prelude Prog Zms Effects Cr Caches Rest Clientset.
#[local] Open Scope string_scope.

(** [reflect.Type] by its name, and informers by their identity. *)
Abbreviation Ty := string.
Abbreviation Informer := nat.

Section informers.
Context `{ZmsData}.

(** [TweakListOptionsFunc]: what it makes of the options it gets. *)
Abbreviation Tweak := (ptr (ListOptions -> ListOptions)).

(** [cache.ListWatch] *)
Record ListWatch := mkListWatch {
  ListFunc : ListOptions -> rprog (ptr AthenzDomainList * option error);
  WatchFunc : ListOptions -> rprog (option nat * option error)
}.

Inductive InfE : Set -> Type :=
(** [cache.NewSharedIndexInformer(lw, &T{}, resyncPeriod, indexers)] *)
| NewSharedIndexInformer (lw : ListWatch) (ty : Ty) (resyncPeriod : Z) (indexers : list string)
    : InfE Informer
(** [go informer.Run(stopCh)] *)
| GoRun (i : Informer) : InfE unit
(** [cache.WaitForCacheSync(stopCh, informer.HasSynced)] *)
| WaitSync (i : Informer) : InfE bool
(** [range m] *)
| Range (m : gmap Ty Informer) : InfE (list (Ty * Informer))
(** [cache.NewGenericLister(informer.GetIndexer(), resource)] *)
| NewGenericLister (i : Informer) (resource : GroupResource) : InfE nat.
Abbreviation iprog := (prog InfE).

(** ** informers/externalversions/athenz/v1/athenzdomain.go *)

Definition tweaked (tweak : Tweak) (options : ListOptions) : ListOptions :=
  match tweak with Some f => f options | None => options end.

Definition NewFilteredAthenzDomainInformer (resyncPeriod : Z) (indexers : list string)
    (tweak : Tweak) : iprog Informer :=
  trigger (NewSharedIndexInformer
    (mkListWatch (fun options => AthenzDomains.List (tweaked tweak options))
                 (fun options => AthenzDomains.Watch (tweaked tweak options)))
    "AthenzDomain" resyncPeriod indexers).

Definition NewAthenzDomainInformer (resyncPeriod : Z) (indexers : list string) : iprog Informer :=
  NewFilteredAthenzDomainInformer resyncPeriod indexers None.

(** ** informers/externalversions/factory.go *)

Record Factory := mkFactory {
  f_namespace : string;
  f_tweakListOptions : Tweak;
  f_defaultResync : Z;
  f_customResync : gmap Ty Z;
  f_informers : gmap Ty Informer;
  f_startedInformers : gmap Ty bool
}.
Definition set_customResync (m : gmap Ty Z) (f : Factory) : Factory :=
  mkFactory (f_namespace f) (f_tweakListOptions f) (f_defaultResync f) m
    (f_informers f) (f_startedInformers f).
Definition set_informers (m : gmap Ty Informer) (f : Factory) : Factory :=
  mkFactory (f_namespace f) (f_tweakListOptions f) (f_defaultResync f) (f_customResync f)
    m (f_startedInformers f).
Definition set_started (m : gmap Ty bool) (f : Factory) : Factory :=
  mkFactory (f_namespace f) (f_tweakListOptions f) (f_defaultResync f) (f_customResync f)
    (f_informers f) m.

Abbreviation SharedInformerOption := (Factory -> Factory).

(** The configuration as the list of its pairs, in the order of the range. *)
Definition WithCustomResyncConfig (resyncConfig : list (Ty * Z)) : SharedInformerOption :=
  fun factory =>
    fold_left (fun f kv => set_customResync (<[kv.1 := kv.2]> (f_customResync f)) f)
      resyncConfig factory.
Definition WithTweakListOptions (tweak : Tweak) : SharedInformerOption := fun f =>
  mkFactory (f_namespace f) tweak (f_defaultResync f) (f_customResync f)
    (f_informers f) (f_startedInformers f).
Definition WithNamespace (namespace : string) : SharedInformerOption := fun f =>
  mkFactory namespace (f_tweakListOptions f) (f_defaultResync f) (f_customResync f)
    (f_informers f) (f_startedInformers f).

Definition NewSharedInformerFactoryWithOptions (defaultResync : Z)
    (options : list SharedInformerOption) : Factory :=
  let factory := mkFactory "" None defaultResync ∅ ∅ ∅ in
  fold_left (fun factory opt => opt factory) options factory.
Definition NewSharedInformerFactory (defaultResync : Z) : Factory :=
  NewSharedInformerFactoryWithOptions defaultResync [].
Definition NewFilteredSharedInformerFactory (defaultResync : Z) (namespace : string)
    (tweak : Tweak) : Factory :=
  NewSharedInformerFactoryWithOptions defaultResync
    [WithNamespace namespace; WithTweakListOptions tweak].

(** [f.startedInformers[informerType]]: the zero value when it is absent. *)
Definition isStarted (f : Factory) (ty : Ty) : bool := default false (f_startedInformers f !! ty).

Fixpoint start_loop (order : list (Ty * Informer)) (f : Factory) : iprog Factory :=
  match order with
  | [] => mret f
  | (informerType, informer) :: order' =>
      if negb (isStarted f informerType) then
        trigger (GoRun informer);;
        start_loop order' (set_started (<[informerType := true]> (f_startedInformers f)) f)
      else start_loop order' f
  end.
Definition Start (f : Factory) : iprog Factory :=
  order ← trigger (Range (f_informers f));
  start_loop order f.

Fixpoint sync_loop (order : list (Ty * Informer)) (res : gmap Ty bool) : iprog (gmap Ty bool) :=
  match order with
  | [] => mret res
  | (informType, informer) :: order' =>
      synced ← trigger (WaitSync informer);
      sync_loop order' (<[informType := synced]> res)
  end.
Definition WaitForCacheSync (f : Factory) : iprog (gmap Ty bool) :=
  order ← trigger (Range (f_informers f));
  let informers := fold_left (fun m kv => if isStarted f kv.1 then <[kv.1 := kv.2]> m else m)
                     order (∅ : gmap Ty Informer) in
  order ← trigger (Range informers);
  sync_loop order ∅.

Definition InformerFor (informerType : Ty) (newFunc : Z -> iprog Informer) (f : Factory)
  : iprog (Informer * Factory) :=
  match f_informers f !! informerType with
  | Some informer => mret (informer, f)
  | None =>
      let resyncPeriod :=
        match f_customResync f !! informerType with
        | Some r => r
        | None => f_defaultResync f
        end in
      informer ← newFunc resyncPeriod;
      mret (informer, set_informers (<[informerType := informer]> (f_informers f)) f)
  end.

(** ** athenz/interface.go and athenz/v1/interface.go

    The factory itself is an argument of the methods that change it. *)
Record AthenzDomainInformer := mkADInformer { adi_tweak : Tweak }.
Record version := mkVersion { version_namespace : string; version_tweakListOptions : Tweak }.
Definition v1_New (namespace : string) (tweakListOptions : Tweak) : version :=
  mkVersion namespace tweakListOptions.
Definition version_AthenzDomains (v : version) : AthenzDomainInformer :=
  mkADInformer (version_tweakListOptions v).
Record group := mkGroup { group_namespace : string; group_tweakListOptions : Tweak }.
Definition athenz_New (namespace : string) (tweakListOptions : Tweak) : group :=
  mkGroup namespace tweakListOptions.
Definition group_V1 (g : group) : version := v1_New (group_namespace g) (group_tweakListOptions g).

(** [Athenz], and [Athenz().V1().AthenzDomains()] *)
Definition factory_Athenz (f : Factory) : group :=
  athenz_New (f_namespace f) (f_tweakListOptions f).
Definition factory_AthenzDomains (f : Factory) : AthenzDomainInformer :=
  version_AthenzDomains (group_V1 (factory_Athenz f)).
Definition defaultInformer (a : AthenzDomainInformer) (resyncPeriod : Z) : iprog Informer :=
  NewFilteredAthenzDomainInformer resyncPeriod ["namespace"] (adi_tweak a).
Definition adi_Informer (a : AthenzDomainInformer) (f : Factory) : iprog (Informer * Factory) :=
  InformerFor "AthenzDomain" (defaultInformer a) f.

Record AthenzDomainLister := mkADLister { lister_indexer : Informer }.
Definition NewAthenzDomainLister (indexer : Informer) : AthenzDomainLister := mkADLister indexer.
Definition adi_Lister (a : AthenzDomainInformer) (f : Factory)
  : iprog (AthenzDomainLister * Factory) :=
  '(informer, f) ← adi_Informer a f;
  mret (NewAthenzDomainLister informer, f).

(** ** informers/externalversions/generic.go *)

Record GenericInformer := mkGeneric { g_informer : Informer; g_resource : GroupResource }.

Definition g_Informer (g : GenericInformer) : Informer := g_informer g.
Definition g_Lister (g : GenericInformer) : iprog nat :=
  trigger (NewGenericLister (g_Informer g) (g_resource g)).

Definition ForResource (resource : GroupVersionResource) (f : Factory)
  : iprog (ptr GenericInformer * option error * Factory) :=
  if decide (resource = WithResource SchemeGroupVersion "athenzdomains") then
    '(i, f) ← adi_Informer (factory_AthenzDomains f) f;
    mret (Some (mkGeneric i (toGroupResource resource)), None, f)
  else mret (None, Some (errors_New "no informer found for %v"), f).

(** ** listers/athenz/v1/athenzdomain.go *)

(** [ret = append(ret, m.( *v1.AthenzDomain))] for every listed object. *)
Fixpoint append_loop (l : list Obj) (ret : list (ptr AthenzDomain)) : kprog (list (ptr AthenzDomain)) :=
  match l with
  | [] => mret ret
  | ObjAthenzDomain m :: l' => append_loop l' (ret ++ [m])
  | _ :: _ => PPanic "interface conversion"
  end.

(** [cache.ListAll] lists the store's objects that match the selector, here
    [matches]. *)
Definition lister_List (matches : Obj -> bool) : kprog (list (ptr AthenzDomain) * option error) :=
  objs ← trigger CrList;
  ret ← append_loop (List.filter matches objs) [];
  mret (ret, None).

Definition lister_Get (name : string) : kprog (ptr AthenzDomain * option error) :=
  '(obj, exists_, err) ← trigger (CrGetByKey name);
  match err with
  | Some err => mret (None, Some err)
  | None =>
      if negb exists_ then mret (None, Some (StatusError ReasonNotFound name))
      else match obj with
           | ObjAthenzDomain cr => mret (cr, None)
           | _ => PPanic "interface conversion"
           end
  end.
End informers.
Abbreviation iprog := (prog InfE).

(** ** Histories of a factory *)

Section histories.
Context `{ZmsData}.

(** Ranging over a map visits its entries, in some order. *)
Definition ranged (e : ev InfE) : Prop :=
  match e with
  | Ev e x => match e in InfE X return X -> Prop with
              | Range m => fun l => l ≡ₚ map_to_list m
              | _ => fun _ => True
              end x
  end.

(** One call of a method, by any goroutine.  The lock makes it one step; only
    [WaitForCacheSync] gives it back before it is done, to wait for the
    informers it has collected, and it changes nothing. *)
Inductive fop : Factory -> list (ev InfE) -> Factory -> Prop :=
| fop_informer f ty lw idx t i f' :
    exec (InformerFor ty (fun r => trigger (NewSharedIndexInformer lw ty r idx)) f) t (Done (i, f')) ->
    fop f t f'
| fop_start f t f' : exec (Start f) t (Done f') -> Forall ranged t -> fop f t f'
| fop_wait f t r : exec (WaitForCacheSync f) t (Done r) -> Forall ranged t -> fop f t f.

Inductive history (f0 : Factory) : list (ev InfE) -> Factory -> Prop :=
| history_nil : history f0 [] f0
| history_op t f t' f' : history f0 t f -> fop f t' f' -> history f0 (t ++ t') f'.

(** The informers constructed and run. *)
Definition created (e : ev InfE) : option Informer :=
  match e with
  | Ev e x => match e in InfE X return X -> option Informer with
              | NewSharedIndexInformer _ _ _ _ => Some
              | _ => fun _ => None
              end x
  end.
Definition created_as (e : ev InfE) : option (Ty * Z) :=
  match e with Ev (NewSharedIndexInformer _ ty r _) _ => Some (ty, r) | _ => None end.
Definition ran (e : ev InfE) : option Informer :=
  match e with Ev (GoRun i) _ => Some i | _ => None end.

Definition running (f : Factory) : list Informer :=
  (filter (fun kv => isStarted f kv.1 = true) (map_to_list (f_informers f))).*2.

(** The resync period of a type. *)
Definition resync_of (f : Factory) (ty : Ty) : Z :=
  default (f_defaultResync f) (f_customResync f !! ty).

Record factory_ok (f0 : Factory) (t : list (ev InfE)) (f : Factory) : Prop := {
  ok_created : omap created t ≡ₚ (map_to_list (f_informers f)).*2;
  ok_types : (omap created_as t).*1 ≡ₚ (map_to_list (f_informers f)).*1;
  ok_resync : Forall (fun tr => tr.2 = resync_of f0 tr.1) (omap created_as t);
  ok_ran : omap ran t ≡ₚ running f;
  ok_started ty : isStarted f ty = true -> is_Some (f_informers f !! ty);
  ok_config ty : resync_of f ty = resync_of f0 ty
}.

Lemma isStarted_insert f ty ty' :
  isStarted (set_started (<[ty := true]> (f_startedInformers f)) f) ty' =
  bool_decide (ty = ty') || isStarted f ty'.
Proof.
  unfold isStarted. cbn [f_startedInformers set_started]. rewrite lookup_insert.
  case_decide; [by rewrite bool_decide_eq_true_2 | by rewrite bool_decide_eq_false_2].
Qed.

Lemma start_loop_exec order f t o :
  exec (start_loop order f) t o -> NoDup order.*1 ->
  exists f', o = Done f' /\ f_informers f' = f_informers f /\
    (forall ty, resync_of f' ty = resync_of f ty) /\
    omap created t = [] /\ omap created_as t = [] /\
    omap ran t = (filter (fun kv => isStarted f kv.1 <> true) order).*2 /\
    forall ty, isStarted f' ty = true <-> isStarted f ty = true \/ ty ∈ order.*1.
Proof.
  revert f t. induction order as [|[ty i] order IH]; intros f t He; csimpl.
  { destruct He as [-> ->]. intros _. exists f. split_and!; try done.
    intros ty. by rewrite elem_of_nil; tauto. }
  rewrite NoDup_cons. intros [Hnin Hnd]. rewrite filter_cons. cbn [start_loop fst] in *.
  destruct (isStarted f ty) eqn:Hs; cbn [negb] in He.
  - rewrite decide_False by congruence.
    destruct (IH _ _ He Hnd) as (f' & -> & Hi & Hr & Hc & Hc' & Hran & Hst).
    exists f'. split_and!; try done. intros ty'. rewrite Hst, elem_of_cons.
    split; [tauto|]. by intros [?|[->|?]]; auto.
  - rewrite decide_True by congruence. exec_call He as [] t1.
    destruct (IH _ _ He Hnd) as (f' & -> & Hi & Hr & Hc & Hc' & Hran & Hst).
    exists f'. csimpl. rewrite Hran. split_and!; try done.
    + f_equal. f_equal. apply filter_ext_in. intros [ty' i'] Hin. cbn [fst].
      rewrite isStarted_insert, orb_true_iff, bool_decide_eq_true.
      split; [tauto|]. intros Hns [->|?]; [|done]. apply Hnin. apply list_elem_of_fmap. by exists (ty', i').
    + intros ty'. rewrite Hst, isStarted_insert, orb_true_iff, bool_decide_eq_true, elem_of_cons.
      split; [intros [[?|?]|?] | intros [?|[?|?]]]; subst; auto.
Qed.

Lemma history_start f t :
  f_informers f = ∅ -> f_startedInformers f = ∅ -> t = [] -> factory_ok f t f.
Proof.
  intros Hi Hs ->. split; try done; unfold running; rewrite ?Hi, ?map_to_list_empty; try done.
  intros ty. unfold isStarted. by rewrite Hs.
Qed.

Lemma informer_step f0 t f ty lw idx t' i f' :
  factory_ok f0 t f ->
  exec (InformerFor ty (fun r => trigger (NewSharedIndexInformer lw ty r idx)) f) t' (Done (i, f')) ->
  factory_ok f0 (t ++ t') f'.
Proof.
  intros [Hc Ht Hr Hran Hst Hcfg] He. unfold InformerFor in He.
  destruct (f_informers f !! ty) as [j|] eqn:Hty.
  { destruct He as [-> [= <- <-]]. by rewrite app_nil_r. }
  exec_call He as j t1. destruct He as [-> [= -> ->]].
  assert (isStarted f ty = false) as Hns.
  { apply not_true_iff_false. intros [? ?]%Hst. congruence. }
  pose proof (map_to_list_insert (f_informers f) ty j Hty) as Hins.
  split; rewrite ?omap_app; cbn [f_informers set_informers]; csimpl.
  - rewrite Hc, Hins. by rewrite Permutation_app_comm.
  - rewrite fmap_app, Ht, Hins. by rewrite Permutation_app_comm.
  - apply Forall_app. split; [done|]. repeat constructor. simpl. rewrite <- Hcfg. unfold resync_of.
    by destruct (f_customResync f !! ty).
  - rewrite app_nil_r, Hran. unfold running. cbn [f_informers set_informers].
    rewrite Hins, filter_cons_False; [done|]. cbn [fst]. unfold isStarted in *.
    cbn [f_startedInformers set_informers]. congruence.
  - intros ty' Hs. rewrite lookup_insert. case_decide; [by eexists|]. by apply Hst.
  - done.
Qed.

Lemma start_step f0 t f t' f' :
  factory_ok f0 t f -> exec (Start f) t' (Done f') -> Forall ranged t' ->
  factory_ok f0 (t ++ t') f' /\ running f' ≡ₚ (map_to_list (f_informers f')).*2.
Proof.
  intros [Hc Ht Hr Hran Hst Hcfg] He Hrg. unfold Start in He. exec_call He as order t1.
  apply Forall_cons in Hrg as [Hord Hrg]. simpl in Hord.
  apply start_loop_exec in He as (f1 & [= <-] & Hi & Hres & Hc1 & Ht1 & Hran1 & Hst1).
  2:{ rewrite Hord. apply NoDup_fst_map_to_list. }
  assert (Hall : running f' ≡ₚ (map_to_list (f_informers f')).*2).
  { unfold running. rewrite Hi. f_equiv.
    rewrite filter_all; [done|]. intros [ty i] Hin. apply Hst1. right. rewrite Hord.
    apply list_elem_of_fmap. by exists (ty, i). }
  split; [|done]. split; rewrite ?omap_app; csimpl.
  - by rewrite Hc1, app_nil_r, Hi.
  - by rewrite fmap_app, Ht1, app_nil_r, Hi.
  - by rewrite Ht1, app_nil_r.
  - rewrite Hall, Hi, Hran, Hran1, Hord. unfold running. rewrite <- fmap_app. f_equiv.
    apply filter_app_complement.
  - intros ty [Hs|Hin]%Hst1; rewrite Hi; [by apply Hst|].
    rewrite Hord in Hin. apply list_elem_of_fmap in Hin as ([ty' i] & -> & Hin).
    apply elem_of_map_to_list in Hin. by eexists.
  - intros ty. by rewrite Hres.
Qed.

Lemma sync_loop_exec order res t o :
  exec (sync_loop order res) t o -> NoDup order.*1 ->
  exists res', o = Done res' /\ omap created t = [] /\ omap created_as t = [] /\ omap ran t = [] /\
    forall ty, match res' !! ty with
               | Some b => (exists i, (ty, i) ∈ order /\ Ev (WaitSync i) b ∈ t) \/
                           (res !! ty = Some b /\ ty ∉ order.*1)
               | None => res !! ty = None /\ ty ∉ order.*1
               end.
Proof.
  revert res t. induction order as [|[ty i] order IH]; intros res t He; csimpl.
  { destruct He as [-> ->]. intros _. exists res. split_and!; try done.
    intros ty. destruct (res !! ty) eqn:Hr; [right|]; (split; [done|apply not_elem_of_nil]). }
  rewrite NoDup_cons. intros [Hnin Hnd]. cbn [sync_loop] in He. exec_call He as b t1.
  destruct (IH _ _ He Hnd) as (res' & -> & Hc & Ht & Hran & Hres). exists res'. csimpl.
  split_and!; try done. intros ty'. specialize (Hres ty').
  destruct (res' !! ty') as [b'|].
  - destruct Hres as [(i' & Hin & Hb)|[Hl Hn]].
    + left. exists i'. split; by right.
    + rewrite lookup_insert in Hl. case_decide as Hd.
      * subst ty'. injection Hl as <-. left. exists i. split; by left.
      * right. split; [done|]. rewrite not_elem_of_cons. auto.
  - destruct Hres as [Hl Hn]. rewrite lookup_insert in Hl. case_decide; [done|].
    split; [done|]. rewrite not_elem_of_cons. auto.
Qed.
End histories.

Section factory_facts.
Context `{ZmsData}.

Lemma select_started f (order : list (Ty * Informer)) (m : gmap Ty Informer) ty :
  is_Some (fold_left (fun m kv => if isStarted f kv.1 then <[kv.1 := kv.2]> m else m) order m !! ty)
  <-> is_Some (m !! ty) \/ (isStarted f ty = true /\ ty ∈ order.*1).
Proof.
  revert m. induction order as [|[ty' i] order IH]; intros m; csimpl.
  { rewrite elem_of_nil. tauto. }
  rewrite IH, elem_of_cons. cbn [fst snd]. destruct (isStarted f ty') eqn:Hs.
  - rewrite lookup_insert_is_Some'. split; [intros [[<-|?]|?] | intros [?|[? [->|?]]]]; auto; tauto.
  - split; [tauto|]. intros [?|[? [->|?]]]; [auto|congruence|auto].
Qed.

(** Waiting: the answer has exactly the started informers, each with what
    waiting for it said. *)
Lemma WaitForCacheSync_exec f t o :
  (forall ty, isStarted f ty = true -> is_Some (f_informers f !! ty)) ->
  exec (WaitForCacheSync f) t o -> Forall ranged t ->
  exists res, o = Done res /\ omap created t = [] /\ omap created_as t = [] /\ omap ran t = [] /\
    (forall ty, is_Some (res !! ty) <-> isStarted f ty = true) /\
    (forall ty b, res !! ty = Some b -> exists i, Ev (WaitSync i) b ∈ t).
Proof.
  intros Hst He Hrg. unfold WaitForCacheSync in He. exec_call He as order t1. exec_call He as order2 t2.
  apply Forall_cons in Hrg as [Hord [Hord2 Hrg]%Forall_cons]. simpl in Hord, Hord2.
  apply sync_loop_exec in He as (res & -> & Hc & Ht & Hran & Hres).
  2:{ rewrite Hord2. apply NoDup_fst_map_to_list. }
  exists res. csimpl. split_and!; try done.
  - intros ty. assert (ty ∈ order2.*1 <-> isStarted f ty = true) as <-.
    { rewrite Hord2. transitivity (is_Some (fold_left (fun m kv =>
        if isStarted f kv.1 then <[kv.1 := kv.2]> m else m) order (∅ : gmap Ty Informer) !! ty)).
      - rewrite list_elem_of_fmap. split.
        + intros ([ty' i] & -> & Hin%elem_of_map_to_list). by eexists.
        + intros [i Hi%elem_of_map_to_list]. by exists (ty, i).
      - rewrite select_started, lookup_empty. split; [intros [[? [=]]|[? _]]; done|].
        intros Hs. right. split; [done|]. rewrite Hord. destruct (Hst _ Hs) as [i Hi].
        apply list_elem_of_fmap. exists (ty, i). split; [done|]. by apply elem_of_map_to_list. }
    specialize (Hres ty). destruct (res !! ty).
    + split; [intros _|by eexists]. destruct Hres as [(i & Hin & _)|[[=] _]].
      apply list_elem_of_fmap. by exists (ty, i).
    + destruct Hres as [_ Hn]. split; [by intros [? [=]] | done].
  - intros ty b Hb. specialize (Hres ty). rewrite Hb in Hres.
    destruct Hres as [(i & _ & Hin)|[[=] _]]. exists i. right. by right.
Qed.

Lemma history_ok f0 t f :
  f_informers f0 = ∅ -> f_startedInformers f0 = ∅ -> history f0 t f -> factory_ok f0 t f.
Proof.
  intros Hi Hs. induction 1 as [|t f t' f' _ IH Hop]; [by apply history_start|].
  destruct Hop as [f ty lw idx t' i f' He|f t' f' He Hrg|f t' r He Hrg].
  - by eapply informer_step.
  - by eapply start_step.
  - destruct (WaitForCacheSync_exec f t' _ (ok_started _ _ _ IH) He Hrg)
      as (res & _ & Hc & Ht & Hran & _).
    destruct IH. split; rewrite ?omap_app, ?Hc, ?Ht, ?Hran, ?app_nil_r; done.
Qed.

(** C19. However the goroutines call a new factory: at most one informer is
    constructed per type, with the type's resync period or else the default;
    every informer is run at most once, however often [Start] is called, and
    only informers of the factory are; [Start] leaves all of them running;
    and waiting covers exactly the started ones. *)
Theorem factory_history f0 t f :
  f_informers f0 = ∅ -> f_startedInformers f0 = ∅ -> history f0 t f -> NoDup (omap created t) ->
  NoDup (omap created_as t).*1 /\
  (forall ty r, (ty, r) ∈ omap created_as t -> r = resync_of f0 ty) /\
  NoDup (omap ran t) /\ omap ran t ⊆ omap created t /\
  (forall t' f', exec (Start f) t' (Done f') -> Forall ranged t' ->
     omap ran (t ++ t')%list ≡ₚ omap created (t ++ t')%list) /\
  (forall t' r, exec (WaitForCacheSync f) t' (Done r) -> Forall ranged t' ->
     forall ty, is_Some (r !! ty) <-> isStarted f ty = true).
Proof.
  intros Hi Hs Hh Hnd. pose proof (history_ok f0 t f Hi Hs Hh) as Hok.
  destruct (Hok) as [Hc Ht Hr Hran Hst _]. split_and!.
  - rewrite Ht. apply NoDup_fst_map_to_list.
  - intros ty r Hin. rewrite Forall_forall in Hr. by apply (Hr (ty, r)).
  - rewrite Hran. rewrite Hc in Hnd. unfold running. revert Hnd. generalize (map_to_list (f_informers f)). intros l.
    induction l as [|kv l IH]; [done|]. rewrite filter_cons. csimpl.
    rewrite NoDup_cons. intros [Hn Hl]. destruct (decide _); [|by apply IH]. csimpl.
    apply NoDup_cons. split; [|by apply IH]. intros Hin. apply Hn.
    apply list_elem_of_fmap in Hin as (kv' & Heq & [_ Hin]%list_elem_of_filter).
    rewrite Heq. by apply list_elem_of_fmap_2.
  - intros i. rewrite Hc, Hran. unfold running. rewrite !list_elem_of_fmap.
    intros (kv & -> & [_ Hin]%list_elem_of_filter). eauto.
  - intros t' f' He Hrg. destruct (start_step f0 t f t' f' Hok He Hrg) as [[Hc' _ _ Hran' _ _] Hall].
    by rewrite Hc', Hran', Hall.
  - intros t' r He Hrg. destruct (WaitForCacheSync_exec f t' _ Hst He Hrg)
      as (res & [= <-] & _ & _ & _ & Hdom & _). exact Hdom.
Qed.

(** [ForResource] knows the AthenzDomains of the group only, and then hands
    out the informer of the factory. *)
Lemma ForResource_exec resource f t o :
  exec (ForResource resource f) t o ->
  if decide (resource = mkGVR "athenz.io" "v1" "athenzdomains")
  then exists i f' t', exec (adi_Informer (factory_AthenzDomains f) f) t' (Done (i, f')) /\ t = t' /\
    o = Done (Some (mkGeneric i (mkGR "athenz.io" "athenzdomains")), None, f')
  else t = [] /\ o = Done (None, Some (errors_New "no informer found for %v"), f).
Proof.
  unfold ForResource, WithResource, SchemeGroupVersion. cbn [GV_Group GV_Version]. intros He.
  destruct (decide _) as [->|]; [|exact He].
  apply exec_bind in He as [(t1 & t2 & [i f'] & -> & Hi & [-> ->])|(w & Hi & ->)].
  - exists i, f', t1. by rewrite app_nil_r.
  - exfalso. unfold adi_Informer, InformerFor in Hi. destruct (f_informers f !! _); [by destruct Hi|].
    unfold defaultInformer, NewFilteredAthenzDomainInformer in Hi. exec_call Hi as j t1. by destruct Hi.
Qed.

(** ** The lister *)

Lemma append_loop_eq crs ret :
  append_loop (map (fun cr => ObjAthenzDomain (Some cr)) crs) ret =
  PRet (ret ++ map Some crs)%list.
Proof.
  revert ret. induction crs as [|cr crs IH]; intros ret; simpl; [by rewrite app_nil_r|].
  by rewrite IH, <- app_assoc.
Qed.

(** While the cache is [C]: [Get] is a look-up, with a NotFound error for a
    name that is not cached; [List] gives the cached CRs the selector takes. *)
Lemma lister_spec C name matches t o t' o' :
  exec (lister_Get name) t o -> Forall (agrees C) t ->
  exec (lister_List matches) t' o' -> Forall (agrees C) t' ->
  o = Done (match cached_crs C !! name with
            | Some cr => (Some cr, None)
            | None => (None, Some (StatusError ReasonNotFound name))
            end) /\
  exists l, o' = Done (map Some l, None) /\
    l ≡ₚ List.filter (fun cr => matches (ObjAthenzDomain (Some cr))) (map_to_list (cached_crs C)).*2.
Proof.
  intros He Ha He' Ha'. split.
  - unfold lister_Get in He. exec_call He as [[obj ex] err] t1. agree_simpl.
    destruct (cached_crs C !! name); simplify_eq; by exec_end He.
  - unfold lister_List in He'. exec_call He' as objs t1.
    apply Forall_cons in Ha' as [Hobjs _]. simpl in Hobjs.
    assert (exists l0, objs = map (fun cr => ObjAthenzDomain (Some cr)) l0 /\
      l0 ≡ₚ (map_to_list (cached_crs C)).*2) as (l0 & -> & Hl0).
    { apply Permutation_map_inv in Hobjs as (l0 & -> & Hp). by exists l0. }
    assert (List.filter matches (map (fun cr => ObjAthenzDomain (Some cr)) l0) =
      map (fun cr => ObjAthenzDomain (Some cr))
        (List.filter (fun cr => matches (ObjAthenzDomain (Some cr))) l0)) as Hf.
    { clear. induction l0 as [|cr l0 IH]; simpl; [done|]. rewrite IH. by destruct (matches _). }
    rewrite Hf, append_loop_eq in He'. destruct He' as [_ ->].
    eexists. split; [done|]. clear -Hl0.
    induction Hl0; simpl; repeat case_match; eauto using Permutation.
Qed.
End factory_facts.

(** ** Witness: one informer, started twice *)
Module InformersExample.
#[local] Existing Instance plain_data.

Definition f0 : Factory := NewSharedInformerFactory 3600.
Definition lw : ListWatch :=
  mkListWatch (fun options => AthenzDomains.List options) (fun options => AthenzDomains.Watch options).
Definition t1 : list (ev InfE) :=
  [Ev (NewSharedIndexInformer lw "AthenzDomain" 3600 ["namespace"]) 7%nat].
Definition f1 : Factory := set_informers {["AthenzDomain" := 7%nat]} f0.
Definition t2 : list (ev InfE) :=
  [Ev (Range (f_informers f1)) [("AthenzDomain", 7%nat)]; Ev (GoRun 7) tt].
Definition f2 : Factory := set_started {["AthenzDomain" := true]} f1.
Definition t3 : list (ev InfE) := [Ev (Range (f_informers f1)) [("AthenzDomain", 7%nat)]].

Lemma t1_exec : exec (adi_Informer (factory_AthenzDomains f0) f0) t1 (Done (7%nat, f1)).
Proof. eexists _, _. split; [reflexivity|]. split; reflexivity. Qed.
Lemma t2_exec : exec (Start f1) t2 (Done f2).
Proof. repeat (eexists _, _; split; [reflexivity|]). split; reflexivity. Qed.
Lemma t3_exec : exec (Start f2) t3 (Done f2).
Proof. repeat (eexists _, _; split; [reflexivity|]). split; reflexivity. Qed.
Lemma t2_ranged : Forall ranged t2.
Proof. repeat apply Forall_cons_2; [|exact I|apply Forall_nil_2]. by vm_compute. Qed.
Lemma t3_ranged : Forall ranged t3.
Proof. repeat apply Forall_cons_2; [|apply Forall_nil_2]. by vm_compute. Qed.

Lemma started_twice : history f0 (t1 ++ t2 ++ t3)%list f2.
Proof.
  rewrite app_assoc. apply (history_op _ (t1 ++ t2)%list f2);
    [|by apply fop_start; [exact t3_exec|exact t3_ranged]].
  apply (history_op _ t1 f1); [|by apply fop_start; [exact t2_exec|exact t2_ranged]].
  apply (history_op _ [] f0 t1); [apply history_nil|].
  by apply (fop_informer f0 "AthenzDomain" lw ["namespace"] t1 7%nat f1), t1_exec.
Qed.
End InformersExample.

Example factory_history_witness :
  let t := (InformersExample.t1 ++ InformersExample.t2 ++ InformersExample.t3)%list in
  NoDup (omap (@ran plain_data) t) /\ omap (@ran plain_data) t = [7%nat].
Proof.
  split; [|reflexivity].
  refine (proj1 (proj2 (proj2 (@factory_history plain_data InformersExample.f0 _ _ eq_refl eq_refl
    InformersExample.started_twice _)))).
  apply NoDup_singleton.
Defined.
