(* ===== verification/FakeClient.v ===== *)
(** * pkg/client/clientset/versioned/fake: the client for tests

    [fake_athenzdomain.go] turns each method into an action and hands it to
    client-go's [Fake]; [NewSimpleClientset] backs it by client-go's object
    tracker, which files objects under the group of the scheme
    ([pkg/apis/athenz/v1/register.go]).  The two groups differ. *)
From stdpp Require Import base list strings gmap.
From S2P Require Import Prelude Prog Zms Effects Rest Clientset.
#[local] Open Scope string_scope.

Section fake.
Context `{ZmsData}.

(** ** register.go *)

Inductive SchemeE : Set -> Type :=
| AddKnownTypes (gv : GroupVersion) (kinds : list string) : SchemeE unit
| AddToGroupVersion (gv : GroupVersion) : SchemeE unit.

Definition addKnownTypes : prog SchemeE (option error) :=
  trigger (AddKnownTypes SchemeGroupVersion ["AthenzDomain"; "AthenzDomainList"]);;
  trigger (AddKnownTypes SchemeGroupVersion ["Status"]);;
  trigger (AddToGroupVersion SchemeGroupVersion);;
  mret None.

(** *** The scheme builders

    [runtime.SchemeBuilder.AddToScheme] is documented to apply the stored
    functions to the scheme and to abandon the attempt at the first error. *)
Class SchemeLib :=
  SchemeBuilder_AddToScheme : list (prog SchemeE (option error)) -> prog SchemeE (option error).
Class SchemeLibOk `{SchemeLib} : Prop := {
  add_none t o : exec (SchemeBuilder_AddToScheme []) t o <-> t = [] /\ o = Done None;
  add_cons f fs t o :
    exec (SchemeBuilder_AddToScheme (f :: fs)) t o <->
    exec (err ← f; match err with
                   | Some err => mret (Some err)
                   | None => SchemeBuilder_AddToScheme fs
                   end) t o
}.

(** pkg/apis/athenz/v1: the builder after the package's [init], which
    registers [addKnownTypes]; [AddToScheme] is bound to its address. *)
Definition v1_localSchemeBuilder : list (prog SchemeE (option error)) := [addKnownTypes].
Definition v1_AddToScheme `{SchemeLib} : prog SchemeE (option error) :=
  SchemeBuilder_AddToScheme v1_localSchemeBuilder.

(** fake/register.go and scheme/register.go, each with a scheme of its own;
    [utilruntime.Must] panics on an error. *)
Definition utilruntime_Must (err : option error) : prog SchemeE unit :=
  match err with Some _ => PPanic "panic(err)" | None => mret tt end.
Definition fake_AddToScheme `{SchemeLib} : prog SchemeE (option error) :=
  let localSchemeBuilder := [v1_AddToScheme] in
  SchemeBuilder_AddToScheme localSchemeBuilder.
Definition fake_init `{SchemeLib} : prog SchemeE unit :=
  trigger (AddToGroupVersion (mkGV "" "v1"));;
  err ← fake_AddToScheme;
  utilruntime_Must err.
Definition scheme_AddToScheme `{SchemeLib} : prog SchemeE (option error) :=
  let localSchemeBuilder := [v1_AddToScheme] in
  SchemeBuilder_AddToScheme localSchemeBuilder.
Definition scheme_init `{SchemeLib} : prog SchemeE unit :=
  trigger (AddToGroupVersion (mkGV "" "v1"));;
  err ← scheme_AddToScheme;
  utilruntime_Must err.

(** The group versions a kind is registered under. *)
Definition registered (kind : string) (t : list (ev SchemeE)) : list GroupVersion :=
  omap (fun e => match e with
                 | Ev (AddKnownTypes gv kinds) _ =>
                     if bool_decide (kind ∈ kinds) then Some gv else None
                 | _ => None
                 end) t.

(** ** fake_athenzdomain.go *)

Definition athenzdomainsResource : GroupVersionResource := mkGVR "athenz" "v1" "athenzdomains".

Inductive Action :=
| RootGetAction (r : GroupVersionResource) (name : string)
| RootListAction (r : GroupVersionResource) (opts : ListOptions)
| RootWatchAction (r : GroupVersionResource) (opts : ListOptions)
| RootCreateAction (r : GroupVersionResource) (cr : ptr AthenzDomain)
| RootUpdateAction (r : GroupVersionResource) (cr : ptr AthenzDomain)
| RootDeleteAction (r : GroupVersionResource) (name : string)
| RootDeleteCollectionAction (r : GroupVersionResource) (opts : ListOptions)
| RootPatchSubresourceAction (r : GroupVersionResource) (name pt data : string) (sub : list string).

(** [runtime.Object], as far as the methods assert its type. *)
Inductive RObject :=
| RNil
| RDomain (cr : ptr AthenzDomain)
| RList (l : ptr AthenzDomainList)
| ROther.

Inductive FakeE : Set -> Type :=
| Invokes (a : Action) (defaultReturnObj : RObject) : FakeE (RObject * option error)
| InvokesWatch (a : Action) : FakeE (option nat * option error).
Abbreviation fprog := (prog FakeE).

Definition zero_domain : AthenzDomain :=
  mkAthenzDomain (mkMeta "" "" MetaZero) (mkStatus "") (mkSpec (mkSignedDomain None "" "")).
Definition no_domain : RObject := RDomain (Some zero_domain).
Definition no_list : RObject := RList (Some (mkADList MetaZero None)).

(** [if obj == nil { return nil, err }; return obj.( *AthenzDomain), err] *)
Definition as_domain (x : RObject * option error) : fprog (ptr AthenzDomain * option error) :=
  let '(obj, err) := x in
  match obj with
  | RNil => mret (None, err)
  | RDomain cr => mret (cr, err)
  | _ => PPanic "interface conversion"
  end.

Definition fake_Get (name : string) : fprog (ptr AthenzDomain * option error) :=
  x ← trigger (Invokes (RootGetAction athenzdomainsResource name) no_domain);
  as_domain x.

(** [testing.ExtractFromListOptions] and the selectors of apimachinery. *)
Section labels.
Context {Selector : Type} (extract : ListOptions -> ptr Selector) (everything : Selector)
  (matches : Selector -> AthenzDomain -> bool).

Fixpoint append_matching (label : Selector) (l items : list AthenzDomain) : list AthenzDomain :=
  match l with
  | [] => items
  | item :: l' =>
      append_matching label l' (if matches label item then (items ++ [item])%list else items)
  end.

Definition fake_List (opts : ListOptions) : fprog (ptr AthenzDomainList * option error) :=
  '(obj, err) ← trigger (Invokes (RootListAction athenzdomainsResource opts) no_list);
  match obj with
  | RNil => mret (None, err)
  | RList l =>
      let label := match extract opts with Some l => l | None => everything end in
      list ← deref l;
      let items := append_matching label (elems (ADL_Items list)) [] in
      mret (Some (mkADList (ADL_Meta list) (slice_of items)), err)
  | _ => PPanic "interface conversion"
  end.
End labels.

Definition fake_Watch (opts : ListOptions) : fprog (option nat * option error) :=
  trigger (InvokesWatch (RootWatchAction athenzdomainsResource opts)).

Definition fake_Create (athenzDomain : ptr AthenzDomain) : fprog (ptr AthenzDomain * option error) :=
  x ← trigger (Invokes (RootCreateAction athenzdomainsResource athenzDomain) no_domain);
  as_domain x.

Definition fake_Update (athenzDomain : ptr AthenzDomain) : fprog (ptr AthenzDomain * option error) :=
  x ← trigger (Invokes (RootUpdateAction athenzdomainsResource athenzDomain) no_domain);
  as_domain x.

Definition fake_Delete (name : string) : fprog (option error) :=
  '(_, err) ← trigger (Invokes (RootDeleteAction athenzdomainsResource name) no_domain);
  mret err.

Definition fake_DeleteCollection (listOpts : ListOptions) : fprog (option error) :=
  let action := RootDeleteCollectionAction athenzdomainsResource listOpts in
  '(_, err) ← trigger (Invokes action no_list);
  mret err.

Definition fake_Patch (name pt data : string) (subresources : list string)
  : fprog (ptr AthenzDomain * option error) :=
  x ← trigger (Invokes
        (RootPatchSubresourceAction athenzdomainsResource name pt data subresources) no_domain);
  as_domain x.
End fake.
Abbreviation fprog := (prog FakeE).

(** ** client-go's object tracker

    [track_Add] adds an object, filed under a resource of the group version
    its kind is registered under; [track_react] is the reaction to an action,
    with the tracker after it. *)
Class Tracker `{ZmsData} := {
  tracker : Type;
  track_new : tracker;
  track_Add : GroupVersion -> tracker -> AthenzDomain -> tracker * option error;
  track_react : tracker -> Action -> (RObject * option error) * tracker;
  track_Watch : tracker -> GroupVersionResource -> string -> option nat * option error;
  track_lookup : tracker -> GroupVersionResource -> string -> option AthenzDomain
}.

(** What its documentation says, as far as the theorems need it: an object is
    found under the resource it was filed under and under no other, and a
    created one under the resource of the action. *)
Class TrackerOk `{Tracker} : Prop := {
  track_lookup_new r n : track_lookup track_new r n = None;
  track_lookup_Add gv t cr r n :
    GVR_Group r <> GV_Group gv -> track_lookup (track_Add gv t cr).1 r n = track_lookup t r n;
  track_react_get t r n :
    (track_react t (RootGetAction r n)).1 =
    match track_lookup t r n with
    | Some cr => (RDomain (Some cr), None)
    | None => (RNil, Some (StatusError ReasonNotFound n))
    end;
  track_react_create t r cr :
    track_lookup t r (AD_Name cr) = None ->
    (track_react t (RootCreateAction r (Some cr))).1 = (RDomain (Some cr), None) /\
    track_lookup (track_react t (RootCreateAction r (Some cr))).2 r (AD_Name cr) = Some cr
}.

Section simple.
Context `{Tracker}.

(** The resource and the namespace of an action; root actions have none. *)
Definition GetResource (a : Action) : GroupVersionResource :=
  match a with
  | RootGetAction r _ | RootListAction r _ | RootWatchAction r _ | RootCreateAction r _
  | RootUpdateAction r _ | RootDeleteAction r _ | RootDeleteCollectionAction r _
  | RootPatchSubresourceAction r _ _ _ _ => r
  end.
Definition GetNamespace (a : Action) : string := "".

(** The reactions of a fake clientset: for a verb and a resource, [ObjectReaction]
    of the tracker; for watches of a resource, a function of this package. *)
Definition watch_reaction (o : tracker) (action : Action) : bool * option nat * option error :=
  let gvr := GetResource action in
  let ns := GetNamespace action in
  let '(watch, err) := track_Watch o gvr ns in
  match err with
  | Some err => (false, None, Some err)
  | None => (true, watch, None)
  end.

Record FakeClientset := mkFakeClientset {
  fcs_ReactionChain : list (string * string);
  fcs_WatchReactionChain : list (string * (tracker -> Action -> bool * option nat * option error));
  fcs_tracker : tracker
}.

(** [NewSimpleClientset]: a clientset whose tracker has the objects, or a panic. *)
Fixpoint add_objects {E} (gv : GroupVersion) (objects : list AthenzDomain) (o : tracker)
  : prog E tracker :=
  match objects with
  | [] => mret o
  | obj :: objects' =>
      let '(o, err) := track_Add gv o obj in
      match err with
      | Some _ => PPanic "panic(err)"
      | None => add_objects gv objects' o
      end
  end.
Definition NewSimpleClientset {E} (gv : GroupVersion) (objects : list AthenzDomain)
  : prog E FakeClientset :=
  o ← add_objects gv objects track_new;
  mret (mkFakeClientset [("*", "*")] [("*", watch_reaction)] o).

(** The accessors; the group's fake client and the resource's are the same
    [Fake] again. *)
Record FakeDiscovery := mkFakeDiscovery { FakeDiscovery_Fake : FakeClientset }.
Definition fake_Discovery (c : FakeClientset) : FakeDiscovery := mkFakeDiscovery c.
Definition fake_Tracker (c : FakeClientset) : tracker := fcs_tracker c.
Record FakeAthenzV1 := mkFakeAthenzV1 { FakeAthenzV1_Fake : FakeClientset }.
Definition fake_AthenzV1 (c : FakeClientset) : FakeAthenzV1 := mkFakeAthenzV1 c.
Record FakeAthenzDomains := mkFakeAthenzDomains { FakeAthenzDomains_Fake : FakeAthenzV1 }.
Definition fake_AthenzDomains (c : FakeAthenzV1) : FakeAthenzDomains := mkFakeAthenzDomains c.
(** a nil pointer in the interface *)
Definition fake_RESTClient (c : FakeAthenzV1) : ptr RestClient := None.

(** client-go's [Fake] with these chains is documented to answer an action by
    the first reactor for its verb and resource that handles it, and to fail
    on a watch nobody handles. *)
Fixpoint watched (chain : list (string * (tracker -> Action -> bool * option nat * option error)))
    (o : tracker) (a : Action) (x : option nat * option error) : Prop :=
  match chain with
  | [] => x.1 = None /\ is_Some x.2
  | (_, f) :: chain' =>
      let '(handled, ret, err) := f o a in
      if (handled : bool) then x = (ret, err) else watched chain' o a x
  end.

(** The calls of an execution, answered by a clientset. *)
Fixpoint tracked (c : FakeClientset) (o : tracker) (t : list (ev FakeE)) (o' : tracker) : Prop :=
  match t with
  | [] => o' = o
  | Ev e x :: t' =>
      match e in FakeE X return X -> Prop with
      | Invokes a d => fun x => x = (track_react o a).1 /\ tracked c (track_react o a).2 t' o'
      | InvokesWatch a => fun x => watched (fcs_WatchReactionChain c) o a x /\ tracked c o t' o'
      end x
  end.
End simple.

(** ** Theorems *)

Section facts.
Context `{TrackerOk}.

Lemma add_objects_lookup {E} gv objects o t o' r n :
  exec (add_objects (E := E) gv objects o) t (Done o') -> GVR_Group r <> GV_Group gv ->
  track_lookup o' r n = track_lookup o r n.
Proof.
  intros He Hr. revert o He. induction objects as [|obj objects IH]; intros o; simpl.
  { by intros [_ [= ->]]. }
  pose proof (track_lookup_Add gv o obj r n Hr) as Ha.
  destruct (track_Add gv o obj) as [o1 [err|]]; simpl in Ha; [by intros [_ [=]]|].
  intros He. by rewrite (IH _ He).
Qed.

(** Both packages register the kinds under athenz.io/v1 alone, and their
    [init] does not panic. *)
Lemma init_registers `{SchemeLibOk} t o :
  exec fake_init t o \/ exec scheme_init t o ->
  o = Done tt /\ registered "AthenzDomain" t = [SchemeGroupVersion] /\
  registered "AthenzDomainList" t = [SchemeGroupVersion].
Proof.
  assert (Hknown : forall t o, exec addKnownTypes t o -> o = Done None /\
    registered "AthenzDomain" t = [SchemeGroupVersion] /\
    registered "AthenzDomainList" t = [SchemeGroupVersion]).
  { intros t0 o0 Hx. unfold addKnownTypes in Hx. exec_call Hx as [] t1. exec_call Hx as [] t2.
    exec_call Hx as [] t3. by destruct Hx as [-> ->]. }
  assert (Hone : forall f t o, (forall t1 o1, exec f t1 o1 -> exists e : option error, o1 = Done e) ->
    exec (SchemeBuilder_AddToScheme [f]) t o -> exec f t o).
  { intros f t0 o0 Hf [(t1 & t2 & e & -> & Hx & Hr)|(w & Hx & ->)]%add_cons%exec_bind.
    - destruct e as [e|]; [destruct Hr as [-> ->]|apply add_none in Hr as [-> ->]]; by rewrite app_nil_r.
    - by apply Hf in Hx as [e [=]]. }
  assert (Hv1 : forall t o, exec v1_AddToScheme t o -> exec addKnownTypes t o).
  { intros t0 o0. apply Hone. intros t1 o1 Hx. apply Hknown in Hx as [-> _]. eauto. }
  assert (Hinit : forall t o, exec (trigger (AddToGroupVersion (mkGV "" "v1"));;
      err ← SchemeBuilder_AddToScheme [v1_AddToScheme]; utilruntime_Must err) t o ->
    o = Done tt /\ registered "AthenzDomain" t = [SchemeGroupVersion] /\
    registered "AthenzDomainList" t = [SchemeGroupVersion]).
  { intros t0 o0 Hx. exec_call Hx as [] t1.
    assert (Hfn : forall ta oa, exec v1_AddToScheme ta oa -> exists e : option error, oa = Done e).
    { intros ta oa Hy%Hv1%Hknown. destruct Hy as [-> _]. eauto. }
    apply exec_bind in Hx as [(t2 & t3 & e & -> & Hx & Hr)|(w & Hx & ->)];
      apply (Hone _ _ _ Hfn), Hv1, Hknown in Hx as (Ho & Hr1 & Hr2); [|done].
    injection Ho as ->. destruct Hr as [-> ->]. by rewrite app_nil_r. }
  by intros [Hx|Hx]; apply Hinit.
Qed.

(** The fake clientset does not respond with the objects it is given.
    They are filed under the group their kind is registered under, athenz.io,
    while every action of the fake client asks for the group athenz: a [Get]
    of any name, be it that of a given object, answers NotFound.  Objects
    that are created through the fake client are found.  A watch is the
    tracker's, or fails when that fails. *)
Theorem fake_forgets_objects `{SchemeLibOk} {E} ts so gv objects c n to :
  exec fake_init ts so -> gv ∈ registered "AthenzDomain" ts ->
  exec (E := E) (NewSimpleClientset gv objects) to (Done c) ->
  (forall t to' out, exec (fake_Get n) t out -> tracked c (fake_Tracker c) t to' ->
     out = Done (None, Some (StatusError ReasonNotFound n))) /\
  (forall cr t2 o2 t3 o3 out2 out3,
     exec (fake_Create (Some cr)) t2 out2 -> tracked c (fake_Tracker c) t2 o2 ->
     exec (fake_Get (AD_Name cr)) t3 out3 -> tracked c o2 t3 o3 ->
     out2 = Done (Some cr, None) /\ out3 = Done (Some cr, None)) /\
  (forall opts o t o' out, exec (fake_Watch opts) t out -> tracked c o t o' ->
     match track_Watch o athenzdomainsResource "" with
     | (w, None) => out = Done (w, None)
     | (_, Some _) => exists err, out = Done (None, Some err)
     end).
Proof.
  intros Hs Hgv Hnew. destruct (init_registers ts so) as (_ & Hreg & _); [by left|].
  rewrite Hreg in Hgv. apply list_elem_of_singleton in Hgv as ->.
  apply exec_bind in Hnew as [(t1 & t2 & o & -> & Hnew & [-> [= ->]])|(w & _ & [=])].
  cbn [fake_Tracker fcs_tracker].
  assert (Hempty : forall k, track_lookup o athenzdomainsResource k = None).
  { intros k. rewrite (add_objects_lookup _ _ _ _ _ athenzdomainsResource k Hnew) by done.
    apply track_lookup_new. }
  set (c := mkFakeClientset _ _ _).
  assert (Hget : forall k o1 t1 o1' out1, exec (fake_Get k) t1 out1 -> tracked c o1 t1 o1' ->
    out1 = Done (match track_lookup o1 athenzdomainsResource k with
                 | Some cr => (Some cr, None)
                 | None => (None, Some (StatusError ReasonNotFound k)) end)).
  { intros k o1 t2 o1' out1 He Ht. unfold fake_Get in He. exec_call He as [obj err] tr.
    simpl in Ht. destruct Ht as [Hx _]. rewrite track_react_get in Hx.
    destruct (track_lookup o1 _ k); injection Hx as -> ->; by destruct He as [_ ->]. }
  split; [|split].
  - intros t to' out He Ht. by rewrite (Hget _ _ _ _ _ He Ht), Hempty.
  - intros cr t2 o2 t3 o3 out2 out3 He2 Ht2 He3 Ht3.
    destruct (track_react_create o athenzdomainsResource cr (Hempty _)) as [Hr Hl].
    unfold fake_Create in He2. exec_call He2 as [obj err] t4. simpl in Ht2. destruct Ht2 as [Hx Ht2].
    rewrite Hr in Hx. injection Hx as -> ->. destruct He2 as [-> ->]. simpl in Ht2. subst o2.
    split; [done|]. by rewrite (Hget _ _ _ _ _ He3 Ht3), Hl.
  - intros opts o1 t o' out He Ht. apply exec_trigger in He as ([w err] & -> & ->).
    simpl in Ht. unfold watch_reaction, GetNamespace in Ht.
    cbn [GetResource] in Ht.
    destruct (track_Watch o1 athenzdomainsResource "") as [w1 [e1|]]; destruct Ht as [Hx _].
    + destruct Hx as [Hw [e2 He2]]. cbn [fst snd] in Hw, He2. subst w err. by exists e2.
    + by injection Hx as -> ->.
Qed.

(** The fake list is the tracker's, filtered by the label selector. *)
Lemma append_matching_eq {Selector} (matches : Selector -> AthenzDomain -> bool) label l items :
  append_matching matches label l items = (items ++ List.filter (matches label) l)%list.
Proof.
  revert items. induction l as [|item l IH]; intros items; simpl; [by rewrite app_nil_r|].
  rewrite IH. destruct (matches label item); [by rewrite <- app_assoc | done].
Qed.
End facts.

(** ** Witness: a tracker that is a map *)
Module FakeExample.
#[local] Existing Instance plain_data.

Definition key (r : GroupVersionResource) (n : string) : string * string * string * string :=
  (GVR_Group r, GVR_Version r, GVR_Resource r, n).
Abbreviation Store := (gmap (string * string * string * string) AthenzDomain).
#[export] Instance map_tracker : Tracker := {|
  tracker := Store;
  track_new := ∅;
  track_Add gv t cr := (<[key (WithResource gv "athenzdomains") (AD_Name cr) := cr]> t, None);
  track_react t a :=
    match a with
    | RootGetAction r n =>
        (match t !! key r n with
         | Some cr => (RDomain (Some cr), None)
         | None => (RNil, Some (StatusError ReasonNotFound n))
         end, t)
    | RootCreateAction r (Some cr) =>
        match t !! key r (AD_Name cr) with
        | Some _ => ((RNil, Some (StatusError ReasonAlreadyExists (AD_Name cr))), t)
        | None => ((RDomain (Some cr), None), <[key r (AD_Name cr) := cr]> t)
        end
    | _ => ((RNil, None), t)
    end;
  track_Watch _ _ _ := (Some 1%nat, None);
  track_lookup t r n := t !! key r n
|}.
#[export] Instance in_order : SchemeLib :=
  fix apply fs :=
    match fs with
    | [] => mret None
    | f :: fs => err ← f; match err with Some err => mret (Some err) | None => apply fs end
    end.
Lemma in_order_ok : SchemeLibOk.
Proof. split; [done|]. intros. reflexivity. Qed.
Lemma map_tracker_ok : TrackerOk.
Proof.
  split; simpl.
  - intros r n. apply lookup_empty.
  - intros gv t cr r n Hr. apply lookup_insert_ne. unfold key, WithResource. simpl. congruence.
  - done.
  - intros t r cr ->. simpl. by rewrite lookup_insert_eq.
Qed.

Definition scheme : list (ev SchemeE) :=
  [Ev (AddToGroupVersion (mkGV "" "v1")) tt;
   Ev (AddKnownTypes SchemeGroupVersion ["AthenzDomain"; "AthenzDomainList"]) tt;
   Ev (AddKnownTypes SchemeGroupVersion ["Status"]) tt;
   Ev (AddToGroupVersion SchemeGroupVersion) tt].
Definition given : AthenzDomain :=
  mkAthenzDomain (mkMeta "home.domain" "" []) (mkStatus "") (mkSpec (mkSignedDomain None "" "")).
Definition asked : list (ev FakeE) :=
  [Ev (Invokes (RootGetAction athenzdomainsResource "home.domain") no_domain)
     (RNil, Some (StatusError ReasonNotFound "home.domain"))].
End FakeExample.

Example fake_forgets_objects_witness :
  exists c : @FakeClientset plain_data FakeExample.map_tracker,
    exec (E := option) (@NewSimpleClientset plain_data FakeExample.map_tracker option SchemeGroupVersion
      [FakeExample.given]) [] (Done c) /\
    @track_lookup plain_data FakeExample.map_tracker (fcs_tracker c)
      (WithResource SchemeGroupVersion "athenzdomains") "home.domain" = Some FakeExample.given /\
    exists out, exec (@fake_Get plain_data "home.domain") FakeExample.asked out /\
      out = Done (None, Some (StatusError ReasonNotFound "home.domain")).
Proof.
  eexists. split; [split; reflexivity|]. split; [reflexivity|].
  assert (exec (@fake_Get plain_data "home.domain") FakeExample.asked
    (Done (None, Some (StatusError ReasonNotFound "home.domain")))) as He.
  { eexists _, _. split; [reflexivity|]. split; reflexivity. }
  eexists. split; [exact He|].
  refine (proj1 (@fake_forgets_objects plain_data FakeExample.map_tracker FakeExample.map_tracker_ok
    FakeExample.in_order FakeExample.in_order_ok
    option FakeExample.scheme (Done tt) SchemeGroupVersion [FakeExample.given] _ "home.domain"
    [] _ _ _) _ _ _ He _).
  - repeat (eexists _, _; split; [reflexivity|]). split; reflexivity.
  - by left.
  - split; reflexivity.
  - split; reflexivity.
Defined.
