(* ===== verification/Client.v ===== *)
(** * The clients behind one interface

    [AthenzDomainInterface] of pkg/client is a class: the typed client
    ([Rest]) and the fake one ([FakeClient]) are its instances.  What the
    syncer relies on when it creates, updates and deletes is [AthenzDomainStore],
    a second class; against it, a program of the controller side that goes
    through a client does to the cluster what [Cluster] says of its calls. *)
From stdpp Require Import base list strings gmap.
From S2P Require Import Prelude Prog Zms Util Effects Cr Caches Controller Cluster Rest Clientset FakeClient.
#[local] Open Scope string_scope.

(** ** The interface *)

Class AthenzDomainInterface `{ZmsData} (E : Set -> Type) := {
  ad_Create (athenzDomain : ptr AthenzDomain) (opts : string) : prog E (ptr AthenzDomain * option error);
  ad_Update (athenzDomain : ptr AthenzDomain) (opts : string) : prog E (ptr AthenzDomain * option error);
  ad_Delete (name opts : string) : prog E (option error);
  ad_DeleteCollection (opts : string) (listOpts : ListOptions) : prog E (option error);
  ad_Get (name opts : string) : prog E (ptr AthenzDomain * option error);
  ad_List (opts : ListOptions) : prog E (ptr AthenzDomainList * option error);
  ad_Watch (opts : ListOptions) : prog E (option nat * option error);
  ad_Patch (name pt data opts : string) (subresources : list string)
    : prog E (ptr AthenzDomain * option error)
}.

#[global] Instance typed_client `{ZmsData} : AthenzDomainInterface RestE := {
  ad_Create := AthenzDomains.Create;
  ad_Update := AthenzDomains.Update;
  ad_Delete := AthenzDomains.Delete;
  ad_DeleteCollection := AthenzDomains.DeleteCollection;
  ad_Get := AthenzDomains.Get;
  ad_List := AthenzDomains.List;
  ad_Watch := AthenzDomains.Watch;
  ad_Patch := AthenzDomains.Patch
}.

(** The fake client ignores most options. *)
Definition fake_client `{ZmsData} {Selector : Type} (extract : ListOptions -> ptr Selector)
    (everything : Selector) (matches : Selector -> AthenzDomain -> bool)
  : AthenzDomainInterface FakeE := {|
  ad_Create cr _ := fake_Create cr;
  ad_Update cr _ := fake_Update cr;
  ad_Delete name _ := fake_Delete name;
  ad_DeleteCollection _ listOpts := fake_DeleteCollection listOpts;
  ad_Get name _ := fake_Get name;
  ad_List opts := fake_List extract everything matches opts;
  ad_Watch opts := fake_Watch opts;
  ad_Patch name pt data _ subresources := fake_Patch name pt data subresources
|}.

(** ** What the syncer relies on *)

(** [ad_step]: what a call below a client does to the stored AthenzDomains. *)
Class AthenzDomainStore `{AthenzDomainInterface E} := {
  ad_step : gmap string AthenzDomain -> ev E -> gmap string AthenzDomain -> Prop
}.

Section store.
Context `{AthenzDomainStore}.

Fixpoint ad_run (crs : gmap string AthenzDomain) (t : list (ev E)) (crs' : gmap string AthenzDomain)
  : Prop :=
  match t with
  | [] => crs' = crs
  | e :: t' => exists crs1, ad_step crs e crs1 /\ ad_run crs1 t' crs'
  end.
End store.

Class AthenzDomainStoreOk `{AthenzDomainStore} : Prop := {
  ad_Create_ok cr opts : no_panic (ad_Create (Some cr) opts) /\
    forall t x crs crs', exec (ad_Create (Some cr) opts) t (Done x) -> ad_run crs t crs' ->
      cluster_step crs (Ev (AdCreate cr) x) crs';
  ad_Update_ok cr opts : no_panic (ad_Update (Some cr) opts) /\
    forall t x crs crs', exec (ad_Update (Some cr) opts) t (Done x) -> ad_run crs t crs' ->
      cluster_step crs (Ev (AdUpdate cr) x) crs';
  ad_Delete_ok name opts : no_panic (ad_Delete name opts) /\
    forall t x crs crs', exec (ad_Delete name opts) t (Done x) -> ad_run crs t crs' ->
      cluster_step crs (Ev (AdDelete name) x) crs'
}.

(** *** The typed client, with the API server *)

#[global] Instance typed_store `{ZmsData} : AthenzDomainStore := {| ad_step := rest_step |}.

Section typed.
Context `{ZmsData}.

(** An execution of a method is one request. *)
Lemma into_requested r crs t x crs' :
  exec ('(result, err) ← trigger (DoInto r); mret (Some result, err)) t (Done x) ->
  ad_run crs t crs' ->
  exists obj err, x = (Some obj, err) /\
    requested ('(result, err) ← trigger (DoInto r); mret (Some result, err)) crs (Some obj, err) crs'.
Proof.
  intros He Hr. pose proof He as He'. exec_call He as [obj err] t1. destruct He as [-> [= ->]].
  destruct Hr as (crs1 & Hs & ->). exists obj, err. split; [done|]. eexists. split; [exact He'|exact Hs].
Qed.

#[global] Instance typed_store_ok : AthenzDomainStoreOk (E := RestE).
Proof.
  split; [intros cr opts|intros cr opts|intros name opts].
  - split; [by intros []|]. intros t x crs crs' He Hr.
    apply (into_requested _ crs _ _ crs' He) in Hr as (obj & err & -> & Hq).
    by apply (typed_client_methods crs crs' cr "" opts obj err).
  - split; [by intros []|]. intros t x crs crs' He Hr. cbn [ad_Update typed_client] in He.
    unfold AthenzDomains.Update in He. cbn [deref] in He. rewrite ret_bind in He.
    apply (into_requested _ crs _ _ crs' He) in Hr as (obj & err & -> & Hq).
    by apply (typed_client_methods crs crs' cr "" opts obj err).
  - split; [done|]. intros t x crs crs' He Hr.
    apply exec_trigger in He as (err & -> & [= ->]). destruct Hr as (crs1 & Hs & ->).
    apply (typed_client_methods crs crs1 (zero_domain) name opts zero_domain err).
    eexists. split; [by apply exec_trigger; eauto|exact Hs].
Qed.
End typed.

(** ** The controller side through a client *)

Section through.
Context `{AthenzDomainStoreOk}.

(** The calls of a client, and those that do not go through it. *)
Inductive ClientE : Set -> Type :=
| BelowClient (X : Set) (e : E X) : ClientE X
| Beside (X : Set) (e : K8sE X) : ClientE X.

(** pkg/cr passes empty options. *)
Definition through (X : Set) (e : K8sE X) : prog ClientE X :=
  match e with
  | AdCreate cr => lift BelowClient (ad_Create (Some cr) "")
  | AdUpdate cr => lift BelowClient (ad_Update (Some cr) "")
  | AdDelete name => lift BelowClient (ad_Delete name "")
  | e => trigger (Beside _ e)
  end.

Definition below (e : ev ClientE) : option (ev E) :=
  match e with
  | Ev e x => match e in ClientE X return X -> option (ev E) with
              | BelowClient X e => fun x => Some (Ev e x)
              | Beside _ _ => fun _ => None
              end x
  end.
Definition beside (e : ev ClientE) : option (ev K8sE) :=
  match e with
  | Ev e x => match e in ClientE X return X -> option (ev K8sE) with
              | BelowClient _ _ => fun _ => None
              | Beside X e => fun x => Some (Ev e x)
              end x
  end.

Lemma ad_run_app crs t1 t2 crs' :
  ad_run crs (t1 ++ t2) crs' <-> exists crs1, ad_run crs t1 crs1 /\ ad_run crs1 t2 crs'.
Proof.
  revert crs. induction t1 as [|e t1 IH]; intros crs; simpl.
  - split; [eauto|by intros (? & -> & ?)].
  - setoid_rewrite IH. split; [intros (c1 & ? & c2 & ? & ?)|intros (c2 & (c1 & ? & ?) & ?)]; eauto 10.
Qed.

Lemma lifted_below (t : list (ev E)) :
  omap below (map (lift_ev BelowClient) t) = t /\ omap beside (map (lift_ev BelowClient) t) = [].
Proof. induction t as [|[X e x] t [IH1 IH2]]; [done|]. csimpl. by rewrite IH1, IH2. Qed.

Lemma through_no_panic (X : Set) (e : K8sE X) : no_panic (through X e).
Proof.
  assert (Hlift : forall {B} (p : prog E B), no_panic p -> no_panic (lift BelowClient p)).
  { intros B p. unfold lift. induction p as [b|w|Y e' k IH]; simpl; [done..|]. intros Hn x. by apply IH. }
  destruct e; try done; apply Hlift;
    [apply ad_Create_ok|apply ad_Update_ok|apply ad_Delete_ok].
Qed.

(** One call: a write is what the client makes of it, the rest stays. *)
Lemma carried_through e t crs crs' :
  carried through e t -> ad_run crs (omap below t) crs' ->
  cluster_step crs e crs' /\ omap beside t = if is_write e then [] else [e].
Proof.
  assert (Hbelow : forall B (p : prog E B) x (P : list (ev E) -> Prop),
    exec (lift BelowClient p) t (Done x) ->
    (forall te, exec p te (Done x) -> omap below t = te -> P te) ->
    (exists te, P te) /\ omap beside t = []).
  { intros B p x P (te & Hp & ->)%exec_lift HP. destruct (lifted_below te) as [Hb Hs].
    split; [exists te; auto|done]. }
  destruct e as [X e x]. intros Hc Hr.
  destruct e; try (apply exec_trigger in Hc as (y & -> & [= <-]); cbn in Hr; by subst).
  - destruct (Hbelow _ _ _ (fun te => cluster_step crs (Ev (AdCreate cr) x) crs') Hc) as [[_ ?] ?]; [|done].
    intros te Hp Hte. rewrite Hte in Hr. by eapply ad_Create_ok.
  - destruct (Hbelow _ _ _ (fun te => cluster_step crs (Ev (AdUpdate cr) x) crs') Hc) as [[_ ?] ?]; [|done].
    intros te Hp Hte. rewrite Hte in Hr. by eapply ad_Update_ok.
  - destruct (Hbelow _ _ _ (fun te => cluster_step crs (Ev (AdDelete name) x) crs') Hc) as [[_ ?] ?]; [|done].
    intros te Hp Hte. rewrite Hte in Hr. by eapply ad_Delete_ok.
Qed.

Lemma through_exec {A} (p : kprog A) t o crs crs' :
  exec (interp through p) t o -> ad_run crs (omap below t) crs' ->
  exists te, exec p te o /\ cluster_run crs te crs' /\
    omap beside t = List.filter (fun e => negb (is_write e)) te.
Proof.
  intros (te & ts & Hp & -> & Hts)%exec_interp_no_panic; [|apply through_no_panic].
  intros Hr. exists te. split; [done|]. clear Hp o p. revert crs Hr.
  induction Hts as [|e t te ts Hc _ IH]; intros crs Hr; [by simpl in Hr; subst|].
  cbn [concat] in *. rewrite omap_app in Hr. apply ad_run_app in Hr as (crs1 & Hr1 & Hr2).
  destruct (carried_through _ _ _ _ Hc Hr1) as [Hs Hb]. destruct (IH _ Hr2) as [Hrun Hrest].
  rewrite omap_app, Hb, Hrest. split; [by exists crs1|]. simpl. by destruct (is_write e).
Qed.
End through.

(** C20. The controller side over the typed client.  Whatever program of it
    runs ([sync], the worker, the crons, ...), with its writes made by the
    methods of the typed client and the API server taking the client's
    requests for what they say: it makes the same other calls, ends in the
    same way, and does to the stored AthenzDomains what [cluster_run] says of
    its own calls.  So every theorem about the cluster holds over HTTP. *)
Theorem over_typed_client `{ZmsData} {A} (p : kprog A) t o crs crs' :
  exec (interp (through (E := RestE)) p) t o -> ad_run crs (omap below t) crs' ->
  exists te, exec p te o /\ cluster_run crs te crs' /\
    omap beside t = List.filter (fun e => negb (is_write e)) te.
Proof. apply through_exec. Qed.

(** ** Which client that is *)

(** [CRUtil] of pkg/cr: the client of the group and the informer. *)
Record CRUtil {Informer : Type} := mkCRUtil {
  athenzClientset : ptr AthenzV1.AthenzV1Client;
  CrIndexInformer : Informer
}.
Arguments CRUtil Informer : clear implicits.

Definition NewCRUtil {E Informer} (athenzClientset : ptr Clientset) (crIndexInformer : Informer)
  : prog E (CRUtil Informer) :=
  v1 ← Clientset_AthenzV1 athenzClientset;
  mret (mkCRUtil _ v1 crIndexInformer).

(** [c.athenzClientset.AthenzDomains()], the receiver of the methods *)
Definition cr_client {Informer} (c : CRUtil Informer) : AthenzV1.athenzDomains :=
  AthenzV1.AthenzDomains (athenzClientset c).

(** With the clientset of [NewForConfig], pkg/cr talks through the REST client
    that was made for the group athenz.io. *)
Lemma NewCRUtil_client {E Informer} config t cs (i : Informer) tc (c : CRUtil Informer) :
  exec (NewForConfig (Some config)) t (Done (Some cs, None)) ->
  exec (E := E) (NewCRUtil (Some cs) i) tc (Done c) ->
  exists c1 ua, CrIndexInformer c = i /\
    Ev (RESTClientFor (group_config ua c1)) (AthenzV1.client (cr_client c), None) ∈ t.
Proof.
  intros (v & c1 & r & ua & [_ [= ->]] & <- & Hin)%NewForConfig_AthenzDomains [_ [= ->]].
  by exists c1, ua.
Qed.

(** ** Witness: the first synchronisation of a domain, over the typed client *)
Module ClientExample.
#[local] Existing Instance plain_data.
#[local] Existing Instance plain_copy.

Definition world (X : Set) (e : ClientE (E := RestE) X) (s : unit) : X * unit :=
  match e in ClientE X return X * unit with
  | BelowClient _ e =>
      match e in RestE X return X * unit with
      | DoInto _ => ((CtlExample.stored, None), tt)
      | DoIntoList _ => ((mkADList MetaZero None, None), tt)
      | DoError _ => (None, tt)
      | DoWatch _ => ((None, None), tt)
      end
  | Beside _ e =>
      match e in K8sE X return X * unit with
      | ZmsGetSignedDomains _ _ _ _ _ _ => (CtlExample.answer, tt)
      | CrGetByKey _ => ((ObjNil, false, None), tt)
      | CrByIndex _ _ => (([], None), tt)
      | CrListIndexFuncValues _ => ([], tt)
      | CrList | NsList => ([], tt)
      | NsGetByKey _ => (CtlExample.ns, tt)
      | AdCreate _ | AdUpdate _ => ((None, None), tt)
      | AdDelete _ => (None, tt)
      | WaitForCacheSync => (true, tt)
      | QAddRateLimited _ | QForget _ | QDone _ => (tt, tt)
      | QNumRequeues _ => (0%Z, tt)
      | QGet => ((ItemString "", true), tt)
      | CmGet _ _ | CmCreate _ _ | CmUpdate _ _ => ((None, None), tt)
      end
  end.

Definition program : prog (ClientE (E := RestE)) (option error) :=
  interp (through (E := RestE)) (@sync plain_data plain_copy CtlExample.texts CtlExample.u "home.domain").
Definition trace : list (ev (ClientE (E := RestE))) := (run world program tt).2.
Lemma trace_exec : exec program trace (Done None).
Proof. apply (run_exec world _ tt _ tt). vm_compute. reflexivity. Qed.
Lemma trace_requests :
  omap below trace =
  [Ev (DoInto (mkRequest POST
     [Resource "athenzdomains"; VersionedParams (ParamsCreate "");
      Body (PayloadDomain (Some CtlExample.stored))])) (CtlExample.stored, None)].
Proof. vm_compute. reflexivity. Qed.
Lemma trace_run : ad_run ∅ (omap below trace) {["home.domain" := CtlExample.stored]}.
Proof.
  rewrite trace_requests. eexists. split; [|reflexivity].
  split; [reflexivity|]. exists CtlExample.stored. split; [by split|reflexivity].
Qed.
End ClientExample.

Example over_typed_client_witness :
  exists te, exec (@sync plain_data plain_copy CtlExample.texts CtlExample.u "home.domain") te (Done None) /\
    @cluster_run plain_data ∅ te {["home.domain" := CtlExample.stored]}.
Proof.
  destruct (@over_typed_client plain_data _ _ _ _ _ _ ClientExample.trace_exec ClientExample.trace_run)
    as (te & He & Hr & _).
  exists te. split; [exact He|exact Hr].
Defined.
