(* ===== verification/Main.v ===== *)
(** * main.go: from the command line to a running controller

    [main] as a program over the calls it makes, from the arguments of the
    process on.  [log.Panicf] is a panic; [os.Exit] ends the process too, and
    is an outcome of the same kind ([exit_status]).  The flags live in a
    [FlagSet], which the code reads through the pointers it got from their
    definitions.  [go]-ing the controller and waiting for a signal are calls
    of their own. *)
From Stdlib Require Import Ascii.
From stdpp Require Import base list strings gmap.
From S2P Require Import Prelude Prog GoStrings GoPath GoDuration GoFlag RateLimiter Zms Util Effects.
From S2P Require Import Cr Cron Controller Clientset Crypto Identity Reloader.
#[local] Open Scope string_scope.

Record Flags := mkFlags {
  fl_key : string;
  fl_cert : string;
  fl_caCert : string;
  fl_zmsURL : string;
  fl_updateCron : string;
  fl_athenzContactTimeCmNs : string;
  fl_athenzContactTimeCmName : string;
  fl_athenzContactTimeCmKey : string;
  fl_resyncCron : string;
  fl_queueDelayInterval : string;
  fl_adminDomain : string;
  fl_systemNamespaces : string;
  fl_disableKeepAlives : bool;
  fl_logLoc : string;
  fl_logMode : string;
  fl_identityKeyDir : string;
  fl_useNToken : bool;
  fl_serviceName : string;
  fl_domainName : string;
  fl_secretName : string;
  fl_header : string;
  fl_nTokenExpireTime : string;
  fl_excludeNamespaces : string;
  fl_excludeMSDRules : bool
}.

(** The defaults [main] gives its flags. *)
Definition default_flags : Flags := {|
  fl_key := "/var/run/athenz/service.key.pem";
  fl_cert := "/var/run/athenz/service.cert.pem";
  fl_caCert := "";
  fl_zmsURL := "";
  fl_updateCron := "1m0s";
  fl_athenzContactTimeCmNs := "kube-yahoo";
  fl_athenzContactTimeCmName := "athenzcall-config";
  fl_athenzContactTimeCmKey := "latest_contact";
  fl_resyncCron := "1h0m0s";
  fl_queueDelayInterval := "250ms";
  fl_adminDomain := "";
  fl_systemNamespaces := "";
  fl_disableKeepAlives := true;
  fl_logLoc := "/var/log/k8s-athenz-syncer/k8s-athenz-syncer.log";
  fl_logMode := "info";
  fl_identityKeyDir := "/var/run/keys/identity";
  fl_useNToken := false;
  fl_serviceName := "k8s-athenz-syncer";
  fl_domainName := "";
  fl_secretName := "k8s-athenz-syncer";
  fl_header := "";
  fl_nTokenExpireTime := "1h0m0s";
  fl_excludeNamespaces := "";
  fl_excludeMSDRules := false
|}.

(** The flags [main] defines before it parses, in order, with given values. *)
Definition flag_values (fl : Flags) : list (string * Value) :=
  [("key", VString (fl_key fl));
   ("cert", VString (fl_cert fl));
   ("cacert", VString (fl_caCert fl));
   ("zms-url", VString (fl_zmsURL fl));
   ("update-cron", VString (fl_updateCron fl));
   ("athenz-contact-time-cm-ns", VString (fl_athenzContactTimeCmNs fl));
   ("athenz-contact-time-cm-name", VString (fl_athenzContactTimeCmName fl));
   ("athenz-contact-time-cm-key", VString (fl_athenzContactTimeCmKey fl));
   ("resync-cron", VString (fl_resyncCron fl));
   ("queue-delay-interval", VString (fl_queueDelayInterval fl));
   ("admin-domain", VString (fl_adminDomain fl));
   ("system-namespaces", VString (fl_systemNamespaces fl));
   ("disable-keep-alives", VBool (fl_disableKeepAlives fl));
   ("log-location", VString (fl_logLoc fl));
   ("log-mode", VString (fl_logMode fl));
   ("identity-key", VString (fl_identityKeyDir fl));
   ("use-ntoken", VBool (fl_useNToken fl));
   ("service-name", VString (fl_serviceName fl));
   ("service-domain", VString (fl_domainName fl));
   ("secret-name", VString (fl_secretName fl));
   ("auth-header", VString (fl_header fl));
   ("ntoken-expiry", VString (fl_nTokenExpireTime fl));
   ("exclude-namespaces", VString (fl_excludeNamespaces fl));
   ("exclude-msd-rules", VBool (fl_excludeMSDRules fl))].

(** Reading a flag through its pointer. *)
Definition str_flag (f : FlagSet) (n : string) : string :=
  match f !! n with Some (VString s) => s | _ => "" end.
Definition bool_flag (f : FlagSet) (n : string) : bool :=
  match f !! n with Some (VBool b) => b | _ => false end.

Definition flags_of (f : FlagSet) : Flags := {|
  fl_key := str_flag f "key";
  fl_cert := str_flag f "cert";
  fl_caCert := str_flag f "cacert";
  fl_zmsURL := str_flag f "zms-url";
  fl_updateCron := str_flag f "update-cron";
  fl_athenzContactTimeCmNs := str_flag f "athenz-contact-time-cm-ns";
  fl_athenzContactTimeCmName := str_flag f "athenz-contact-time-cm-name";
  fl_athenzContactTimeCmKey := str_flag f "athenz-contact-time-cm-key";
  fl_resyncCron := str_flag f "resync-cron";
  fl_queueDelayInterval := str_flag f "queue-delay-interval";
  fl_adminDomain := str_flag f "admin-domain";
  fl_systemNamespaces := str_flag f "system-namespaces";
  fl_disableKeepAlives := bool_flag f "disable-keep-alives";
  fl_logLoc := str_flag f "log-location";
  fl_logMode := str_flag f "log-mode";
  fl_identityKeyDir := str_flag f "identity-key";
  fl_useNToken := bool_flag f "use-ntoken";
  fl_serviceName := str_flag f "service-name";
  fl_domainName := str_flag f "service-domain";
  fl_secretName := str_flag f "secret-name";
  fl_header := str_flag f "auth-header";
  fl_nTokenExpireTime := str_flag f "ntoken-expiry";
  fl_excludeNamespaces := str_flag f "exclude-namespaces";
  fl_excludeMSDRules := bool_flag f "exclude-msd-rules"
|}.

(** ** The lists *)

Definition comma : Ascii.ascii := ","%char.

(** [system-namespaces]: empty items are dropped. *)
Definition system_list (s : string) : list string :=
  fold_left (fun processList item =>
               if negb (String.eqb item "") then (processList ++ [item])%list else processList)
    (Split comma s) [].

(** [exclude-namespaces]: items are trimmed, empty ones are dropped. *)
Definition exclusion_list (s : string) : list string :=
  fold_left (fun exclusionList item =>
               let item := TrimSpace item in
               if negb (String.eqb item "") then (exclusionList ++ [item])%list else exclusionList)
    (Split comma s) [].

Definition main_util (fl : Flags) : Util :=
  NewUtil (fl_adminDomain fl) (system_list (fl_systemNamespaces fl))
    (exclusion_list (fl_excludeNamespaces fl)) (fl_excludeMSDRules fl).

(** ** The clients *)

(** Handles of the clients the process gets from their libraries. *)
Record KubeClient := mkKubeClient { kube_id : nat }.
Record ZMSClient := mkZMSClient { zms_id : nat }.

(** [x509.CertPool]: the PEM texts that were appended, whose certificates it
    has.  [AppendCertsFromPEM] passes over what is no certificate, and tells
    whether it found one. *)
Definition CertPool : Set := list string.
Definition NewCertPool : CertPool := [].
Definition AppendCertsFromPEM (c : string) (pool : CertPool) : CertPool := (pool ++ [c])%list.

(** [tls.Config], as far as it is set.  The function [GetClientCertificate]
    is a closure over the reloader; no [RootCAs] are those of the host. *)
Record TLSConfig := mkTLSConfig {
  GetClientCertificate_reloader : ptr CertReloader;
  RootCAs : ptr CertPool
}.
Record Transport := mkTransport {
  TLSClientConfig : TLSConfig;
  DisableKeepAlives : bool
}.

(** What the closure does when the server asks for a certificate. *)
Definition GetClientCertificate {Certificate : Set} (config : TLSConfig)
  : prog (@ReloadE Certificate) (ptr Certificate * option error) :=
  _ ← deref (GetClientCertificate_reloader config);
  c ← GetLatestCertificate;
  mret (c, None).

(** ** The calls *)

Inductive Signal := SIGTERM | SIGINT.

Inductive MainE : Set -> Type :=
| InitLogger (logLoc logMode : string) : MainE unit
| Getenv (name : string) : MainE string
| BuildConfigFromFlags (kubeconfig : string) : MainE (ptr Clientset.Config * option error)
| KubernetesNewForConfig (config : ptr Clientset.Config) : MainE (ptr KubeClient * option error)
| AthenzNewForConfig (config : ptr Clientset.Config) : MainE (ptr Clientset * option error)
(** [pkg/identity] and [pkg/reloader] *)
| NewTokenProvider_ (client : ZMSClient) (header domain service : string)
    (keys : PrivateKeySource) (expiry : Z) : MainE (option error)
| NewCertReloader_ (keyFile certFile : string) : MainE (ptr CertReloader * option error)
| IoutilReadFile (file : string) : MainE (string + error)
| ZmsNewClient (url : string) (transport : ptr Transport) : MainE ZMSClient
| NewController_ (k8sClient : ptr KubeClient) (versiondClient : ptr Clientset)
    (zmsClient : ptr ZMSClient) (updatePeriod resyncPeriod delayInterval : Z) (u : Util)
    (cm : AthenzContactTimeConfigMap) : MainE unit
| GoControllerRun : MainE unit
| SignalNotify (s : Signal) : MainE unit
| WaitSignal : MainE unit
| CloseStopCh : MainE unit.

Definition exit_status (n : string) : string := "os.Exit(" +:+ n +:+ ")".

Section start.
(** klog's flags, which [klog.InitFlags] defines: their names, whether they
    are bool flags, and the texts they take. *)
Variables (klog_flags : list (string * bool)) (accepts : string -> string -> bool).

(** [flag.Parse]: on an error the process ends. *)
Definition flag_Parse (args : list string) (f : FlagSet) : prog MainE FlagSet :=
  match Parse accepts f args with
  | inl f => mret f
  | inr ErrHelp => PPanic (exit_status "0")
  | inr _ => PPanic (exit_status "2")
  end.

(** Defining flags; a second definition of a name panics. *)
Definition define (l : list (string * Value)) (f : FlagSet) : prog MainE FlagSet :=
  match Vars l f with Some f => mret f | None => PPanic "flag redefined" end.

(** The clients, made from a configuration. *)
Definition build_clients (kubeconfig : string)
  : prog MainE (ptr KubeClient * ptr Clientset * option error) :=
  '(config, err) ← trigger (BuildConfigFromFlags kubeconfig);
  match err with
  | Some _ => PPanic "BuildConfigFromFlags"
  | None =>
      '(client, err) ← trigger (KubernetesNewForConfig config);
      match err with
      | Some err =>
          mret (None, None, Some (Errorf "Failed to create k8s client from config. Error: %v" err))
      | None =>
          '(versiondClient, err) ← trigger (AthenzNewForConfig config);
          match err with
          | Some err =>
              mret (None, None, Some (Errorf "Failed to create versiond client from config. Error: %v" err))
          | None => mret (client, versiondClient, None)
          end
      end
  end.

(** [getClients]: the flags after it, and what it returns. *)
Definition getClients (args : list string) (f : FlagSet)
  : prog MainE (FlagSet * (ptr KubeClient * ptr Clientset * option error)) :=
  h ← trigger (Getenv "HOME");
  home ← (if negb (String.eqb h "") then mret h else trigger (Getenv "USERPROFILE"));
  let default := if negb (String.eqb home "") then Join (Join home ".kube") "config" else "" in
  f ← define [("kubeconfig", VString default)] f;
  f ← flag_Parse args f;
  let kubeconfig := if bool_flag f "inClusterConfig" then "" else str_flag f "kubeconfig" in
  x ← build_clients kubeconfig;
  mret (f, x).

Definition createZMSClient (reloader : ptr CertReloader) (zmsURL caCert : string)
    (disableKeepAlives : bool) : prog MainE (ptr ZMSClient * option error) :=
  let config := mkTLSConfig reloader None in
  let connect (config : TLSConfig) : prog MainE (ptr ZMSClient * option error) :=
    let transport := mkTransport config disableKeepAlives in
    client ← trigger (ZmsNewClient zmsURL (Some transport));
    mret (Some client, None) in
  if negb (String.eqb caCert "") then
    c ← trigger (IoutilReadFile caCert);
    match c with
    | inr err => mret (None, Some err)
    | inl c =>
        let certPool := NewCertPool in
        let certPool := AppendCertsFromPEM c certPool in
        connect (mkTLSConfig (GetClientCertificate_reloader config) (Some certPool))
    end
  else connect config.

(** [time.ParseDuration] with [log.Panicf] on an error. *)
Definition parse_or_panic (s why : string) : prog MainE Z :=
  match ParseDuration s with inl d => mret d | inr _ => PPanic why end.

(** The ZMS client, authenticated by tokens or by a certificate. *)
Definition authenticate (fl : Flags) : prog MainE (ptr ZMSClient) :=
  if fl_useNToken fl then
    client ← trigger (ZmsNewClient (fl_zmsURL fl) None);
    nTokenPeriod ← parse_or_panic (fl_nTokenExpireTime fl)
                     "NToken expiry duration input is invalid. Error: %v";
    let privateKeySource := NewPrivateKeySource (fl_identityKeyDir fl) (fl_secretName fl) in
    err ← trigger (NewTokenProvider_ client (fl_header fl) (fl_domainName fl) (fl_serviceName fl)
                     privateKeySource nTokenPeriod);
    match err with
    | Some _ => PPanic "Could not create new Token Provider: %v"
    | None => mret (Some client)
    end
  else
    '(certReloader, err) ← trigger (NewCertReloader_ (fl_key fl) (fl_cert fl));
    match err with
    | Some _ => PPanic "Error occurred when creating new reloader. Error: %v"
    | None =>
        '(zmsClient, err) ← createZMSClient certReloader (fl_zmsURL fl) (fl_caCert fl)
                              (fl_disableKeepAlives fl);
        match err with
        | Some _ => PPanic "Error occurred when creating zms client. Error: %v"
        | None => mret zmsClient
        end
    end.

(** The end of [main]: the controller in a goroutine, a wait for one of two
    signals, and the deferred close of the stop channel. *)
Definition run_until_signal : prog MainE unit :=
  deferred (trigger CloseStopCh)
    (trigger GoControllerRun;;
     trigger (SignalNotify SIGTERM);;
     trigger (SignalNotify SIGINT);;
     trigger WaitSignal).

(** From the clients on, with the values of the flags. *)
Definition main_controller (fl : Flags) (k8sClient : ptr KubeClient) (versiondClient : ptr Clientset)
  : prog MainE unit :=
  zmsClient ← authenticate fl;
  let util := main_util fl in
  updatePeriod ← parse_or_panic (fl_updateCron fl)
                   "Update Cron interval input is invalid. Error: %v";
  resyncPeriod ← parse_or_panic (fl_resyncCron fl)
                   "Full Resync Cron interval input is invalid. Error: %v";
  delayInterval ← parse_or_panic (fl_queueDelayInterval fl)
                    "Queue delay input is invalid. Error: %v";
  let cm := mkContactTimeCm (fl_athenzContactTimeCmNs fl) (fl_athenzContactTimeCmName fl)
              (fl_athenzContactTimeCmKey fl) in
  trigger (NewController_ k8sClient versiondClient zmsClient updatePeriod resyncPeriod delayInterval
             util cm);;
  run_until_signal.

(** The flags that are defined when [main] parses for the first time. *)
Definition main_flags (f : FlagSet) : prog MainE FlagSet :=
  f ← define (flag_values default_flags) f;
  f ← define (map (fun nb => (nb.1, VOther nb.2 [])) klog_flags) f;
  let f := FlagSet_Set accepts "logtostderr" "false" f in
  mret (FlagSet_Set accepts "logtostdout" "false" f).

Definition main (args : list string) : prog MainE unit :=
  f ← main_flags ∅;
  f ← flag_Parse args f;
  trigger (InitLogger (str_flag f "log-location") (str_flag f "log-mode"));;
  f ← define [("inClusterConfig", VBool true)] f;
  '(f, (k8sClient, versiondClient, err)) ← getClients args f;
  match err with
  | Some _ => PPanic "Error occurred when creating clients. Error: %v"
  | None => main_controller (flags_of f) k8sClient versiondClient
  end.
End start.

(** ** What the flags mean *)

Lemma fold_filter {A B} (f : A -> B) (keep : B -> bool) l acc :
  fold_left (fun acc a => if keep (f a) then (acc ++ [f a])%list else acc) l acc =
  (acc ++ List.filter keep (map f l))%list.
Proof.
  revert acc. induction l as [|a l IH]; intros acc; simpl; [by rewrite app_nil_r|].
  destruct (keep (f a)); rewrite IH; [by rewrite <- app_assoc | done].
Qed.

Definition not_empty (s : string) : bool := negb (String.eqb s "").

Lemma not_empty_spec s : not_empty s = true <-> s <> "".
Proof. unfold not_empty. rewrite negb_true_iff. apply String.eqb_neq. Qed.

Lemma system_list_eq s : system_list s = List.filter not_empty (Split comma s).
Proof.
  etransitivity; [exact (fold_filter id not_empty (Split comma s) [])|]. by rewrite map_id.
Qed.

Lemma exclusion_list_eq s :
  exclusion_list s = List.filter not_empty (map TrimSpace (Split comma s)).
Proof. exact (fold_filter TrimSpace not_empty (Split comma s) []). Qed.

(** The comma-separated flags: a namespace is excluded exactly when it is
    one of the items of [exclude-namespaces], surrounding blanks ignored; and
    it is a system namespace exactly when it is, to the byte, an item of
    [system-namespaces].  The empty name is neither. *)
Theorem main_util_lists fl ns :
  (IsNamespaceExcluded (main_util fl) ns = true <->
     ns <> "" /\ exists item, item ∈ Split comma (fl_excludeNamespaces fl) /\ TrimSpace item = ns) /\
  (isSystemNamespace (main_util fl) ns = true <->
     ns <> "" /\ ns ∈ Split comma (fl_systemNamespaces fl)).
Proof.
  unfold main_util. split.
  - rewrite IsNamespaceExcluded_NewUtil, exclusion_list_eq, list_elem_of_In, filter_In,
      not_empty_spec, in_map_iff. setoid_rewrite list_elem_of_In. split.
    + intros [(item & Ht & Hi) Hn]. eauto.
    + intros (Hn & item & Hi & Ht). eauto.
  - unfold isSystemNamespace. cbn [systemNamespaces NewUtil].
    rewrite in_list_spec, system_list_eq, list_elem_of_In, filter_In, not_empty_spec,
      list_elem_of_In. tauto.
Qed.

(** ** Starting the controller *)

Definition started (e : ev MainE)
  : option (Z * Z * Z * Util * AthenzContactTimeConfigMap) :=
  match e with
  | Ev (NewController_ _ _ _ up rp di u cm) _ => Some (up, rp, di, u, cm)
  | _ => None
  end.

Definition silent (e : ev MainE) : Prop := started e = None.

Lemma silent_trace t : Forall silent t -> omap started t = [].
Proof. induction 1 as [|e t He _ IH]; [done|]. csimpl. by rewrite He. Qed.

(** The in-cluster configuration is the one with the empty path. *)
Definition in_cluster (e : ev MainE) : Prop :=
  match e with Ev (BuildConfigFromFlags k) _ => k = "" | _ => True end.
Definition preparing (e : ev MainE) : Prop := in_cluster e /\ silent e.

Lemma preparing_silent t : Forall preparing t -> omap started t = [].
Proof. intros Ht. apply silent_trace. eapply Forall_impl; [exact Ht|]. by intros e [_ ?]. Qed.

Lemma preparing_in_cluster t : Forall preparing t -> Forall in_cluster t.
Proof. intros Ht. eapply Forall_impl; [exact Ht|]. by intros e [? _]. Qed.

Lemma parse_or_panic_safe P s w : safe P (parse_or_panic s w).
Proof. unfold parse_or_panic. by destruct (ParseDuration s). Qed.

Lemma createZMSClient_safe r z c b : safe preparing (createZMSClient r z c b).
Proof. unfold createZMSClient. prog_struct; done. Qed.

(** The roots the ZMS client trusts: the host's, or those of the given file,
    whatever the file has in it. *)
Inductive roots_read (caCert : string) : list (ev MainE) -> ptr CertPool -> Prop :=
| host_roots : caCert = "" -> roots_read caCert [] None
| file_roots c : caCert <> "" -> roots_read caCert [Ev (IoutilReadFile caCert) (inl c)] (Some [c]).

Lemma createZMSClient_exec r url caCert keep t o :
  exec (createZMSClient r url caCert keep) t o <->
  (exists read roots z, roots_read caCert read roots /\
     t = (read ++ [Ev (ZmsNewClient url (Some (mkTransport (mkTLSConfig r roots) keep))) z])%list /\
     o = Done (Some z, None)) \/
  (exists e, caCert <> "" /\ t = [Ev (IoutilReadFile caCert) (inr e)] /\ o = Done (None, Some e)).
Proof.
  unfold createZMSClient. cbv zeta. destruct (String.eqb_spec caCert "") as [Hc|Hc]; cbn [negb].
  - split.
    + intros He. exec_call He as z t1. exec_end He. left. exists [], None, z. split_and!; [by constructor|done..].
    + intros [(read & roots & z & Hr & -> & ->)|(e & ? & _)]; [|done].
      inversion Hr; subst; [|done]. exec_build.
  - split.
    + intros He. exec_call He as c t1. destruct c as [c|e].
      * exec_call He as z t2. exec_end He. left. eexists _, _, z. split; [by apply (file_roots _ c)|done].
      * exec_end He. right. eauto.
    + intros [(read & roots & z & Hr & -> & ->)|(e & _ & -> & ->)]; [|exec_build].
      inversion Hr; subst; [done|]. exec_build.
Qed.

Lemma authenticate_safe fl : safe preparing (authenticate fl).
Proof.
  unfold authenticate. destruct (fl_useNToken fl).
  - apply safe_bind; [done|]. intros client. apply safe_bind; [apply parse_or_panic_safe|].
    intros d. prog_struct; done.
  - apply safe_bind; [done|]. intros [r [e|]]; [done|].
    apply safe_bind; [apply createZMSClient_safe|]. by intros [z [e|]].
Qed.

Lemma build_clients_safe : safe preparing (build_clients "").
Proof. unfold build_clients. prog_struct; done. Qed.

(** ** The flags *)

Section flags.
Variables (klog_flags : list (string * bool)) (accepts : string -> string -> bool).

Lemma define_cases l f :
  (exists g, Vars l f = Some g /\ define l f = mret g) \/ define l f = PPanic "flag redefined".
Proof. unfold define. destruct (Vars l f); eauto. Qed.

Lemma flag_values_same fl fl' :
  Forall2 (fun a b => a.1 = b.1 /\ same_kind a.2 b.2) (flag_values fl) (flag_values fl').
Proof. unfold flag_values. repeat constructor. Qed.

Lemma flag_values_ok fl :
  Forall (fun nv => name_ok nv.1 /\ match nv.2 with VOther _ _ => False | _ => True end)
    (flag_values fl).
Proof. unfold flag_values. repeat (apply Forall_cons_2; [by split_and!|]). apply Forall_nil_2. Qed.

Ltac forall_conses :=
  repeat match goal with
         | H : Forall _ (_ :: _) |- _ => apply Forall_cons_1 in H as [? H]; cbn [fst snd] in *
         end.

Lemma flags_of_ext f g :
  Forall (fun nv => g !! nv.1 = f !! nv.1) (flag_values default_flags) -> flags_of g = flags_of f.
Proof.
  intros Hall. unfold flag_values in Hall. forall_conses.
  unfold flags_of, str_flag, bool_flag.
  repeat match goal with H : g !! _ = f !! _ |- _ => rewrite H; clear H end. done.
Qed.

Lemma flag_values_NoDup fl : NoDup (flag_values fl).*1.
Proof. apply (bool_decide_eq_true_1 _). vm_compute. reflexivity. Qed.

(** Other names are defined by klog, or not at all. *)
Lemma main_flags_other f0 n :
  main_flags klog_flags accepts ∅ = mret f0 ->
  n ∉ (flag_values default_flags).*1 -> n ∉ klog_flags.*1 -> f0 !! n = None.
Proof.
  unfold main_flags. intros H0 Hm Hk.
  destruct (define_cases (flag_values default_flags) ∅) as [(f1 & H1 & Hd)|Hd]; rewrite Hd in H0;
    [|rewrite panic_bind in H0; discriminate H0].
  rewrite mret_bind in H0.
  destruct (define_cases (map (fun nb => (nb.1, VOther nb.2 [])) klog_flags) f1) as [(f2 & H2 & Hd')|Hd'];
    rewrite Hd' in H0; [|rewrite panic_bind in H0; discriminate H0].
  rewrite mret_bind in H0. cbv zeta in H0. injection H0 as <-. apply FlagSet_Set_other, FlagSet_Set_other.
  rewrite (Vars_other _ _ _ _ H2), (Vars_other _ _ _ _ H1); [apply lookup_empty|exact Hm|].
  intros Hin. apply Hk. apply list_elem_of_fmap in Hin as ([n' v] & -> & Hin).
  apply list_elem_of_In, in_map_iff in Hin as (nb & [= <- <-] & Hin).
  apply list_elem_of_fmap. exists nb. split; [done|]. by apply list_elem_of_In.
Qed.

Lemma late_flags name :
  name = "inClusterConfig" \/ name = "kubeconfig" ->
  name_ok name /\ name <> "help" /\ name <> "h" /\ name ∉ (flag_values default_flags).*1.
Proof.
  assert (forall n, bool_decide (n ∈ (flag_values default_flags).*1) = false ->
    n ∉ (flag_values default_flags).*1) as Hn by (intros n; apply bool_decide_eq_false_1).
  intros [-> | ->]; (split; [by split_and!|]; split; [discriminate|]; split; [discriminate|];
    apply Hn; vm_compute; reflexivity).
Qed.

(** When [main] gets to parse, all its flags can be given. *)
Lemma main_flags_cases :
  (exists f0, main_flags klog_flags accepts ∅ = mret f0 /\
     forall fl, Forall (givable f0) (flag_values fl)) \/
  main_flags klog_flags accepts ∅ = PPanic "flag redefined".
Proof.
  unfold main_flags. destruct (define_cases (flag_values default_flags) ∅) as [(f1 & H1 & ->)| ->]; [|by right].
  rewrite mret_bind. destruct (define_cases (map (fun nb => (nb.1, VOther nb.2 [])) klog_flags) f1)
    as [(f2 & H2 & ->)| ->]; [|by right].
  left. rewrite mret_bind. eexists. split; [reflexivity|]. intros fl.
  apply Vars_lookup in H1 as [H1 _], H2 as [_ H2].
  pose proof (covers_trans _ _ _ (FlagSet_Set_covers accepts "logtostderr" "false" f2)
    (FlagSet_Set_covers accepts "logtostdout" "false" _)) as Hc.
  pose proof (flag_values_ok fl) as Hok. pose proof (flag_values_same fl default_flags) as Hsame.
  assert (forall nv, nv ∈ flag_values default_flags -> exists w,
    FlagSet_Set accepts "logtostdout" "false" (FlagSet_Set accepts "logtostderr" "false" f2) !! nv.1 = Some w
    /\ same_kind nv.2 w) as Hdef.
  { intros [n v] Hin. apply Hc, H2, (H1 n v), Hin. }
  rewrite Forall_forall in Hok |- *. intros nv Hin. destruct (Hok nv Hin) as [Hn Hown].
  split_and!; [done|done|].
  apply list_elem_of_lookup in Hin as [i Hi].
  destruct (Forall2_lookup_l _ _ _ _ _ Hsame Hi) as (nv' & Hi' & Heq & Hk).
  destruct (Hdef nv' (list_elem_of_lookup_2 _ _ _ Hi')) as (w & Hw & Hk').
  exists w. rewrite Heq. split; [done|]. by destruct (nv.2), (nv'.2), w.
Qed.

(** [getClients] parses the arguments again: nothing changes. *)
Lemma second_parse args f0 f1 f2 f3 v :
  Parse accepts f0 args = inl f1 -> Forall (givable f0) (flag_values default_flags) ->
  Vars [("inClusterConfig", VBool true)] f1 = Some f2 -> Vars [("kubeconfig", v)] f2 = Some f3 ->
  exists g, Parse accepts f3 args = inl g /\ bool_flag g "inClusterConfig" = true /\
    flags_of g = flags_of f1.
Proof.
  intros Hp Hg H2 H3. simpl in H2, H3.
  destruct (Var f1 _) as [f2'|] eqn:Hv2; [|done]. injection H2 as ->.
  destruct (Var f2 _) as [f3'|] eqn:Hv3; [|done]. injection H3 as ->.
  apply Var_lookup in Hv2 as [Hn2 ->], Hv3 as [Hn3 ->]. cbn [fst snd] in *.
  set (f3 := <["kubeconfig" := v]> (<["inClusterConfig" := VBool true]> f1)) in *.
  assert (forall n, n <> "kubeconfig" -> n <> "inClusterConfig" -> f3 !! n = f1 !! n) as Hf3.
  { intros n ??. unfold f3. by rewrite !lookup_insert_ne. }
  assert (covers f0 f3) as Hc.
  { eapply covers_trans; [by eapply Parse_covers|]. intros n x Hx. exists x.
    split; [|by destruct x]. rewrite lookup_insert_ne in Hn3 by done.
    rewrite Hf3; [done|congruence..]. }
  destruct (reparse_fresh accepts f0 args f1 f3 "inClusterConfig" (VBool true)) as (g & Hg1 & Hic); try done.
  { unfold f3. rewrite lookup_insert_ne by done. apply lookup_insert_eq. }
  exists g. split_and!; [done|unfold bool_flag; by rewrite Hic|].
  apply flags_of_ext. rewrite lookup_insert_ne in Hn3 by done.
  pose proof (Parse_covers _ _ _ _ Hp) as Hc1.
  eapply Forall_impl; [exact Hg|]. intros nv (_ & Hown & w & Hw & Hk).
  eapply (reparse_own accepts f0 args f1 f3); try done; [by destruct w, (nv.2)|].
  destruct (Hc1 _ _ Hw) as (w' & Hw' & _). apply Hf3; congruence.
Qed.
End flags.

Lemma main_controller_in_cluster fl k v : safe in_cluster (main_controller fl k v).
Proof.
  unfold main_controller. apply safe_bind.
  { eapply safe_impl; [|apply authenticate_safe]. by intros e [? _]. }
  intros z. do 3 (apply safe_bind; [apply parse_or_panic_safe|]; intros ?). prog_struct; done.
Qed.

Section main_facts.
Variables (klog_flags : list (string * bool)) (accepts : string -> string -> bool).

(** The calls of a [getClients] that gave clients. *)
Definition reads_env (e : ev MainE) : Prop :=
  match e with Ev (Getenv _) _ => True | _ => False end.
Definition clients_made (k8s : ptr KubeClient) (v : ptr Clientset) (t : list (ev MainE)) : Prop :=
  exists t0 config, Forall reads_env t0 /\
    t = (t0 ++ [Ev (BuildConfigFromFlags "") (config, None);
                Ev (KubernetesNewForConfig config) (k8s, None);
                Ev (AthenzNewForConfig config) (v, None)])%list.

Lemma build_clients_made k t k8s v :
  exec (build_clients k) t (Done (k8s, v, None)) ->
  exists config, t = [Ev (BuildConfigFromFlags k) (config, None);
                      Ev (KubernetesNewForConfig config) (k8s, None);
                      Ev (AthenzNewForConfig config) (v, None)].
Proof.
  unfold build_clients. intros He.
  exec_call He as [config e1] t1. destruct e1; [by destruct He|].
  exec_call He as [k1 e2] t2. destruct e2; [by destruct He|].
  exec_call He as [v1 e3] t3. destruct e3; [by destruct He|].
  destruct He as [-> [= <- <-]]. by exists config.
Qed.

(** [getClients], after a first parse that went well. *)
Lemma getClients_exec args f0 f1 f2 t o :
  Parse accepts f0 args = inl f1 -> Forall (givable f0) (flag_values default_flags) ->
  Vars [("inClusterConfig", VBool true)] f1 = Some f2 ->
  exec (getClients accepts args f2) t o ->
  Forall preparing t /\
  forall g k v err, o = Done (g, (k, v, err)) -> flags_of g = flags_of f1 /\ (err = None -> clients_made k v t).
Proof.
  intros Hp Hg H2. unfold getClients. rewrite trigger_bind, exec_vis. intros (h & t1 & -> & He).
  rewrite Forall_cons. cut (Forall preparing t1 /\
    forall g k v err, o = Done (g, (k, v, err)) -> flags_of g = flags_of f1 /\ (err = None -> clients_made k v t1)).
  { intros [Hs Hd]. split; [by split_and!|]. intros g k v err Ho. destruct (Hd g k v err Ho) as [? Hm].
    split; [done|]. intros He0. destruct (Hm He0) as (t0 & config & Ht0 & ->).
    exists (Ev (Getenv "HOME") h :: t0), config. split; [by constructor|done]. }
  apply exec_bind in He as [(t2 & t3 & home & -> & Hh & He)|(w & Hh & ->)].
  2:{ destruct (negb _); [by destruct Hh|]. by apply exec_trigger in Hh as (? & _ & [=]). }
  assert (Forall preparing t2 /\ Forall reads_env t2) as [Ht2 Hr2].
  { destruct (negb _); [by destruct Hh as [-> _]|]. apply exec_trigger in Hh as (? & -> & _).
    by repeat constructor. }
  rewrite Forall_app. cbv zeta in He. set (v := VString _) in He.
  unfold define in He. destruct (Vars [("kubeconfig", v)] f2) as [f3|] eqn:H3.
  2:{ exec_end He. split; [by split|done]. }
  rewrite mret_bind in He.
  destruct (second_parse _ _ _ _ _ _ _ Hp Hg H2 H3) as (g & Hp3 & Hic & Hfl).
  unfold flag_Parse in He. rewrite Hp3, mret_bind, Hic in He.
  apply exec_bind in He as [(t4 & t5 & x & -> & Hb & [-> ->])|(w & Hb & ->)];
    pose proof (safe_exec _ _ _ _ build_clients_safe Hb) as Hs.
  - rewrite app_nil_r. split; [done|]. intros g' k8s vc err' [= <- ->]. split; [done|].
    intros ->. apply build_clients_made in Hb as (config & ->). by exists t2, config.
  - by split.
Qed.

(** The two ways a start can go: it ends with the flags, before any call; or
    the flags are read, the clients are asked for, and then the controller. *)
Inductive Started (args : list string) : list (ev MainE) -> outcome unit -> Prop :=
| started_flags w : Started args [] (Panicked w)
| started_clients f0 f1 t w :
    main_flags klog_flags accepts ∅ = mret f0 -> Parse accepts f0 args = inl f1 ->
    Forall preparing t ->
    Started args (Ev (InitLogger (fl_logLoc (flags_of f1)) (fl_logMode (flags_of f1))) tt :: t) (Panicked w)
| started_controller f0 f1 t1 k8s v t2 o :
    main_flags klog_flags accepts ∅ = mret f0 -> Parse accepts f0 args = inl f1 ->
    Forall preparing t1 -> clients_made k8s v t1 -> exec (main_controller (flags_of f1) k8s v) t2 o ->
    Started args
      (Ev (InitLogger (fl_logLoc (flags_of f1)) (fl_logMode (flags_of f1))) tt :: t1 ++ t2) o.

Lemma main_exec args t o : exec (main klog_flags accepts args) t o -> Started args t o.
Proof.
  unfold main. destruct (main_flags_cases klog_flags accepts) as [(f0 & H0 & Hg)|H0]; rewrite H0.
  2:{ intros He. exec_end He. constructor. }
  rewrite mret_bind. unfold flag_Parse at 1. destruct (Parse accepts f0 args) as [f1|e] eqn:Hp.
  2:{ intros He. destruct e; exec_end He; constructor. }
  rewrite mret_bind, trigger_bind, exec_vis. intros ([] & t1 & -> & He).
  change (str_flag f1 "log-location") with (fl_logLoc (flags_of f1)).
  change (str_flag f1 "log-mode") with (fl_logMode (flags_of f1)).
  unfold define in He. destruct (Vars [("inClusterConfig", VBool true)] f1) as [f2|] eqn:H2.
  2:{ exec_end He. by eapply started_clients. }
  rewrite mret_bind in He.
  apply exec_bind in He as [(t2 & t3 & [g [[k8s v] err]] & -> & Hc & He)|(w & Hc & ->)];
    destruct (getClients_exec _ _ _ _ _ _ Hp (Hg default_flags) H2 Hc) as [Hs Hfl].
  - destruct err as [err|].
    + destruct He as [-> ->]. rewrite app_nil_r. by eapply started_clients.
    + destruct (Hfl _ _ _ _ eq_refl) as [Hg2 Hm]. rewrite Hg2 in He.
      eapply started_controller; eauto.
  - by eapply started_clients.
Qed.

(** The end of [main] does not panic. *)
Lemma run_until_signal_exec t o :
  exec run_until_signal t o ->
  t = [Ev GoControllerRun tt; Ev (SignalNotify SIGTERM) tt; Ev (SignalNotify SIGINT) tt;
       Ev WaitSignal tt; Ev CloseStopCh tt] /\ o = Done tt.
Proof.
  unfold run_until_signal.
  intros ([] & t1 & -> & [] & t2 & -> & [] & t3 & -> & [] & t4 & -> & [] & t5 & -> & -> & ->).
  done.
Qed.

Lemma main_controller_exec fl k8s v t o :
  exec (main_controller fl k8s v) t o ->
  match o with
  | Panicked _ => omap started t = []
  | Done _ => exists up rp di,
      omap started t = [(up, rp, di, main_util fl,
        mkContactTimeCm (fl_athenzContactTimeCmNs fl) (fl_athenzContactTimeCmName fl)
          (fl_athenzContactTimeCmKey fl))] /\
      ParseDuration (fl_updateCron fl) = inl up /\ ParseDuration (fl_resyncCron fl) = inl rp /\
      ParseDuration (fl_queueDelayInterval fl) = inl di
  end.
Proof.
  unfold main_controller. intros He.
  apply exec_bind in He as [(t4 & t5 & z & -> & Hz & He)|(w & Hz & ->)].
  all: pose proof (preparing_silent _ (safe_exec _ _ _ _ (authenticate_safe fl) Hz)) as Hs2.
  2:{ exact Hs2. }
  rewrite omap_app, Hs2. cbn [app]. clear Hs2 Hz. cbv zeta in He. unfold parse_or_panic in He.
  destruct (ParseDuration (fl_updateCron fl)) as [up|e]; [|by exec_end He]. rewrite mret_bind in He.
  destruct (ParseDuration (fl_resyncCron fl)) as [rp|e]; [|by exec_end He]. rewrite mret_bind in He.
  destruct (ParseDuration (fl_queueDelayInterval fl)) as [di|e]; [|by exec_end He]. rewrite mret_bind in He.
  exec_call He as u1 t9. apply run_until_signal_exec in He as [-> ->].
  by exists up, rp, di.
Qed.
End main_facts.

(** ** Theorems *)

Section main_theorems.
Variables (klog_flags : list (string * bool)) (accepts : string -> string -> bool).

(** The controller is created at most once and only when everything
    before succeeded: when [main] reaches its end, with exactly the intervals
    the three duration flags parse to, each an [int64], and the lists the
    other flags give, all as the first parse of the arguments left them; and
    when [main] ends otherwise (flags, clients, authentication or a duration
    failed), not at all. *)
Theorem main_starts args t o :
  exec (main klog_flags accepts args) t o ->
  match o with
  | Panicked _ => omap started t = []
  | Done _ => exists f0 f1 up rp di,
      main_flags klog_flags accepts ∅ = mret f0 /\ Parse accepts f0 args = inl f1 /\
      let fl := flags_of f1 in
      omap started t = [(up, rp, di, main_util fl,
        mkContactTimeCm (fl_athenzContactTimeCmNs fl) (fl_athenzContactTimeCmName fl)
          (fl_athenzContactTimeCmKey fl))] /\
      ParseDuration (fl_updateCron fl) = inl up /\ ParseDuration (fl_resyncCron fl) = inl rp /\
      ParseDuration (fl_queueDelayInterval fl) = inl di /\ in_int64 up /\ in_int64 rp /\ in_int64 di
  end.
Proof.
  intros [w|f0 f1 t' w H0 Hp Hs|f0 f1 t1 k8s v t2 o' H0 Hp Hs _ He]%main_exec; csimpl; [done|by apply preparing_silent|].
  rewrite omap_app, (preparing_silent _ Hs). cbn [app].
  apply main_controller_exec in He. destruct o' as [[]|w]; [|done].
  destruct He as (up & rp & di & Hst & Hu & Hr & Hd). exists f0, f1, up, rp, di.
  refine (conj H0 (conj Hp (conj Hst (conj Hu (conj Hr (conj Hd _)))))).
  refine (conj _ (conj _ _)); eapply ParseDuration_range; eassumption.
Qed.

(** C39. The flags inClusterConfig and kubeconfig are defined after the first
    parse of the arguments, so nothing can be given to them: whatever the
    arguments and the environment, the Kubernetes clients are made from the
    in-cluster configuration, and arguments that start with one of the two
    flags end the process before any call (if klog has no such flag). *)
Theorem always_in_cluster args t o :
  exec (main klog_flags accepts args) t o ->
  (forall k x, Ev (BuildConfigFromFlags k) x ∈ t -> k = "") /\
  forall name value s rest, name = "inClusterConfig" \/ name = "kubeconfig" ->
    name ∉ klog_flags.*1 -> s ∈ flag_args name value -> args = s :: rest -> t = [] /\ exists w, o = Panicked w.
Proof.
  intros He. pose proof (main_exec _ _ _ _ _ He) as Hst. split.
  - assert (Forall in_cluster t) as Ht.
    { destruct Hst as [w|f0 f1 t' w H0 Hp Hs|f0 f1 t1 k8s v t2 o' H0 Hp Hs _ Hc]; [done|..];
        (apply Forall_cons_2; [done|]); [by apply preparing_in_cluster|].
      apply Forall_app. split; [by apply preparing_in_cluster|].
      eapply safe_exec; [apply main_controller_in_cluster|exact Hc]. }
    intros k x Hin. rewrite Forall_forall in Ht. exact (Ht _ Hin).
  - intros name value s rest Hname Hk Hs ->.
    assert (forall f0 f1, main_flags klog_flags accepts ∅ = mret f0 ->
      Parse accepts f0 (s :: rest) = inl f1 -> False) as Hno.
    { intros f0 f1 H0 Hp. destruct (late_flags name Hname) as (Hok & Hhelp & Hh & Hnin).
      apply main_flags_other with (n := name) in H0; [|exact Hnin|exact Hk].
      rewrite (Parse_undefined accepts f0 name value s rest Hok Hhelp Hh Hs H0) in Hp.
      discriminate Hp. }
    destruct Hst as [w|f0 f1 t' w H0 Hp Hs'|f0 f1 t1 k8s v t2 o' H0 Hp Hs' _ Hc]; [by eauto|..];
      exfalso; by eapply Hno.
Qed.
End main_theorems.

(** ** Witnesses *)
Module MainExample.
(** Some of klog's flags. *)
Definition klog_flags : list (string * bool) :=
  [("v", false); ("logtostderr", true); ("alsologtostderr", true)].
Definition accepts (name text : string) : bool := true.

Definition kube_config : Clientset.Config :=
  Clientset.mkConfig (QArith_base.inject_Z 5) 10 None None "" false "" "https://10.0.0.1".
Definition clientset : Clientset :=
  mkClientset (Some (mkDiscoveryClient 1))
    (Some (AthenzV1.mkAthenzV1Client (Some (mkRestClient 1)))).
Definition reloader : CertReloader :=
  mkCertReloader "/var/run/athenz/service.cert.pem" "/var/run/athenz/service.key.pem".

Definition run : list (ev MainE) :=
  [Ev (InitLogger "/var/log/k8s-athenz-syncer/k8s-athenz-syncer.log" "info") tt;
   Ev (Getenv "HOME") "/root"; Ev (BuildConfigFromFlags "") (Some kube_config, None);
   Ev (KubernetesNewForConfig (Some kube_config)) (Some (mkKubeClient 1), None);
   Ev (AthenzNewForConfig (Some kube_config)) (Some clientset, None);
   Ev (NewCertReloader_ "/var/run/athenz/service.key.pem" "/var/run/athenz/service.cert.pem")
     (Some reloader, None);
   Ev (ZmsNewClient "https://zms" (Some (mkTransport (mkTLSConfig (Some reloader) None) true)))
     (mkZMSClient 1);
   Ev (NewController_ (Some (mkKubeClient 1)) (Some clientset) (Some (mkZMSClient 1))
         (60 * Identity.second) (3600 * Identity.second) 250000000
         (NewUtil "" ["kube-system"] [] false)
         (mkContactTimeCm "kube-yahoo" "athenzcall-config" "latest_contact")) tt;
   Ev GoControllerRun tt; Ev (SignalNotify SIGTERM) tt; Ev (SignalNotify SIGINT) tt;
   Ev WaitSignal tt; Ev CloseStopCh tt].
Definition args : list string :=
  ["--zms-url"; "https://zms"; "-system-namespaces=kube-system"; "-v=3"; "rest"].
(** Every call succeeds. *)
Definition answer (X : Set) (e : MainE X) (s : unit) : X * unit :=
  match e in MainE X return X * unit with
  | Getenv _ => ("/root", tt)
  | IoutilReadFile _ => (inl "", tt)
  | BuildConfigFromFlags _ => ((Some kube_config, None), tt)
  | KubernetesNewForConfig _ => ((Some (mkKubeClient 1), None), tt)
  | AthenzNewForConfig _ => ((Some clientset, None), tt)
  | NewTokenProvider_ _ _ _ _ _ _ => (None, tt)
  | NewCertReloader_ k c => ((Some (mkCertReloader c k), None), tt)
  | ZmsNewClient _ _ => (mkZMSClient 1, tt)
  | InitLogger _ _ | NewController_ _ _ _ _ _ _ _ _
  | GoControllerRun | SignalNotify _ | WaitSignal | CloseStopCh => (tt, tt)
  end.
Lemma success_exec : exec (main klog_flags accepts args) run (Done tt).
Proof. apply (run_exec answer _ tt _ tt). vm_compute. reflexivity. Qed.

Lemma refused_exec :
  exec (main klog_flags accepts ["-kubeconfig"; "/root/.kube/config"]) []
    (Panicked (exit_status "2")).
Proof. apply (run_exec answer _ tt _ tt). vm_compute. reflexivity. Qed.

End MainExample.

Example main_starts_witness :
  exists up rp di u cm, omap started MainExample.run = [(up, rp, di, u, cm)] /\ in_int64 up.
Proof.
  destruct (main_starts MainExample.klog_flags MainExample.accepts _ _ _ MainExample.success_exec)
    as (f0 & f1 & up & rp & di & _ & _ & Hs & _ & _ & _ & Hu & _).
  exists up, rp, di. eexists _, _. split; [exact Hs | exact Hu].
Defined.

Example always_in_cluster_witness :
  (forall k x, Ev (BuildConfigFromFlags k) x ∈ MainExample.run -> k = "") /\
  exists w, @Panicked unit (exit_status "2") = Panicked w.
Proof.
  split.
  - exact (proj1 (always_in_cluster MainExample.klog_flags MainExample.accepts _ _ _
      MainExample.success_exec)).
  - refine (proj2 (proj2 (always_in_cluster MainExample.klog_flags MainExample.accepts _ _ _
      MainExample.refused_exec) "kubeconfig" None "-kubeconfig" ["/root/.kube/config"]
      (or_intror eq_refl) _ _ eq_refl)).
    + apply (bool_decide_eq_false_1 _). vm_compute. reflexivity.
    + by left.
Defined.
