(* ===== verification/Settings.v ===== *)
(** * The parameters of the README and what they do

    [Main] says which flags there are and how they are parsed.  Here the two
    ends are joined: an argument [-name=value] for a parameter the README
    lists, and the call of the start its value is for, with the README's
    default when it is not given. *)
From stdpp Require Import base list strings gmap.
From S2P Require Import Prelude Prog GoStrings GoDuration GoFlag Util Cron Crypto Identity Main.
#[local] Open Scope string_scope.

(** The table of README.md, in its order, with its defaults, but for
    inClusterConfig and kubeconfig, which cannot be given
    ([Main.always_in_cluster]), and for log-mode, whose default INFO the code
    writes in small letters. *)
Definition documented : list (string * Value) :=
  [("admin-domain", VString "");
   ("athenz-contact-time-cm-key", VString "latest_contact");
   ("athenz-contact-time-cm-name", VString "athenzcall-config");
   ("athenz-contact-time-cm-ns", VString "kube-yahoo");
   ("auth-header", VString "");
   ("cacert", VString "");
   ("cert", VString "/var/run/athenz/service.cert.pem");
   ("disable-keep-alives", VBool true);
   ("identity-key", VString "/var/run/keys/identity");
   ("key", VString "/var/run/athenz/service.key.pem");
   ("log-location", VString "/var/log/k8s-athenz-syncer/k8s-athenz-syncer.log");
   ("log-mode", VString "info");
   ("ntoken-expiry", VString "1h0m0s");
   ("queue-delay-interval", VString "250ms");
   ("resync-cron", VString "1h0m0s");
   ("secret-name", VString "k8s-athenz-syncer");
   ("service-domain", VString "");
   ("service-name", VString "k8s-athenz-syncer");
   ("system-namespaces", VString "");
   ("update-cron", VString "1m0s");
   ("zms-url", VString "")].

(** Three more, which the README does not list. *)
Definition undocumented : list (string * Value) :=
  [("use-ntoken", VBool false); ("exclude-namespaces", VString ""); ("exclude-msd-rules", VBool false)].

Definition parameters : list (string * Value) := (documented ++ undocumented)%list.

(** The parameters when [given] are given, the last of several for one. *)
Definition settings (given : list (string * Value)) : FlagSet :=
  assign given (list_to_map parameters).

(** Values for parameters, a text or a truth value as they need. *)
Definition for_parameters (given : list (string * Value)) : Prop :=
  Forall (fun nv => exists v, (nv.1, v) ∈ parameters /\ same_kind v nv.2) given.

(** klog's flags do not get in the way: their names are flag names, distinct,
    and none of them is the name of a parameter. *)
Definition klog_apart (klog_flags : list (string * bool)) : Prop :=
  NoDup klog_flags.*1 /\ Forall (fun nb => definable nb.1 /\ nb.1 ∉ parameters.*1) klog_flags.

Section settings.
Variables (klog_flags : list (string * bool)) (accepts : string -> string -> bool).
Hypothesis (apart : klog_apart klog_flags).

Lemma klog_not_parameter n : n ∈ klog_flags.*1 -> definable n /\ n ∉ parameters.*1.
Proof.
  destruct apart as [_ Ha]. rewrite Forall_forall in Ha.
  intros (nb & -> & Hin)%list_elem_of_fmap. by apply Ha.
Qed.

(** The names of the code are those of the parameters, and so are the
    defaults. *)
Lemma code_names : Forall (fun n => n ∈ parameters.*1) (flag_values default_flags).*1.
Proof. apply (bool_decide_eq_true_1 _). vm_compute. reflexivity. Qed.

Lemma code_defaults :
  Forall (fun n => n <> "logtostderr" /\ n <> "logtostdout" /\
    (assign (flag_values default_flags) ∅ : FlagSet) !! n = (list_to_map parameters : FlagSet) !! n)
    parameters.*1.
Proof. apply (bool_decide_eq_true_1 _). vm_compute. reflexivity. Qed.

Lemma klog_names : (map (fun nb => (nb.1, VOther nb.2 [])) klog_flags).*1 = klog_flags.*1.
Proof. clear apart. induction klog_flags as [|nb l IH]; csimpl; [done|by rewrite IH]. Qed.

(** The flags are defined, with these defaults. *)
Lemma main_flags_defined :
  exists f0, main_flags klog_flags accepts ∅ = mret f0 /\
    forall n, n ∈ parameters.*1 -> f0 !! n = (list_to_map parameters : FlagSet) !! n.
Proof.
  set (f1 := assign (flag_values default_flags) ∅ : FlagSet).
  set (kl := map (fun nb => (nb.1, VOther nb.2 [])) klog_flags).
  assert (Vars (flag_values default_flags) ∅ = Some f1) as H1.
  { apply Vars_defined; [apply flag_values_NoDup|]. eapply Forall_impl; [apply flag_values_ok|].
    intros nv [(_ & ? & ?) _]. split; [by split|apply lookup_empty]. }
  assert (Vars kl f1 = Some (assign kl f1)) as H2.
  { apply Vars_defined; [unfold kl; rewrite klog_names; apply apart|].
    apply Forall_forall. intros nv Hin.
    assert (nv.1 ∈ klog_flags.*1) as [? Hp]%klog_not_parameter.
    { rewrite <- klog_names. by apply list_elem_of_fmap_2. }
    split; [done|]. unfold f1. rewrite assign_other; [apply lookup_empty|].
    intros Hc. apply Hp. pose proof code_names as Hnames. rewrite Forall_forall in Hnames. by apply Hnames. }
  unfold main_flags, define. rewrite H1, mret_bind. fold kl. rewrite H2, mret_bind. cbv zeta.
  eexists. split; [reflexivity|]. intros n Hn. pose proof code_defaults as Hdef.
  rewrite Forall_forall in Hdef. destruct (Hdef n Hn) as (He & Ho & Hd).
  rewrite !FlagSet_Set_ne by done. rewrite assign_other; [exact Hd|].
  unfold kl. rewrite klog_names. intros Hin. exact (proj2 (klog_not_parameter n Hin) Hn).
Qed.

Lemma parameters_NoDup : NoDup parameters.*1.
Proof. apply (bool_decide_eq_true_1 _). vm_compute. reflexivity. Qed.

Lemma parameter_names_ok : Forall (fun nv => name_ok nv.1) parameters.
Proof. repeat (apply Forall_cons_2; [by split_and!|]). apply Forall_nil_2. Qed.

Lemma parameters_own : Forall (fun nv => match nv.2 with VOther _ _ => False | _ => True end) parameters.
Proof. repeat (apply Forall_cons_2; [exact I|]). apply Forall_nil_2. Qed.

(** The arguments are parsed, and the flags are then the settings. *)
Lemma parameters_parsed given :
  for_parameters given ->
  exists f0 f1, main_flags klog_flags accepts ∅ = mret f0 /\
    Parse accepts f0 (command_line given) = inl f1 /\ flags_of f1 = flags_of (settings given).
Proof.
  intros Hg. destruct main_flags_defined as (f0 & H0 & Hf0).
  exists f0, (assign given f0). split; [done|]. split.
  - apply Parse_command_line. eapply Forall_impl; [exact Hg|]. intros [n w] (v & Hin & Hk).
    cbn [fst snd] in *. pose proof parameter_names_ok as Hok. pose proof parameters_own as Hown.
    rewrite Forall_forall in Hok, Hown. specialize (Hok _ Hin). specialize (Hown _ Hin).
    split_and!; [done|by destruct v, w|]. exists v. split; [|done].
    rewrite Hf0 by (by apply (list_elem_of_fmap_2 fst _ (n, v))).
    apply elem_of_list_to_map; [exact parameters_NoDup|done].
  - apply flags_of_ext. apply Forall_forall. intros nv Hin. apply assign_same, Hf0.
    pose proof code_names as Hn. rewrite Forall_forall in Hn. by apply Hn, list_elem_of_fmap_2.
Qed.
(** *** The calls of a start *)

(** The ZMS client [z] is made from the settings: authenticated by tokens,
    or by a certificate. *)
Definition client_made (s : FlagSet) (z : ZMSClient) (t : list (ev MainE)) : Prop :=
  let text := str_flag s in
  if bool_flag s "use-ntoken" then
    exists period, ParseDuration (text "ntoken-expiry") = inl period /\
      t = [Ev (ZmsNewClient (text "zms-url") None) z;
           Ev (NewTokenProvider_ z (text "auth-header") (text "service-domain") (text "service-name")
                 (NewPrivateKeySource (text "identity-key") (text "secret-name")) period) None]
  else
    exists reloader read roots, roots_read (text "cacert") read roots /\
      t = (Ev (NewCertReloader_ (text "key") (text "cert")) (reloader, None) ::
           read ++ [Ev (ZmsNewClient (text "zms-url")
             (Some (mkTransport (mkTLSConfig reloader roots) (bool_flag s "disable-keep-alives")))) z])%list.

Lemma authenticate_made s t zp :
  exec (authenticate (flags_of s)) t (Done zp) -> exists z, zp = Some z /\ client_made s z t.
Proof.
  unfold authenticate, client_made. cbn [flags_of fl_useNToken fl_zmsURL fl_nTokenExpireTime fl_identityKeyDir
    fl_secretName fl_header fl_domainName fl_serviceName fl_key fl_cert fl_caCert fl_disableKeepAlives].
  destruct (bool_flag s "use-ntoken"); intros He.
  - exec_call He as z t1. unfold parse_or_panic in He.
    destruct (ParseDuration _) as [period|e]; [rewrite mret_bind in He|by exec_end He].
    cbv zeta in He. exec_call He as err t2. destruct err; [by destruct He|].
    destruct He as [-> [= ->]]. eauto.
  - exec_call He as [r err] t1. destruct err; [by destruct He|].
    apply exec_bind in He as [(t2 & t3 & [z' e'] & -> & Hc & He)|(w & Hc & [=])].
    apply createZMSClient_exec in Hc as [(read & roots & z & Hr & -> & [= -> ->])|(e & _ & _ & [= -> ->])];
      [|by destruct He].
    destruct He as [-> [= ->]]. rewrite app_nil_r. eauto 8.
Qed.

(** The controller is made from the settings, and the end of [main]. *)
Definition controller_made (s : FlagSet) (k8s : ptr KubeClient) (v : ptr Clientset.Clientset)
    (z : ZMSClient) (t : list (ev MainE)) : Prop :=
  let text := str_flag s in
  exists update resync delay,
    ParseDuration (text "update-cron") = inl update /\
    ParseDuration (text "resync-cron") = inl resync /\
    ParseDuration (text "queue-delay-interval") = inl delay /\
    t = [Ev (NewController_ k8s v (Some z) update resync delay
               (NewUtil (text "admin-domain") (system_list (text "system-namespaces"))
                  (exclusion_list (text "exclude-namespaces")) (bool_flag s "exclude-msd-rules"))
               (mkContactTimeCm (text "athenz-contact-time-cm-ns") (text "athenz-contact-time-cm-name")
                  (text "athenz-contact-time-cm-key"))) tt;
         Ev GoControllerRun tt; Ev (SignalNotify SIGTERM) tt; Ev (SignalNotify SIGINT) tt;
         Ev WaitSignal tt; Ev CloseStopCh tt].

Lemma main_controller_made s k8s v t :
  exec (main_controller (flags_of s) k8s v) t (Done tt) ->
  exists z t1 t2, t = (t1 ++ t2)%list /\ client_made s z t1 /\ controller_made s k8s v z t2.
Proof.
  unfold main_controller. intros He.
  apply exec_bind in He as [(t1 & t2 & zp & -> & Hz & He)|(w & _ & [=])].
  apply authenticate_made in Hz as (z & -> & Hz). exists z, t1, t2. split; [done|]. split; [done|].
  cbv zeta in He. unfold parse_or_panic in He. unfold controller_made. cbv zeta.
  change (fl_updateCron (flags_of s)) with (str_flag s "update-cron") in He.
  change (fl_resyncCron (flags_of s)) with (str_flag s "resync-cron") in He.
  change (fl_queueDelayInterval (flags_of s)) with (str_flag s "queue-delay-interval") in He.
  destruct (ParseDuration (str_flag s "update-cron")) as [up|e]; [rewrite mret_bind in He|by exec_end He].
  destruct (ParseDuration (str_flag s "resync-cron")) as [rp|e]; [rewrite mret_bind in He|by exec_end He].
  destruct (ParseDuration (str_flag s "queue-delay-interval")) as [di|e];
    [rewrite mret_bind in He|by exec_end He].
  exec_call He as [] t3. apply run_until_signal_exec in He as [-> _]. by exists up, rp, di.
Qed.

End settings.

(** ** Witness

    Two parameters are given; the rest of the start is that of
    [MainExample]. *)
Module SettingsExample.
Definition given : list (string * Value) :=
  [("zms-url", VString "https://zms"); ("system-namespaces", VString "kube-system")].
Lemma given_ok : for_parameters given.
Proof.
  repeat apply Forall_cons_2; [|..|apply Forall_nil_2]; exists (VString ""); (split; [|exact I]);
    apply (bool_decide_eq_true_1 _); vm_compute; reflexivity.
Qed.
Lemma klog_ok : klog_apart MainExample.klog_flags.
Proof.
  split; [apply (bool_decide_eq_true_1 _); vm_compute; reflexivity|].
  apply (bool_decide_eq_true_1 _). vm_compute. reflexivity.
Qed.
Lemma given_exec :
  exec (main MainExample.klog_flags MainExample.accepts (command_line given)) MainExample.run (Done tt).
Proof. apply (run_exec MainExample.answer _ tt _ tt). vm_compute. reflexivity. Qed.
End SettingsExample.

