(* ===== verification/Start.v ===== *)
(** * The start as a whole

    [main] (in [Main]) calls into the other packages: the logger, the
    clientset, the certificate reloader, the token provider and, through it,
    the private keys.  Here these calls are carried out by those packages'
    own code, so that an execution is one of the whole process up to the
    running controller. *)
From stdpp Require Import base list strings gmap.
From S2P Require Import Prelude Prog GoStrings GoDuration GoFlag Zms Util Effects Cron.
From S2P Require Import Crypto Identity Reloader Log Clientset Main.
#[local] Open Scope string_scope.
#[local] Open Scope list_scope.
#[local] Open Scope Z_scope.

Section start.
Context `{SortSlice} `{CryptoLib} {Certificate : Set}.
(** The calls of the whole: each package's, and what is left of [main]'s. *)
Inductive StartE : Set -> Type :=
| SLog (X : Set) (e : LogE X) : StartE X
| SConf (X : Set) (e : ConfE X) : StartE X
| SReload (X : Set) (e : @ReloadE Certificate X) : StartE X
| SId (X : Set) (e : IdE X) : StartE X
| SFs (X : Set) (e : FsE X) : StartE X
| SMain (X : Set) (e : MainE X) : StartE X.
Abbreviation sprog := (prog StartE).

(** [PrivateKeyProvider: privateKeySource.SigningKey] *)
Definition key_calls (keys : PrivateKeySource) (X : Set) (e : IdE X) : sprog X :=
  match e with
  | PrivateKeyProvider => lift SFs (SigningKey_ keys)
  | e => trigger (SId _ e)
  end.

Definition id_config (header domain service : string) (expiry : Z) : Identity.Config :=
  Identity.mkConfig header domain service expiry.

(** The error of a call with two results. *)
Definition err_of {A B} (p : sprog (A * B)) : sprog B := r ← p; mret r.2.

(** Each call of [main], carried out. *)
Definition component (X : Set) (e : MainE X) : sprog X :=
  match e with
  | InitLogger logLoc logMode => pbind (fun _ => PRet tt) (lift SLog (Log.InitLogger logLoc logMode))
  | AthenzNewForConfig config => lift SConf (Clientset.NewForConfig config)
  | NewTokenProvider_ _ header domain service keys expiry =>
      err_of (interp (key_calls keys) (NewTokenProvider (id_config header domain service expiry)))
  | NewCertReloader_ keyFile certFile =>
      lift SReload (NewCertReloader (mkReloadConfig certFile keyFile))
  | e => trigger (SMain _ e)
  end.

Variables (klog_flags : list (string * bool)) (accepts : string -> string -> bool).

Definition start (args : list string) : sprog unit := interp component (main klog_flags accepts args).

(** ** How a start that succeeds goes *)

Abbreviation log_evs := (map (lift_ev SLog)).
Abbreviation conf_evs := (map (lift_ev SConf)).
Abbreviation reload_evs := (map (lift_ev SReload)).
Abbreviation main_evs := (map (lift_ev SMain)).

(** The ZMS client [z] is made and authenticated. *)
Inductive authenticated (fl : Flags) (z : ZMSClient) : list (ev StartE) -> Prop :=
| authenticated_token url tp interval te ts period :
    fl_useNToken fl = true -> ParseDuration (fl_nTokenExpireTime fl) = inl period ->
    exec (NewTokenProvider (id_config (fl_header fl) (fl_domainName fl) (fl_serviceName fl) period))
      te (Done (Some (tp, interval), None)) ->
    Forall2 (carried (key_calls (NewPrivateKeySource (fl_identityKeyDir fl) (fl_secretName fl)))) te ts ->
    url = Ev (SMain _ (ZmsNewClient (fl_zmsURL fl) None)) z ->
    authenticated fl z (url :: concat ts)
| authenticated_cert r tr read roots url :
    fl_useNToken fl = false ->
    exec (NewCertReloader (mkReloadConfig (fl_cert fl) (fl_key fl))) tr (Done (Some r, None)) ->
    roots_read (fl_caCert fl) read roots ->
    url = Ev (ZmsNewClient (fl_zmsURL fl)
                (Some (mkTransport (mkTLSConfig (Some r) roots) (fl_disableKeepAlives fl)))) z ->
    authenticated fl z (reload_evs tr ++ main_evs (read ++ [url])).

(** The packages one after the other, each with what the ones before made. *)
Inductive start_order (fl : Flags) : list (ev StartE) -> Prop :=
| start_order_intro tl l tenv config k8s tc cs z ta up rp di :
    exec (Log.InitLogger (fl_logLoc fl) (fl_logMode fl)) tl (Done (Some l)) ->
    Forall reads_env tenv ->
    exec (Clientset.NewForConfig config) tc (Done (cs, None)) ->
    authenticated fl z ta ->
    ParseDuration (fl_updateCron fl) = inl up -> ParseDuration (fl_resyncCron fl) = inl rp ->
    ParseDuration (fl_queueDelayInterval fl) = inl di ->
    start_order fl
      (log_evs tl ++
       main_evs (tenv ++ [Ev (BuildConfigFromFlags "") (config, None);
                          Ev (KubernetesNewForConfig config) (k8s, None)]) ++
       conf_evs tc ++ ta ++
       main_evs [Ev (NewController_ k8s cs (Some z) up rp di (main_util fl)
                      (mkContactTimeCm (fl_athenzContactTimeCmNs fl) (fl_athenzContactTimeCmName fl)
                         (fl_athenzContactTimeCmKey fl))) tt;
                 Ev GoControllerRun tt; Ev (SignalNotify SIGTERM) tt; Ev (SignalNotify SIGINT) tt;
                 Ev WaitSignal tt; Ev CloseStopCh tt]).

(** A call that stays a call. *)
Definition plain (e : ev MainE) : Prop :=
  match e with
  | Ev (InitLogger _ _) _ | Ev (AthenzNewForConfig _) _ | Ev (NewTokenProvider_ _ _ _ _ _ _) _
  | Ev (NewCertReloader_ _ _) _ => False
  | _ => True
  end.

Lemma carried_plain te ts :
  Forall plain te -> Forall2 (carried component) te ts -> concat ts = main_evs te.
Proof.
  intros Hp Hts. induction Hts as [|e t1 te ts H1 _ IH]; [done|].
  apply Forall_cons in Hp as [He Hp]. simpl. rewrite (IH Hp).
  assert (t1 = [lift_ev SMain e]) as ->; [|done].
  destruct e as [X e x]. destruct e; try done; apply exec_trigger in H1 as (y & -> & [= ->]); done.
Qed.

Lemma carried_InitLogger a b x t :
  carried component (Ev (InitLogger a b) x) t ->
  exists tl l, exec (Log.InitLogger a b) tl (Done (Some l)) /\ t = log_evs tl.
Proof.
  intros [(t1 & t2 & p & -> & H1 & [-> _])|(w & _ & [=])]%exec_pbind.
  apply exec_lift in H1 as (tl & Hl & ->). rewrite app_nil_r.
  pose proof Hl as Hl'. unfold Log.InitLogger in Hl'.
  apply exec_bind in Hl' as [(t3 & t4 & l & _ & _ & [_ [= ->]])|(w & _ & [=])]. by exists tl, l.
Qed.

Lemma carried_err_of {A B} (p : sprog (A * B)) t x :
  exec (err_of p) t (Done x) -> exists a, exec p t (Done (a, x)).
Proof.
  intros [(t1 & t2 & [a b] & -> & H1 & [-> [= ->]])|(w & _ & [=])]%exec_bind.
  rewrite app_nil_r. by exists a.
Qed.

Lemma carried_AthenzNewForConfig config x t :
  carried component (Ev (AthenzNewForConfig config) x) t ->
  exists tc, exec (Clientset.NewForConfig config) tc (Done x) /\ t = conf_evs tc.
Proof. intros (tc & Hc & ->)%exec_lift. by exists tc. Qed.

Lemma carried_app te1 te2 ts :
  Forall2 (carried component) (te1 ++ te2) ts ->
  exists ts1 ts2, ts = ts1 ++ ts2 /\
    Forall2 (carried component) te1 ts1 /\ Forall2 (carried component) te2 ts2.
Proof. intros (ts1 & ts2 & H1 & H2 & ->)%Forall2_app_inv_l. eauto. Qed.

(** A provider or reloader without an error is there. *)
Lemma NewTokenProvider_some c t tp :
  exec (NewTokenProvider c) t (Done (tp, None)) -> exists p i, tp = Some (p, i).
Proof.
  unfold NewTokenProvider. cbv zeta. intros He.
  apply exec_bind in He as [(t1 & t2 & [tp1 [tok e]] & -> & _ & He)|(w & _ & [=])].
  destruct e; destruct He as [_ [=]]. eauto.
Qed.

Lemma NewCertReloader_some c t r :
  exec (NewCertReloader (Certificate := Certificate) c) t (Done (r, None)) -> exists w, r = Some w.
Proof.
  unfold NewCertReloader. cbv zeta. intros He. exec_call He as err t1.
  destruct err as [err|]; [by destruct He|].
  apply exec_bind in He as [(t2 & t3 & err & -> & _ & [-> Ho])|(w & _ & [=])].
  injection Ho as -> _. eauto.
Qed.

Lemma roots_read_plain ca read roots : roots_read ca read roots -> Forall plain read.
Proof. destruct 1; by repeat constructor. Qed.

Lemma authenticate_authenticated fl te zp ts :
  exec (authenticate fl) te (Done zp) -> Forall2 (carried component) te ts ->
  exists z, zp = Some z /\ authenticated fl z (concat ts).
Proof.
  unfold authenticate. intros He Hts. destruct (fl_useNToken fl) eqn:Hn.
  - exec_call He as z t1. inversion Hts as [|? c1 ? ts' Hz Hts']; subst. clear Hts.
    unfold parse_or_panic in He. destruct (ParseDuration (fl_nTokenExpireTime fl)) as [d|e] eqn:Hd;
      [|by destruct He]. rewrite mret_bind in He.
    exec_call He as err t2. destruct err as [err|]; [by destruct He|]. destruct He as [-> [= ->]].
    inversion Hts' as [|? c2 ? ts2 Hc Hts2]; subst. inversion Hts2; subst.
    apply carried_err_of in Hc as (tp & (te & ts & Hp & -> & Hk)%exec_interp).
    destruct (NewTokenProvider_some _ _ _ Hp) as (p & i & ->).
    apply exec_trigger in Hz as (z' & -> & [= <-]). exists z. split; [done|].
    simpl. rewrite app_nil_r. by eapply authenticated_token.
  - exec_call He as [rp err] t1. inversion Hts as [|? c1 ? ts' Hc Hts']; subst. clear Hts.
    destruct err as [err|]; [by destruct He|].
    apply exec_lift in Hc as (tr & Hr & ->).
    destruct (NewCertReloader_some _ _ _ Hr) as (w & ->).
    apply exec_bind in He as [(t2 & t3 & [z err] & -> & Hz & He)|(w' & _ & [=])].
    apply createZMSClient_exec in Hz as [(read & roots & z' & Hread & -> & [= -> ->])|(e & _ & _ & [= -> ->])];
      [|by destruct He].
    destruct He as [-> [= ->]]. rewrite app_nil_r in Hts'. exists z'. split; [done|].
    simpl. erewrite carried_plain; [by eapply authenticated_cert| |exact Hts'].
    apply Forall_app. split; [by eapply roots_read_plain|by repeat constructor].
Qed.

Lemma start_in_order args t :
  exec (start args) t (Done tt) ->
  exists f0 f1, main_flags klog_flags accepts ∅ = mret f0 /\ Parse accepts f0 args = inl f1 /\
    start_order (flags_of f1) t.
Proof.
  unfold start. intros He0. apply (proj1 (exec_interp component _ _ _)) in He0 as (te & ts & Hm & -> & Hts).
  apply main_exec in Hm. remember (Done tt) as o eqn:Ho.
  destruct Hm as [w|f0 f1 t' w H0' Hp Hs|f0 f1 t1 k8s v t2 o H0' Hp Hs Hc He]; [discriminate Ho..|]. subst o.
  exists f0, f1. split; [done|]. split; [done|]. destruct Hc as (tenv & config & Henv & ->).
  inversion Hts as [|? c1 ? ts1 Hl Hts1]; subst. clear Hts.
  apply carried_InitLogger in Hl as (tl & l & Hl & ->).
  apply carried_app in Hts1 as (ts2 & ts3 & -> & Hts2 & Hts3).
  change [?a; ?b; ?c] with ([a; b] ++ [c]) in Hts2.
  rewrite app_assoc in Hts2. apply carried_app in Hts2 as (ts4 & ts5 & -> & Hts4 & Hts5).
  inversion Hts5 as [|? c5 ? ts6 Hc5 Hts6]; subst. inversion Hts6; subst.
  apply carried_AthenzNewForConfig in Hc5 as (tc & Hc & ->).
  unfold main_controller in He.
  apply exec_bind in He as [(t5 & t6 & zp & -> & Ha & He)|(w & _ & [=])].
  apply carried_app in Hts3 as (ts7 & ts8 & -> & Hts7 & Hts8).
  apply (authenticate_authenticated _ _ _ _ Ha) in Hts7 as (z & -> & Hts7). cbv zeta in He. unfold parse_or_panic in He.
  destruct (ParseDuration (fl_updateCron (flags_of f1))) as [up|e] eqn:Hup; [|by destruct He].
  rewrite mret_bind in He.
  destruct (ParseDuration (fl_resyncCron (flags_of f1))) as [rp|e] eqn:Hrp; [|by destruct He].
  rewrite mret_bind in He.
  destruct (ParseDuration (fl_queueDelayInterval (flags_of f1))) as [di|e] eqn:Hdi; [|by destruct He].
  rewrite mret_bind in He.
  exec_call He as [] t9. apply run_until_signal_exec in He as [-> _].
  apply carried_plain in Hts4, Hts8; [|by repeat constructor|].
  2:{ apply Forall_app. split; [|by repeat constructor]. eapply Forall_impl; [exact Henv|].
      intros e Hr. destruct e as [X e x]. by destruct e. }
  rewrite concat_cons, !concat_app, Hts4, Hts8.
  simpl concat. rewrite app_nil_r, <- !app_assoc. eapply start_order_intro; eauto.
Qed.

(** ** What it achieves *)

(** The calls of one package in the whole. *)
Definition id_of (e : ev StartE) : option (ev IdE) :=
  match e with
  | Ev e x => match e in StartE X return X -> option (ev IdE) with
              | SId X e => fun x => Some (Ev e x)
              | _ => fun _ => None
              end x
  end.
Definition reload_of (e : ev StartE) : option (ev ReloadE) :=
  match e with
  | Ev e x => match e in StartE X return X -> option (ev ReloadE) with
              | SReload X e => fun x => Some (Ev e x)
              | _ => fun _ => None
              end x
  end.

Lemma omap_lift_none {E : Set -> Type} {B} (inj : forall X : Set, E X -> StartE X)
    (f : ev StartE -> option B) t :
  (forall e, f (lift_ev inj e) = None) -> omap f (map (lift_ev inj) t) = [].
Proof. intros Hf. induction t as [|e t IH]; [done|]. csimpl. by rewrite Hf. Qed.

Lemma omap_reload t : omap reload_of (reload_evs t) = t.
Proof. induction t as [|[X e x] t IH]; [done|]. csimpl. by rewrite IH. Qed.

(** The provider's own calls, but for those for its key. *)
Lemma carried_keys {B} (g : ev IdE -> option B) keys te ts :
  (forall x, g (Ev PrivateKeyProvider x) = None) ->
  Forall2 (carried (key_calls keys)) te ts -> omap g (omap id_of (concat ts)) = omap g te.
Proof.
  intros Hg Hts. induction Hts as [|e t1 te ts H1 _ IH]; [done|].
  simpl concat. rewrite !omap_app, IH. clear IH.
  assert (omap g (omap id_of t1) = option_list (g e)) as ->; [|csimpl; by destruct (g e)].
  destruct e as [X e x]. destruct e; try (apply exec_trigger in H1 as (y & -> & [= ->]); csimpl; by destruct (g _)).
  apply (proj1 (exec_lift SFs _ _ _)) in H1 as (tf & _ & ->).
  rewrite omap_lift_none by (by intros [Y e y]). by rewrite Hg.
Qed.

(** The reloader before anything was loaded. *)
Definition unloaded : Shared := mkShared (Certificate := Certificate) None "" "" zero_time false.

Lemma start_order_ids fl t :
  start_order fl t -> exists z ta, authenticated fl z ta /\ ta ⊆ t /\
    omap id_of t = omap id_of ta /\ omap reload_of t = omap reload_of ta.
Proof.
  destruct 1 as [tl l tenv config k8s tc cs z ta up rp di _ _ _ Ha _ _ _]. exists z, ta.
  split; [done|]. split; [intros e; rewrite !elem_of_app; auto|]. rewrite !omap_app.
  split; rewrite !omap_lift_none by (by intros [X e x]); by rewrite app_nil_r.
Qed.

(** A handshake presents the certificate the reloader holds. *)
Lemma GetClientCertificate_held r roots w f (s : Shared (Certificate := Certificate)) t o s' :
  exec (GetClientCertificate (mkTLSConfig (Some r) roots)) t o -> run_shared w f s t s' ->
  o = Done (cert s, None).
Proof.
  unfold GetClientCertificate, GetLatestCertificate. intros He Hr. cbn [GetClientCertificate_reloader] in He.
  exec_call He as c t1. destruct He as [-> ->]. destruct Hr as (s1 & [-> ->] & _). done.
Qed.

(** C38. The whole start, carried out by all packages.  When [main] ends
    without a panic, the logger, the clientset and then the authenticated
    ZMS client have been made, in this order, without error and with what
    the command line says, the controller was given these clients, and the
    stop channel was closed only after a signal.  With tokens, the ZMS client
    has got exactly one token, under the configured header, minted with the
    key [SigningKey] found.  With certificates, it trusts the roots of the
    host exactly if no CA file is given; and with files that did not change
    and are not older than the year 1, the reloader holds the key pair of the
    files and every handshake presents it. *)
Theorem controller_starts_authenticated args t :
  exec (start args) t (Done tt) ->
  exists f0 f1, main_flags klog_flags accepts ∅ = mret f0 /\ Parse accepts f0 args = inl f1 /\
    let fl := flags_of f1 in
    start_order fl t /\
    (fl_useNToken fl = true -> (forall now, now ∈ omap clock (omap id_of t) -> 0 <= now) ->
       exists tok, omap credential (omap id_of t) = [(fl_header fl, tok)]) /\
    (fl_useNToken fl = false -> exists tls z,
       Ev (SMain _ (ZmsNewClient (fl_zmsURL fl) (Some (mkTransport tls (fl_disableKeepAlives fl))))) z ∈ t /\
       (RootCAs tls = None <-> fl_caCert fl = "") /\
       let w := mkCertReloader (fl_cert fl) (fl_key fl) in
       forall f s', zero_time < f_modTime f -> run_shared w f unloaded (omap reload_of t) s' ->
       exists c, f_pair f = inl c /\ cert s' = Some c /\
         forall th o s'', exec (GetClientCertificate tls) th o -> run_shared w f s' th s'' ->
           o = Done (Some c, None)).
Proof.
  intros He. apply start_in_order in He as (f0 & f1 & Hf0 & Hf1 & Ho). exists f0, f1.
  split; [exact Hf0|]. split; [exact Hf1|]. cbv zeta. split; [exact Ho|].
  destruct (start_order_ids _ _ Ho) as (z & ta & Ha & Hsub & -> & ->).
  destruct Ha as [url tp interval te ts period Hn _ Hp Hk ->|r tr read roots url Hn Hr Hread ->].
  - split; [intros _|congruence]. cbn [omap list_omap id_of].
    rewrite !(carried_keys _ _ _ _ (fun _ => eq_refl) Hk). intros Hc.
    exists (current tp). by apply (NewTokenProvider_credential _ _ _ _ Hp).
  - split; [congruence|]. intros _. eexists _, z. split_and!.
    + apply Hsub, elem_of_app. right. rewrite map_app. apply elem_of_app. right. by left.
    + destruct Hread; simpl; by split.
    + intros f s' Hm. rewrite omap_app, omap_reload, omap_lift_none, app_nil_r by (by intros [X e x]).
      intros Hs. destruct (NewCertReloader_loads _ _ unloaded _ _ _ Hr Hm Hs) as (c & Hc & Hs').
      exists c. split_and!; [done..|]. intros th o s'' Hh Hrun.
      rewrite <- Hs'. by eapply (GetClientCertificate_held r roots).
Qed.
End start.

(** ** Witness: one start with a certificate and one with a token *)
Module StartExample.
#[local] Existing Instance CryptoExample.sorter.
#[local] Existing Instance CryptoExample.plain.

Definition pem : string := "RSA PRIVATE KEY" +:+ String (Ascii.ascii_of_nat 10) "secret".
Definition world (X : Set) (e : @StartE CryptoExample.plain string X) (s : unit) : X * unit :=
  match e in StartE X return X * unit with
  | SLog _ e => match e in LogE X return X * unit with
                | ParseLevel _ => ((InfoLevel, None), tt)
                | MkdirAll _ _ => (None, tt)
                | Std _ _ | LogrusCall _ _ _ => (tt, tt)
                | NewLoggingHandler h _ => (h, tt)
                end
  | SConf _ e => match e in ConfE X return X * unit with
                 | NewTokenBucketRateLimiter _ _ => (mkLimiter 1, tt)
                 | DefaultKubernetesUserAgent => ("syncer", tt)
                 | RESTClientFor _ => ((Some (mkRestClient 1), None), tt)
                 | NewDiscoveryClientForConfig _ => ((Some (mkDiscoveryClient 1), None), tt)
                 | NewDiscoveryClient _ => (mkDiscoveryClient 1, tt)
                 end
  | SReload _ e => match e in ReloadE X return X * unit with
                   | Stat _ => (inl 1, tt)
                   | LoadX509KeyPair _ _ => (inl "pair", tt)
                   | Reloader.ReadFile f => (inl f, tt)
                   | RLock_cert => (None, tt)
                   | RLock_PEMs => (("", ""), tt)
                   | RLock_mtime => (Reloader.zero_time, tt)
                   | SetToIf _ _ => (true, tt)
                   | WatcherRun _ => (None, tt)
                   | Sleep _ | Lock_store _ _ _ _ => (tt, tt)
                   end
  | SId _ e => match e in IdE X return X * unit with
               | PrivateKeyProvider => ((None, None), tt)
               | NewTokenBuilder _ _ _ _ => (None, tt)
               | TokenValue _ => (("token", None), tt)
               | Now => (1700000000 * second, tt)
               | AddCredentials _ _ => (tt, tt)
               end
  | SFs _ e => match e in FsE X return X * unit with
               | ReadDir _ => ((["k8s-athenz-syncer.v2"; "k8s-athenz-syncer.v10"], None), tt)
               | Crypto.ReadFile _ => ((pem, None), tt)
               end
  | SMain _ e => MainExample.answer _ e s
  end.

Definition program (args : list string) : prog (@StartE CryptoExample.plain string) unit :=
  start MainExample.klog_flags MainExample.accepts args.
Definition trace (args : list string) : list (ev (@StartE CryptoExample.plain string)) :=
  (run world (program args) tt).2.
Definition token_args : list string := ["-use-ntoken"; "-auth-header=Athenz-Principal-Auth"].

(** The flags an accepted command line gives. *)
Definition flags_given (args : list string) : option Flags :=
  match main_flags MainExample.klog_flags MainExample.accepts ∅ with
  | PRet f0 => match Parse MainExample.accepts f0 args with
               | inl f1 => Some (flags_of f1)
               | inr _ => None
               end
  | _ => None
  end.
Lemma flags_given_eq args f0 f1 fl :
  main_flags MainExample.klog_flags MainExample.accepts ∅ = mret f0 ->
  Parse MainExample.accepts f0 args = inl f1 -> flags_given args = Some fl -> flags_of f1 = fl.
Proof.
  unfold flags_given. intros -> Hp. unfold mret, prog_ret. rewrite Hp. intros Hs. by apply (inj Some) in Hs.
Qed.

Definition flags_for (args : list string) : Flags := default default_flags (flags_given args).
Lemma cert_flags :
  flags_given MainExample.args = Some (flags_for MainExample.args) /\
  fl_useNToken (flags_for MainExample.args) = false.
Proof. split; vm_compute; reflexivity. Qed.
Lemma token_flags :
  flags_given token_args = Some (flags_for token_args) /\
  fl_useNToken (flags_for token_args) = true /\
  fl_header (flags_for token_args) = "Athenz-Principal-Auth".
Proof. split; [|split]; vm_compute; reflexivity. Qed.

Definition files : @Files string := mkFiles 1 (inl "pair") (fun n => n).
Definition loaded : @Shared string :=
  mkShared (Some "pair") "/var/run/athenz/service.cert.pem" "/var/run/athenz/service.key.pem" 1 false.

Lemma cert_exec : exec (program MainExample.args) (trace MainExample.args) (Done tt).
Proof. apply (run_exec world _ tt _ tt). vm_compute. reflexivity. Qed.
Lemma token_exec : exec (program token_args) (trace token_args) (Done tt).
Proof. apply (run_exec world _ tt _ tt). vm_compute. reflexivity. Qed.
Lemma cert_loads :
  run_shared
    (mkCertReloader (fl_cert (flags_for MainExample.args)) (fl_key (flags_for MainExample.args)))
    files unloaded (omap reload_of (trace MainExample.args)) loaded.
Proof.
  replace (fl_cert (flags_for MainExample.args)) with "/var/run/athenz/service.cert.pem"
    by (vm_compute; reflexivity).
  replace (fl_key (flags_for MainExample.args)) with "/var/run/athenz/service.key.pem"
    by (vm_compute; reflexivity).
  replace (omap reload_of (trace MainExample.args)) with
    [Ev (WatcherRun ["/var/run/athenz/service.cert.pem"; "/var/run/athenz/service.key.pem"]) None;
     Ev (Stat "/var/run/athenz/service.cert.pem") (inl 1); Ev RLock_mtime Reloader.zero_time;
     Ev (LoadX509KeyPair "/var/run/athenz/service.cert.pem" "/var/run/athenz/service.key.pem") (inl "pair");
     Ev (Reloader.ReadFile "/var/run/athenz/service.cert.pem") (inl "/var/run/athenz/service.cert.pem");
     Ev (Reloader.ReadFile "/var/run/athenz/service.key.pem") (inl "/var/run/athenz/service.key.pem");
     Ev (Lock_store (Some "pair") "/var/run/athenz/service.cert.pem" "/var/run/athenz/service.key.pem" 1) tt]
    by (vm_compute; reflexivity).
  simpl. repeat (eexists; split; [first [reflexivity | split; [reflexivity|auto]]|]). reflexivity.
Qed.
Lemma token_clock now : now ∈ omap clock (omap id_of (trace token_args)) -> 0 <= now.
Proof.
  replace (omap clock (omap id_of (trace token_args))) with [1700000000 * second; 1700000000 * second]
    by (vm_compute; reflexivity).
  intros Hin. assert (now = 1700000000 * second) as ->; [|done].
  do 2 (apply elem_of_cons in Hin as [->|Hin]; [done|]). by apply not_elem_of_nil in Hin.
Qed.
End StartExample.

Example controller_starts_authenticated_witness :
  cert StartExample.loaded = Some "pair" /\
  exists tok, omap credential (omap id_of (StartExample.trace StartExample.token_args)) =
    [("Athenz-Principal-Auth", tok)].
Proof.
  split.
  - destruct (@controller_starts_authenticated CryptoExample.sorter CryptoExample.plain string
      _ _ _ _ StartExample.cert_exec) as (f0 & f1 & Hf0 & Hf1 & _ & _ & Hc).
    destruct StartExample.cert_flags as [Hfl Hn].
    rewrite (StartExample.flags_given_eq _ _ _ _ Hf0 Hf1 Hfl) in Hc.
    destruct (Hc Hn) as (tls & z & _ & _ & Hl).
    destruct (Hl StartExample.files StartExample.loaded eq_refl StartExample.cert_loads)
      as (c & [= <-] & Hs & _). exact Hs.
  - destruct (@controller_starts_authenticated CryptoExample.sorter CryptoExample.plain string
      _ _ _ _ StartExample.token_exec) as (f0 & f1 & Hf0 & Hf1 & _ & Ht & _).
    destruct StartExample.token_flags as (Hfl & Hn & Hh).
    rewrite (StartExample.flags_given_eq _ _ _ _ Hf0 Hf1 Hfl), Hh in Ht.
    destruct (Ht Hn StartExample.token_clock) as [tok Htok]. exists tok. exact Htok.
Defined.
